(* ===== verification/_CoqProject ===== *)
-Q . S2P
Prelude.v
BipBuffer.v
Itoa.v
Memory.v
Assoc.v
AssocSpec.v
AssocGrow.v
AssocIter.v
Double.v
Slabs.v
Dll.v
SlabsSpec.v
SlabPages.v
SlabAlloc.v
SlabProps.v
Items.v
LruSpec.v
Parts.v
CacheSpec.v
CacheAlloc.v
CacheProps.v
Base64.v
Jenkins.v
Murmur3.v
Util.v
Store.v
SlabMove.v
CacheMove.v
StoreSpec.v
StoreProps.v
SlabMoveSpec.v
StoreJoin.v
DeltaProps.v
Tokens.v
Resp.v
Strtod.v
AuthFile.v
StatsPrefix.v
Conn.v
Transmit.v
TransmitProps.v
FetchProps.v
Text.v
Meta.v
Commands.v
GetProps.v
ProtoBin.v
Machine.v
ServeProps.v
Tame.v
MachineProps.v
Sessions.v
