(* ===== verification/Prelude.v ===== *)
(** * Memcached as shipped with Datamime: a verification library

    The repository generates data sets for datacenter workloads; the largest of
    them, and the only one written in C, is memcached 1.6.12 under
    src/apps/memcached/memcached-1.6.12 (the C++ and Python parts are a profiler, a
    search over a vendored optimiser, and other workloads; they are not modelled).
    This library models memcached's core as executable definitions and proves
    what makes it correct.  File names below are relative to that directory.  The
    build modelled is Linux on a little-endian 64-bit machine with EXTSTORE and
    without TLS, SASL and MEMCACHED_DEBUG.

    ** How the program is modelled

    A C integer is a [Z] in the range of its type, with the wrap-around written
    out ([u32], [s32], ...); a buffer is a list of byte values; a double is the
    Standard Library's [spec_float].  Stateful code is in the monad [M S A],
    state passing with undefinedness: [None] is what C leaves undefined, a failed
    assertion, or fuel that ran out.  Theorems about results say that the result
    is [Some], so they also say that none of these happens.

    Three states nest.  [mc] (Memory.v) is what threads share: the item heap, the
    hash table, the LRU queues, the slab classes, statistics and settings.
    [worker] (Resp.v) belongs to a thread: response objects and read buffers.
    [server] (Conn.v) is one connection on its worker over the shared state, with
    what the network has for it and what was sent.  Memory is a finite map from
    addresses to items; the hash chains, the queues and the free lists thread the
    same items, as in the code.

    A lock is modelled by atomicity: an operation that holds the item lock is one
    step.  Where the code only tries a lock, whether it gets it is an argument
    ([alloc_env], the [locked] functions), so every outcome is covered.

    ** The parts, bottom up

    - Bip buffer: BipBuffer.v (bipbuffer.c).  FIFO against a byte queue.
    - Numbers: Itoa.v (itoa_ljust.c), Util.v (util.c), Double.v and Strtod.v
      ([safe_strtod] over the C library's [strtod]).
    - Encodings: Base64.v (base64.c).  Hashes: Jenkins.v (jenkins_hash.c),
      Murmur3.v (murmur3_hash.c, hash.c).
    - Hash table: Assoc.v (assoc.c); AssocSpec.v, AssocGrow.v and AssocIter.v show
      that it refines a finite map, also while it grows.
    - Slab allocator: Slabs.v (slabs.c); Dll.v, SlabsSpec.v, SlabPages.v,
      SlabAlloc.v and SlabProps.v show that chunks in use never overlap.
    - Items and LRU: Items.v (items.c); LruSpec.v, Parts.v and CacheSpec.v give the
      invariant [cache_inv] that ties table, queues and allocator together;
      CacheAlloc.v, CacheMove.v and CacheProps.v show that the operations keep it.
    - Store commands: Store.v (memcached.c, thread.c), the contract in StoreSpec.v,
      the refinement in StoreProps.v and StoreJoin.v, incr and decr in DeltaProps.v.
    - Connections: Tokens.v (the tokenizer of proto_text.c), Resp.v (response
      objects of memcached.c), StatsPrefix.v (stats_prefix.c), AuthFile.v
      (authfile.c), Conn.v (struct conn and the answers), Transmit.v (sending).
    - Commands: Text.v and Meta.v (the handlers of proto_text.c), Commands.v (reading
      a line, picking a handler, the value behind a set, authentication), ProtoBin.v
      (the binary protocol, proto_bin.c).
    - The machine: Machine.v ([drive_machine]); Sessions.v evaluates whole sessions.

    The commands call the item API of Store.v on [mc] through [in_mc], answer
    through the response objects of Conn.v, and set the connection's state, which
    [machine_step] looks at in its next turn.

    ** What the theorems show

    - Whole system: [get_command_correct] (GetProps.v) follows a get or gets from the
      command line to the bytes queued for the socket and shows them equal to what
      an abstract cache answers.  [drive_machine_stops] (MachineProps.v, on the frame
      rules of Tame.v) shows that the machine of a stream connection terminates.
      [transmit_sends_in_order] (TransmitProps.v) shows that the bytes that leave are
      the queued ones in order, however the socket cuts the writes.
    - Refinement of the abstract cache: [do_store_item_refines], [do_store_item_joins],
      [do_add_delta_correct], [assoc_refines_map], [bip_fifo].
    - Invariants: the operations of items.c keep [cache_inv]; allocation and freeing
      keep chunks disjoint; response objects are owned by one user each.
    - Round trips and equivalences: base 64, printing and parsing, URI encoding, the
      three alignments of Jenkins' hash, reversibility of the mixing steps.
    - Bounds and errors: the overflow of [itoa], what the number parsers accept and
      refuse, dumps that fit their buffer.

    ** Fuel

    Loops over a chain, a queue or a free list get the size of the heap plus one
    as fuel, more than any chain without repetition; loops over input get its
    length plus one.  The theorems show the results are [Some], so the fuel is enough
    where they apply.  [drive_machine] takes its fuel as an argument;
    [drive_machine_stops] shows some is enough and that more changes nothing.

    ** Interfaces

    [HashFunction] stands for the global [hash]; [ExtStorage] for storage.c,
    and [Subsystems] for the statistics texts, the crawler and the log watchers.  [TameStorage] and [TameSubsystems] (Tame.v)
    state what the machine relies on: these do not bring input back or spoil a
    response.

    ** Not modelled

    Set-up, sockets and libevent (memcached.c's main, thread.c's dispatch): input and
    output.  The loops of background threads (crawler, LRU maintainer, slab mover),
    external storage, logging and warm restart: threads and files of their own,
    behind the interfaces above.  xxhash.h is vendored and replaced by
    [HashFunction].  Messages on stderr, probes and debug counters are left out. *)

From stdpp Require Export base tactics numbers list gmap strings.
From Stdlib Require Export ZArith Lia.

#[global] Open Scope Z_scope.

(** ** Machine integers

    C integers are kept as [Z] in their value range; every operation that can
    leave the range is followed by the conversion to the type of the result. *)

Definition u8 (z : Z) : Z := z mod 2 ^ 8.
Definition u16 (z : Z) : Z := z mod 2 ^ 16.
Definition u32 (z : Z) : Z := z mod 2 ^ 32.
Definition u64 (z : Z) : Z := z mod 2 ^ 64.
Definition s8 (z : Z) : Z := (z + 2 ^ 7) mod 2 ^ 8 - 2 ^ 7.
Definition s32 (z : Z) : Z := (z + 2 ^ 31) mod 2 ^ 32 - 2 ^ 31.
Definition s64 (z : Z) : Z := (z + 2 ^ 63) mod 2 ^ 64 - 2 ^ 63.

Lemma u8_range z : 0 <= u8 z < 256.
Proof. unfold u8. apply (Z.mod_pos_bound z (2 ^ 8)). lia. Qed.
Lemma u16_range z : 0 <= u16 z < 2 ^ 16.
Proof. unfold u16. apply Z.mod_pos_bound. lia. Qed.
Lemma u32_range z : 0 <= u32 z < 2 ^ 32.
Proof. unfold u32. apply Z.mod_pos_bound. lia. Qed.
Lemma u64_range z : 0 <= u64 z < 2 ^ 64.
Proof. unfold u64. apply Z.mod_pos_bound. lia. Qed.
Lemma s32_range z : - 2 ^ 31 <= s32 z < 2 ^ 31.
Proof. unfold s32. pose proof (Z.mod_pos_bound (z + 2 ^ 31) (2 ^ 32)). lia. Qed.

Lemma u8_id z : 0 <= z < 256 -> u8 z = z.
Proof. intros. unfold u8. by apply Z.mod_small. Qed.
Lemma u16_id z : 0 <= z < 2 ^ 16 -> u16 z = z.
Proof. apply Z.mod_small. Qed.
Lemma u32_id z : 0 <= z < 2 ^ 32 -> u32 z = z.
Proof. apply Z.mod_small. Qed.
Lemma u64_id z : 0 <= z < 2 ^ 64 -> u64 z = z.
Proof. apply Z.mod_small. Qed.
Lemma s32_id z : - 2 ^ 31 <= z < 2 ^ 31 -> s32 z = z.
Proof. intros. unfold s32. rewrite Z.mod_small; lia. Qed.
Lemma s64_id z : - 2 ^ 63 <= z < 2 ^ 63 -> s64 z = z.
Proof. intros. unfold s64. rewrite Z.mod_small; lia. Qed.

(** Reductions modulo a power of two only see the residue. *)
Lemma u32_sub_s32 a b : u32 (a - s32 b) = u32 (a - b).
Proof.
  unfold u32, s32. pose proof (Z.div_mod (b + 2 ^ 31) (2 ^ 32) ltac:(lia)).
  replace (a - _) with (a - b + (b + 2 ^ 31) / 2 ^ 32 * 2 ^ 32) by lia.
  apply Z.mod_add. lia.
Qed.

Lemma u64_add_l a b : u64 (u64 a + b) = u64 (a + b).
Proof. unfold u64. apply Zplus_mod_idemp_l. Qed.
Lemma u64_sub_l a b : u64 (u64 a - b) = u64 (a - b).
Proof. unfold u64. apply Zminus_mod_idemp_l. Qed.
Lemma u32_add_l a b : u32 (u32 a + b) = u32 (a + b).
Proof. unfold u32. apply Zplus_mod_idemp_l. Qed.
Lemma u32_sub_l a b : u32 (u32 a - b) = u32 (a - b).
Proof. unfold u32. apply Zminus_mod_idemp_l. Qed.

Create HintDb word.
Create Rewrite HintDb word.
#[export] Hint Rewrite u8_id u16_id u32_id u64_id s32_id s64_id using lia : word.
#[export] Hint Resolve u8_range u16_range u32_range u64_range s32_range : word.

(** [word] erases the conversions whose argument is provably in range. *)
Ltac word := autorewrite with word in *.

(** ** Byte lists indexed by [Z]

    A C buffer is a list of byte values; offsets are [Z]. *)

Definition zlen {A} (l : list A) : Z := Z.of_nat (length l).
Definition ztake {A} (n : Z) (l : list A) : list A := take (Z.to_nat n) l.
Definition zdrop {A} (n : Z) (l : list A) : list A := drop (Z.to_nat n) l.
(** The bytes [a], ..., [b - 1]. *)
Definition slice {A} (a b : Z) (l : list A) : list A := ztake (b - a) (zdrop a l).
Definition zget {A} (i : Z) (l : list A) : option A :=
  if decide (0 <= i) then l !! Z.to_nat i else None.
(** [memcpy (dst + off, src, zlen src)], undefined when it leaves [dst]. *)
Definition memcpy_at {A} (dst : list A) (off : Z) (src : list A) : option (list A) :=
  if decide (0 <= off /\ off + zlen src <= zlen dst)
  then Some (ztake off dst ++ src ++ zdrop (off + zlen src) dst)
  else None.

Definition is_byte (b : Z) : Prop := 0 <= b < 256.
Definition bytes (l : list Z) : Prop := Forall is_byte l.

Section zlists.
Context {A : Type}.
Implicit Types l k dst src : list A.

Lemma zlen_nonneg l : 0 <= zlen l.
Proof. unfold zlen. lia. Qed.
Lemma zlen_app l k : zlen (l ++ k) = zlen l + zlen k.
Proof. unfold zlen. rewrite length_app. lia. Qed.
Lemma zlen_cons (x : A) l : zlen (x :: l) = 1 + zlen l.
Proof. unfold zlen. simpl. lia. Qed.
Lemma zlen_nil : zlen (A:=A) [] = 0.
Proof. reflexivity. Qed.
Lemma zlen_slice a b l : 0 <= a <= b -> b <= zlen l -> zlen (slice a b l) = b - a.
Proof.
  unfold zlen, slice, ztake, zdrop. intros. rewrite length_take, length_drop. lia.
Qed.
Lemma slice_empty a l : slice a a l = [].
Proof. unfold slice, ztake. by rewrite Z.sub_diag. Qed.
Lemma slice_full l : slice 0 (zlen l) l = l.
Proof. unfold slice, ztake, zdrop, zlen. simpl. rewrite drop_0, take_ge; [done|lia]. Qed.
(** Splitting a slice at an inner point. *)
Lemma slice_split a b c l :
  0 <= a <= b -> b <= c -> c <= zlen l -> slice a c l = slice a b l ++ slice b c l.
Proof.
  unfold zlen, slice, ztake, zdrop. intros.
  replace (Z.to_nat (c - a)) with (Z.to_nat (b - a) + Z.to_nat (c - b))%nat by lia.
  rewrite <- (take_take_drop _ (Z.to_nat (b - a)) (Z.to_nat (c - b))), drop_drop.
  do 3 f_equal. lia.
Qed.
Lemma memcpy_at_length dst off src dst' :
  memcpy_at dst off src = Some dst' -> zlen dst' = zlen dst.
Proof.
  unfold memcpy_at, zlen, ztake, zdrop. case_decide; [|done]. intros [= <-].
  rewrite !length_app, length_take, length_drop. lia.
Qed.
Lemma memcpy_at_defined dst off src :
  0 <= off -> off + zlen src <= zlen dst ->
  memcpy_at dst off src = Some (ztake off dst ++ src ++ zdrop (off + zlen src) dst).
Proof. intros. unfold memcpy_at. rewrite decide_True; [done|lia]. Qed.
(** A write leaves the slices before and after it alone. *)
Lemma memcpy_at_slice_before dst off src dst' a b :
  memcpy_at dst off src = Some dst' -> 0 <= a <= b -> b <= off ->
  slice a b dst' = slice a b dst.
Proof.
  unfold memcpy_at, slice, zlen, ztake, zdrop. case_decide; [|done]. intros [= <-] ??.
  rewrite drop_app_le by (rewrite length_take; lia).
  rewrite take_app_le by (rewrite length_drop, length_take; lia).
  rewrite !take_drop_commute, take_take. do 2 f_equal. lia.
Qed.
Lemma memcpy_at_slice_after dst off src dst' a b :
  memcpy_at dst off src = Some dst' -> off + zlen src <= a -> a <= b ->
  slice a b dst' = slice a b dst.
Proof.
  unfold memcpy_at, slice, zlen, ztake, zdrop. case_decide; [|done]. intros [= <-] ??.
  f_equal. rewrite app_assoc, drop_app_ge by (rewrite length_app, length_take; lia).
  rewrite drop_drop. f_equal. rewrite length_app, length_take. lia.
Qed.
Lemma memcpy_at_slice_written dst off src dst' :
  memcpy_at dst off src = Some dst' -> slice off (off + zlen src) dst' = src.
Proof.
  unfold memcpy_at, slice, zlen, ztake, zdrop. case_decide; [|done]. intros [= <-].
  rewrite drop_app_length' by (rewrite length_take; lia).
  apply take_app_length'. lia.
Qed.
Lemma memcpy_at_ok dst off src :
  0 <= off -> off + zlen src <= zlen dst -> exists d, memcpy_at dst off src = Some d.
Proof. intros. rewrite memcpy_at_defined by done. eauto. Qed.
(** Appending right behind an existing slice extends it. *)
Lemma memcpy_at_extend dst off src d a :
  memcpy_at dst off src = Some d -> 0 <= a <= off ->
  slice a (off + zlen src) d = slice a off dst ++ src.
Proof.
  intros Hm Ha. assert (off + zlen src <= zlen dst).
  { unfold memcpy_at in Hm. case_decide; [lia|done]. }
  pose proof (zlen_nonneg src).
  rewrite (slice_split a off) by (rewrite ?(memcpy_at_length _ _ _ _ Hm); lia).
  by rewrite (memcpy_at_slice_before _ _ _ _ _ _ Hm), (memcpy_at_slice_written _ _ _ _ Hm).
Qed.
Lemma ztake_all l : ztake (zlen l) l = l.
Proof. unfold ztake, zlen. by rewrite Nat2Z.id, take_ge. Qed.
(** The first [n] bytes of a slice, and what is left. *)
Lemma slice_ztake a b n l :
  0 <= a -> 0 <= n <= b - a -> b <= zlen l -> ztake n (slice a b l) = slice a (a + n) l.
Proof.
  unfold slice, ztake. intros. rewrite take_take. f_equal. lia.
Qed.
Lemma slice_zdrop a b n l :
  0 <= a -> 0 <= n <= b - a -> zdrop n (slice a b l) = slice (a + n) b l.
Proof.
  unfold slice, ztake, zdrop. intros.
  replace (Z.to_nat (b - a)) with (Z.to_nat n + Z.to_nat (b - (a + n)))%nat by lia.
  rewrite <- take_drop_commute, drop_drop. do 2 f_equal. lia.
Qed.
Lemma ztake_app_l l k n : 0 <= n <= zlen l -> ztake n (l ++ k) = ztake n l.
Proof. unfold ztake, zlen. intros. rewrite take_app_le by lia. done. Qed.
Lemma zdrop_app_l l k n : 0 <= n <= zlen l -> zdrop n (l ++ k) = zdrop n l ++ k.
Proof. unfold zdrop, zlen. intros. rewrite drop_app_le by lia. done. Qed.
End zlists.

Create Rewrite HintDb zlist.
#[export] Hint Rewrite @zlen_app @zlen_cons @zlen_nil : zlist.
#[export] Hint Resolve zlen_nonneg : word.

(** ** String literals as byte lists *)

Definition byte_of_ascii (a : Ascii.ascii) : Z := Z.of_N (Ascii.N_of_ascii a).
Definition str (s : string) : list Z := byte_of_ascii <$> String.list_ascii_of_string s.

Lemma bytes_str s : bytes (str s).
Proof.
  unfold bytes, str, is_byte, byte_of_ascii. apply Forall_fmap, Forall_true. intros a. simpl.
  pose proof (Ascii.N_ascii_bounded a). lia.
Qed.

(** [u8] on the low byte, as a mask. *)
Lemma land_ones_mod z n : 0 <= n -> Z.land z (2 ^ n - 1) = z mod 2 ^ n.
Proof. intros. rewrite <- Z.land_ones by done. by rewrite Z.ones_equiv. Qed.

(** Disjoint bits: [a << n | b] is [a * 2^n + b]. *)
Lemma lor_add a b n : 0 <= n -> 0 <= b < 2 ^ n -> Z.lor (a * 2 ^ n) b = a * 2 ^ n + b.
Proof.
  intros Hn Hb. assert (forall i, n <= i -> Z.testbit b i = false) as Hh.
  { intros i Hi. rewrite <- (Z.mod_small b (2 ^ n)) by done. by apply Z.mod_pow2_bits_high. }
  assert (forall i, i < n -> Z.testbit (a * 2 ^ n) i = false) as Hl by (intros; by apply Z.mul_pow2_bits_low).
  rewrite Z.add_nocarry_lxor; apply Z.bits_inj'; intros i Hi;
    rewrite ?Z.land_spec, ?Z.lxor_spec, ?Z.lor_spec, ?Z.bits_0; destruct (Z.ltb_spec i n);
    rewrite ?Hl, ?Hh by done; by rewrite ?andb_false_r, ?xorb_false_r, ?orb_false_r, ?xorb_false_l.
Qed.
Lemma shiftl_mul a n : 0 <= n -> Z.shiftl a n = a * 2 ^ n.
Proof. apply Z.shiftl_mul_pow2. Qed.
Lemma shiftr_div a n : 0 <= n -> Z.shiftr a n = a / 2 ^ n.
Proof. apply Z.shiftr_div_pow2. Qed.

(** Bit operations stay in the range of their type. *)
Lemma bits_range a n : 0 <= n -> (0 <= a < 2 ^ n <-> 0 <= a /\ forall i, n <= i -> Z.testbit a i = false).
Proof.
  intros Hn. split.
  - intros Ha. split; [lia|]. intros i Hi. rewrite <- (Z.mod_small a (2 ^ n)) by done. by apply Z.mod_pow2_bits_high.
  - intros [Ha Hb]. assert (a = a mod 2 ^ n) as E; [|rewrite E; apply Z.mod_pos_bound; lia].
    apply Z.bits_inj'. intros i Hi. destruct (Z.ltb_spec i n).
    + by rewrite Z.mod_pow2_bits_low.
    + by rewrite Hb, Z.mod_pow2_bits_high by lia.
Qed.
Lemma lxor_range a b n : 0 <= n -> 0 <= a < 2 ^ n -> 0 <= b < 2 ^ n -> 0 <= Z.lxor a b < 2 ^ n.
Proof.
  intros Hn [Ha Ha']%(bits_range _ _ Hn) [Hb Hb']%(bits_range _ _ Hn). apply bits_range; [done|].
  split; [by apply Z.lxor_nonneg|]. intros i Hi. by rewrite Z.lxor_spec, Ha', Hb'.
Qed.
Lemma lor_range a b n : 0 <= n -> 0 <= a < 2 ^ n -> 0 <= b < 2 ^ n -> 0 <= Z.lor a b < 2 ^ n.
Proof.
  intros Hn [Ha Ha']%(bits_range _ _ Hn) [Hb Hb']%(bits_range _ _ Hn). apply bits_range; [done|].
  split; [by apply Z.lor_nonneg|]. intros i Hi. by rewrite Z.lor_spec, Ha', Hb'.
Qed.
Lemma shiftr_range a k n : 0 <= k -> 0 <= a < n -> 0 <= Z.shiftr a k < n.
Proof.
  intros Hk Ha. rewrite shiftr_div by done. split; [apply Z.div_pos; [lia|]; by apply Z.pow_pos_nonneg|].
  apply Z.le_lt_trans with a; [|lia]. apply Z.div_le_upper_bound; [by apply Z.pow_pos_nonneg|].
  pose proof (Z.pow_pos_nonneg 2 k ltac:(lia) Hk). nia.
Qed.

(** ** Record update

    [r <| f := v |>] replaces one field, [r <| f ::= g |>] maps it.  A record
    declares [Eta] (its constructor applied to its projections) and one [Upd]
    instance per field, built by [solve_upd]. *)

Class Eta (R : Type) := eta : R -> R.
Class Upd {R E : Type} (proj : R -> E) := upd : (E -> E) -> R -> R.
Arguments upd {R E} proj {Upd} f r : simpl never.

Ltac solve_upd :=
  match goal with
  | |- @Upd ?R ?E ?proj =>
      let f := fresh "f" in let r := fresh "r" in
      refine (fun (f : E -> E) (r : R) => _);
      let t := eval hnf in (@eta R _ r) in
      match t with context C [proj r] => let t' := context C [f (proj r)] in exact t' end
  end.

Declare Scope update_scope.
Delimit Scope update_scope with upd.
#[global] Open Scope update_scope.
#[warnings="-postfix-notation-not-level-1"]
Notation "r <| f := v |>" := (upd f (fun _ => v) r)
  (at level 12, left associativity, f constr at level 0, v constr at level 99) : update_scope.
#[warnings="-postfix-notation-not-level-1"]
Notation "r <| f ::= g |>" := (upd f g r)
  (at level 12, left associativity, f constr at level 0, g constr at level 99) : update_scope.

(** [upds] reduces every projection of an update, in the goal and hypotheses. *)
Ltac upds_goal :=
  repeat match goal with
  | |- context [?p (@upd ?R ?E ?q ?i ?f ?r)] =>
      first [ change (p (@upd R E q i f r)) with (p r)
            | change (p (@upd R E q i f r)) with (f (q r)); cbv beta ]
  end.
Ltac upds_in H :=
  repeat match type of H with
  | context [?p (@upd ?R ?E ?q ?i ?f ?r)] =>
      first [ change (p (@upd R E q i f r)) with (p r) in H
            | change (p (@upd R E q i f r)) with (f (q r)) in H; cbv beta in H ]
  end.
Ltac upds := upds_goal; repeat match goal with H : context [upd _ _ _] |- _ => progress upds_in H end.

(** ** The state-and-undefinedness monad

    [None] is undefined behaviour: a NULL or dangling dereference, an index
    outside an array, a failed [assert], a loop that outruns its fuel. *)

Definition M (S A : Type) : Type := S -> option (A * S).

#[export] Instance M_ret S : MRet (M S) := fun A a s => Some (a, s).
#[export] Instance M_bind S : MBind (M S) := fun A B f m s =>
  match m s with Some (a, s') => f a s' | None => None end.

Definition ub {S A} : M S A := fun _ => None.
Definition gets {S A} (f : S -> A) : M S A := fun s => Some (f s, s).
Definition modify {S} (f : S -> S) : M S unit := fun s => Some (tt, f s).
Definition lift {S A} (o : option A) : M S A := fun s =>
  match o with Some a => Some (a, s) | None => None end.
Definition massert {S} (b : bool) : M S unit := if b then mret tt else ub.
Definition when {S} (b : bool) (m : M S unit) : M S unit := if b then m else mret tt.

Section monad.
Context {S A B : Type}.
Implicit Types (m : M S A) (s : S).

Lemma run_bind m (f : A -> M S B) s :
  (m ≫= f) s = match m s with Some (a, s') => f a s' | None => None end.
Proof. reflexivity. Qed.
Lemma run_ret (a : A) s : (mret a : M S A) s = Some (a, s).
Proof. reflexivity. Qed.
Lemma run_gets (f : S -> A) s : gets f s = Some (f s, s).
Proof. reflexivity. Qed.
Lemma run_modify (f : S -> S) s : modify f s = Some (tt, f s).
Proof. reflexivity. Qed.
Lemma run_lift_Some (a : A) s : lift (Some a) s = Some (a, s).
Proof. reflexivity. Qed.
Lemma run_assert s b : b = true -> massert b s = Some (tt, s).
Proof. intros ->. reflexivity. Qed.
Lemma run_when_true (m : M S unit) s b : b = true -> when b m s = m s.
Proof. intros ->. reflexivity. Qed.
Lemma run_when_false (m : M S unit) s b : b = false -> when b m s = Some (tt, s).
Proof. intros ->. reflexivity. Qed.
Lemma run_massert_true s : massert true s = Some (tt, s).
Proof. reflexivity. Qed.
Lemma run_when_t (m : M S unit) s : when true m s = m s.
Proof. reflexivity. Qed.
Lemma run_when_f (m : M S unit) s : when false m s = Some (tt, s).
Proof. reflexivity. Qed.
End monad.

Create Rewrite HintDb run.
#[export] Hint Rewrite @run_bind @run_ret @run_gets @run_modify @run_lift_Some
  @run_massert_true @run_when_t @run_when_f : run.
Ltac run := repeat (autorewrite with run; cbv beta iota).
