(* ===== verification/BipBuffer.v ===== *)
(** * The bip buffer (bipbuffer.c)

    A circular byte buffer with at most two regions: region A at
    [a_start, a_end) and, once it pays off, region B at [0, b_end).  It queues
    the LRU bumps of items.c and the log entries of logger.c.  Pointers into
    [data] are offsets; a NULL result is [None].  A [memcpy] that would leave
    [data] makes the operation undefined ([None] of the outer option). *)

From S2P Require Import Prelude.

Record bipbuf := Bipbuf {
  bip_size : Z;      (* unsigned long *)
  a_start : Z;       (* unsigned int *)
  a_end : Z;         (* unsigned int *)
  b_end : Z;         (* unsigned int *)
  b_inuse : Z;       (* int *)
  bip_data : list Z
}.

Definition bipbuf_unused (me : bipbuf) : Z :=
  if b_inuse me =? 1
  then s32 (u32 (a_start me - b_end me))
  else s32 (u64 (bip_size me - a_end me)).

Definition bipbuf_used (me : bipbuf) : Z :=
  s32 (u32 (u32 (a_end me - a_start me) + b_end me)).

Definition bipbuf_init (me : bipbuf) (size : Z) : bipbuf :=
  Bipbuf size 0 0 0 0 (bip_data me).

(** [mem] is the memory [malloc] hands out: [None] when it fails, otherwise at
    least [size] bytes of unspecified content. *)
Definition bipbuf_new (size : Z) (mem : option (list Z)) : option bipbuf :=
  match mem with
  | None => None
  | Some d => Some (bipbuf_init (Bipbuf 0 0 0 0 0 d) size)
  end.

Definition bipbuf_is_empty (me : bipbuf) : bool := a_start me =? a_end me.

Definition check_for_switch_to_b (me : bipbuf) : bipbuf :=
  if u64 (bip_size me - a_end me) <? u32 (a_start me - b_end me)
  then Bipbuf (bip_size me) (a_start me) (a_end me) (b_end me) 1 (bip_data me)
  else me.

Definition bipbuf_request (me : bipbuf) (size : Z) : option Z :=
  if bipbuf_unused me <? size then None
  else if b_inuse me =? 1 then Some (b_end me) else Some (a_end me).

Definition bipbuf_push (me : bipbuf) (size : Z) : bipbuf * Z :=
  if bipbuf_unused me <? size then (me, 0)
  else
    let me :=
      if b_inuse me =? 1
      then Bipbuf (bip_size me) (a_start me) (a_end me) (u32 (b_end me + size))
             (b_inuse me) (bip_data me)
      else Bipbuf (bip_size me) (a_start me) (u32 (a_end me + size)) (b_end me)
             (b_inuse me) (bip_data me) in
    (check_for_switch_to_b me, size).

(** [memcpy(dst + off, src, size)] with a signed [size]: a negative one is a
    huge [size_t], outside every object. *)
Definition memcpy_n (dst : list Z) (off : Z) (src : list Z) (size : Z) : option (list Z) :=
  if decide (0 <= size <= zlen src) then memcpy_at dst off (ztake size src) else None.

Definition bipbuf_offer (me : bipbuf) (data : list Z) (size : Z) : option (bipbuf * Z) :=
  if bipbuf_unused me <? size then Some (me, 0)
  else if b_inuse me =? 1 then
    d ← memcpy_n (bip_data me) (b_end me) data size;
    Some (check_for_switch_to_b
            (Bipbuf (bip_size me) (a_start me) (a_end me) (u32 (b_end me + size))
               (b_inuse me) d), size)
  else
    d ← memcpy_n (bip_data me) (a_end me) data size;
    Some (check_for_switch_to_b
            (Bipbuf (bip_size me) (a_start me) (u32 (a_end me + size)) (b_end me)
               (b_inuse me) d), size).

Definition bipbuf_peek (me : bipbuf) (size : Z) : option Z :=
  if bip_size me <? u32 (a_start me + size) then None
  else if bipbuf_is_empty me then None
  else Some (a_start me).

(** The offset, and the length stored through [*size]. *)
Definition bipbuf_peek_all (me : bipbuf) : option (Z * Z) :=
  if bipbuf_is_empty me then None
  else Some (a_start me, u32 (a_end me - a_start me)).

Definition bipbuf_poll (me : bipbuf) (size : Z) : bipbuf * option Z :=
  if bipbuf_is_empty me then (me, None)
  else if bip_size me <? u32 (a_start me + size) then (me, None)
  else
    let pos := a_start me in
    let me := Bipbuf (bip_size me) (u32 (a_start me + size)) (a_end me) (b_end me)
                (b_inuse me) (bip_data me) in
    let me :=
      if a_start me =? a_end me then
        if b_inuse me =? 1
        then Bipbuf (bip_size me) 0 (b_end me) 0 0 (bip_data me)
        else Bipbuf (bip_size me) 0 0 (b_end me) (b_inuse me) (bip_data me)
      else me in
    (check_for_switch_to_b me, Some pos).

(** ** Specification: a byte queue *)

(** The queued bytes, oldest first: region A, then region B. *)
Definition contents (me : bipbuf) : list Z :=
  slice (a_start me) (a_end me) (bip_data me) ++ slice 0 (b_end me) (bip_data me).

(** Well-formedness.  Offsets fit an [int] because the interface passes sizes
    as [int]; an empty region A means the whole buffer is empty and rewound. *)
Record bip_inv (me : bipbuf) : Prop := {
  inv_size : bip_size me = zlen (bip_data me) /\ bip_size me < 2 ^ 31;
  inv_a : 0 <= a_start me <= a_end me /\ a_end me <= bip_size me;
  inv_b : (b_inuse me = 0 /\ b_end me = 0)
          \/ (b_inuse me = 1 /\ 0 <= b_end me <= a_start me);
  inv_empty : a_start me = a_end me -> a_start me = 0 /\ b_inuse me = 0
}.

Ltac destr_inv H :=
  destruct H as [[?Hsz ?Hmax] [?Ha ?Hae] ?Hb ?Hemp].

Lemma check_switch_contents me : contents (check_for_switch_to_b me) = contents me.
Proof. unfold check_for_switch_to_b. by case_match. Qed.

Lemma check_switch_inv me : bip_inv me -> bip_inv (check_for_switch_to_b me).
Proof.
  intros H. unfold check_for_switch_to_b. destruct (_ <? _) eqn:E; [|done].
  apply Z.ltb_lt in E. destr_inv H.
  assert (u64 (bip_size me - a_end me) = bip_size me - a_end me) as E1 by (apply u64_id; lia).
  assert (u32 (a_start me - b_end me) = a_start me - b_end me) as E2 by (apply u32_id; lia).
  split; simpl; lia.
Qed.

Lemma unused_inv me :
  bip_inv me ->
  bipbuf_unused me = if b_inuse me =? 1 then a_start me - b_end me else bip_size me - a_end me.
Proof.
  intros H. destr_inv H. unfold bipbuf_unused. destruct (b_inuse me =? 1) eqn:E.
  - rewrite u32_id, s32_id; lia.
  - rewrite u64_id, s32_id; lia.
Qed.

Lemma bip_used_contents me : bip_inv me -> bipbuf_used me = zlen (contents me).
Proof.
  intros H. destr_inv H. unfold bipbuf_used, contents.
  rewrite zlen_app, !zlen_slice by lia.
  rewrite (u32_id (a_end me - a_start me)) by lia.
  rewrite u32_id, s32_id; lia.
Qed.

Lemma bip_empty_contents me : bip_inv me -> bipbuf_is_empty me = true <-> contents me = [].
Proof.
  intros H. pose proof H as H0. destr_inv H. unfold bipbuf_is_empty, contents.
  rewrite Z.eqb_eq. split.
  - intros E. rewrite E, slice_empty. destruct Hb as [[_ ->]|?]; [apply slice_empty|lia].
  - intros E. apply (f_equal zlen) in E. revert E.
    rewrite zlen_app, (zlen_slice (a_start me)), (zlen_slice 0) by lia. unfold zlen; simpl. lia.
Qed.

Lemma bipbuf_init_ok me size :
  size = zlen (bip_data me) -> size < 2 ^ 31 ->
  bip_inv (bipbuf_init me size) /\ contents (bipbuf_init me size) = [].
Proof.
  intros. pose proof (zlen_nonneg (bip_data me)). split.
  - split; simpl; lia.
  - unfold contents. simpl. by rewrite slice_empty.
Qed.

(** Writing [data] at the offset [bipbuf_request] returns and then pushing is
    what [bipbuf_offer] does in one step. *)
Definition request_write_push (me : bipbuf) (data : list Z) : option (bipbuf * Z) :=
  match bipbuf_request me (zlen data) with
  | None => Some (me, 0)
  | Some off =>
      d ← memcpy_at (bip_data me) off data;
      Some (bipbuf_push (Bipbuf (bip_size me) (a_start me) (a_end me) (b_end me)
                           (b_inuse me) d) (zlen data))
  end.

Lemma memcpy_n_all dst off src : memcpy_n dst off src (zlen src) = memcpy_at dst off src.
Proof.
  unfold memcpy_n. rewrite decide_True by (pose proof (zlen_nonneg src); lia).
  by rewrite ztake_all.
Qed.

(** ** Operations against the queue *)

(** Region A grows when B is off; region B grows once it is on. *)
Lemma grow_a me d data :
  bip_inv me -> b_inuse me = 0 -> a_end me + zlen data <= bip_size me ->
  memcpy_at (bip_data me) (a_end me) data = Some d ->
  let me' := Bipbuf (bip_size me) (a_start me) (a_end me + zlen data) (b_end me) (b_inuse me) d in
  bip_inv (check_for_switch_to_b me')
  /\ contents (check_for_switch_to_b me') = contents me ++ data.
Proof.
  intros H Hu Hfit Hm. cbv zeta. destr_inv H. pose proof (zlen_nonneg data).
  rewrite check_switch_contents. split.
  - apply check_switch_inv. split; simpl; rewrite ?(memcpy_at_length _ _ _ _ Hm); lia.
  - unfold contents. simpl. replace (b_end me) with 0 by lia.
    rewrite !slice_empty, !app_nil_r. apply (memcpy_at_extend _ _ _ _ _ Hm). lia.
Qed.

Lemma grow_b me d data :
  bip_inv me -> b_inuse me = 1 -> b_end me + zlen data <= a_start me ->
  memcpy_at (bip_data me) (b_end me) data = Some d ->
  let me' := Bipbuf (bip_size me) (a_start me) (a_end me) (b_end me + zlen data) (b_inuse me) d in
  bip_inv (check_for_switch_to_b me')
  /\ contents (check_for_switch_to_b me') = contents me ++ data.
Proof.
  intros H Hu Hfit Hm. cbv zeta. destr_inv H. pose proof (zlen_nonneg data).
  rewrite check_switch_contents. split.
  - apply check_switch_inv. split; simpl; rewrite ?(memcpy_at_length _ _ _ _ Hm); lia.
  - unfold contents. simpl. rewrite (memcpy_at_slice_after _ _ _ _ _ _ Hm) by lia.
    rewrite <- app_assoc. f_equal. apply (memcpy_at_extend _ _ _ _ _ Hm). lia.
Qed.

Lemma offer_fits me data :
  bip_inv me -> zlen data <= bipbuf_unused me ->
  exists me', bipbuf_offer me data (zlen data) = Some (me', zlen data)
    /\ bip_inv me' /\ contents me' = contents me ++ data /\ bip_size me' = bip_size me.
Proof.
  intros H Hfit. pose proof (zlen_nonneg data) as Hlen. pose proof H as Hinv. destr_inv H.
  unfold bipbuf_offer. rewrite (proj2 (Z.ltb_ge _ _)), !memcpy_n_all by lia.
  rewrite (unused_inv me Hinv) in Hfit.
  destruct (b_inuse me =? 1) eqn:E.
  - apply Z.eqb_eq in E.
    destruct (memcpy_at_ok (bip_data me) (b_end me) data) as [d Hm]; [lia..|].
    rewrite Hm, u32_id by lia. simpl. eexists. split; [done|].
    destruct (grow_b me d data Hinv E ltac:(lia) Hm) as [??].
    split_and!; try done. unfold check_for_switch_to_b; by case_match.
  - apply Z.eqb_neq in E.
    destruct (memcpy_at_ok (bip_data me) (a_end me) data) as [d Hm]; [lia..|].
    rewrite Hm, u32_id by lia. simpl. eexists. split; [done|].
    destruct (grow_a me d data Hinv ltac:(lia) ltac:(lia) Hm) as [??].
    split_and!; try done. unfold check_for_switch_to_b; by case_match.
Qed.

Lemma offer_full me data :
  bipbuf_unused me < zlen data -> bipbuf_offer me data (zlen data) = Some (me, 0).
Proof. intros. unfold bipbuf_offer. by rewrite (proj2 (Z.ltb_lt _ _)). Qed.

(** What polling [n] bytes, no more than region A holds, does. *)
Lemma poll_ok me n :
  bip_inv me -> bipbuf_is_empty me = false -> 0 < n <= a_end me - a_start me ->
  exists me', bipbuf_poll me n = (me', Some (a_start me))
    /\ bip_inv me' /\ bip_data me' = bip_data me /\ bip_size me' = bip_size me
    /\ slice (a_start me) (a_start me + n) (bip_data me) = ztake n (contents me)
    /\ contents me' = zdrop n (contents me).
Proof.
  intros H He Hn. pose proof H as Hinv. destr_inv H. unfold bipbuf_poll. rewrite He.
  rewrite u32_id by lia. rewrite (proj2 (Z.ltb_ge _ _)) by lia. eexists. split; [done|].
  assert (0 <= n <= zlen (slice (a_start me) (a_end me) (bip_data me))) as Hn'
    by (rewrite zlen_slice; lia).
  assert (slice (a_start me) (a_start me + n) (bip_data me) = ztake n (contents me)) as Hout.
  { unfold contents. by rewrite ztake_app_l, slice_ztake by lia. }
  assert (zdrop n (contents me) =
    slice (a_start me + n) (a_end me) (bip_data me) ++ slice 0 (b_end me) (bip_data me)) as Hrest.
  { unfold contents. by rewrite zdrop_app_l, slice_zdrop by lia. }
  rewrite Hrest, check_switch_contents. simpl.
  destruct (a_start me + n =? a_end me) eqn:E.
  - apply Z.eqb_eq in E.
    assert (slice (a_start me + n) (a_end me) (bip_data me) = []) as -> by (rewrite E; apply slice_empty).
    destruct (b_inuse me =? 1) eqn:Eb.
    + split_and!; try done; try (unfold check_for_switch_to_b; by case_match).
      * apply check_switch_inv. split; simpl; lia.
      * unfold contents. simpl.
        by rewrite app_nil_r.
    + apply Z.eqb_neq in Eb. assert (b_end me = 0) as Eb0 by lia.
      split_and!; try done; try (unfold check_for_switch_to_b; by case_match).
      * apply check_switch_inv. split; simpl; lia.
  - apply Z.eqb_neq in E.
    split_and!; try done; try (unfold check_for_switch_to_b; by case_match).
    apply check_switch_inv. split; simpl; lia.
Qed.

(** One interaction of a client: the bytes accepted, the bytes handed out.
    Readers take at most what [bipbuf_peek_all] reports, as [lru_maintainer_bumps]
    (items.c) and the logger thread do. *)
Inductive bip_step : bipbuf -> list Z -> list Z -> bipbuf -> Prop :=
| step_offer me data me' r :
    bipbuf_offer me data (zlen data) = Some (me', r) ->
    bip_step me (if r =? 0 then [] else data) [] me'
| step_request_push me data me' r :
    request_write_push me data = Some (me', r) ->
    bip_step me (if r =? 0 then [] else data) [] me'
| step_poll me pos avail n me' :
    bipbuf_peek_all me = Some (pos, avail) -> 0 < n <= avail ->
    bipbuf_poll me n = (me', Some pos) ->
    bip_step me [] (slice pos (pos + n) (bip_data me)) me'.

Inductive bip_steps : bipbuf -> list Z -> list Z -> bipbuf -> Prop :=
| steps_refl me : bip_steps me [] [] me
| steps_cons me i o me1 is_ os me2 :
    bip_step me i o me1 -> bip_steps me1 is_ os me2 ->
    bip_steps me (i ++ is_) (o ++ os) me2.

Lemma request_push_offer me data :
  bip_inv me -> request_write_push me data = bipbuf_offer me data (zlen data).
Proof.
  intros H. unfold request_write_push, bipbuf_request, bipbuf_offer. rewrite !memcpy_n_all.
  destruct (bipbuf_unused me <? zlen data) eqn:E1; [done|].
  destruct (b_inuse me =? 1) eqn:E2.
  all: destruct (memcpy_at _ _ _) as [d|]; simpl; [|done].
  all: unfold bipbuf_push, bipbuf_unused in *; simpl in *; rewrite E2 in *; simpl in *.
  all: by rewrite E1.
Qed.

Lemma bip_step_preserves me i o me' :
  bip_step me i o me' -> bip_inv me ->
  bip_inv me' /\ bip_size me' = bip_size me /\ contents me ++ i = o ++ contents me'.
Proof.
  intros Hs H. assert (forall data r me'',
    bipbuf_offer me data (zlen data) = Some (me'', r) ->
    bip_inv me'' /\ bip_size me'' = bip_size me
    /\ contents me ++ (if r =? 0 then [] else data) = [] ++ contents me'') as Hoffer.
  { intros data r me'' Ho. destruct (decide (zlen data <= bipbuf_unused me)) as [Hf|Hf].
    - destruct (offer_fits me data H Hf) as (m & Hm & ? & Hc & ?).
      rewrite Hm in Ho. injection Ho as <- <-. split_and!; try done. simpl. rewrite Hc.
      destruct (zlen data =? 0) eqn:E; [|done]. apply Z.eqb_eq in E.
      destruct data; [done|unfold zlen in E; simpl in E; lia].
    - rewrite offer_full in Ho by lia. injection Ho as <- <-.
      split_and!; try done. simpl. by rewrite app_nil_r. }
  destruct Hs as [me data me' r Ho|me data me' r Ho|me pos avail n me' Hp Hn Ho].
  - eauto.
  - rewrite request_push_offer in Ho by done. eauto.
  - unfold bipbuf_peek_all in Hp. destruct (bipbuf_is_empty me) eqn:He; [done|].
    injection Hp as <- <-. pose proof H as Hinv. destr_inv H.
    rewrite u32_id in Hn by lia.
    destruct (poll_ok me n Hinv He Hn) as (m & Hm & ? & ? & ? & Hout & Hrest).
    rewrite Hm in Ho. injection Ho as <-. split_and!; try done.
    rewrite Hout, Hrest, app_nil_r. unfold ztake, zdrop. by rewrite take_drop.
Qed.

(** C24: handing the caller a pointer and pushing afterwards is the same
    operation as offering: for every well-formed buffer the three-step sequence
    request / write / push of items.c and [bipbuf_offer] give the same buffer
    and the same return value. *)
Theorem bip_request_push_is_offer me data :
  bip_inv me -> request_write_push me data = bipbuf_offer me data (zlen data).
Proof. apply request_push_offer. Qed.

(** C15: the bip buffer is a bounded FIFO queue of bytes: after any sequence of
    offers, request-and-push writes and bounded polls from [bipbuf_init], the
    bytes handed out followed by the bytes still queued are exactly the bytes
    accepted, in order; [bipbuf_used] counts the queued bytes, which never
    exceed the size, and the buffer is well-formed. *)
Theorem bip_fifo me0 size ins outs me :
  size = zlen (bip_data me0) -> size < 2 ^ 31 ->
  bip_steps (bipbuf_init me0 size) ins outs me ->
  ins = outs ++ contents me
  /\ bip_inv me /\ bipbuf_used me = zlen (contents me) /\ bipbuf_used me <= size.
Proof.
  intros Hsize Hmax Hsteps.
  destruct (bipbuf_init_ok me0 size Hsize Hmax) as [Hinv0 Hc0].
  assert (forall a i o b, bip_steps a i o b -> bip_inv a ->
    bip_inv b /\ bip_size b = bip_size a /\ contents a ++ i = o ++ contents b) as Hgen.
  { clear. induction 1 as [|a i o b is_ os c Hs _ IH]; intros Ha.
    - split_and!; try done. simpl. by rewrite app_nil_r.
    - destruct (bip_step_preserves _ _ _ _ Hs Ha) as (Hb & Hsz & Hc).
      destruct (IH Hb) as (? & Hsz' & Hc'). split_and!; [done|congruence|].
      by rewrite app_assoc, Hc, <- app_assoc, Hc', app_assoc. }
  destruct (Hgen _ _ _ _ Hsteps Hinv0) as (Hinv & Hsz & Hc).
  rewrite Hc0 in Hc. simpl in Hsz. split_and!; [done|done|by apply bip_used_contents|].
  rewrite bip_used_contents by done. destr_inv Hinv. unfold contents.
  rewrite zlen_app, !zlen_slice; lia.
Qed.

Lemma bip_fifo_witness :
  let me0 := bipbuf_init (Bipbuf 0 0 0 0 0 (replicate 8 0)) 8 in
  exists me, bip_steps me0 [1; 2; 3; 4; 5; 6; 7; 8; 9] [1; 2; 3; 4; 5] me
    /\ b_inuse me = 1
    /\ [1; 2; 3; 4; 5; 6; 7; 8; 9] = [1; 2; 3; 4; 5] ++ contents me.
Proof.
  set (m0 := bipbuf_init (Bipbuf 0 0 0 0 0 (replicate 8 0)) 8).
  set (m1 := Bipbuf 8 0 7 0 0 [1; 2; 3; 4; 5; 6; 7; 0]).
  set (m2 := Bipbuf 8 5 7 0 1 [1; 2; 3; 4; 5; 6; 7; 0]).
  set (m3 := Bipbuf 8 5 7 2 1 [8; 9; 3; 4; 5; 6; 7; 0]).
  assert (bip_steps m0 [1; 2; 3; 4; 5; 6; 7; 8; 9] [1; 2; 3; 4; 5] m3) as Hs.
  { apply (steps_cons _ [1; 2; 3; 4; 5; 6; 7] [] m1 [8; 9] [1; 2; 3; 4; 5]).
    { exact (step_offer m0 [1; 2; 3; 4; 5; 6; 7] m1 7 eq_refl). }
    apply (steps_cons _ [] [1; 2; 3; 4; 5] m2 [8; 9] []).
    { apply (step_poll m1 0 7 5 m2 eq_refl); [lia|reflexivity]. }
    apply (steps_cons _ [8; 9] [] m3 [] []); [|apply steps_refl].
    exact (step_offer m2 [8; 9] m3 2 eq_refl). }
  exists m3. split_and!; [exact Hs|reflexivity|].
  exact (proj1 (bip_fifo (Bipbuf 0 0 0 0 0 (replicate 8 0)) 8 _ _ _ eq_refl eq_refl Hs)).
Defined.

Lemma bip_request_push_is_offer_witness :
  let me := bipbuf_init (Bipbuf 0 0 0 0 0 (replicate 8 0)) 8 in
  request_write_push me [1; 2; 3] = bipbuf_offer me [1; 2; 3] 3.
Proof.
  apply (bip_request_push_is_offer (bipbuf_init (Bipbuf 0 0 0 0 0 (replicate 8 0)) 8) [1; 2; 3]).
  apply (bipbuf_init_ok (Bipbuf 0 0 0 0 0 (replicate 8 0)) 8); reflexivity.
Defined.

(** C25: [bipbuf_poll] tests the requested length against the end of the buffer
    only: on every non-empty well-formed buffer a poll of one byte more than
    region A holds, when it still fits before the end of [data], returns a
    pointer instead of NULL and leaves the buffer with [a_start > a_end]. *)
Theorem bip_poll_past_region_a me :
  bip_inv me -> bipbuf_is_empty me = false -> a_end me < bip_size me ->
  exists me', bipbuf_poll me (a_end me - a_start me + 1) = (me', Some (a_start me))
    /\ a_end me' < a_start me'.
Proof.
  intros H He Hlt. destr_inv H. unfold bipbuf_poll. rewrite He.
  rewrite u32_id, (proj2 (Z.ltb_ge _ _)) by lia. simpl.
  rewrite (proj2 (Z.eqb_neq _ _)) by lia. eexists. split; [done|].
  unfold check_for_switch_to_b. case_match; simpl; lia.
Qed.

Lemma bip_poll_past_region_a_witness :
  exists me me', bipbuf_offer (bipbuf_init (Bipbuf 0 0 0 0 0 (replicate 8 0)) 8) [7; 7] 2
      = Some (me, 2)
    /\ bipbuf_poll me 3 = (me', Some 0) /\ a_end me' < a_start me'.
Proof.
  eexists. assert (bip_inv (bipbuf_init (Bipbuf 0 0 0 0 0 (replicate 8 0)) 8)) as H0
    by (apply (bipbuf_init_ok (Bipbuf 0 0 0 0 0 (replicate 8 0)) 8); reflexivity).
  destruct (offer_fits _ [7; 7] H0 ltac:(vm_compute; discriminate)) as (me & Hm & Hinv & _).
  vm_compute in Hm. injection Hm as <-.
  destruct (bip_poll_past_region_a _ Hinv eq_refl eq_refl) as (me' & Hp & Hl).
  exists me'. split_and!; [reflexivity|exact Hp|exact Hl].
Defined.
