(* ===== verification/Itoa.v ===== *)
(** * Integer to decimal text (itoa_ljust.c)

    The C functions write at a cursor [p] and return the advanced cursor.  Here
    the cursor is the list of bytes written so far; [None] is a read outside
    the digit table. *)

From S2P Require Import Prelude.

Definition lut : list Z := str
  "00010203040506070809101112131415161718192021222324252627282930313233343536373839404142434445464748495051525354555657585960616263646566676869707172737475767778798081828384858687888990919293949596979899".

Definition out2 (d : Z) (p : list Z) : option (list Z) :=
  a ← zget (2 * d) lut; b ← zget (2 * d + 1) lut; Some (p ++ [a; b]).

Definition out1 (inp : Z) (p : list Z) : list Z := p ++ [inp].

(** Returns [(d, p, n)]. *)
Definition digits (u k d : Z) (p : list Z) (n : Z) : Z * list Z * Z :=
  if u <? u32 (k * 10)
  then let d := u / k in (d, out1 (48 + d) p, n - 1)
  else (d, p, n).

(** The switch falls through, so the statement under [case c] runs when the
    entry label [n] is one of the cases and is at least [c].  The products
    [d * 10^k] are products of two [int]s; [mul] is what the machine gives for one,
    [None] for an overflow that is undefined. *)
Definition itoa_with (mul : Z -> Z -> option Z) (u : Z) (p : list Z) (d n : Z) : option (list Z) :=
  let runs c := (c <=? n) && (1 <=? n) && (n <=? 10) in
  let minus u d k := m ← mul d k; Some (u32 (u - m)) in
  '(d, p) ← (if runs 10 then let d := u / 100000000 in p ← out2 d p; Some (d, p) else Some (d, p));
  u ← (if runs 9 then minus u d 100000000 else Some u);
  '(d, p) ← (if runs 8 then let d := u / 1000000 in p ← out2 d p; Some (d, p) else Some (d, p));
  u ← (if runs 7 then minus u d 1000000 else Some u);
  '(d, p) ← (if runs 6 then let d := u / 10000 in p ← out2 d p; Some (d, p) else Some (d, p));
  u ← (if runs 5 then minus u d 10000 else Some u);
  '(d, p) ← (if runs 4 then let d := u / 100 in p ← out2 d p; Some (d, p) else Some (d, p));
  u ← (if runs 3 then minus u d 100 else Some u);
  '(d, p) ← (if runs 2 then let d := u / 1 in p ← out2 d p; Some (d, p) else Some (d, p));
  Some p.

(** The product of two [int]s as C defines it, and as a machine that wraps computes it. *)
Definition int_mul (a b : Z) : option Z :=
  if (- 2 ^ 31 <=? a * b) && (a * b <? 2 ^ 31) then Some (a * b) else None.
Definition int_mul_wraps (a b : Z) : option Z := Some (s32 (a * b)).
Definition itoa : Z -> list Z -> Z -> Z -> option (list Z) := itoa_with int_mul_wraps.

(** The NUL that [itoa] stores at the cursor is [terminated]. *)
Definition terminated (p : list Z) : list Z := p ++ [0].

Definition itoa_u32_with (mul : Z -> Z -> option Z) (u : Z) (p : list Z) : option (list Z) :=
  let '(d, p, n) :=
    if 100000000 <=? u then digits u 100000000 0 p 10
    else if u <? 100 then digits u 1 0 p 2
    else if u <? 10000 then digits u 100 0 p 4
    else if u <? 1000000 then digits u 10000 0 p 6
    else digits u 1000000 0 p 8 in
  itoa_with mul u p d n.
Definition itoa_u32 : Z -> list Z -> option (list Z) := itoa_u32_with int_mul_wraps.

Definition itoa_32 (i : Z) (p : list Z) : option (list Z) :=
  let u := u32 i in
  if i <? 0 then itoa_u32 (u32 (- u)) (p ++ [45]) else itoa_u32 u p.

(** The recursion divides by 10^9; [fuel] bounds its depth. *)
Fixpoint itoa_u64_fuel (fuel : nat) (u : Z) (p : list Z) : option (list Z) :=
  let lower := u32 u in
  if lower =? u then itoa_u32 lower p
  else match fuel with
       | O => None
       | S fuel =>
           let upper := u / 1000000000 in
           p ← itoa_u64_fuel fuel upper p;
           let lower := u32 (u - u64 (upper * 1000000000)) in
           let d := lower / 100000000 in
           itoa lower (out1 (48 + d) p) d 9
       end.
Definition itoa_u64 (u : Z) (p : list Z) : option (list Z) := itoa_u64_fuel 2 u p.

Definition itoa_64 (i : Z) (p : list Z) : option (list Z) :=
  let u := u64 i in
  if i <? 0 then itoa_u64 (u64 (- u)) (p ++ [45]) else itoa_u64 u p.

(** ** Specification: canonical decimal numerals *)

Definition is_digit (c : Z) : Prop := 48 <= c <= 57.
Definition dec_value (l : list Z) : Z := fold_left (fun a c => 10 * a + (c - 48)) l 0.

(** [l] is the decimal numeral of [n]: digits only, no leading zero. *)
Definition numeral (n : Z) (l : list Z) : Prop :=
  Forall is_digit l /\ dec_value l = n /\ l <> [] /\ (head l = Some 48 -> l = [48]).
#[export] Instance numeral_dec n l : Decision (numeral n l).
Proof. unfold numeral, is_digit. apply _. Defined.

Lemma dec_fold_app l k a :
  fold_left (fun a c => 10 * a + (c - 48)) (l ++ k) a
  = fold_left (fun a c => 10 * a + (c - 48)) k (fold_left (fun a c => 10 * a + (c - 48)) l a).
Proof. apply fold_left_app. Qed.

Lemma dec_value_snoc l c : dec_value (l ++ [c]) = 10 * dec_value l + (c - 48).
Proof. unfold dec_value. by rewrite dec_fold_app. Qed.

(** The table holds the two digits of every number below 100. *)
Lemma out2_spec d p :
  0 <= d < 100 -> out2 d p = Some (p ++ [48 + d / 10; 48 + d mod 10]).
Proof.
  intros Hd. unfold out2.
  assert (forallb (fun k => match zget (2 * k) lut, zget (2 * k + 1) lut with
                            | Some a, Some b => (a =? 48 + k / 10) && (b =? 48 + k mod 10)
                            | _, _ => false end) (seqZ 0 100) = true) as Ht by reflexivity.
  rewrite forallb_forall in Ht. specialize (Ht d). rewrite <- list_elem_of_In, elem_of_seqZ in Ht.
  specialize (Ht ltac:(lia)). destruct (zget (2 * d) lut) as [a|]; [|done].
  destruct (zget (2 * d + 1) lut) as [b|]; [|done].
  apply andb_true_iff in Ht as [->%Z.eqb_eq ->%Z.eqb_eq]. done.
Qed.

Lemma out2_value d p :
  0 <= d < 100 -> dec_value (p ++ [48 + d / 10; 48 + d mod 10]) = 100 * dec_value p + d.
Proof.
  intros. change [48 + d / 10; 48 + d mod 10] with ([48 + d / 10] ++ [48 + d mod 10]).
  rewrite app_assoc, !dec_value_snoc. pose proof (Z.div_mod d 10). lia.
Qed.

(** [pairs k u] is the reference: [u] below [100 ^ k] as exactly [2 * k] digits,
    two at a time. *)
Fixpoint pairs (k : nat) (u : Z) (p : list Z) : list Z :=
  match k with
  | O => p
  | S k =>
      let d := u / 100 ^ Z.of_nat k in
      pairs k (u - d * 100 ^ Z.of_nat k) (p ++ [48 + d / 10; 48 + d mod 10])
  end.

Lemma pairs_spec k u p :
  0 <= u < 100 ^ Z.of_nat k ->
  exists ds, pairs k u p = p ++ ds /\ Forall is_digit ds
    /\ dec_value (p ++ ds) = 100 ^ Z.of_nat k * dec_value p + u.
Proof.
  revert u p. induction k as [|k IH]; intros u p Hu; cbn [pairs].
  - exists []. rewrite app_nil_r. simpl in Hu. change (100 ^ Z.of_nat 0) with 1.
    split_and!; [done|constructor|lia].
  - rewrite Nat2Z.inj_succ, Z.pow_succ_r in Hu |- * by lia.
    set (K := 100 ^ Z.of_nat k) in *. assert (0 < K) by (apply Z.pow_pos_nonneg; lia).
    pose proof (Z.div_mod u K ltac:(lia)) as Hdm. pose proof (Z.mod_pos_bound u K ltac:(lia)).
    assert (0 <= u / K < 100) as Hd by (split; [apply Z.div_pos|apply Z.div_lt_upper_bound]; lia).
    destruct (IH (u - u / K * K) (p ++ [48 + (u / K) / 10; 48 + (u / K) mod 10]))
      as (ds & -> & Hds & Hv); [lia|].
    exists ([48 + (u / K) / 10; 48 + (u / K) mod 10] ++ ds). rewrite app_assoc. split_and!; [done| |].
    + pose proof (Z.mod_pos_bound (u / K) 10). pose proof (Z.div_pos (u / K) 10).
      pose proof (Z.div_lt_upper_bound (u / K) 10 10).
      repeat constructor; unfold is_digit; lia || done.
    + rewrite Hv, out2_value by done. lia.
Qed.

Lemma peel_mod u K : 0 <= u < 2 ^ 32 -> 0 < K -> u32 (u - s32 (u / K * K)) = u - u / K * K.
Proof.
  intros. rewrite u32_sub_s32. pose proof (Z.div_mod u K ltac:(lia)).
  pose proof (Z.mod_pos_bound u K ltac:(lia)). apply u32_id. pose proof (Z.div_pos u K). nia.
Qed.

(** Evaluate the case labels and the powers of 100 of the reference. *)
Ltac eval_consts :=
  repeat match goal with
  | |- context [2 * Z.of_nat ?k + 1] =>
      let v := eval vm_compute in (2 * Z.of_nat k + 1) in change (2 * Z.of_nat k + 1) with v
  | |- context [2 * Z.of_nat ?k] =>
      let v := eval vm_compute in (2 * Z.of_nat k) in change (2 * Z.of_nat k) with v
  | |- context [100 ^ Z.of_nat ?k] =>
      let v := eval vm_compute in (100 ^ Z.of_nat k) in change (100 ^ Z.of_nat k) with v
  | H : context [100 ^ Z.of_nat ?k] |- _ =>
      let v := eval vm_compute in (100 ^ Z.of_nat k) in change (100 ^ Z.of_nat k) with v in H
  end.

(** One [case 2k] of the switch: two digits out, the rest below [K] kept. *)
Ltac peel :=
  match goal with
  | |- context [out2 (?u / ?K) ?p] =>
      rewrite (out2_spec (u / K) p) by
        (split; [apply Z.div_pos; lia|apply Z.div_lt_upper_bound; lia]);
      cbn [mbind option_bind];
      try rewrite !(peel_mod u K) by lia;
      let H := fresh in pose proof (Z.div_mod u K ltac:(lia)) as H;
      let H' := fresh in pose proof (Z.mod_pos_bound u K ltac:(lia)) as H';
      let v := fresh "u" in
      try (remember (u - u / K * K) as v; assert (0 <= v < K) by lia);
      clear H H'
  end.

Ltac run_itoa := cbn -[Z.div Z.mul Z.sub out2]; repeat (peel; cbn -[Z.div Z.mul Z.sub out2]).

Lemma itoa_even k u p d :
  (1 <= k <= 5)%nat -> 0 <= u < 100 ^ Z.of_nat k -> u < 2 ^ 32 ->
  itoa u p d (2 * Z.of_nat k) = Some (pairs k u p).
Proof.
  intros Hk Hu Hu32.
  assert (k = 1 \/ k = 2 \/ k = 3 \/ k = 4 \/ k = 5)%nat as Hcases by lia.
  destruct_or! Hcases; subst k; unfold itoa, itoa_with, int_mul_wraps; cbn [pairs]; eval_consts; by run_itoa.
Qed.

(** Entering at an odd label first drops the leading digit [d], already out. *)
Lemma itoa_odd k u p d :
  (k <= 4)%nat -> 0 <= u < 2 ^ 32 -> 0 <= u - d * 100 ^ Z.of_nat k < 100 ^ Z.of_nat k ->
  itoa u p d (2 * Z.of_nat k + 1) = Some (pairs k (u - d * 100 ^ Z.of_nat k) p).
Proof.
  intros Hk Hu Hr.
  assert (u32 (u - s32 (d * 100 ^ Z.of_nat k)) = u - d * 100 ^ Z.of_nat k) as Hsub.
  { rewrite u32_sub_s32. apply u32_id.
    assert (100 ^ Z.of_nat k <= 100 ^ 4) by (apply Z.pow_le_mono_r; lia). lia. }
  assert (k = 0 \/ k = 1 \/ k = 2 \/ k = 3 \/ k = 4)%nat as Hcases by lia.
  destruct_or! Hcases; subst k; unfold itoa, itoa_with, int_mul_wraps; cbn [pairs]; eval_consts;
    cbn -[Z.div Z.mul Z.sub out2]; try rewrite Hsub;
    try (set (w := u - d * _) in *; clearbody w).
  all: by run_itoa.
Qed.

(** ** The printers against the numerals *)

Lemma pairs_app k u p q : pairs k u (p ++ q) = p ++ pairs k u q.
Proof.
  revert u q. induction k as [|k IH]; intros u q; cbn [pairs]; [done|].
  by rewrite <- app_assoc, IH.
Qed.

Lemma pairs_nil k u p : pairs k u p = p ++ pairs k u [].
Proof. by rewrite <- pairs_app, app_nil_r. Qed.

(** An even number of digits, the first one not zero. *)
Lemma numeral_even k u p d :
  (k <= 4)%nat -> 10 * 100 ^ Z.of_nat k <= u < 100 ^ Z.of_nat (S k) -> u < 2 ^ 32 ->
  exists ds, itoa u p d (2 * Z.of_nat (S k)) = Some (p ++ ds) /\ numeral u ds.
Proof.
  intros Hk Hu Hu32. assert (0 < 100 ^ Z.of_nat k) by (apply Z.pow_pos_nonneg; lia).
  exists (pairs (S k) u []). rewrite <- pairs_nil, itoa_even by lia. split; [done|].
  destruct (pairs_spec (S k) u []) as (ds & E & Hd & Hv); [lia|]. rewrite E. simpl in Hv |- *.
  split_and!; [done|rewrite Hv; unfold dec_value; simpl; lia| |].
  - intros ->. unfold dec_value in Hv. simpl in Hv. lia.
  - cbn [pairs] in E. rewrite pairs_nil in E. simpl in E. subst ds. simpl. intros [= E].
    assert (10 <= u / 100 ^ Z.of_nat k) by (apply Z.div_le_lower_bound; lia).
    assert (1 <= u / 100 ^ Z.of_nat k / 10) by (apply Z.div_le_lower_bound; lia). lia.
Qed.

(** An odd number of digits: [digits] has put the first one out. *)
Lemma numeral_odd k u p :
  (k <= 4)%nat -> (k = O \/ 100 ^ Z.of_nat k <= u) -> 0 <= u < 10 * 100 ^ Z.of_nat k ->
  u < 2 ^ 32 ->
  exists ds, itoa u (out1 (48 + u / 100 ^ Z.of_nat k) p) (u / 100 ^ Z.of_nat k)
    (2 * Z.of_nat k + 1) = Some (p ++ ds) /\ numeral u ds.
Proof.
  intros Hk Hlo Hu Hu32. set (K := 100 ^ Z.of_nat k) in *.
  assert (0 < K) by (apply Z.pow_pos_nonneg; lia).
  pose proof (Z.div_mod u K ltac:(lia)). pose proof (Z.mod_pos_bound u K ltac:(lia)).
  assert (0 <= u / K < 10) by (split; [apply Z.div_pos|apply Z.div_lt_upper_bound]; lia).
  rewrite itoa_odd by (fold K; lia). fold K. unfold out1. rewrite pairs_nil, <- app_assoc.
  eexists. split; [done|].
  destruct (pairs_spec k (u - u / K * K) [48 + u / K]) as (ds & E & Hd & Hv); [fold K; lia|].
  rewrite pairs_nil in E. apply app_inv_head in E. rewrite E. split_and!; [|..|done|].
  - repeat constructor; [unfold is_digit; lia..|done].
  - rewrite Hv. unfold dec_value. simpl. fold K. lia.
  - simpl. intros [= E0]. destruct Hlo as [->|Hlo].
    + simpl in E. by subst ds; rewrite E0.
    + assert (1 <= u / K) by (apply Z.div_le_lower_bound; lia). lia.
Qed.

Lemma itoa_u32_digits u p :
  0 <= u < 2 ^ 32 -> exists ds, itoa_u32 u p = Some (p ++ ds) /\ numeral u ds.
Proof.
  intros Hu. unfold itoa_u32, itoa_u32_with, digits.
  repeat match goal with
  | |- context [u32 ?a] => let v := eval vm_compute in (u32 a) in change (u32 a) with v
  end.
  repeat match goal with
  | |- context [?a <=? ?b] => destruct (Z.leb_spec a b)
  | |- context [?a <? ?b] => destruct (Z.ltb_spec a b)
  end.
  - apply (numeral_odd 4); simpl; lia.
  - apply (numeral_even 4); simpl; lia.
  - apply (numeral_odd 0); simpl; lia.
  - apply (numeral_even 0); simpl; lia.
  - apply (numeral_odd 1); simpl; lia.
  - apply (numeral_even 1); simpl; lia.
  - apply (numeral_odd 2); simpl; lia.
  - apply (numeral_even 2); simpl; lia.
  - apply (numeral_odd 3); simpl; lia.
  - apply (numeral_even 3); simpl; lia.
Qed.

(** The last nine digits that [itoa_u64] prints. *)
Lemma itoa_nine lower p :
  0 <= lower < 1000000000 ->
  exists ds, itoa lower (out1 (48 + lower / 100000000) p) (lower / 100000000) 9 = Some (p ++ ds)
    /\ Forall is_digit ds
    /\ forall q, dec_value (q ++ ds) = 1000000000 * dec_value q + lower.
Proof.
  intros Hl. pose proof (Z.div_mod lower 100000000 ltac:(lia)).
  pose proof (Z.mod_pos_bound lower 100000000 ltac:(lia)).
  pose proof (itoa_odd 4 lower (out1 (48 + lower / 100000000) p) (lower / 100000000)) as Ho.
  change (2 * Z.of_nat 4 + 1) with 9 in Ho. change (100 ^ Z.of_nat 4) with 100000000 in Ho.
  rewrite Ho by lia. clear Ho. unfold out1. rewrite pairs_nil, <- app_assoc.
  eexists. split; [done|]. split.
  - constructor; [unfold is_digit; lia|].
    destruct (pairs_spec 4 (lower - lower / 100000000 * 100000000) []) as (ds & E & Hd & _);
      [simpl; lia|]. by rewrite E.
  - intros q.
    destruct (pairs_spec 4 (lower - lower / 100000000 * 100000000) (q ++ [48 + lower / 100000000]))
      as (ds & E & _ & Hv); [simpl; lia|].
    rewrite pairs_nil in E. apply app_inv_head in E. rewrite E, app_assoc, Hv, dec_value_snoc.
    simpl. lia.
Qed.

Lemma numeral_app_head u ds ds' :
  numeral u ds -> u <> 0 -> head (ds ++ ds') = head ds /\ head ds <> Some 48.
Proof.
  intros (Hd & Hv & Hne & Hz) Hu. destruct ds as [|c ds]; [done|]. split; [done|].
  intros E. specialize (Hz E). by simplify_eq/=.
Qed.

Lemma itoa_u64_fuel_digits fuel u p :
  0 <= u < 2 ^ 32 * 1000000000 ^ Z.of_nat fuel -> u < 2 ^ 64 ->
  exists ds, itoa_u64_fuel fuel u p = Some (p ++ ds) /\ numeral u ds.
Proof.
  revert u p. induction fuel as [|fuel IH]; intros u p Hu Hu64; cbn [itoa_u64_fuel].
  - simpl in Hu. rewrite u32_id by lia. rewrite Z.eqb_refl. by apply itoa_u32_digits; lia.
  - destruct (Z.eqb_spec (u32 u) u) as [E|E].
    { rewrite E. apply itoa_u32_digits. pose proof (u32_range u). lia. }
    assert (2 ^ 32 <= u) by (destruct (decide (u < 2 ^ 32)); [rewrite u32_id in E|]; lia).
    rewrite Nat2Z.inj_succ, Z.pow_succ_r in Hu by lia.
    pose proof (Z.div_mod u 1000000000 ltac:(lia)).
    pose proof (Z.mod_pos_bound u 1000000000 ltac:(lia)).
    assert (4 <= u / 1000000000) by (apply Z.div_le_lower_bound; lia).
    assert (u / 1000000000 < 2 ^ 32 * 1000000000 ^ Z.of_nat fuel)
      by (apply Z.div_lt_upper_bound; lia).
    destruct (IH (u / 1000000000) p) as (ds & -> & Hn); [lia..|]. cbn [mbind option_bind].
    rewrite (u64_id (_ * _)), u32_id by lia.
    replace (u - u / 1000000000 * 1000000000) with (u mod 1000000000) by lia.
    destruct (itoa_nine (u mod 1000000000) (p ++ ds)) as (ds' & -> & Hd' & Hv'); [lia|].
    exists (ds ++ ds'). rewrite app_assoc. split; [done|].
    destruct (numeral_app_head _ _ ds' Hn ltac:(lia)) as [Hh Hnz].
    destruct Hn as (Hd & Hv & Hne & Hz). split_and!.
    + by apply Forall_app.
    + rewrite Hv', Hv. lia.
    + by destruct ds.
    + rewrite Hh. done.
Qed.

(** A numeral is determined by its value, so "the" numeral of [n] exists at
    most once; its length is logarithmic. *)
Lemma dec_fold_lower l a :
  Forall is_digit l -> 10 ^ zlen l * a <= fold_left (fun a c => 10 * a + (c - 48)) l a
    < 10 ^ zlen l * (a + 1).
Proof.
  revert a. induction l as [|c l IH]; intros a Hd.
  - simpl. unfold zlen. simpl. lia.
  - apply Forall_cons in Hd as [Hc Hd]. specialize (IH (10 * a + (c - 48)) Hd). simpl.
    rewrite zlen_cons, Z.pow_add_r by (try apply zlen_nonneg; lia).
    assert (0 < 10 ^ zlen l) by (apply Z.pow_pos_nonneg; [lia|apply zlen_nonneg]).
    unfold is_digit in Hc. nia.
Qed.

Lemma dec_value_bounds c l :
  Forall is_digit l ->
  10 ^ zlen l * (c - 48) <= dec_value (c :: l) < 10 ^ zlen l * (c - 47).
Proof.
  intros Hd. pose proof (dec_fold_lower l (10 * 0 + (c - 48)) Hd) as H.
  unfold dec_value. cbn [fold_left]. nia.
Qed.

Lemma numeral_length n l : numeral n l -> 0 <= n -> n = 0 \/ 10 ^ (zlen l - 1) <= n.
Proof.
  intros (Hd & Hv & Hne & Hz) Hn. destruct l as [|c l]; [done|].
  apply Forall_cons in Hd as [Hc Hd]. pose proof (dec_value_bounds c l Hd) as Hb.
  rewrite zlen_cons.
  replace (1 + zlen l - 1) with (zlen l) by lia.
  assert (0 < 10 ^ zlen l) by (apply Z.pow_pos_nonneg; [lia|apply zlen_nonneg]).
  destruct (decide (c = 48)) as [->|].
  - left. assert (l = []) as -> by (specialize (Hz eq_refl); congruence). unfold dec_value in Hv.
    simpl in Hv. lia.
  - right. unfold is_digit in Hc. nia.
Qed.

Lemma numeral_length_le n l k : numeral n l -> 0 <= n < 10 ^ k -> 1 <= k -> zlen l <= k.
Proof.
  intros Hn Hr Hk. destruct (numeral_length n l Hn) as [->|Hl]; [lia| |].
  - destruct Hn as (Hd & Hv & Hne & Hz). destruct l as [|c l]; [done|].
    destruct (decide (c = 48)) as [->|Hc]; [rewrite Hz by done; unfold zlen; simpl; lia|].
    apply Forall_cons in Hd as [Hd0 Hd]. pose proof (dec_value_bounds c l Hd) as Hb.
    assert (0 < 10 ^ zlen l) by (apply Z.pow_pos_nonneg; [lia|apply zlen_nonneg]).
    unfold is_digit in Hd0. exfalso. nia.
  - destruct (decide (zlen l <= k)); [done|].
    assert (10 ^ k <= 10 ^ (zlen l - 1)) by (apply Z.pow_le_mono_r; lia). lia.
Qed.

Lemma numeral_unique n l l' : numeral n l -> numeral n l' -> l = l'.
Proof.
  assert (forall a b, dec_value a = dec_value b -> Forall is_digit a -> Forall is_digit b ->
    length a = length b -> a = b) as Hsame.
  { induction a as [|c a IH] using rev_ind; intros b Hv Ha Hb Hl.
    - by destruct b.
    - destruct b as [|c' b _] using rev_ind; [rewrite length_app in Hl; simpl in Hl; lia|].
      rewrite !dec_value_snoc in Hv. rewrite !length_app in Hl. simpl in Hl.
      apply Forall_app in Ha as [Ha [Hc _]%Forall_cons_1], Hb as [Hb [Hc' _]%Forall_cons_1].
      unfold is_digit in *.
      rewrite (IH b); [do 2 f_equal; lia|lia|done|done|lia]. }
  assert (forall m k, numeral m k -> m = 0 -> k = [48]) as Hzero.
  { intros m k (Hd & Hv & Hne & Hz) ->. destruct k as [|c k]; [done|].
    apply Forall_cons in Hd as [Hc Hd]. pose proof (dec_value_bounds c k Hd) as Hb.
    assert (0 < 10 ^ zlen k) by (apply Z.pow_pos_nonneg; [lia|apply zlen_nonneg]).
    unfold is_digit in Hc. apply Hz. simpl. f_equal. nia. }
  intros Hn Hn'. destruct (decide (n = 0)) as [E|E].
  { by rewrite (Hzero _ _ Hn E), (Hzero _ _ Hn' E). }
  assert (0 <= n) as Hpos.
  { destruct Hn as (Hd & Hv & _). destruct l as [|c l]; [done|].
    apply Forall_cons in Hd as [Hc Hd]. pose proof (dec_value_bounds c l Hd).
    assert (0 < 10 ^ zlen l) by (apply Z.pow_pos_nonneg; [lia|apply zlen_nonneg]).
    unfold is_digit in Hc. nia. }
  assert (forall k, numeral n k -> 10 ^ (zlen k - 1) <= n < 10 ^ zlen k) as Hlen.
  { intros k Hk. destruct (numeral_length n k Hk Hpos) as [|?]; [done|]. split; [done|].
    destruct Hk as (Hd & Hv & _). pose proof (dec_fold_lower k 0 Hd). unfold dec_value in Hv. lia. }
  assert (zlen l = zlen l') as Hl.
  { pose proof (Hlen _ Hn). pose proof (Hlen _ Hn').
    destruct (Z.lt_trichotomy (zlen l) (zlen l')) as [?|[?|?]]; [|done|].
    - assert (10 ^ zlen l <= 10 ^ (zlen l' - 1)) by (apply Z.pow_le_mono_r; lia). lia.
    - assert (10 ^ zlen l' <= 10 ^ (zlen l - 1)) by (apply Z.pow_le_mono_r; lia). lia. }
  destruct Hn as (? & Hv & _), Hn' as (? & Hv' & _). apply Hsame; [congruence|done..|].
  unfold zlen in Hl. lia.
Qed.

Lemma itoa_u64_digits u p :
  0 <= u < 2 ^ 64 -> exists ds, itoa_u64 u p = Some (p ++ ds) /\ numeral u ds.
Proof. intros. apply itoa_u64_fuel_digits; simpl; lia. Qed.

(** C21: [itoa_u64] prints every 64-bit unsigned value as its decimal numeral
    (digits only, no leading zero, the numeral is unique) behind the cursor; its
    recursion ends and no table read is out of range; with its NUL the text takes
    at most 21 bytes, so it fits the [INCR_MAX_STORAGE_LEN] buffer of 24 bytes. *)
Theorem itoa_u64_correct u p :
  0 <= u < 2 ^ 64 ->
  exists ds, itoa_u64 u p = Some (p ++ ds) /\ numeral u ds
    /\ (forall ds', numeral u ds' -> ds' = ds) /\ zlen (terminated ds) <= 21.
Proof.
  intros Hu. destruct (itoa_u64_digits u p Hu) as (ds & E & Hn). exists ds.
  split_and!; [done|done|intros; by eapply numeral_unique|].
  unfold terminated. rewrite zlen_app, zlen_cons, zlen_nil.
  pose proof (numeral_length_le u ds 20 Hn ltac:(lia) ltac:(lia)). lia.
Qed.

Lemma itoa_u64_correct_witness :
  itoa_u64 18446744073709551615 [] = Some (str "18446744073709551615")
  /\ numeral 18446744073709551615 (str "18446744073709551615").
Proof.
  destruct (itoa_u64_correct 18446744073709551615 [] ltac:(lia)) as (ds & E & Hn & _).
  assert (itoa_u64 18446744073709551615 [] = Some (str "18446744073709551615")) as E'
    by (vm_compute; reflexivity).
  rewrite E' in E. injection E as <-. split; [exact E'|exact Hn].
Defined.

(** C26: the signed printers put a minus sign in front of the numeral of the
    absolute value, for every [int32_t] and [int64_t] including the minimum,
    whose negation does not fit the signed type. *)
Theorem itoa_signed_correct i p :
  - 2 ^ 63 <= i < 2 ^ 63 ->
  (exists ds, itoa_64 i p = Some (p ++ (if i <? 0 then [45] else []) ++ ds)
     /\ numeral (Z.abs i) ds)
  /\ (- 2 ^ 31 <= i < 2 ^ 31 ->
      exists ds, itoa_32 i p = Some (p ++ (if i <? 0 then [45] else []) ++ ds)
        /\ numeral (Z.abs i) ds).
Proof.
  intros Hi. split; [|intros Hi32]; unfold itoa_64, itoa_32; destruct (Z.ltb_spec i 0) as [Hn|Hn].
  - assert (u64 (- u64 i) = Z.abs i) as ->.
    { unfold u64. rewrite <- (Z_mod_plus_full i 1), (Z.mod_small (i + _)) by lia.
      rewrite <- (Z_mod_plus_full _ 1), Z.mod_small; lia. }
    destruct (itoa_u64_digits (Z.abs i) (p ++ [45])) as (ds & -> & ?); [lia|].
    exists ds. by rewrite <- app_assoc.
  - rewrite u64_id by lia. replace (Z.abs i) with i by lia. apply itoa_u64_digits; lia.
  - assert (u32 (- u32 i) = Z.abs i) as ->.
    { unfold u32. rewrite <- (Z_mod_plus_full i 1), (Z.mod_small (i + _)) by lia.
      rewrite <- (Z_mod_plus_full _ 1), Z.mod_small; lia. }
    destruct (itoa_u32_digits (Z.abs i) (p ++ [45])) as (ds & -> & ?); [lia|].
    exists ds. by rewrite <- app_assoc.
  - rewrite u32_id by lia. replace (Z.abs i) with i by lia. apply itoa_u32_digits; lia.
Qed.

Lemma itoa_signed_correct_witness :
  (exists ds, itoa_64 (- 2 ^ 63) [] = Some (45 :: ds) /\ numeral (2 ^ 63) ds)
  /\ exists ds, itoa_32 (- 2 ^ 31) [] = Some (45 :: ds) /\ numeral (2 ^ 31) ds.
Proof.
  split.
  - exact (proj1 (itoa_signed_correct (- 2 ^ 63) [] ltac:(lia))).
  - exact (proj2 (itoa_signed_correct (- 2 ^ 31) [] ltac:(lia)) ltac:(lia)).
Defined.

(** ** The products *)

Lemma int_mul_fits a b : 0 <= a * b < 2 ^ 31 -> int_mul a b = int_mul_wraps a b.
Proof.
  intros Hr. unfold int_mul, int_mul_wraps.
  by rewrite (proj2 (Z.leb_le _ _)), (proj2 (Z.ltb_lt _ _)), s32_id by lia.
Qed.
Lemma int_mul_overflows a b : 2 ^ 31 <= a * b -> int_mul a b = None.
Proof. intros Hr. unfold int_mul. by rewrite (proj2 (Z.ltb_ge _ _)), andb_false_r by lia. Qed.

(** A pair of digits out on both sides, then the same product. *)
Ltac same_step :=
  match goal with
  | |- context [out2 (?u / ?K) ?p] =>
      destruct (out2 (u / K) p); [|reflexivity]; cbn -[Z.div Z.mul Z.sub out2 int_mul];
      let H := fresh in pose proof (Z.div_mod u K ltac:(lia)) as H;
      let H' := fresh in pose proof (Z.mod_pos_bound u K ltac:(lia)) as H';
      let H0 := fresh in pose proof (Z.div_pos u K ltac:(lia) ltac:(lia)) as H0;
      try (rewrite (int_mul_fits (u / K) K) by lia; cbn -[Z.div Z.mul Z.sub out2 int_mul];
           rewrite !(peel_mod u K) by lia;
           let v := fresh "u" in remember (u - u / K * K) as v; assert (0 <= v < K) by lia);
      clear H H' H0
  end.

Lemma itoa_even_checked k u p d :
  (1 <= k <= 5)%nat -> 0 <= u < 100 ^ Z.of_nat k -> u < 2200000000 ->
  itoa_with int_mul u p d (2 * Z.of_nat k) = itoa u p d (2 * Z.of_nat k).
Proof.
  intros Hk Hu Hu32. assert (k = 1 \/ k = 2 \/ k = 3 \/ k = 4 \/ k = 5)%nat as Hcases by lia.
  destruct_or! Hcases; subst k; unfold itoa, itoa_with; eval_consts; cbn -[Z.div Z.mul Z.sub out2 int_mul];
    repeat same_step; reflexivity.
Qed.

Lemma itoa_odd_checked k u p d :
  (k <= 4)%nat -> 0 <= u < 2200000000 -> 0 <= d < 10 -> 0 <= u - d * 100 ^ Z.of_nat k < 100 ^ Z.of_nat k ->
  itoa_with int_mul u p d (2 * Z.of_nat k + 1) = itoa u p d (2 * Z.of_nat k + 1).
Proof.
  intros Hk Hu Hd Hr.
  assert (int_mul d (100 ^ Z.of_nat k) = int_mul_wraps d (100 ^ Z.of_nat k)) as Hm.
  { apply int_mul_fits. assert (0 < 100 ^ Z.of_nat k <= 100 ^ 4) by (split; [apply Z.pow_pos_nonneg|apply Z.pow_le_mono_r]; lia). nia. }
  assert (u32 (u - s32 (d * 100 ^ Z.of_nat k)) = u - d * 100 ^ Z.of_nat k) as Hsub.
  { rewrite u32_sub_s32. apply u32_id.
    assert (100 ^ Z.of_nat k <= 100 ^ 4) by (apply Z.pow_le_mono_r; lia). lia. }
  assert (k = 0 \/ k = 1 \/ k = 2 \/ k = 3 \/ k = 4)%nat as Hcases by lia.
  destruct_or! Hcases; subst k; unfold itoa, itoa_with; eval_consts;
    cbn -[Z.div Z.mul Z.sub out2 int_mul]; try rewrite Hm; cbn -[Z.div Z.mul Z.sub out2 int_mul]; try rewrite !Hsub;
    try (set (w := u - d * _) in *; clearbody w).
  all: repeat same_step; reflexivity.
Qed.

Lemma itoa_ten_overflows u p d : 2200000000 <= u < 2 ^ 32 -> itoa_with int_mul u p d 10 = None.
Proof.
  intros Hu. assert (22 <= u / 100000000 < 100) as Hd
    by (split; [apply Z.div_le_lower_bound|apply Z.div_lt_upper_bound]; lia).
  unfold itoa_with. cbn -[Z.div Z.mul Z.sub out2 int_mul]. rewrite out2_spec by lia.
  cbn -[Z.div Z.mul Z.sub out2 int_mul]. by rewrite int_mul_overflows by lia.
Qed.

(** C27: under the rules of C, where an [int] product that does not fit is undefined,
    the printer of [uint32_t] is defined exactly below 2200000000: there it prints
    what the wrapping machine prints, and from there up the product
    [d * 100000000] of [itoa] has left the range of [int].  A machine that wraps
    prints the numeral for every value. *)
Theorem itoa_product_overflows u p :
  0 <= u < 2 ^ 32 ->
  itoa_u32_with int_mul u p = (if u <? 2200000000 then itoa_u32 u p else None)
  /\ exists ds, itoa_u32 u p = Some (p ++ ds) /\ numeral u ds.
Proof.
  intros Hu. split; [|by apply itoa_u32_digits]. unfold itoa_u32, itoa_u32_with, digits, out1.
  repeat match goal with
  | |- context [u32 ?a] => let v := eval vm_compute in (u32 a) in change (u32 a) with v
  end. fold itoa.
  repeat match goal with |- context [?a <=? ?b] => destruct (Z.leb_spec a b) end;
  repeat match goal with |- context [?a <? ?b] => destruct (Z.ltb_spec a b) end; try lia.
  all: try (apply itoa_ten_overflows; lia).
  all: match goal with
       | |- context [?u / ?K] =>
           pose proof (Z.div_mod u K ltac:(lia)); pose proof (Z.mod_pos_bound u K ltac:(lia));
           pose proof (Z.div_pos u K ltac:(lia) ltac:(lia))
       | _ => idtac end.
  - apply (itoa_odd_checked 4); simpl; lia.
  - apply (itoa_even_checked 5); simpl; lia.
  - apply (itoa_odd_checked 0); simpl; lia.
  - apply (itoa_even_checked 1); simpl; lia.
  - apply (itoa_odd_checked 1); simpl; lia.
  - apply (itoa_even_checked 2); simpl; lia.
  - apply (itoa_odd_checked 2); simpl; lia.
  - apply (itoa_even_checked 3); simpl; lia.
  - apply (itoa_odd_checked 3); simpl; lia.
  - apply (itoa_even_checked 4); simpl; lia.
Qed.
Lemma itoa_product_overflows_witness :
  itoa_u32_with int_mul 2199999999 [] = Some (str "2199999999")
  /\ itoa_u32_with int_mul 2200000000 [] = None /\ itoa_u32 2200000000 [] = Some (str "2200000000").
Proof.
  split; [|split; [|vm_compute; reflexivity]].
  - rewrite (proj1 (itoa_product_overflows 2199999999 [] ltac:(lia))). vm_compute. reflexivity.
  - rewrite (proj1 (itoa_product_overflows 2200000000 [] ltac:(lia))). vm_compute. reflexivity.
Defined.
