(* ===== verification/Memory.v ===== *)
(** * The shared state of the server

    One record [mc] holds what the C files keep in globals: the item memory (a
    heap of cells shared by the hash chains, the LRU queues and the free lists),
    the hash table of assoc.c, the queues and counters of items.c, the slab
    classes of slabs.c, the statistics and the settings.  Addresses are [Z] and
    NULL is 0.  The components of the other files are operations on [mc]. *)

From S2P Require Import Prelude BipBuffer.

Abbreviation ptr := Z.
Definition NULL : ptr := 0.

(** ** struct _stritem

    [data[]] is the four fields the accessor macros carve out of it: the CAS
    value, the key, the client flags and the value bytes.  A [struct _strchunk]
    has the same layout up to names: [head] is [h_next], [size] is [time],
    [used] is [exptime] and [orig_clsid] is [nkey]. *)
Record item := Item {
  next : ptr; prev : ptr; h_next : ptr;
  time : Z; exptime : Z; nbytes : Z;
  refcount : Z; it_flags : Z; it_clsid : Z; nkey : Z;
  it_cas : Z; it_key : list Z; it_cflags : Z; it_data : list Z
}.
#[export] Instance eta_item : Eta item := fun r =>
  Item (next r) (prev r) (h_next r) (time r) (exptime r) (nbytes r) (refcount r) (it_flags r)
    (it_clsid r) (nkey r) (it_cas r) (it_key r) (it_cflags r) (it_data r).
#[export] Instance upd_next : Upd next. Proof. solve_upd. Defined.
#[export] Instance upd_prev : Upd prev. Proof. solve_upd. Defined.
#[export] Instance upd_h_next : Upd h_next. Proof. solve_upd. Defined.
#[export] Instance upd_time : Upd time. Proof. solve_upd. Defined.
#[export] Instance upd_exptime : Upd exptime. Proof. solve_upd. Defined.
#[export] Instance upd_nbytes : Upd nbytes. Proof. solve_upd. Defined.
#[export] Instance upd_refcount : Upd refcount. Proof. solve_upd. Defined.
#[export] Instance upd_it_flags : Upd it_flags. Proof. solve_upd. Defined.
#[export] Instance upd_clsid : Upd it_clsid. Proof. solve_upd. Defined.
#[export] Instance upd_nkey : Upd nkey. Proof. solve_upd. Defined.
#[export] Instance upd_it_cas : Upd it_cas. Proof. solve_upd. Defined.
#[export] Instance upd_it_key : Upd it_key. Proof. solve_upd. Defined.
#[export] Instance upd_it_cflags : Upd it_cflags. Proof. solve_upd. Defined.
#[export] Instance upd_it_data : Upd it_data. Proof. solve_upd. Defined.

(** Cells as [memset(ptr, 0, len)] and [calloc] leave them. *)
Definition item_zero : item := Item 0 0 0 0 0 0 0 0 0 0 0 [] 0 [].

(** ** Flags and layout (memcached.h) *)

Definition ITEM_LINKED := 1.
Definition ITEM_CAS := 2.
Definition ITEM_SLABBED := 4.
Definition ITEM_FETCHED := 8.
Definition ITEM_ACTIVE := 16.
Definition ITEM_CHUNKED := 32.
Definition ITEM_CHUNK := 64.
Definition ITEM_HDR := 128.
Definition ITEM_CFLAGS := 256.
Definition ITEM_TOKEN_SENT := 512.
Definition ITEM_STALE := 2048.
Definition ITEM_KEY_BINARY := 4096.

Definition has_flag (it : item) (f : Z) : bool := negb (Z.land (it_flags it) f =? 0).
(** [it_flags |= f] and [it_flags &= ~f] on a [uint16_t]. *)
Definition set_flag (f : Z) (it : item) : item := it <| it_flags ::= fun x => Z.lor x f |>.
Definition clear_flag (f : Z) (it : item) : item := it <| it_flags ::= fun x => Z.ldiff x f |>.

(** x86-64: [sizeof(item)], [sizeof(item_chunk)], [sizeof(item_hdr)]. *)
Definition sizeof_item := 48.
Definition sizeof_item_chunk := 48.
Definition sizeof_item_hdr := 12.

Definition ITEM_get_cas (it : item) : Z := if has_flag it ITEM_CAS then it_cas it else 0.
Definition ITEM_set_cas (v : Z) (it : item) : item :=
  if has_flag it ITEM_CAS then it <| it_cas := v |> else it.

Definition ITEM_ntotal (it : item) : Z :=
  u64 (sizeof_item + nkey it + 1 + nbytes it
       + (if has_flag it ITEM_CFLAGS then 4 else 0)
       + (if has_flag it ITEM_CAS then 8 else 0)).

Definition ITEM_clsid (it : item) : Z := Z.ldiff (it_clsid it) (Z.shiftl 3 6).
Definition ITEM_lruid (it : item) : Z := Z.land (it_clsid it) (Z.shiftl 3 6).

(** [FLAGS_CONV]: the client flags, 0 when none are stored. *)
Definition FLAGS_CONV (it : item) : Z := if has_flag it ITEM_CFLAGS then it_cflags it else 0.

Definition HOT_LRU := 0.
Definition WARM_LRU := 64.
Definition COLD_LRU := 128.
Definition TEMP_LRU := 192.

(** ** The hash table of assoc.c *)

(** A [calloc]ed array of item pointers; a cell that was never written is NULL. *)
Record htab := Htab { ht_size : Z; ht_cells : gmap Z ptr }.
Definition ht_calloc (n : Z) : htab := Htab n ∅.
Definition ht_get (t : htab) (i : Z) : option ptr :=
  if decide (0 <= i < ht_size t) then Some (default 0 (ht_cells t !! i)) else None.
Definition ht_set (t : htab) (i : Z) (p : ptr) : option htab :=
  if decide (0 <= i < ht_size t) then Some (Htab (ht_size t) (<[i := p]> (ht_cells t))) else None.

Record assoc := Assoc {
  hashpower : Z;
  primary_hashtable : htab;
  old_hashtable : htab;
  expanding : bool;
  expand_bucket : Z
}.
#[export] Instance eta_assoc : Eta assoc := fun r =>
  Assoc (hashpower r) (primary_hashtable r) (old_hashtable r) (expanding r) (expand_bucket r).
#[export] Instance upd_hashpower : Upd hashpower. Proof. solve_upd. Defined.
#[export] Instance upd_primary : Upd primary_hashtable. Proof. solve_upd. Defined.
#[export] Instance upd_old : Upd old_hashtable. Proof. solve_upd. Defined.
#[export] Instance upd_expanding : Upd expanding. Proof. solve_upd. Defined.
#[export] Instance upd_expand_bucket : Upd expand_bucket. Proof. solve_upd. Defined.

(** ** The LRU queues and counters of items.c *)

(** Arrays indexed by an LRU id (a [uint8_t], so always in range), 0 by default. *)
Abbreviation arr := (gmap Z Z).
Definition aget (a : gmap Z Z) (i : Z) : Z := default 0 (a !! i).

(** The counters of [itemstats_t] that the modelled operations write. *)
Record itemstats_t := Itemstats {
  evicted : Z; evicted_nonzero : Z; reclaimed : Z; outofmemory : Z; tailrepairs : Z;
  expired_unfetched : Z; evicted_unfetched : Z; evicted_active : Z;
  crawler_reclaimed : Z; crawler_items_checked : Z; lrutail_reflocked : Z;
  moves_to_cold : Z; moves_to_warm : Z; moves_within_lru : Z; direct_reclaims : Z;
  hits_to_hot : Z; hits_to_warm : Z; hits_to_cold : Z; hits_to_temp : Z; mem_requested : Z;
  evicted_time : Z
}.
Definition itemstats_zero : itemstats_t :=
  Itemstats 0 0 0 0 0 0 0 0 0 0 0 0 0 0 0 0 0 0 0 0 0.
#[export] Instance eta_itemstats : Eta itemstats_t := fun r =>
  Itemstats (evicted r) (evicted_nonzero r) (reclaimed r) (outofmemory r) (tailrepairs r)
    (expired_unfetched r) (evicted_unfetched r) (evicted_active r) (crawler_reclaimed r)
    (crawler_items_checked r) (lrutail_reflocked r) (moves_to_cold r) (moves_to_warm r)
    (moves_within_lru r) (direct_reclaims r) (hits_to_hot r) (hits_to_warm r) (hits_to_cold r)
    (hits_to_temp r) (mem_requested r) (evicted_time r).
#[export] Instance upd_evicted : Upd evicted. Proof. solve_upd. Defined.
#[export] Instance upd_evicted_nonzero : Upd evicted_nonzero. Proof. solve_upd. Defined.
#[export] Instance upd_reclaimed : Upd reclaimed. Proof. solve_upd. Defined.
#[export] Instance upd_outofmemory : Upd outofmemory. Proof. solve_upd. Defined.
#[export] Instance upd_tailrepairs : Upd tailrepairs. Proof. solve_upd. Defined.
#[export] Instance upd_expired_unfetched : Upd expired_unfetched. Proof. solve_upd. Defined.
#[export] Instance upd_evicted_unfetched : Upd evicted_unfetched. Proof. solve_upd. Defined.
#[export] Instance upd_evicted_active : Upd evicted_active. Proof. solve_upd. Defined.
#[export] Instance upd_crawler_reclaimed : Upd crawler_reclaimed. Proof. solve_upd. Defined.
#[export] Instance upd_crawler_checked : Upd crawler_items_checked. Proof. solve_upd. Defined.
#[export] Instance upd_lrutail_reflocked : Upd lrutail_reflocked. Proof. solve_upd. Defined.
#[export] Instance upd_moves_to_cold : Upd moves_to_cold. Proof. solve_upd. Defined.
#[export] Instance upd_moves_to_warm : Upd moves_to_warm. Proof. solve_upd. Defined.
#[export] Instance upd_moves_within_lru : Upd moves_within_lru. Proof. solve_upd. Defined.
#[export] Instance upd_direct_reclaims : Upd direct_reclaims. Proof. solve_upd. Defined.
#[export] Instance upd_evicted_time : Upd evicted_time. Proof. solve_upd. Defined.

Record lru := Lru {
  heads : gmap Z ptr;
  tails : gmap Z ptr;
  sizes : gmap Z Z;
  sizes_bytes : gmap Z Z;
  itemstats : gmap Z itemstats_t;
  cas_id : Z;
  stats_sizes_hist : option (gmap Z Z);
  stats_sizes_cas_min : Z;
  stats_sizes_buckets : Z
}.
#[export] Instance eta_lru : Eta lru := fun r =>
  Lru (heads r) (tails r) (sizes r) (sizes_bytes r) (itemstats r) (cas_id r)
    (stats_sizes_hist r) (stats_sizes_cas_min r) (stats_sizes_buckets r).
#[export] Instance upd_heads : Upd heads. Proof. solve_upd. Defined.
#[export] Instance upd_tails : Upd tails. Proof. solve_upd. Defined.
#[export] Instance upd_sizes : Upd sizes. Proof. solve_upd. Defined.
#[export] Instance upd_sizes_bytes : Upd sizes_bytes. Proof. solve_upd. Defined.
#[export] Instance upd_itemstats : Upd itemstats. Proof. solve_upd. Defined.
#[export] Instance upd_cas_id : Upd cas_id. Proof. solve_upd. Defined.
#[export] Instance upd_hist : Upd stats_sizes_hist. Proof. solve_upd. Defined.
#[export] Instance upd_cas_min : Upd stats_sizes_cas_min. Proof. solve_upd. Defined.
#[export] Instance upd_buckets : Upd stats_sizes_buckets. Proof. solve_upd. Defined.

Definition istats (l : lru) (i : Z) : itemstats_t := default itemstats_zero (itemstats l !! i).

(** ** The slab classes of slabs.c *)

Record slabclass_t := Slabclass {
  cl_size : Z;          (* size *)
  perslab : Z;
  slots : ptr;
  sl_curr : Z;
  cl_slabs : Z;         (* slabs *)
  slab_list : list ptr; (* the [list_size] cells of the array *)
  list_size : Z
}.
#[export] Instance eta_slabclass : Eta slabclass_t := fun r =>
  Slabclass (cl_size r) (perslab r) (slots r) (sl_curr r) (cl_slabs r) (slab_list r) (list_size r).
#[export] Instance upd_cl_size : Upd cl_size. Proof. solve_upd. Defined.
#[export] Instance upd_perslab : Upd perslab. Proof. solve_upd. Defined.
#[export] Instance upd_slots : Upd slots. Proof. solve_upd. Defined.
#[export] Instance upd_sl_curr : Upd sl_curr. Proof. solve_upd. Defined.
#[export] Instance upd_cl_slabs : Upd cl_slabs. Proof. solve_upd. Defined.
#[export] Instance upd_slab_list : Upd slab_list. Proof. solve_upd. Defined.
#[export] Instance upd_list_size : Upd list_size. Proof. solve_upd. Defined.

(** The memory of the process outside the pages: [brk] is the next address
    [malloc] returns, [malloc_ok] tells for the coming calls whether they
    succeed (they do once the list is used up). *)
Record slabs := Slabs {
  slabclass : list slabclass_t;   (* MAX_NUMBER_OF_SLAB_CLASSES of them *)
  mem_limit : Z; mem_malloced : Z; mem_limit_reached : bool; power_largest : Z;
  mem_base : ptr; mem_current : ptr; mem_avail : Z;
  brk : Z; malloc_ok : list bool
}.
#[export] Instance eta_slabs : Eta slabs := fun r =>
  Slabs (slabclass r) (mem_limit r) (mem_malloced r) (mem_limit_reached r) (power_largest r)
    (mem_base r) (mem_current r) (mem_avail r) (brk r) (malloc_ok r).
#[export] Instance upd_slabclass : Upd slabclass. Proof. solve_upd. Defined.
#[export] Instance upd_mem_limit : Upd mem_limit. Proof. solve_upd. Defined.
#[export] Instance upd_mem_malloced : Upd mem_malloced. Proof. solve_upd. Defined.
#[export] Instance upd_mem_limit_reached : Upd mem_limit_reached. Proof. solve_upd. Defined.
#[export] Instance upd_power_largest : Upd power_largest. Proof. solve_upd. Defined.
#[export] Instance upd_mem_base : Upd mem_base. Proof. solve_upd. Defined.
#[export] Instance upd_mem_current : Upd mem_current. Proof. solve_upd. Defined.
#[export] Instance upd_mem_avail : Upd mem_avail. Proof. solve_upd. Defined.
#[export] Instance upd_brk : Upd brk. Proof. solve_upd. Defined.
#[export] Instance upd_malloc_ok : Upd malloc_ok. Proof. solve_upd. Defined.

Definition MAX_NUMBER_OF_SLAB_CLASSES := 64.
Definition POWER_SMALLEST := 1.
Definition SLAB_GLOBAL_PAGE_POOL := 0.

(** ** Settings and statistics *)

(** The settings the modelled operations read.  [temporary_ttl] is compared as
    [uint32_t]. *)
Record settings := Settings {
  oldest_live : Z; oldest_cas : Z; evict_to_free : bool; use_cas : bool;
  item_size_max : Z; slab_chunk_size_max : Z; slab_page_size : Z; chunk_size : Z;
  lru_segmented : bool; slab_reassign : bool; slab_automove : Z; tail_repair_time : Z;
  temp_lru : bool; temporary_ttl : Z; hot_lru_pct : Z; warm_lru_pct : Z; maxbytes : Z
}.
#[export] Instance eta_settings : Eta settings := fun r =>
  Settings (oldest_live r) (oldest_cas r) (evict_to_free r) (use_cas r) (item_size_max r)
    (slab_chunk_size_max r) (slab_page_size r) (chunk_size r) (lru_segmented r) (slab_reassign r)
    (slab_automove r) (tail_repair_time r) (temp_lru r) (temporary_ttl r) (hot_lru_pct r)
    (warm_lru_pct r) (maxbytes r).
#[export] Instance upd_oldest_live : Upd oldest_live. Proof. solve_upd. Defined.
#[export] Instance upd_oldest_cas : Upd oldest_cas. Proof. solve_upd. Defined.
#[export] Instance upd_evict_to_free : Upd evict_to_free. Proof. solve_upd. Defined.
#[export] Instance upd_use_cas : Upd use_cas. Proof. solve_upd. Defined.
#[export] Instance upd_temp_lru : Upd temp_lru. Proof. solve_upd. Defined.
#[export] Instance upd_lru_segmented : Upd lru_segmented. Proof. solve_upd. Defined.
#[export] Instance upd_maxbytes : Upd maxbytes. Proof. solve_upd. Defined.
#[export] Instance upd_automove : Upd slab_automove. Proof. solve_upd. Defined.
#[export] Instance upd_temporary_ttl : Upd temporary_ttl. Proof. solve_upd. Defined.
#[export] Instance upd_hot_lru_pct : Upd hot_lru_pct. Proof. solve_upd. Defined.
#[export] Instance upd_warm_lru_pct : Upd warm_lru_pct. Proof. solve_upd. Defined.

(** The counters of [stats] and [stats_state] the modelled operations write. *)
Record stats := Stats {
  total_items : Z; malloc_fails : Z; curr_items : Z; curr_bytes : Z;
  hash_power_level : Z; hash_bytes : Z; hash_is_expanding : bool;
  slabs_moved : Z; slab_reassign_rescues : Z; slab_reassign_evictions_nomem : Z;
  slab_reassign_inline_reclaim : Z; slab_reassign_chunk_rescues : Z;
  slab_reassign_busy_items : Z; slab_reassign_busy_deletes : Z; slab_reassign_running : bool
}.
Definition stats_zero : stats := Stats 0 0 0 0 0 0 false 0 0 0 0 0 0 0 false.
#[export] Instance eta_stats : Eta stats := fun r =>
  Stats (total_items r) (malloc_fails r) (curr_items r) (curr_bytes r) (hash_power_level r) (hash_bytes r)
    (hash_is_expanding r) (slabs_moved r) (slab_reassign_rescues r)
    (slab_reassign_evictions_nomem r) (slab_reassign_inline_reclaim r)
    (slab_reassign_chunk_rescues r) (slab_reassign_busy_items r) (slab_reassign_busy_deletes r)
    (slab_reassign_running r).
#[export] Instance upd_total_items : Upd total_items. Proof. solve_upd. Defined.
#[export] Instance upd_malloc_fails : Upd malloc_fails. Proof. solve_upd. Defined.
#[export] Instance upd_curr_items : Upd curr_items. Proof. solve_upd. Defined.
#[export] Instance upd_curr_bytes : Upd curr_bytes. Proof. solve_upd. Defined.
#[export] Instance upd_hash_power_level : Upd hash_power_level. Proof. solve_upd. Defined.
#[export] Instance upd_hash_bytes : Upd hash_bytes. Proof. solve_upd. Defined.
#[export] Instance upd_hash_is_expanding : Upd hash_is_expanding. Proof. solve_upd. Defined.
#[export] Instance upd_slabs_moved : Upd slabs_moved. Proof. solve_upd. Defined.
#[export] Instance upd_sr_rescues : Upd slab_reassign_rescues. Proof. solve_upd. Defined.
#[export] Instance upd_sr_nomem : Upd slab_reassign_evictions_nomem. Proof. solve_upd. Defined.
#[export] Instance upd_sr_inline : Upd slab_reassign_inline_reclaim. Proof. solve_upd. Defined.
#[export] Instance upd_sr_chunks : Upd slab_reassign_chunk_rescues. Proof. solve_upd. Defined.
#[export] Instance upd_sr_busy : Upd slab_reassign_busy_items. Proof. solve_upd. Defined.
#[export] Instance upd_sr_deletes : Upd slab_reassign_busy_deletes. Proof. solve_upd. Defined.
#[export] Instance upd_sr_running : Upd slab_reassign_running. Proof. solve_upd. Defined.

(** ** The page mover of slabs.c *)

(** [struct slab_rebalance] and the signal; [completed] is the array calloc'ed
    for the page being moved. *)
Record slab_rebalance := SlabRebalance {
  slab_start : ptr; slab_end : ptr; slab_pos : ptr; s_clsid : Z; d_clsid : Z;
  busy_items : Z; rescues : Z; evictions_nomem : Z; inline_reclaim : Z; chunk_rescues : Z;
  busy_deletes : Z; busy_loops : Z; done : Z; completed : list Z;
  slab_rebalance_signal : Z;
  pick_cur : Z    (* the static [cur] of slabs_reassign_pick_any *)
}.
#[export] Instance eta_slab_rebalance : Eta slab_rebalance := fun r =>
  SlabRebalance (slab_start r) (slab_end r) (slab_pos r) (s_clsid r) (d_clsid r) (busy_items r)
    (rescues r) (evictions_nomem r) (inline_reclaim r) (chunk_rescues r) (busy_deletes r)
    (busy_loops r) (done r) (completed r) (slab_rebalance_signal r) (pick_cur r).
#[export] Instance upd_slab_start : Upd slab_start. Proof. solve_upd. Defined.
#[export] Instance upd_slab_end : Upd slab_end. Proof. solve_upd. Defined.
#[export] Instance upd_slab_pos : Upd slab_pos. Proof. solve_upd. Defined.
#[export] Instance upd_s_clsid : Upd s_clsid. Proof. solve_upd. Defined.
#[export] Instance upd_d_clsid : Upd d_clsid. Proof. solve_upd. Defined.
#[export] Instance upd_busy_items : Upd busy_items. Proof. solve_upd. Defined.
#[export] Instance upd_rescues : Upd rescues. Proof. solve_upd. Defined.
#[export] Instance upd_evictions_nomem : Upd evictions_nomem. Proof. solve_upd. Defined.
#[export] Instance upd_inline_reclaim : Upd inline_reclaim. Proof. solve_upd. Defined.
#[export] Instance upd_chunk_rescues : Upd chunk_rescues. Proof. solve_upd. Defined.
#[export] Instance upd_busy_deletes : Upd busy_deletes. Proof. solve_upd. Defined.
#[export] Instance upd_busy_loops : Upd busy_loops. Proof. solve_upd. Defined.
#[export] Instance upd_done : Upd done. Proof. solve_upd. Defined.
#[export] Instance upd_completed : Upd completed. Proof. solve_upd. Defined.
#[export] Instance upd_signal : Upd slab_rebalance_signal. Proof. solve_upd. Defined.
#[export] Instance upd_pick_cur : Upd pick_cur. Proof. solve_upd. Defined.
Definition rebalance_zero : slab_rebalance :=
  SlabRebalance NULL NULL NULL 0 0 0 0 0 0 0 0 0 0 [] 0 0.

(** ** Per-thread data *)

(** [struct _lru_bump_buf]: the queue of LRU bumps of one worker thread. *)
Record lru_bump_buf := LruBumpBuf { bump_bip : bipbuf; dropped : Z }.

(** The counters of [struct thread_stats] the modelled operations bump; those of
    [slab_stats] carry the class, [lru_hits] the LRU id. *)
Inductive counter :=
  | get_cmds | get_misses | get_expired | get_flushed | touch_cmds | touch_misses
  | delete_misses | incr_misses | decr_misses | cas_misses | meta_cmds | flush_cmds
  | get_oom_extstore | auth_cmds | auth_errors | conn_yields | bytes_read | bytes_written
  | set_cmds (cls : Z) | get_hits (cls : Z) | touch_hits (cls : Z) | delete_hits (cls : Z)
  | incr_hits (cls : Z) | decr_hits (cls : Z) | cas_hits (cls : Z) | cas_badval (cls : Z)
  | lru_hits (id : Z).
#[export] Instance counter_eq_dec : EqDecision counter.
Proof. solve_decision. Defined.

(** ** The whole state *)

Record mc := Mc {
  heap : gmap ptr item;
  mc_assoc : assoc;
  mc_lru : lru;
  mc_slabs : slabs;
  slab_rebal : slab_rebalance;
  mc_stats : stats;
  mc_settings : settings;
  current_time : Z;
  (** items whose external storage [STORAGE_delete] was asked to drop *)
  storage_deleted : list ptr;
  (** the bump buffers of the threads, in queue order, and the index of the
      buffer of the thread that acts *)
  bump_bufs : list lru_bump_buf;
  cur_thread : Z;
  (** the acting thread's counters *)
  thread_stats : counter -> Z
}.
#[export] Instance eta_mc : Eta mc := fun r =>
  Mc (heap r) (mc_assoc r) (mc_lru r) (mc_slabs r) (slab_rebal r) (mc_stats r) (mc_settings r)
    (current_time r) (storage_deleted r) (bump_bufs r) (cur_thread r) (thread_stats r).
#[export] Instance upd_heap : Upd heap. Proof. solve_upd. Defined.
#[export] Instance upd_mc_assoc : Upd mc_assoc. Proof. solve_upd. Defined.
#[export] Instance upd_mc_lru : Upd mc_lru. Proof. solve_upd. Defined.
#[export] Instance upd_mc_slabs : Upd mc_slabs. Proof. solve_upd. Defined.
#[export] Instance upd_slab_rebal : Upd slab_rebal. Proof. solve_upd. Defined.
#[export] Instance upd_mc_stats : Upd mc_stats. Proof. solve_upd. Defined.
#[export] Instance upd_mc_settings : Upd mc_settings. Proof. solve_upd. Defined.
#[export] Instance upd_current_time : Upd current_time. Proof. solve_upd. Defined.
#[export] Instance upd_storage_deleted : Upd storage_deleted. Proof. solve_upd. Defined.
#[export] Instance upd_bump_bufs : Upd bump_bufs. Proof. solve_upd. Defined.
#[export] Instance upd_thread_stats : Upd thread_stats. Proof. solve_upd. Defined.

(** [settings_init]: the defaults of these settings. *)
Definition settings_init : settings :=
  Settings 0 0 true true (1024 * 1024) (1024 * 1024 / 2) (1024 * 1024) 48 true true 1 0
    false 61 20 40 (64 * 1024 * 1024).

(** The globals as the loader zeroes them, with the default settings. *)
Definition slabclass_zero : slabclass_t := Slabclass 0 0 NULL 0 0 [] 0.
Definition mc_init : mc :=
  Mc ∅ (Assoc 0 (ht_calloc 0) (ht_calloc 0) false 0)
    (Lru ∅ ∅ ∅ ∅ ∅ 0 None 0 0)
    (Slabs (replicate 64 slabclass_zero) 0 0 false 0 NULL NULL 0 65536 [])
    rebalance_zero stats_zero settings_init 0 [] [] 0 (fun _ => 0).

(** ** Access through pointers *)

(** [*p], undefined for NULL and for addresses that hold no item. *)
Definition load (p : ptr) : M mc item := fun w =>
  if decide (p = NULL) then None
  else match heap w !! p with Some it => Some (it, w) | None => None end.
(** [p->field = ...]. *)
Definition update_item (p : ptr) (f : item -> item) : M mc unit := fun w =>
  if decide (p = NULL) then None
  else match heap w !! p with
       | Some it => Some (tt, w <| heap ::= <[p := f it]> |>)
       | None => None
       end.

Lemma load_ok p it w : p <> NULL -> heap w !! p = Some it -> load p w = Some (it, w).
Proof. intros. unfold load. by rewrite decide_False, H0. Qed.
Lemma update_item_ok p f it w :
  p <> NULL -> heap w !! p = Some it ->
  update_item p f w = Some (tt, w <| heap ::= <[p := f it]> |>).
Proof. intros. unfold update_item. by rewrite decide_False, H0. Qed.

(** An access that keeps the shape of the heap. *)
Lemma update_item_alter p f it w :
  p <> NULL -> heap w !! p = Some it -> update_item p f w = Some (tt, w <| heap ::= alter f p |>).
Proof.
  intros Hp Hit. rewrite (update_item_ok _ _ _ _ Hp Hit). do 2 f_equal.
  assert (<[p := f it]> (heap w) = alter f p (heap w)) as E; [|by destruct w; cbv -[insert alter] in *; rewrite E].
  apply map_eq. intros q. destruct (decide (q = p)) as [->|Hne].
  - by rewrite lookup_insert_eq, lookup_alter_eq, Hit.
  - by rewrite lookup_insert_ne, lookup_alter_ne.
Qed.

(** [memset(p, 0, len)] of a page that is then cut into [n] chunks of [size]
    bytes: the old cells are gone and every chunk starts as a zeroed header. *)
Definition in_range (p len : Z) (q : ptr) : bool := (p <=? q) && (q <? p + len).
Definition page_cells (p size : Z) (n : Z) : gmap ptr item :=
  list_to_map (map (fun x => (p + x * size, item_zero)) (seqZ 0 n)).
Definition wipe_page (p len size n : Z) (h : gmap ptr item) : gmap ptr item :=
  page_cells p size n ∪ filter (fun x => in_range p len x.1 = false) h.

Definition on_slabs (f : slabs -> slabs) : M mc unit := modify (fun w => w <| mc_slabs ::= f |>).
Definition on_lru (f : lru -> lru) : M mc unit := modify (fun w => w <| mc_lru ::= f |>).
Definition on_stats (f : stats -> stats) : M mc unit := modify (fun w => w <| mc_stats ::= f |>).
Definition on_rebal (f : slab_rebalance -> slab_rebalance) : M mc unit :=
  modify (fun w => w <| slab_rebal ::= f |>).

(** [c->thread->stats.counter += n] and [c->thread->stats.counter++]. *)
Definition count_by (n : Z) (c : counter) : M mc unit :=
  modify (fun w => w <| thread_stats ::= fun s c' => if decide (c' = c) then u64 (s c' + n) else s c' |>).
Definition count : counter -> M mc unit := count_by 1.

Lemma run_on_slabs f w : on_slabs f w = Some (tt, w <| mc_slabs ::= f |>).
Proof. done. Qed.
Lemma run_on_lru f w : on_lru f w = Some (tt, w <| mc_lru ::= f |>).
Proof. done. Qed.
Lemma run_on_stats f w : on_stats f w = Some (tt, w <| mc_stats ::= f |>).
Proof. done. Qed.
Lemma run_on_rebal f w : on_rebal f w = Some (tt, w <| slab_rebal ::= f |>).
Proof. done. Qed.
#[export] Hint Rewrite run_on_slabs run_on_lru run_on_stats run_on_rebal : run.

(** ** The global hash function

    [hash] of hash.c is a function pointer chosen at start-up.  The components
    that hash keys are stated over any function with 32-bit results; Murmur3.v
    and Jenkins.v provide the instances. *)
Class HashFunction := {
  hash : list Z -> Z;
  hash_range k : 0 <= hash k < 2 ^ 32
}.
