(* ===== verification/Assoc.v ===== *)
(** * The item hash table (assoc.c)

    Chained buckets threaded through [h_next], growing by doubling: during an
    expansion the buckets of the old table from [expand_bucket] on are still
    live and the maintenance thread moves them over one at a time.  A lock the
    code takes is not modelled; where the code only tries one, whether it got it
    is an argument. *)

From S2P Require Import Prelude Memory.

Definition hashsize (n : Z) : Z := u32 (Z.shiftl 1 n).
Definition hashmask (n : Z) : Z := u32 (hashsize n - 1).
Definition HASHPOWER_MAX := 32.

(** An [item **]: a bucket of either table or the [h_next] field of an item. *)
Inductive cell := PrimaryCell (i : Z) | OldCell (i : Z) | HNextOf (p : ptr).
#[export] Instance cell_eq_dec : EqDecision cell.
Proof. solve_decision. Defined.

Section assoc.
Context `{HashFunction}.

Definition read_cell (c : cell) : M mc ptr :=
  match c with
  | PrimaryCell i => t ← gets (fun w => primary_hashtable (mc_assoc w)); lift (ht_get t i)
  | OldCell i => t ← gets (fun w => old_hashtable (mc_assoc w)); lift (ht_get t i)
  | HNextOf p => it ← load p; mret (h_next it)
  end.

Definition write_cell (c : cell) (v : ptr) : M mc unit :=
  match c with
  | PrimaryCell i =>
      t ← gets (fun w => primary_hashtable (mc_assoc w));
      t ← lift (ht_set t i v);
      modify (fun w => w <| mc_assoc ::= fun a => a <| primary_hashtable := t |> |>)
  | OldCell i =>
      t ← gets (fun w => old_hashtable (mc_assoc w));
      t ← lift (ht_set t i v);
      modify (fun w => w <| mc_assoc ::= fun a => a <| old_hashtable := t |> |>)
  | HNextOf p => update_item p (fun it => it <| h_next := v |>)
  end.

(** The bucket a hash value belongs to: the old table's as long as it has not
    been moved. *)
Definition bucket_of (a : assoc) (hv : Z) : cell :=
  let oldbucket := Z.land hv (hashmask (hashpower a - 1)) in
  if expanding a && (expand_bucket a <=? oldbucket)
  then OldCell oldbucket
  else PrimaryCell (Z.land hv (hashmask (hashpower a))).

Definition assoc_init (hashtable_init : Z) : M mc unit :=
  modify (fun w =>
    let hp := if hashtable_init =? 0 then hashpower (mc_assoc w) else hashtable_init in
    w <| mc_assoc ::= fun a => a <| hashpower := hp |>
                                 <| primary_hashtable := ht_calloc (hashsize hp) |> |>
      <| mc_stats ::= fun s => s <| hash_power_level := hp |>
                                 <| hash_bytes := hashsize hp * 8 |> |>).

(** [memcmp] on keys of equal length; the key of an item is its first [nkey]
    key bytes. *)
Definition ITEM_key (it : item) : list Z := ztake (nkey it) (it_key it).
Definition key_matches (key : list Z) (it : item) : bool :=
  (zlen key =? nkey it) && bool_decide (key = ITEM_key it).

Fixpoint find_loop (fuel : nat) (key : list Z) (it : ptr) : M mc ptr :=
  if decide (it = NULL) then mret NULL
  else match fuel with
       | O => ub
       | S fuel =>
           i ← load it;
           if key_matches key i then mret it else find_loop fuel key (h_next i)
       end.

(** A chain visits no item twice, so [S (size heap)] steps are enough. *)
Definition chain_fuel (w : mc) : nat := S (size (heap w)).

Definition assoc_find (key : list Z) (hv : Z) : M mc ptr :=
  a ← gets mc_assoc;
  it ← read_cell (bucket_of a hv);
  fuel ← gets chain_fuel;
  find_loop fuel key it.

Fixpoint before_loop (fuel : nat) (key : list Z) (pos : cell) : M mc cell :=
  p ← read_cell pos;
  if decide (p = NULL) then mret pos
  else match fuel with
       | O => ub
       | S fuel =>
           i ← load p;
           if key_matches key i then mret pos else before_loop fuel key (HNextOf p)
       end.

Definition hashitem_before (key : list Z) (hv : Z) : M mc cell :=
  a ← gets mc_assoc;
  fuel ← gets chain_fuel;
  before_loop fuel key (bucket_of a hv).

(** [calloc_ok]: whether the allocation of the new table succeeds. *)
Definition assoc_expand (calloc_ok : bool) : M mc unit :=
  modify (fun w => w <| mc_assoc ::= fun a => a <| old_hashtable := primary_hashtable a |> |>);;
  if calloc_ok then
    modify (fun w => w <| mc_assoc ::= fun a =>
      a <| primary_hashtable := ht_calloc (hashsize (hashpower a + 1)) |>
        <| hashpower ::= Z.succ |> <| expanding := true |> <| expand_bucket := 0 |> |>);;
    modify (fun w => w <| mc_stats ::= fun s =>
      s <| hash_power_level := hashpower (mc_assoc w) |>
        <| hash_bytes ::= fun b => u64 (b + hashsize (hashpower (mc_assoc w)) * 8) |>
        <| hash_is_expanding := true |> |>)
  else
    modify (fun w => w <| mc_assoc ::= fun a => a <| primary_hashtable := old_hashtable a |> |>).

(** Whether the maintenance thread is signalled. *)
Definition assoc_start_expand (trylock : bool) (curr_items : Z) : M mc bool :=
  a ← gets mc_assoc;
  mret (trylock && (u32 (hashsize (hashpower a) * 3) / 2 <? curr_items)
        && (hashpower a <? HASHPOWER_MAX)).

Definition assoc_insert (it : ptr) (hv : Z) : M mc Z :=
  a ← gets mc_assoc;
  head ← read_cell (bucket_of a hv);
  update_item it (fun i => i <| h_next := head |>);;
  write_cell (bucket_of a hv) it;;
  mret 1.

Definition assoc_delete (key : list Z) (hv : Z) : M mc unit :=
  before ← hashitem_before key hv;
  p ← read_cell before;
  if decide (p = NULL) then ub (* the assert fails *)
  else
    i ← load p;
    update_item p (fun i => i <| h_next := NULL |>);;
    write_cell before (h_next i).

(** ** The maintenance thread *)

(** Move the chain of an old bucket to the primary table. *)
Fixpoint migrate_loop (fuel : nat) (it : ptr) : M mc unit :=
  if decide (it = NULL) then mret tt
  else match fuel with
       | O => ub
       | S fuel =>
           i ← load it;
           hp ← gets (fun w => hashpower (mc_assoc w));
           let bucket := Z.land (hash (ITEM_key i)) (hashmask hp) in
           head ← read_cell (PrimaryCell bucket);
           update_item it (fun i => i <| h_next := head |>);;
           write_cell (PrimaryCell bucket) it;;
           migrate_loop fuel (h_next i)
       end.

(** The body of the loop over [ii], with the item lock taken or not. *)
Definition maintenance_step (item_trylock : bool) : M mc unit :=
  if item_trylock then
    b ← gets (fun w => expand_bucket (mc_assoc w));
    it ← read_cell (OldCell b);
    fuel ← gets chain_fuel;
    migrate_loop fuel it;;
    write_cell (OldCell b) NULL;;
    modify (fun w => w <| mc_assoc ::= fun a => a <| expand_bucket ::= Z.succ |> |>);;
    a ← gets mc_assoc;
    if expand_bucket a =? hashsize (hashpower a - 1) then
      modify (fun w =>
        w <| mc_assoc ::= fun a => a <| expanding := false |> |>
          <| mc_stats ::= fun s =>
               s <| hash_bytes ::= fun b => u64 (b - hashsize (hashpower a - 1) * 8) |>
                 <| hash_is_expanding := false |> |>)
    else mret tt
  else mret tt (* usleep *).

(** One round of the thread: up to [hash_bulk_move] buckets while expanding.
    [locks] is what each [item_trylock] returns. *)
Fixpoint maintenance_bulk (locks : list bool) : M mc unit :=
  match locks with
  | [] => mret tt
  | l :: locks =>
      e ← gets (fun w => expanding (mc_assoc w));
      if (e : bool) then maintenance_step l;; maintenance_bulk locks else mret tt
  end.

(** ** The iterator of the crawler *)

Record assoc_iterator := AssocIterator {
  ai_bucket : Z; ai_bucket_locked : bool; ai_it : ptr; ai_next : ptr
}.

Definition assoc_get_iterator : assoc_iterator := AssocIterator 0 false NULL NULL.

(** Returns the result, [*it] and the advanced iterator. *)
Definition assoc_iterate (iter : assoc_iterator) : M mc (bool * ptr * assoc_iterator) :=
  a ← gets mc_assoc;
  if ai_bucket_locked iter then
    if decide (ai_next iter <> NULL) then
      i ← load (ai_next iter);
      mret (true, ai_next iter, AssocIterator (ai_bucket iter) true (ai_next iter) (h_next i))
    else
      mret (true, NULL, AssocIterator (u32 (ai_bucket iter + 1)) false (ai_it iter) (ai_next iter))
  else if negb (ai_bucket iter =? hashsize (hashpower a)) then
    it ← read_cell (PrimaryCell (ai_bucket iter));
    if decide (it <> NULL) then
      i ← load it;
      mret (true, it, AssocIterator (ai_bucket iter) true it (h_next i))
    else
      mret (true, NULL, AssocIterator (u32 (ai_bucket iter + 1)) false NULL (ai_next iter))
  else mret (false, NULL, iter).

End assoc.

(** ** Chains

    [hchain h p l]: from [p] the [h_next] fields lead through exactly the items
    [l], each listed with its key, to NULL. *)

Fixpoint hchain (h : gmap ptr item) (p : ptr) (l : list (ptr * list Z)) : Prop :=
  match l with
  | [] => p = NULL
  | (a, k) :: l =>
      p = a /\ a <> NULL
      /\ exists it, h !! a = Some it /\ it_key it = k /\ nkey it = zlen k
         /\ hchain h (h_next it) l
  end.

Lemma hchain_unique h p l l' : hchain h p l -> hchain h p l' -> l = l'.
Proof.
  revert p l'. induction l as [|[a k] l IH]; intros p [|[b k'] l']; simpl.
  - done.
  - intros -> (<- & ? & _). done.
  - intros (-> & ? & _) ->. done.
  - intros (-> & ? & it & Hit & <- & _ & Hl) (-> & _ & it' & Hit' & <- & _ & Hl').
    rewrite Hit in Hit'. injection Hit' as <-. f_equal. eauto.
Qed.

Lemma hchain_suffix h p l1 a k l2 : hchain h p (l1 ++ (a, k) :: l2) -> hchain h a ((a, k) :: l2).
Proof.
  revert p. induction l1 as [|[b k'] l1 IH]; intros p.
  - intros Hc. pose proof Hc as (-> & _). done.
  - intros (_ & _ & it & _ & _ & _ & Hl). eauto.
Qed.

Lemma hchain_nodup h p l : hchain h p l -> NoDup l.*1.
Proof.
  revert p. induction l as [|[a k] l IH]; intros p Hc; [constructor|].
  pose proof Hc as (-> & Ha & it & Hit & _ & _ & Hl). simpl. constructor; [|eauto].
  intros ([a' k'] & -> & (l1 & l2 & ->)%list_elem_of_split)%list_elem_of_fmap.
  pose proof (hchain_suffix _ _ _ _ _ _ Hl) as Hc'.
  pose proof Hc' as (_ & _ & jt & Hjt & Ek & En & Hl').
  pose proof Hc as (_ & _ & it' & Hit' & Ek' & _). simpl in *.
  assert (k = k') as -> by congruence.
  pose proof (hchain_unique h a' ((a', k') :: l2) ((a', k') :: l1 ++ (a', k') :: l2) Hc' Hc) as E.
  apply (f_equal length) in E. simpl in E. rewrite length_app in E. simpl in E. lia.
Qed.

Lemma hchain_lookup h p l a k :
  hchain h p l -> (a, k) ∈ l ->
  a <> NULL /\ exists it, h !! a = Some it /\ it_key it = k /\ nkey it = zlen k.
Proof.
  intros Hc (l1 & l2 & ->)%list_elem_of_split.
  apply hchain_suffix in Hc as (_ & ? & it & ? & ? & ? & _). eauto.
Qed.

Lemma hchain_length h p l : hchain h p l -> (length l < S (size h))%nat.
Proof.
  intros Hc. assert (list_to_set l.*1 ⊆ dom h) as Hs.
  { intros a Ha. apply elem_of_list_to_set, list_elem_of_fmap in Ha as ([b k] & -> & Ha).
    destruct (hchain_lookup _ _ _ _ _ Hc Ha) as (_ & it & Hit & _). by eapply elem_of_dom_2. }
  apply subseteq_size in Hs.
  rewrite size_list_to_set, size_dom, length_fmap in Hs by (by eapply hchain_nodup). lia.
Qed.

(** Fields of an item that its chain depends on. *)
Definition same_link (it it' : item) : Prop :=
  h_next it' = h_next it /\ it_key it' = it_key it /\ nkey it' = nkey it.

Lemma hchain_frame h h' p l :
  hchain h p l ->
  (forall a it, a ∈ l.*1 -> h !! a = Some it -> exists it', h' !! a = Some it' /\ same_link it it') ->
  hchain h' p l.
Proof.
  revert p. induction l as [|[a k] l IH]; intros p; simpl; [done|].
  intros (-> & ? & it & Hit & ? & ? & Hl) Hf. split_and!; [done|done|].
  destruct (Hf a it) as (it' & Hit' & E1 & E2 & E3); [set_solver|done|].
  exists it'. rewrite E1, E2, E3. split_and!; [done..|].
  apply IH; [done|]. intros b jt Hb. apply Hf. set_solver.
Qed.

Lemma hchain_insert_fresh h p l a it :
  a ∉ l.*1 -> hchain h p l -> hchain (<[a := it]> h) p l.
Proof.
  intros Ha Hc. apply (hchain_frame h); [done|]. intros b jt Hb Hjt. exists jt.
  split; [|done]. rewrite lookup_insert_ne; [done|]. by intros ->.
Qed.

(** Redirecting the [h_next] of a member replaces what follows it. *)
Lemma hchain_redirect h p l1 q k l2 it v l3 :
  hchain h p (l1 ++ (q, k) :: l2) -> h !! q = Some it -> q ∉ l3.*1 -> hchain h v l3 ->
  hchain (<[q := it <| h_next := v |>]> h) p (l1 ++ (q, k) :: l3).
Proof.
  intros Hc Hit Hq Hv. pose proof (hchain_nodup _ _ _ Hc) as Hnd. revert p Hc Hnd.
  induction l1 as [|[a k'] l1 IH]; intros p Hc Hnd.
  - destruct Hc as (-> & ? & it' & Hit' & Ek & En & _). split_and!; [done..|].
    exists (it <| h_next := v |>). rewrite lookup_insert_eq. split; [done|]. upds.
    assert (it' = it) as -> by congruence. split_and!; [done..|]. by apply hchain_insert_fresh.
  - destruct Hc as (-> & ? & jt & Hjt & Ek & En & Hl). apply NoDup_cons in Hnd as [Ha Hnd].
    split_and!; [done..|]. exists jt. split_and!; [|done|done|by apply IH].
    rewrite lookup_insert_ne; [done|]. intros E. apply Ha. simpl. rewrite <- E.
    apply (list_elem_of_fmap_2 fst _ (q, k)). apply elem_of_app. right. left.
Qed.
