(* ===== verification/AssocSpec.v ===== *)
(** * The hash table implements a finite map

    The abstraction of the state is a finite map from keys to item addresses:
    [assoc_rep w A].  Find, insert and delete are lookup, insertion and deletion
    in it; growing the table and moving buckets leave it alone. *)

From S2P Require Import Prelude Memory Assoc.

(** The items of every bucket, with their keys. *)
Abbreviation buckets := (cell -> list (ptr * list Z)).

Section spec.
Context `{HashFunction}.
Implicit Types (w : mc) (a : assoc) (A : gmap (list Z) ptr).

(** The chain head a live bucket holds. *)
Definition bucket_head (a : assoc) (c : cell) : option ptr :=
  match c with
  | PrimaryCell i => ht_get (primary_hashtable a) i
  | OldCell i => if expanding a then ht_get (old_hashtable a) i else None
  | HNextOf _ => None
  end.

Record assoc_inv (w : mc) (T : buckets) : Prop := {
  ai_hp : 1 <= hashpower (mc_assoc w) <= 31;
  ai_primary : ht_size (primary_hashtable (mc_assoc w)) = 2 ^ hashpower (mc_assoc w);
  ai_old : expanding (mc_assoc w) = true ->
    ht_size (old_hashtable (mc_assoc w)) = 2 ^ (hashpower (mc_assoc w) - 1)
    /\ 0 <= expand_bucket (mc_assoc w) < 2 ^ (hashpower (mc_assoc w) - 1);
  ai_chain : forall c p, bucket_head (mc_assoc w) c = Some p -> hchain (heap w) p (T c);
  ai_home : forall c p k, (p, k) ∈ T c -> bucket_of (mc_assoc w) (hash k) = c;
  ai_keys : forall c, NoDup (T c).*2
}.

(** [A] maps the keys of the chained items to their addresses. *)
Definition represents (a : assoc) (T : buckets) (A : gmap (list Z) ptr) : Prop :=
  forall k p, A !! k = Some p <-> (p, k) ∈ T (bucket_of a (hash k)).

Definition assoc_rep (w : mc) (A : gmap (list Z) ptr) : Prop :=
  exists T, assoc_inv w T /\ represents (mc_assoc w) T A.

(** ** Masks *)

Lemma hashsize_pow n : 0 <= n <= 31 -> hashsize n = 2 ^ n.
Proof.
  intros. unfold hashsize. rewrite Z.shiftl_mul_pow2, Z.mul_1_l by lia. apply u32_id.
  split; [apply Z.pow_nonneg; lia|apply Z.pow_lt_mono_r; lia].
Qed.

Lemma land_hashmask hv n : 0 <= n <= 31 -> Z.land hv (hashmask n) = hv mod 2 ^ n.
Proof.
  intros. unfold hashmask. rewrite hashsize_pow, u32_id by
    (try done; assert (2 ^ n <= 2 ^ 31) by (apply Z.pow_le_mono_r; lia);
     assert (0 < 2 ^ n) by (apply Z.pow_pos_nonneg; lia); lia).
  apply land_ones_mod. lia.
Qed.

Lemma mod_pow_down hv n : 1 <= n -> (hv mod 2 ^ n) mod 2 ^ (n - 1) = hv mod 2 ^ (n - 1).
Proof.
  intros. apply Z.mod_mod_divide. exists 2. rewrite <- Z.pow_succ_r by lia. f_equal. lia.
Qed.

Lemma bucket_of_mod a hv :
  1 <= hashpower a <= 31 ->
  bucket_of a hv =
    if expanding a && (expand_bucket a <=? hv mod 2 ^ (hashpower a - 1))
    then OldCell (hv mod 2 ^ (hashpower a - 1)) else PrimaryCell (hv mod 2 ^ hashpower a).
Proof. intros. unfold bucket_of. by rewrite !land_hashmask by lia. Qed.

(** The bucket of a hash value always exists. *)
Lemma bucket_head_home w T hv :
  assoc_inv w T ->
  exists p, read_cell (bucket_of (mc_assoc w) hv) w = Some (p, w)
    /\ bucket_head (mc_assoc w) (bucket_of (mc_assoc w) hv) = Some p
    /\ hchain (heap w) p (T (bucket_of (mc_assoc w) hv)).
Proof.
  intros HI. destruct HI as [Hhp Hp Ho Hc _ _]. specialize (Hc (bucket_of (mc_assoc w) hv)).
  revert Hc. rewrite bucket_of_mod by done. set (a := mc_assoc w) in *.
  assert (0 <= hv mod 2 ^ hashpower a < 2 ^ hashpower a)
    by (apply Z.mod_pos_bound, Z.pow_pos_nonneg; lia).
  assert (0 <= hv mod 2 ^ (hashpower a - 1) < 2 ^ (hashpower a - 1))
    by (apply Z.mod_pos_bound, Z.pow_pos_nonneg; lia).
  destruct (expanding a) eqn:He; simpl.
  - destruct (Ho eq_refl) as [Ho1 Ho2].
    destruct (expand_bucket a <=? _) eqn:Hb; simpl; rewrite ?He; intros Hc.
    + unfold ht_get in *. rewrite decide_True in * by lia. eexists. run. fold a.
      unfold lift, ht_get. rewrite decide_True by lia. split_and!; [done|done|by apply Hc].
    + unfold ht_get in *. rewrite decide_True in * by lia. eexists. run. fold a.
      unfold lift, ht_get. rewrite decide_True by lia. split_and!; [done|done|by apply Hc].
  - intros Hc. unfold ht_get in *. rewrite decide_True in * by lia. eexists. run. fold a.
    unfold lift, ht_get. rewrite decide_True by lia. split_and!; [done|done|by apply Hc].
Qed.

(** A fresh table stands for the empty map. *)
Lemma assoc_init_rep w hp :
  1 <= hp <= 31 -> expanding (mc_assoc w) = false ->
  exists w', assoc_init hp w = Some (tt, w') /\ assoc_rep w' ∅
    /\ heap w' = heap w /\ expanding (mc_assoc w') = false /\ hashpower (mc_assoc w') = hp.
Proof.
  intros Hhp He. unfold assoc_init. run. eexists. split; [reflexivity|]. upds.
  rewrite (proj2 (Z.eqb_neq hp 0)) by lia. split_and!; [|done..]. exists (fun _ => []). split.
  - split; upds; rewrite ?He; try done.
    + simpl. by rewrite hashsize_pow by lia.
    + intros [i|i|] q; cbn [bucket_head]; upds; rewrite ?He; try done.
      unfold ht_get. case_decide; [|done]. simpl. by intros [= <-].
    + intros c p k Hin. by apply not_elem_of_nil in Hin.
    + constructor.
  - intros k p. split; [done|]. intros Hin. by apply not_elem_of_nil in Hin.
Qed.

(** ** Find *)

Lemma key_matches_iff key it k :
  it_key it = k -> nkey it = zlen k -> key_matches key it = true <-> k = key.
Proof.
  intros <- E. unfold key_matches, ITEM_key.
  rewrite E, ztake_all, andb_true_iff, Z.eqb_eq, bool_decide_eq_true.
  split; [by intros [_ ->]|]. by intros ->.
Qed.

Lemma find_loop_spec w key p l fuel :
  hchain (heap w) p l -> (length l < fuel)%nat ->
  exists r, find_loop fuel key p w = Some (r, w)
    /\ ((r = NULL /\ key ∉ l.*2) \/ (r, key) ∈ l).
Proof.
  revert p fuel. induction l as [|[x k] l IH]; intros p fuel Hc Hf;
    (destruct fuel as [|fuel]; [simpl in Hf; lia|]); cbn [find_loop].
  - simpl in Hc. subst. rewrite decide_True by done. exists NULL. split; [done|]. left.
    split; [done|]. apply not_elem_of_nil.
  - destruct Hc as (-> & Hx & it & Hit & Ek & En & Hl). rewrite decide_False by done. run.
    rewrite (load_ok _ _ _ Hx Hit). pose proof (key_matches_iff key it k Ek En) as Hm.
    destruct (key_matches key it).
    + exists x. split; [done|]. right. rewrite (proj1 Hm) by done. set_solver.
    + destruct (IH (h_next it) fuel) as (r & -> & Hr); [done|simpl in Hf; lia|].
      exists r. split; [done|]. destruct Hr as [[-> Hr]|Hr]; [left|right; set_solver].
      split; [done|]. rewrite fmap_cons, not_elem_of_cons. simpl. split; [|done].
      intros <-. by destruct Hm as [_ Hm]; specialize (Hm eq_refl).
Qed.

Lemma assoc_find_rep w A key :
  assoc_rep w A -> assoc_find key (hash key) w = Some (default NULL (A !! key), w).
Proof.
  intros (T & HI & HA). unfold assoc_find. run.
  destruct (bucket_head_home w T (hash key) HI) as (p & -> & _ & Hc). run.
  destruct (find_loop_spec w key p _ (chain_fuel w) Hc) as (r & -> & Hr);
    [by eapply hchain_length|]. do 2 f_equal. destruct Hr as [[-> Hr]|Hr].
  - destruct (A !! key) as [q|] eqn:E; [|done]. apply HA in E. destruct Hr.
    by apply (list_elem_of_fmap_2 snd) in E.
  - apply HA in Hr. by rewrite Hr.
Qed.

(** The items of the map are allocated and hold their key. *)
Lemma rep_item w A k p :
  assoc_rep w A -> A !! k = Some p ->
  p <> NULL /\ exists it, heap w !! p = Some it /\ it_key it = k /\ nkey it = zlen k.
Proof.
  intros (T & HI & HA) Hp%HA.
  destruct (bucket_head_home w T (hash k) HI) as (hd & _ & _ & Hc).
  by apply (hchain_lookup _ _ _ _ _ Hc).
Qed.

Lemma bucket_item w T c p k :
  assoc_inv w T -> (p, k) ∈ T c ->
  p <> NULL /\ exists it, heap w !! p = Some it /\ it_key it = k /\ nkey it = zlen k.
Proof.
  intros HI Hp. pose proof (ai_home _ _ HI _ _ _ Hp) as <-.
  destruct (bucket_head_home w T (hash k) HI) as (hd & _ & _ & Hc).
  by apply (hchain_lookup _ _ _ _ _ Hc).
Qed.

(** An item whose key is not in the map is in no chain. *)
Lemma rep_fresh w T A p it c :
  assoc_inv w T -> represents (mc_assoc w) T A -> heap w !! p = Some it ->
  A !! it_key it = None -> p ∉ (T c).*1.
Proof.
  intros HI HA Hit Hnew ([q k] & -> & Hin)%list_elem_of_fmap. simpl in *.
  destruct (bucket_item _ _ _ _ _ HI Hin) as (_ & it' & Hit' & Ek & _).
  assert (it' = it) as -> by congruence. pose proof (ai_home _ _ HI _ _ _ Hin) as Hc. subst.
  assert (A !! it_key it = Some q) as E by by apply HA. congruence.
Qed.

(** ** Changing one bucket *)

(** Same geometry: hash values belong to the same buckets. *)
Definition same_shape (a a' : assoc) : Prop :=
  hashpower a' = hashpower a /\ expanding a' = expanding a /\ expand_bucket a' = expand_bucket a
  /\ ht_size (primary_hashtable a') = ht_size (primary_hashtable a)
  /\ ht_size (old_hashtable a') = ht_size (old_hashtable a).

Lemma same_shape_bucket a a' hv : same_shape a a' -> bucket_of a' hv = bucket_of a hv.
Proof. intros (E1 & E2 & E3 & _). unfold bucket_of. by rewrite E1, E2, E3. Qed.

Definition set_bucket (c : cell) (v : ptr) (a : assoc) : assoc :=
  match c with
  | PrimaryCell i => a <| primary_hashtable ::= fun t => Htab (ht_size t) (<[i := v]> (ht_cells t)) |>
  | OldCell i => a <| old_hashtable ::= fun t => Htab (ht_size t) (<[i := v]> (ht_cells t)) |>
  | HNextOf _ => a
  end.

Lemma set_bucket_shape c v a : same_shape a (set_bucket c v a).
Proof. by destruct c. Qed.

Lemma write_cell_bucket w c v p :
  bucket_head (mc_assoc w) c = Some p ->
  write_cell c v w = Some (tt, w <| mc_assoc ::= set_bucket c v |>).
Proof.
  destruct c as [i|i|]; simpl; [| |done].
  - unfold ht_get. case_decide; [|done]. intros _. run. unfold lift, ht_set.
    by rewrite decide_True.
  - case_match; [|done]. unfold ht_get. case_decide; [|done]. intros _. run. unfold lift, ht_set.
    by rewrite decide_True.
Qed.

Lemma ht_get_set t i v j q :
  ht_get t i = Some q ->
  ht_get (Htab (ht_size t) (<[i := v]> (ht_cells t))) j = if decide (j = i) then Some v else ht_get t j.
Proof.
  unfold ht_get. simpl. intros Hi. case_decide; [|done].
  repeat case_decide; subst; try done; try (by rewrite lookup_insert_eq).
  by rewrite lookup_insert_ne.
Qed.

Lemma bucket_head_set c v a p c' :
  bucket_head a c = Some p ->
  bucket_head (set_bucket c v a) c' = if decide (c' = c) then Some v else bucket_head a c'.
Proof.
  destruct c as [i|i|]; intros Hc; [| |done]; destruct c' as [j|j|]; cbn [bucket_head set_bucket] in *;
    upds; try (by rewrite decide_False).
  - rewrite (ht_get_set _ _ _ _ _ Hc). repeat case_decide; naive_solver.
  - destruct (expanding a) eqn:E; [|done].
    rewrite (ht_get_set _ _ _ _ _ Hc). repeat case_decide; naive_solver.
Qed.

Definition set_chain (T : buckets) (c : cell) (l : list (ptr * list Z)) : buckets :=
  fun c' => if decide (c' = c) then l else T c'.

Lemma assoc_inv_set w w' T c v l :
  assoc_inv w T -> same_shape (mc_assoc w) (mc_assoc w') ->
  (forall c', bucket_head (mc_assoc w') c'
     = if decide (c' = c) then Some v else bucket_head (mc_assoc w) c') ->
  hchain (heap w') v l ->
  (forall c' p, c' <> c -> hchain (heap w) p (T c') -> hchain (heap w') p (T c')) ->
  (forall q k, (q, k) ∈ l -> bucket_of (mc_assoc w) (hash k) = c) -> NoDup l.*2 ->
  assoc_inv w' (set_chain T c l).
Proof.
  intros HI Hs Hb Hl Hf Hh Hk. pose proof Hs as (E1 & E2 & E3 & E4 & E5). destruct HI.
  split; rewrite ?E1, ?E2, ?E3, ?E4, ?E5; try done; unfold set_chain.
  - intros c' p. rewrite Hb. case_decide as Ec; [by intros [= <-]|]. eauto.
  - intros c' p k. rewrite (same_shape_bucket _ _ _ Hs). case_decide as Ec; [subst; by apply Hh|].
    apply ai_home0.
  - intros c'. case_decide; [done|]. apply ai_keys0.
Qed.

(** The map after a change of the home bucket of [k] that concerns [k] only. *)
Lemma represents_set a a' T A A' k l :
  represents a T A -> same_shape a a' ->
  (forall p, (p, k) ∈ l <-> A' !! k = Some p) ->
  (forall k' p, k' <> k -> (p, k') ∈ l <-> (p, k') ∈ T (bucket_of a (hash k))) ->
  (forall k', k' <> k -> A' !! k' = A !! k') ->
  represents a' (set_chain T (bucket_of a (hash k)) l) A'.
Proof.
  intros HA Hs Hk Hl HA' k' p. rewrite (same_shape_bucket _ _ _ Hs). unfold set_chain.
  destruct (decide (k' = k)) as [->|Hne].
  - by rewrite decide_True.
  - rewrite HA', (HA k' p) by done. case_decide as E; [|done]. by rewrite Hl, E.
Qed.

(** ** What the operations leave alone *)

Definition erase_link (it : item) : item := it <| h_next := NULL |>.

(** Only the table's cells and [h_next] fields change. *)
Definition assoc_frame (w w' : mc) : Prop :=
  w' = w <| heap := heap w' |> <| mc_assoc := mc_assoc w' |>
  /\ same_shape (mc_assoc w) (mc_assoc w')
  /\ erase_link <$> heap w' = erase_link <$> heap w.

Lemma erase_link_insert (h : gmap ptr item) p it v :
  h !! p = Some it -> erase_link <$> <[p := it <| h_next := v |>]> h = erase_link <$> h.
Proof.
  intros Hit. rewrite fmap_insert.
  assert (erase_link (it <| h_next := v |>) = erase_link it) as -> by done.
  apply insert_id. by rewrite lookup_fmap, Hit.
Qed.

Lemma assoc_frame_lookup w w' p it :
  assoc_frame w w' -> heap w !! p = Some it ->
  exists v, heap w' !! p = Some (it <| h_next := v |>).
Proof.
  intros (_ & _ & E) Hit. apply (f_equal (.!! p)) in E. rewrite !lookup_fmap, Hit in E.
  destruct (heap w' !! p) as [it'|]; [|done]. injection E. intros. exists (h_next it'). f_equal.
  destruct it, it'. simpl in *. by subst.
Qed.

Lemma same_shape_trans a b c : same_shape a b -> same_shape b c -> same_shape a c.
Proof. unfold same_shape. naive_solver congruence. Qed.

Lemma erase_set_link (h h' : gmap ptr item) p it v :
  erase_link <$> h' = erase_link <$> h -> h' !! p = Some it ->
  erase_link <$> <[p := it <| h_next := v |>]> h' = erase_link <$> h.
Proof. intros <- ?. by apply erase_link_insert. Qed.

(** ** Insert *)

Lemma assoc_insert_rep w A p it :
  assoc_rep w A -> p <> NULL -> heap w !! p = Some it -> nkey it = zlen (it_key it) ->
  A !! it_key it = None ->
  exists w', assoc_insert p (hash (it_key it)) w = Some (1, w') /\ assoc_frame w w'
    /\ assoc_rep w' (<[it_key it := p]> A).
Proof.
  intros (T & HI & HA) Hp Hit Hz Hnew.
  assert (forall c, p ∉ (T c).*1) as Hfresh by (intros c; by apply (rep_fresh w T A p it c)).
  remember (it_key it) as k eqn:Ek. set (c := bucket_of (mc_assoc w) (hash k)).
  destruct (bucket_head_home w T (hash k) HI) as (hd & Hr & Hb & Hc). fold c in Hr, Hb, Hc.
  set (w1 := w <| heap ::= <[p := it <| h_next := hd |>]> |>).
  exists (w1 <| mc_assoc ::= set_bucket c p |>). split_and!.
  - unfold assoc_insert. run. fold c. rewrite Hr. run. rewrite (update_item_ok _ _ _ _ Hp Hit).
    run. fold w1. by rewrite (write_cell_bucket w1 c p hd).
  - split_and!; unfold w1; upds; [done|apply set_bucket_shape|by apply erase_link_insert].
  - exists (set_chain T c ((p, k) :: T c)). split.
    + apply (assoc_inv_set w _ T c p _ HI); unfold w1; upds.
      * apply set_bucket_shape.
      * intros c'. by apply bucket_head_set with hd.
      * split_and!; [done|done|]. exists (it <| h_next := hd |>). rewrite lookup_insert_eq.
        split_and!; [done..|]. by apply hchain_insert_fresh.
      * intros c' q _. apply hchain_insert_fresh. done.
      * intros q k' [[= -> ->]|Hq]%elem_of_cons; [done|]. by eapply ai_home.
      * rewrite fmap_cons. constructor; [|by eapply ai_keys]. simpl.
        intros ([q k'] & -> & Hq%HA)%list_elem_of_fmap. simpl in Hnew. congruence.
    + unfold w1. upds. apply (represents_set (mc_assoc w) _ T A); fold c;
        [done|apply set_bucket_shape|..].
      * intros q. rewrite lookup_insert_eq, elem_of_cons. split; [|by intros [= ->]; left].
        intros [[= ->]|Hq%HA]; [done|congruence].
      * intros k' q Hne. rewrite elem_of_cons. split; [|by right]. intros [[= -> ->]|]; done.
      * intros k' Hne. by rewrite lookup_insert_ne.
Qed.

(** ** Delete *)

(** The cell that points at an item in its chain. *)
Definition cell_before (c : cell) (l1 : list (ptr * list Z)) : cell :=
  match last l1 with Some (q, _) => HNextOf q | None => c end.
Definition chain_head (l : list (ptr * list Z)) : ptr :=
  match l with [] => NULL | (p, _) :: _ => p end.

Lemma hchain_head h p l : hchain h p l -> p = chain_head l.
Proof. destruct l as [|[a k] l]; [done|by intros (-> & _)]. Qed.

Lemma cell_before_cons c q k l1 : cell_before c ((q, k) :: l1) = cell_before (HNextOf q) l1.
Proof.
  unfold cell_before. destruct l1 as [|x l1]; [done|]. rewrite (last_cons (q, k)).
  by destruct (last (x :: l1)) as [[]|] eqn:E; [|apply last_None in E].
Qed.

Lemma before_loop_spec w key c p l fuel :
  read_cell c w = Some (p, w) -> hchain (heap w) p l -> (length l < fuel)%nat ->
  exists l1 l2, l = l1 ++ l2 /\ key ∉ l1.*2
    /\ (l2 = [] \/ exists q l3, l2 = (q, key) :: l3)
    /\ before_loop fuel key c w = Some (cell_before c l1, w)
    /\ read_cell (cell_before c l1) w = Some (chain_head l2, w).
Proof.
  revert c p fuel. induction l as [|[x k] l IH]; intros c p fuel Hr Hc Hf;
    (destruct fuel as [|fuel]; [simpl in Hf; lia|]); cbn [before_loop]; run; rewrite Hr; run.
  - simpl in Hc. subst. rewrite decide_True by done. exists [], [].
    split_and!; [done|apply not_elem_of_nil|by left|done|done].
  - destruct Hc as (-> & Hx & it & Hit & Ek & En & Hl). rewrite decide_False by done. run.
    rewrite (load_ok _ _ _ Hx Hit). pose proof (key_matches_iff key it k Ek En) as Hm.
    destruct (key_matches key it).
    + rewrite (proj1 Hm) by done. exists [], ((x, key) :: l).
      split_and!; [done|apply not_elem_of_nil|right; eauto|done|done].
    + destruct (IH (HNextOf x) (h_next it) fuel) as (l1 & l2 & -> & Hk & Hl2 & E1 & E2).
      * cbn [read_cell]. run. by rewrite (load_ok _ _ _ Hx Hit).
      * done.
      * simpl in Hf. lia.
      * exists ((x, k) :: l1), l2. rewrite cell_before_cons. split_and!; [done| |done|done|done].
        rewrite fmap_cons. apply not_elem_of_cons. simpl. split; [|done].
        intros <-. by destruct Hm as [_ Hm]; specialize (Hm eq_refl).
Qed.

Lemma represents_delete a a' T A k p l1 l2 :
  represents a T A -> same_shape a a' -> NoDup (T (bucket_of a (hash k))).*2 ->
  T (bucket_of a (hash k)) = l1 ++ (p, k) :: l2 ->
  represents a' (set_chain T (bucket_of a (hash k)) (l1 ++ l2)) (base.delete k A).
Proof.
  intros HA Hs Hnd ET. apply (represents_set a a' T A); [done|done|..].
  - intros q. rewrite lookup_delete_eq. split; [|done]. intros Hin.
    rewrite ET, fmap_app, fmap_cons in Hnd. apply NoDup_app in Hnd as (_ & Hd & Hnd).
    apply NoDup_cons in Hnd as [Hn _]. apply elem_of_app in Hin as [Hin|Hin];
      apply (list_elem_of_fmap_2 snd) in Hin; simpl in *; [|done].
    destruct (Hd _ Hin). left.
  - intros k' q Hne. rewrite ET, !elem_of_app, elem_of_cons. naive_solver.
  - intros k' Hne. by rewrite lookup_delete_ne.
Qed.

(** An item is in one bucket only. *)
Lemma other_bucket w T c c' q k :
  assoc_inv w T -> (q, k) ∈ T c -> c' <> c -> q ∉ (T c').*1.
Proof.
  intros HI Hq Hne ([q' k'] & E & Hin)%list_elem_of_fmap. simpl in E. subst q'. apply Hne.
  destruct (bucket_item _ _ _ _ _ HI Hq) as (_ & i1 & H1 & K1 & _).
  destruct (bucket_item _ _ _ _ _ HI Hin) as (_ & i2 & H2 & K2 & _).
  assert (k' = k) as -> by congruence.
  rewrite <- (ai_home _ _ HI _ _ _ Hin). by apply (ai_home _ _ HI _ q).
Qed.

(** Cutting [p] out of the chain of [c]: the two writes of [assoc_delete]. *)
Lemma unchain_ok w T c hd l1 p k l2 it :
  assoc_inv w T -> bucket_head (mc_assoc w) c = Some hd -> T c = l1 ++ (p, k) :: l2 ->
  heap w !! p = Some it ->
  exists w', write_cell (cell_before c l1) (h_next it)
               (w <| heap ::= <[p := it <| h_next := NULL |>]> |>) = Some (tt, w')
    /\ assoc_frame w w'
    /\ (exists it', heap w' !! p = Some it' /\ h_next it' = NULL)
    /\ assoc_inv w' (set_chain T c (l1 ++ l2)).
Proof.
  intros HI Hb ET Hit. set (w1 := w <| heap ::= <[p := it <| h_next := NULL |>]> |>).
  pose proof (ai_chain _ _ HI _ _ Hb) as Hc. rewrite ET in Hc.
  pose proof (hchain_nodup _ _ _ Hc) as Hnd. rewrite fmap_app, fmap_cons in Hnd.
  apply NoDup_app in Hnd as (Hnd1 & Hd & [Hp2 Hnd2]%NoDup_cons).
  assert (p ∉ (l1 ++ l2).*1) as Hpl.
  { rewrite fmap_app, elem_of_app. intros [Hx|Hx]; [|done]. apply (Hd p Hx). left. }
  assert (hchain (heap w) (h_next it) l2) as Hl2.
  { apply hchain_suffix in Hc as (_ & _ & it' & Hit' & _ & _ & Hl2).
    by assert (it' = it) as -> by congruence. }
  assert (forall q k', (q, k') ∈ l1 ++ l2 -> bucket_of (mc_assoc w) (hash k') = c) as Hhome.
  { intros q k' Hq. apply (ai_home _ _ HI _ q). rewrite ET. set_solver. }
  assert (NoDup (l1 ++ l2).*2) as Hkeys.
  { pose proof (ai_keys _ _ HI c) as Hk. rewrite ET in Hk. revert Hk.
    rewrite !fmap_app, fmap_cons, !NoDup_app, NoDup_cons. set_solver. }
  destruct (last l1) as [[q kq]|] eqn:El; unfold cell_before; rewrite El.
  - apply last_Some in El as [l1' ->].
    assert (q <> p) as Hqp. { intros ->. apply (Hd p); [|left].
      apply (list_elem_of_fmap_2 fst _ (p, kq)). set_solver. }
    assert ((q, kq) ∈ T c) as Hq by (rewrite ET; set_solver).
    destruct (bucket_item _ _ _ _ _ HI Hq) as (Hq0 & qit & Hqit & _).
    assert (heap w1 !! q = Some qit) as Hqit1 by (unfold w1; upds; by rewrite lookup_insert_ne).
    exists (w1 <| heap ::= <[q := qit <| h_next := h_next it |>]> |>). split_and!.
    + cbn [write_cell]. by rewrite (update_item_ok _ _ _ _ Hq0 Hqit1).
    + split_and!; [done|done|]. unfold w1 in *. upds.
      apply erase_set_link; [by apply erase_link_insert|done].
    + exists (it <| h_next := NULL |>). unfold w1. upds.
      by rewrite lookup_insert_ne, lookup_insert_eq by done.
    + apply (assoc_inv_set w _ T c hd _ HI); [done|..|done|done].
      * intros c'. unfold w1. upds. case_decide; [by subst|done].
      * unfold w1. upds. rewrite insert_insert_ne by done. apply hchain_insert_fresh; [done|].
        rewrite <- app_assoc in Hc |- *. apply (hchain_redirect _ _ _ _ _ ((p, k) :: l2)); [done..| |done].
        intros Hq2. apply (Hd q); [|by right].
        apply (list_elem_of_fmap_2 fst _ (q, kq)). set_solver.
      * intros c' p' Hne Hc'. unfold w1. upds.
        assert ((p, k) ∈ T c) as Hp by (rewrite ET; set_solver).
        apply hchain_insert_fresh, hchain_insert_fresh; [..|done].
        -- by apply (other_bucket w T c _ _ kq).
        -- by apply (other_bucket w T c _ _ k).
  - apply last_None in El as ->. cbn [app] in *.
    exists (w1 <| mc_assoc ::= set_bucket c (h_next it) |>). split_and!.
    + by rewrite (write_cell_bucket w1 c _ hd).
    + split_and!; unfold w1; upds; [done|apply set_bucket_shape|by apply erase_link_insert].
    + exists (it <| h_next := NULL |>). unfold w1. upds. by rewrite lookup_insert_eq.
    + apply (assoc_inv_set w _ T c (h_next it) _ HI); unfold w1; upds; [..|done|done].
      * apply set_bucket_shape.
      * intros c'. by apply bucket_head_set with hd.
      * apply hchain_insert_fresh; done.
      * intros c' p' Hne Hc'. apply hchain_insert_fresh; [|done].
        apply (other_bucket w T c _ _ k); [done|rewrite ET; set_solver|done].
Qed.

Lemma assoc_delete_rep w A k p :
  assoc_rep w A -> A !! k = Some p ->
  exists w', assoc_delete k (hash k) w = Some (tt, w') /\ assoc_frame w w'
    /\ (exists it, heap w' !! p = Some it /\ h_next it = NULL)
    /\ assoc_rep w' (base.delete k A).
Proof.
  intros (T & HI & HA) Hp. set (c := bucket_of (mc_assoc w) (hash k)).
  destruct (bucket_head_home w T (hash k) HI) as (hd & Hr & Hb & Hc). fold c in Hr, Hb, Hc.
  apply HA in Hp as Hin. fold c in Hin.
  destruct (before_loop_spec w k c hd (T c) (chain_fuel w) Hr Hc) as (l1 & l2 & ET & Hk & Hl2 & E1 & E2);
    [by eapply hchain_length|].
  assert (exists l3, l2 = (p, k) :: l3) as (l3 & ->).
  { rewrite ET in Hin. apply elem_of_app in Hin as [Hin|Hin].
    { destruct Hk. by apply (list_elem_of_fmap_2 snd) in Hin. }
    destruct Hl2 as [->|(q & l3 & ->)]; [by apply not_elem_of_nil in Hin|].
    assert (A !! k = Some q) as Hq by (apply HA; fold c; rewrite ET; set_solver).
    exists l3. congruence. }
  destruct (bucket_item _ _ _ _ _ HI Hin) as (Hp0 & it & Hit & _).
  destruct (unchain_ok w T c hd l1 p k l3 it HI Hb ET Hit) as (w' & Hw & Hf & Hn & HI').
  exists w'. split_and!; [|done|done|].
  - unfold assoc_delete, hashitem_before. run. fold c. rewrite E1. run. rewrite E2. run. cbn [chain_head].
    rewrite decide_False by done. run. rewrite (load_ok _ _ _ Hp0 Hit). run.
    by rewrite (update_item_ok _ _ _ _ Hp0 Hit).
  - exists (set_chain T c (l1 ++ l3)). split; [done|].
    apply (represents_delete (mc_assoc w) _ T A k p); [done|apply Hf|apply (ai_keys _ _ HI)|done].
Qed.

(** ** Frame *)

(** The representation depends on the table, and on the links and keys of the
    items of the map only. *)
Lemma assoc_rep_frame w w' A :
  assoc_rep w A -> mc_assoc w' = mc_assoc w ->
  (forall k p it, A !! k = Some p -> heap w !! p = Some it ->
     exists it', heap w' !! p = Some it' /\ same_link it it') ->
  assoc_rep w' A.
Proof.
  intros (T & HI & HA) Ea Hf. exists T. rewrite <- Ea in HA. split; [|done].
  destruct HI as [I1 I2 I3 I4 I5 I6]. split; rewrite ?Ea; [done..| |done|done].
  intros c p Hb. apply (hchain_frame (heap w)); [by apply I4|].
  intros a it ([a' k] & E & Hin)%list_elem_of_fmap Hit. simpl in E. subst a'.
  apply (Hf k); [|done]. apply HA. rewrite Ea. by rewrite (I5 _ _ _ Hin).
Qed.

End spec.
