(* ===== verification/AssocGrow.v ===== *)
(** * Growing the hash table

    Doubling the table and moving its buckets over one at a time keep the map
    the table stands for, and the maintenance thread finishes the expansion once
    it got the lock of every old bucket. *)

From S2P Require Import Prelude Memory Assoc AssocSpec.

Section grow.
Context `{HashFunction}.
Implicit Types (w : mc) (a : assoc) (A : gmap (list Z) ptr) (l : list (ptr * list Z)).

(** ** Doubling *)

Lemma ht_get_calloc n i p : ht_get (ht_calloc n) i = Some p -> p = NULL.
Proof. unfold ht_get. case_decide; [|done]. simpl. by intros [= <-]. Qed.

Lemma hashsize_succ n : 0 <= n <= 30 -> hashsize (n + 1) = 2 ^ (n + 1).
Proof. intros. apply hashsize_pow. lia. Qed.

(** All items are in old buckets after doubling. *)
Lemma assoc_expand_rep ok w A :
  assoc_rep w A -> expanding (mc_assoc w) = false -> hashpower (mc_assoc w) <= 30 ->
  exists w', assoc_expand ok w = Some (tt, w') /\ heap w' = heap w
    /\ assoc_rep w' A
    /\ expanding (mc_assoc w') = ok
    /\ hashpower (mc_assoc w') = hashpower (mc_assoc w) + (if ok then 1 else 0)
    /\ expand_bucket (mc_assoc w') = if ok then 0 else expand_bucket (mc_assoc w).
Proof.
  intros (T & HI & HA) He Hle. pose proof (ai_hp _ _ HI) as Hhp. unfold assoc_expand. run.
  destruct ok; run; (eexists; split; [reflexivity|]); upds; split; [done| |done|].
  2: { rewrite He, Z.add_0_r. split_and!; [|done..]. exists T.
       destruct HI as [I1 I2 I3 I4 I5 I6]. split; [split|]; upds; rewrite ?He; try done.
       intros c p. destruct c; cbn [bucket_head] in *; upds; rewrite ?He; try done.
       apply (I4 (PrimaryCell i)). }
  split_and!; [|done..].
  set (hp := hashpower (mc_assoc w)) in *.
  set (T' := fun c => match c with OldCell i => T (PrimaryCell i) | _ => [] end).
  assert (forall hv, bucket_of (mc_assoc w) hv = PrimaryCell (hv mod 2 ^ hp)) as B0.
  { intros hv. by rewrite bucket_of_mod, He by lia. }
  match goal with |- assoc_rep ?x _ => set (w' := x) end.
  assert (forall hv, bucket_of (mc_assoc w') hv = OldCell (hv mod 2 ^ hp)) as B1.
  { intros hv. unfold w'. rewrite bucket_of_mod by (upds; fold hp; lia). upds. fold hp.
    replace (Z.succ hp - 1) with hp by lia.
    assert (0 <= hv mod 2 ^ hp < 2 ^ hp) by (apply Z.mod_pos_bound, Z.pow_pos_nonneg; lia).
    by rewrite andb_true_l, Zle_imp_le_bool by lia. }
  exists T'. split.
  - destruct HI as [I1 I2 I3 I4 I5 I6]. split.
    + unfold w'. upds. fold hp. lia.
    + unfold w'. upds. fold hp. cbn [ht_calloc ht_size]. rewrite hashsize_succ by lia.
      by rewrite Z.add_1_r.
    + intros _. unfold w'. upds. fold hp. replace (Z.succ hp - 1) with hp by lia. split; [done|].
      split; [done|apply Z.pow_pos_nonneg; lia].
    + intros c p. destruct c as [i|i|]; unfold w'; cbn [bucket_head]; upds; [| |done].
      * intros ->%ht_get_calloc. done.
      * intros Hg. by apply (I4 (PrimaryCell i)).
    + intros c p k Hin. rewrite B1. destruct c as [i|i|]; [by apply not_elem_of_nil in Hin| |
        by apply not_elem_of_nil in Hin]. apply I5 in Hin. rewrite B0 in Hin. congruence.
    + intros c. destruct c; [constructor|apply I6|constructor].
  - intros k p. by rewrite B1, (HA k p), B0.
Qed.

(** ** Moving a bucket *)

(** Where a key goes in the primary table. *)
Definition prim (w : mc) (k : list Z) : cell :=
  PrimaryCell (hash k mod 2 ^ hashpower (mc_assoc w)).

(** The chains after the items [l] of the old bucket [b] were pushed one after
    the other on the chains of the primary table. *)
Definition migrated (w : mc) (T : buckets) (b : Z) l (c : cell) : list (ptr * list Z) :=
  match c with
  | OldCell i => if decide (i = b) then [] else T c
  | c => reverse (filter (fun x => prim w x.2 = c) l) ++ T c
  end.

(** The chains of all buckets but the one being moved. *)
Definition chains_but (w : mc) (b : Z) (T : buckets) : Prop :=
  forall c p, c <> OldCell b -> bucket_head (mc_assoc w) c = Some p -> hchain (heap w) p (T c).

Lemma migrated_push w T b x k l c :
  c <> OldCell b ->
  migrated w (set_chain T (prim w k) ((x, k) :: T (prim w k))) b l c = migrated w T b ((x, k) :: l) c.
Proof.
  intros Hc. unfold migrated, set_chain. destruct c as [j|j|q].
  - rewrite filter_cons. cbn [snd]. repeat case_decide; subst; try done; try congruence.
    rewrite reverse_cons, <- app_assoc. cbn [app]. congruence.
  - by case_decide.
  - rewrite filter_cons. cbn [snd]. by repeat case_decide.
Qed.

Lemma prim_head w k :
  1 <= hashpower (mc_assoc w) <= 31 ->
  ht_size (primary_hashtable (mc_assoc w)) = 2 ^ hashpower (mc_assoc w) ->
  exists hd, bucket_head (mc_assoc w) (prim w k) = Some hd
    /\ read_cell (prim w k) w = Some (hd, w).
Proof.
  intros Hhp Hp. unfold prim. cbn [bucket_head read_cell]. run. unfold lift, ht_get.
  assert (0 <= hash k mod 2 ^ hashpower (mc_assoc w) < 2 ^ hashpower (mc_assoc w))
    by (apply Z.mod_pos_bound, Z.pow_pos_nonneg; lia).
  rewrite decide_True by lia. eauto.
Qed.

Lemma assoc_frame_refl w : assoc_frame w w.
Proof. split_and!; by destruct w. Qed.

Lemma assoc_frame_trans w1 w2 w3 : assoc_frame w1 w2 -> assoc_frame w2 w3 -> assoc_frame w1 w3.
Proof.
  intros (E1 & S1 & F1) (E2 & S2 & F2). split_and!.
  - destruct w1, w2, w3. cbv in E1, E2 |- *. congruence.
  - by eapply same_shape_trans.
  - by rewrite F2.
Qed.

Lemma migrate_loop_spec w T b it l fuel :
  1 <= hashpower (mc_assoc w) <= 31 ->
  ht_size (primary_hashtable (mc_assoc w)) = 2 ^ hashpower (mc_assoc w) ->
  chains_but w b T -> hchain (heap w) it l -> (length l < fuel)%nat ->
  (forall c p, c <> OldCell b -> p ∈ l.*1 -> p ∉ (T c).*1) ->
  exists w', migrate_loop fuel it w = Some (tt, w') /\ assoc_frame w w'
    /\ old_hashtable (mc_assoc w') = old_hashtable (mc_assoc w)
    /\ chains_but w' b (migrated w T b l).
Proof.
  revert w T it fuel. induction l as [|[x k] l IH]; intros w T it fuel Hhp Hp Hc Hl Hf Hd;
    (destruct fuel as [|fuel]; [simpl in Hf; lia|]); cbn [migrate_loop].
  - simpl in Hl. subst. rewrite decide_True by done. exists w.
    split_and!; [done|apply assoc_frame_refl|done|].
    intros [j|j|q] p Hne Hb; unfold migrated; [by apply Hc| |done].
    rewrite decide_False by congruence. by apply Hc.
  - pose proof (hchain_nodup _ _ _ Hl) as Hnd. apply NoDup_cons in Hnd as [Hx Hnd]. simpl in Hx.
    destruct Hl as (-> & Hx0 & i & Hi & Ek & En & Hl). rewrite decide_False by done. run.
    rewrite (load_ok _ _ _ Hx0 Hi). run. unfold ITEM_key.
    rewrite En, Ek, ztake_all, land_hashmask by lia. fold (prim w k).
    destruct (prim_head w k) as (hd & Hhd & ->); [done..|]. run.
    rewrite (update_item_ok _ _ _ _ Hx0 Hi). run.
    set (w1 := w <| heap ::= <[x := i <| h_next := hd |>]> |>).
    rewrite (write_cell_bucket w1 _ x hd) by done. run.
    set (w2 := w1 <| mc_assoc ::= set_bucket (prim w k) x |>).
    assert (assoc_frame w w2) as Hfr.
    { split_and!; unfold w2, w1; upds; [done|apply set_bucket_shape|by apply erase_link_insert]. }
    set (T2 := set_chain T (prim w k) ((x, k) :: T (prim w k))).
    destruct (IH w2 T2 (h_next i) fuel) as (w' & -> & Hfr' & Eo & Hc').
    + done.
    + done.
    + intros c p Hne. unfold w2, w1, T2, set_chain. upds. rewrite (bucket_head_set _ _ _ _ _ Hhd).
      assert (x ∉ (T c).*1) as Hxc by (apply Hd; [done|left]).
      case_decide; [intros [= <-]; subst c|intros Hb; apply hchain_insert_fresh; [done|by apply Hc]].
      split_and!; [done..|]. exists (i <| h_next := hd |>). rewrite lookup_insert_eq.
      split_and!; [done..|]. apply hchain_insert_fresh; [done|by apply Hc].
    + unfold w2, w1. upds. by apply hchain_insert_fresh.
    + simpl in Hf. lia.
    + intros c p Hne Hin. unfold T2, set_chain. case_decide; [subst c|].
      * rewrite fmap_cons. simpl. apply not_elem_of_cons. split; [by intros ->|].
        apply Hd; [done|by right].
      * apply Hd; [done|by right].
    + exists w'. split_and!; [done|by eapply assoc_frame_trans|by rewrite Eo|].
      intros c p Hne Hb. rewrite <- migrated_push by done. by apply Hc'.
Qed.

Lemma elem_of_migrated w T b l p k :
  (p, k) ∈ migrated w T b l (prim w k) <-> (p, k) ∈ l \/ (p, k) ∈ T (prim w k).
Proof.
  unfold migrated, prim at 1. cbn. rewrite elem_of_app, elem_of_reverse, list_elem_of_filter.
  cbn. fold (prim w k). naive_solver.
Qed.

(** The state once bucket [expand_bucket] was moved: its home buckets. *)
Definition advanced (a a' : assoc) : Prop :=
  hashpower a' = hashpower a
  /\ ht_size (primary_hashtable a') = ht_size (primary_hashtable a)
  /\ expand_bucket a' = expand_bucket a + 1
  /\ expanding a' = negb (expand_bucket a + 1 =? 2 ^ (hashpower a - 1)).

Lemma advanced_bucket a a' hv :
  1 <= hashpower a <= 31 -> 0 <= expand_bucket a < 2 ^ (hashpower a - 1) ->
  advanced a a' ->
  bucket_of a' hv =
    if expand_bucket a + 1 <=? hv mod 2 ^ (hashpower a - 1)
    then OldCell (hv mod 2 ^ (hashpower a - 1)) else PrimaryCell (hv mod 2 ^ hashpower a).
Proof.
  intros Hhp Hb (E1 & E2 & E3 & E4). rewrite bucket_of_mod, E1, E3, E4 by lia.
  assert (0 <= hv mod 2 ^ (hashpower a - 1) < 2 ^ (hashpower a - 1))
    by (apply Z.mod_pos_bound, Z.pow_pos_nonneg; lia).
  destruct (Z.eqb_spec (expand_bucket a + 1) (2 ^ (hashpower a - 1))); cbn; [|done].
  by rewrite (proj2 (Z.leb_gt _ _)) by lia.
Qed.

(** In terms of the homes before the step: only bucket [b] changes home. *)
Lemma advanced_home w w' k :
  1 <= hashpower (mc_assoc w) <= 31 -> expanding (mc_assoc w) = true ->
  0 <= expand_bucket (mc_assoc w) < 2 ^ (hashpower (mc_assoc w) - 1) ->
  advanced (mc_assoc w) (mc_assoc w') ->
  bucket_of (mc_assoc w') (hash k) =
    if decide (bucket_of (mc_assoc w) (hash k) = OldCell (expand_bucket (mc_assoc w)))
    then prim w k else bucket_of (mc_assoc w) (hash k).
Proof.
  intros Hhp He Hb Hadv. rewrite (advanced_bucket _ _ _ Hhp Hb Hadv), bucket_of_mod, He by done.
  cbn. unfold prim. set (ob := hash k mod 2 ^ (hashpower (mc_assoc w) - 1)).
  destruct (Z.leb_spec (expand_bucket (mc_assoc w) + 1) ob),
    (Z.leb_spec (expand_bucket (mc_assoc w)) ob); [|lia| |by rewrite decide_False].
  - rewrite decide_False; [done|]. intros [=]. lia.
  - rewrite decide_True; [done|]. f_equal. lia.
Qed.

(** Home buckets and representation of the moved chains. *)
Lemma migrated_home w w' T :
  assoc_inv w T -> expanding (mc_assoc w) = true -> advanced (mc_assoc w) (mc_assoc w') ->
  forall c p k,
    (p, k) ∈ migrated w T (expand_bucket (mc_assoc w)) (T (OldCell (expand_bucket (mc_assoc w)))) c ->
    bucket_of (mc_assoc w') (hash k) = c.
Proof.
  intros HI He Hadv c p k Hin. destruct (ai_old _ _ HI He) as [_ Hb].
  rewrite (advanced_home w w' k (ai_hp _ _ HI) He Hb Hadv).
  assert (forall c', (p, k) ∈ T c' -> bucket_of (mc_assoc w) (hash k) = c') as Hh
    by (intros c' ?; by eapply ai_home).
  unfold migrated in Hin. destruct c as [j|j|q].
  - apply elem_of_app in Hin as [Hin|Hin].
    + apply elem_of_reverse, list_elem_of_filter in Hin as [<- Hin].
      by rewrite (Hh _ Hin), decide_True.
    + by rewrite (Hh _ Hin), decide_False.
  - case_decide; [by apply not_elem_of_nil in Hin|]. rewrite (Hh _ Hin), decide_False by congruence.
    done.
  - apply elem_of_app in Hin as [Hin|Hin].
    + apply elem_of_reverse, list_elem_of_filter in Hin as [Hin _]. done.
    + by rewrite (Hh _ Hin), decide_False.
Qed.

Lemma migrated_represents w w' T A :
  assoc_inv w T -> expanding (mc_assoc w) = true -> advanced (mc_assoc w) (mc_assoc w') ->
  represents (mc_assoc w) T A ->
  represents (mc_assoc w')
    (migrated w T (expand_bucket (mc_assoc w)) (T (OldCell (expand_bucket (mc_assoc w))))) A.
Proof.
  intros HI He Hadv HA k p. destruct (ai_old _ _ HI He) as [_ Hb].
  rewrite (HA k p), (advanced_home w w' k (ai_hp _ _ HI) He Hb Hadv).
  assert (forall c', (p, k) ∈ T c' -> bucket_of (mc_assoc w) (hash k) = c') as Hh
    by (intros c' ?; by eapply ai_home).
  case_decide as Ed.
  - rewrite elem_of_migrated, <- Ed. split; [by left|]. intros [|Hin]; [done|].
    by rewrite (Hh _ Hin).
  - destruct (bucket_of (mc_assoc w) (hash k)) as [j|j|q] eqn:E; unfold migrated.
    + rewrite elem_of_app, elem_of_reverse, list_elem_of_filter. split; [by right|].
      intros [[_ Hin]|]; [|done]. apply Hh in Hin. congruence.
    + by rewrite decide_False by congruence.
    + by rewrite bucket_of_mod in E by apply HI; case_match.
Qed.

Lemma pushed_keys w T b c :
  assoc_inv w T -> c <> OldCell b ->
  NoDup (reverse (filter (fun x => prim w x.2 = c) (T (OldCell b))) ++ T c).*2.
Proof.
  intros HI Hne. pose proof (ai_keys _ _ HI) as Hk. rewrite fmap_app. apply NoDup_app. split_and!.
  - rewrite fmap_reverse, reverse_Permutation.
    eapply sublist_NoDup; [apply (Hk (OldCell b))|apply fmap_sublist, sublist_filter].
  - intros k ([p k1] & -> & [_ Hin]%elem_of_reverse%list_elem_of_filter)%list_elem_of_fmap
      ([p' k2] & E & Hin')%list_elem_of_fmap. simpl in E. subst k2.
    apply (ai_home _ _ HI) in Hin, Hin'. congruence.
  - apply Hk.
Qed.

Lemma migrated_keys w T b c : assoc_inv w T -> NoDup (migrated w T b (T (OldCell b)) c).*2.
Proof.
  intros HI. unfold migrated. destruct c as [j|j|q]; [by apply pushed_keys| |by apply pushed_keys].
  case_decide; [constructor|by apply ai_keys with w].
Qed.

(** The two writes that close a step. *)
Definition closed (w : mc) : mc :=
  let b := expand_bucket (mc_assoc w) in
  let w1 := w <| mc_assoc ::= set_bucket (OldCell b) NULL |>
              <| mc_assoc ::= fun a => a <| expand_bucket := b + 1 |> |> in
  if b + 1 =? hashsize (hashpower (mc_assoc w) - 1) then
    w1 <| mc_assoc ::= fun a => a <| expanding := false |> |>
       <| mc_stats ::= fun s =>
            s <| hash_bytes ::= fun x => u64 (x - hashsize (hashpower (mc_assoc w) - 1) * 8) |>
              <| hash_is_expanding := false |> |>
  else w1.

Lemma closed_fields w :
  1 <= hashpower (mc_assoc w) <= 31 -> expanding (mc_assoc w) = true ->
  heap (closed w) = heap w /\ advanced (mc_assoc w) (mc_assoc (closed w))
  /\ ht_size (old_hashtable (mc_assoc (closed w))) = ht_size (old_hashtable (mc_assoc w))
  /\ primary_hashtable (mc_assoc (closed w)) = primary_hashtable (mc_assoc w)
  /\ forall c p, bucket_head (mc_assoc (closed w)) c = Some p ->
       (c = OldCell (expand_bucket (mc_assoc w)) /\ p = NULL)
       \/ (c <> OldCell (expand_bucket (mc_assoc w)) /\ bucket_head (mc_assoc w) c = Some p).
Proof.
  intros Hhp He. unfold closed, advanced. rewrite hashsize_pow by lia.
  destruct (_ =? _) eqn:E; upds; (split_and!; [done..|]); intros c p.
  - destruct c as [i|i|]; cbn [bucket_head]; upds; [|done|done]. by right.
  - destruct c as [i|i|]; cbn [bucket_head set_bucket]; upds; [by right| |done]. rewrite He.
    unfold ht_get. cbn. case_decide; [|done].
    destruct (decide (i = expand_bucket (mc_assoc w))) as [->|Hne].
    + rewrite lookup_insert_eq. intros [= <-]. by left.
    + rewrite lookup_insert_ne by done. intros. right. split; [congruence|done].
Qed.

Lemma maintenance_step_rep w A :
  assoc_rep w A -> expanding (mc_assoc w) = true ->
  exists w', maintenance_step true w = Some (tt, w')
    /\ erase_link <$> heap w' = erase_link <$> heap w
    /\ advanced (mc_assoc w) (mc_assoc w') /\ assoc_rep w' A.
Proof.
  intros (T & HI & HA) He. destruct (ai_old _ _ HI He) as [Ho Hb].
  set (b := expand_bucket (mc_assoc w)) in *.
  assert (exists hd, bucket_head (mc_assoc w) (OldCell b) = Some hd
            /\ read_cell (OldCell b) w = Some (hd, w)) as (hd & Hhd & Hr).
  { cbn [bucket_head read_cell]. rewrite He. run. unfold lift, ht_get. rewrite decide_True by lia. eauto. }
  pose proof (ai_chain _ _ HI _ _ Hhd) as Hc.
  destruct (migrate_loop_spec w T b hd (T (OldCell b)) (chain_fuel w)) as (w1 & E1 & Hfr & Eo & Hch).
  { apply HI. } { apply HI. } { intros c p _. apply (ai_chain _ _ HI). } { done. }
  { by eapply hchain_length. }
  { intros c p Hne ([q k] & -> & Hin)%list_elem_of_fmap. by eapply other_bucket. }
  destruct Hfr as (Ew1 & (S1 & S2 & S3 & S4 & S5) & Eh).
  assert (bucket_head (mc_assoc w1) (OldCell b) = Some hd) as Hhd1
    by (cbn [bucket_head] in *; rewrite S2, Eo; done).
  destruct (closed_fields w1) as (F1 & F2 & F3 & F4 & F5); [rewrite S1; apply HI|by rewrite S2|].
  assert (advanced (mc_assoc w) (mc_assoc (closed w1))) as Hadv.
  { destruct F2 as (G1 & G2 & G3 & G4). unfold advanced. rewrite G1, G2, G3, G4, S1, S3, S4. done. }
  exists (closed w1). split_and!; [|by rewrite F1|done|].
  - unfold maintenance_step. run. fold b. rewrite Hr. run. rewrite E1. run.
    rewrite (write_cell_bucket _ _ NULL _ Hhd1). run. unfold b. rewrite <- S3. unfold closed.
    destruct (_ =? _); run; reflexivity.
  - exists (migrated w T b (T (OldCell b))). split; [|by apply migrated_represents].
    pose proof Hadv as (G1 & G2 & G3 & G4). rewrite S3 in F5. fold b in F5, G3, G4. split.
    + rewrite G1. apply HI.
    + rewrite G1, G2. apply HI.
    + rewrite G1, F3, S5, G3. intros Hex. split; [done|]. rewrite G4 in Hex.
      apply negb_true_iff, Z.eqb_neq in Hex. lia.
    + intros c p [[-> ->]|[Hne Hp]]%F5; rewrite F1; [|by apply Hch].
      unfold migrated. by rewrite decide_True.
    + by apply migrated_home.
    + intros c. by apply migrated_keys.
Qed.

(** ** The whole expansion *)

(** How often the item lock is obtained. *)
Definition taken (locks : list bool) : Z := zlen (filter (fun got => got = true) locks).

Lemma taken_cons got locks : taken (got :: locks) = (if got then 1 else 0) + taken locks.
Proof.
  unfold taken, zlen. rewrite filter_cons. destruct got; case_decide; try done; cbn [length]; lia.
Qed.

Lemma maintenance_bulk_rep locks w A :
  assoc_rep w A ->
  exists w', maintenance_bulk locks w = Some (tt, w')
    /\ erase_link <$> heap w' = erase_link <$> heap w
    /\ hashpower (mc_assoc w') = hashpower (mc_assoc w) /\ assoc_rep w' A
    /\ (expanding (mc_assoc w) = false
        \/ 2 ^ (hashpower (mc_assoc w) - 1) - expand_bucket (mc_assoc w) <= taken locks ->
        expanding (mc_assoc w') = false).
Proof.
  revert w. induction locks as [|got locks IH]; intros w HR; cbn [maintenance_bulk].
  - exists w. split_and!; [done..|]. destruct (expanding (mc_assoc w)) eqn:He; [|done].
    intros [|Hle]; [done|]. destruct HR as (T & HI & _). destruct (ai_old _ _ HI He).
    change (taken []) with 0 in Hle. lia.
  - run. destruct (expanding (mc_assoc w)) eqn:He; [|exists w; by split_and!].
    rewrite taken_cons. destruct got.
    + destruct (maintenance_step_rep w A HR He) as (w1 & E1 & Eh & (G1 & G2 & G3 & G4) & HR1).
      rewrite run_bind, E1.
      destruct (IH w1 HR1) as (w' & -> & Eh' & Ehp & HR' & Hfin). exists w'.
      rewrite Ehp, G1. split_and!; [done|by rewrite Eh'|done|done|]. intros [|Hle]; [done|].
      apply Hfin. rewrite G1, G3, G4. destruct (Z.eqb_spec (expand_bucket (mc_assoc w) + 1)
        (2 ^ (hashpower (mc_assoc w) - 1))); [by left|right; lia].
    + rewrite run_bind. cbn [maintenance_step]. run. destruct (IH w HR) as (w' & -> & Eh' & Ehp & HR' & Hfin). exists w'.
      split_and!; [done..|]. intros [|Hle]; [done|]. apply Hfin. right. lia.
Qed.

End grow.
