(* ===== verification/AssocIter.v ===== *)
(** * Walking the hash table, and its properties

    The crawler's walk over the table, and the claims of this component. *)

From S2P Require Import Prelude Memory Assoc AssocSpec AssocGrow.

(** The loop a client of the iterator runs: the items handed out until
    [assoc_iterate] returns false. *)
Fixpoint iterate_all (fuel : nat) (iter : assoc_iterator) : M mc (list ptr) :=
  match fuel with
  | O => ub
  | S fuel =>
      r ← assoc_iterate iter;
      let '(more, it, iter) := r in
      if (more : bool) then
        rest ← iterate_all fuel iter;
        mret (if decide (it = NULL) then rest else it :: rest)
      else mret []
  end.

Section iter.
Context `{HashFunction}.
Implicit Types (w : mc) (A : gmap (list Z) ptr).

Lemma iterate_next w b it p i :
  p <> NULL -> heap w !! p = Some i ->
  assoc_iterate (AssocIterator b true it p) w = Some (true, p, AssocIterator b true p (h_next i), w).
Proof.
  intros Hp Hi. unfold assoc_iterate. run. cbn [ai_bucket_locked ai_next].
  rewrite decide_True by done. run. by rewrite (load_ok _ _ _ Hp Hi).
Qed.

Lemma iterate_unlock w b it :
  0 <= b < 2 ^ 32 - 1 ->
  assoc_iterate (AssocIterator b true it NULL) w
    = Some (true, NULL, AssocIterator (b + 1) false it NULL, w).
Proof.
  intros Hb. unfold assoc_iterate. run. cbn [ai_bucket_locked ai_next ai_bucket ai_it].
  rewrite decide_False by tauto. run. by rewrite u32_id by lia.
Qed.

(** The items of a locked bucket are handed out one by one. *)
Lemma iterate_bucket w b it p (l : list (ptr * list Z)) fuel (rest : list ptr) :
  hchain (heap w) p l -> 0 <= b < 2 ^ 32 - 1 ->
  (forall it' p', iterate_all fuel (AssocIterator (b + 1) false it' p') w = Some (rest, w)) ->
  iterate_all (S (length l) + fuel) (AssocIterator b true it p) w = Some (l.*1 ++ rest, w).
Proof.
  revert it p. induction l as [|[x k] l IH]; intros it p Hc Hb Hrest.
  - simpl in Hc. subst p. cbn [length Nat.add iterate_all]. run. rewrite iterate_unlock by done. run. by rewrite Hrest.
  - destruct Hc as (-> & Hx & i & Hi & _ & _ & Hl).
    change (S (length ((x, k) :: l)) + fuel)%nat with (S (S (length l) + fuel)).
    remember (S (length l) + fuel)%nat as n. cbn [iterate_all]. run.
    rewrite (iterate_next _ _ _ _ _ Hx Hi). run. rewrite IH by done. run. by rewrite decide_False.
Qed.

(** Opening bucket [b]: its first item, or on to the next bucket. *)
Lemma iterate_open w T b it p :
  assoc_inv w T -> 0 <= b < 2 ^ hashpower (mc_assoc w) ->
  exists hd, hchain (heap w) hd (T (PrimaryCell b))
    /\ assoc_iterate (AssocIterator b false it p) w
       = Some (match T (PrimaryCell b) with
               | [] => (true, NULL, AssocIterator (b + 1) false NULL p)
               | (x, _) :: _ => (true, x, AssocIterator b true x
                                   (from_option h_next NULL (heap w !! x)))
               end, w).
Proof.
  intros HI Hb. pose proof (ai_hp _ _ HI) as Hhp.
  assert (2 ^ hashpower (mc_assoc w) <= 2 ^ 31) by (apply Z.pow_le_mono_r; lia).
  pose proof (ai_chain _ _ HI (PrimaryCell b)) as Hc. cbn [bucket_head] in Hc.
  unfold ht_get in Hc. rewrite (ai_primary _ _ HI), decide_True in Hc by lia.
  specialize (Hc _ eq_refl). eexists. split; [exact Hc|]. unfold assoc_iterate. run.
  cbn [ai_bucket_locked ai_bucket]. rewrite hashsize_pow by lia.
  rewrite (proj2 (Z.eqb_neq _ _)) by lia. cbn [negb read_cell]. run.
  unfold lift, ht_get. rewrite (ai_primary _ _ HI), decide_True by lia. run.
  destruct (T (PrimaryCell b)) as [|[x k] l].
  - simpl in Hc. rewrite Hc. rewrite decide_False by tauto. run. by rewrite u32_id by lia.
  - destruct Hc as (-> & Hx & i & Hi & _). rewrite decide_True by done. run.
    rewrite (load_ok _ _ _ Hx Hi). run. by rewrite Hi.
Qed.

(** The walk from an unlocked bucket on. *)
Lemma iterate_from w T n b :
  assoc_inv w T -> 2 ^ hashpower (mc_assoc w) = b + Z.of_nat n -> 0 <= b ->
  exists fuel0, forall fuel it p, (fuel0 <= fuel)%nat ->
    iterate_all fuel (AssocIterator b false it p) w
      = Some (concat (map (fun i => (T (PrimaryCell i)).*1) (seqZ b (Z.of_nat n))), w).
Proof.
  intros HI. pose proof (ai_hp _ _ HI) as Hhp. revert b. induction n as [|n IH]; intros b Hn Hb.
  - exists 1%nat. intros [|fuel] it p Hf; [lia|]. cbn [iterate_all]. unfold assoc_iterate. run.
    cbn [ai_bucket_locked ai_bucket]. rewrite hashsize_pow by lia.
    rewrite (proj2 (Z.eqb_eq b _)) by lia. run. done.
  - assert (2 ^ hashpower (mc_assoc w) <= 2 ^ 31) by (apply Z.pow_le_mono_r; lia).
    destruct (IH (b + 1)) as (f0 & Hf0); [lia..|].
    exists (S (length (T (PrimaryCell b)) + f0)). intros [|fuel] it p Hf; [lia|].
    rewrite seqZ_cons by lia. replace (Z.pred (Z.of_nat (S n))) with (Z.of_nat n) by lia.
    rewrite <- Z.add_1_r. cbn [map concat iterate_all].
    destruct (iterate_open w T b it p HI) as (hd & Hc & E); [lia|]. run. rewrite E. run.
    destruct (T (PrimaryCell b)) as [|[x k] l].
    + run. rewrite Hf0 by (cbn in Hf; lia). run. done.
    + destruct Hc as (_ & Hx & i & Hi & _ & _ & Hl). rewrite Hi. cbn [from_option]. run.
      replace fuel with (S (length l) + (fuel - S (length l)))%nat by (cbn in Hf; lia).
      rewrite (iterate_bucket w b x (h_next i) l _
        (concat (map (fun i => (T (PrimaryCell i)).*1) (seqZ (b + 1) (Z.of_nat n))))).
      * run. by rewrite decide_False.
      * done.
      * lia.
      * intros it' p'. apply Hf0. cbn in Hf. lia.
Qed.

Lemma elem_of_walk (T : buckets) n p :
  p ∈ concat (map (fun i => (T (PrimaryCell i)).*1) (seqZ 0 n))
  <-> exists i k, 0 <= i < n /\ (p, k) ∈ T (PrimaryCell i).
Proof.
  rewrite list_elem_of_In, in_concat. setoid_rewrite in_map_iff. split.
  - intros (l & (i & <- & Hi) & Hp). apply list_elem_of_In, elem_of_seqZ in Hi.
    apply list_elem_of_In, list_elem_of_fmap in Hp as ([q k] & -> & Hp). exists i, k. split; [lia|done].
  - intros (i & k & Hi & Hp). exists (T (PrimaryCell i)).*1. split.
    + exists i. split; [done|]. apply list_elem_of_In, elem_of_seqZ. lia.
    + apply list_elem_of_In, (list_elem_of_fmap_2 fst _ _ Hp).
Qed.

Lemma nodup_walk w T n b :
  assoc_inv w T -> 0 <= b -> b + Z.of_nat n = 2 ^ hashpower (mc_assoc w) ->
  NoDup (concat (map (fun i => (T (PrimaryCell i)).*1) (seqZ b (Z.of_nat n)))).
Proof.
  intros HI. revert b. induction n as [|n IH]; intros b Hb Hn; [constructor|].
  rewrite seqZ_cons by lia. replace (Z.pred (Z.of_nat (S n))) with (Z.of_nat n) by lia.
  rewrite <- Z.add_1_r. cbn [map concat]. apply NoDup_app. split_and!.
  - pose proof (ai_hp _ _ HI). destruct (iterate_open w T b NULL NULL HI) as (hd & Hc & _); [lia|].
    by eapply hchain_nodup.
  - intros p ([q k] & -> & Hp)%list_elem_of_fmap Hin.
    apply list_elem_of_In, in_concat in Hin as (l & Hl & Hin).
    apply in_map_iff in Hl as (i & <- & Hi). apply list_elem_of_In, elem_of_seqZ in Hi.
    apply list_elem_of_In in Hin. revert Hin. apply (other_bucket w T (PrimaryCell b) _ _ k); [done..|].
    intros [=]. lia.
  - apply IH; lia.
Qed.

Lemma iterate_rep w A :
  assoc_rep w A -> expanding (mc_assoc w) = false ->
  exists items fuel0, NoDup items /\ (forall p, p ∈ items <-> exists k, A !! k = Some p)
    /\ forall fuel, (fuel0 <= fuel)%nat -> iterate_all fuel assoc_get_iterator w = Some (items, w).
Proof.
  intros (T & HI & HA) He. set (n := Z.to_nat (2 ^ hashpower (mc_assoc w))).
  pose proof (ai_hp _ _ HI) as Hhp.
  assert (2 ^ hashpower (mc_assoc w) = 0 + Z.of_nat n) as Hn by (unfold n; lia).
  destruct (iterate_from w T n 0 HI Hn) as (f0 & Hf); [lia|].
  exists (concat (map (fun i => (T (PrimaryCell i)).*1) (seqZ 0 (Z.of_nat n)))), f0. split_and!.
  - apply (nodup_walk w); [done|lia..].
  - intros p. rewrite elem_of_walk. split.
    + intros (i & k & Hi & Hp). exists k. apply HA. by rewrite (ai_home _ _ HI _ _ _ Hp).
    + intros (k & Hp%HA). exists (hash k mod 2 ^ hashpower (mc_assoc w)), k.
      rewrite bucket_of_mod, He in Hp by done. split; [|done]. rewrite Z.add_0_l in Hn. rewrite <- Hn.
      apply Z.mod_pos_bound, Z.pow_pos_nonneg; lia.
  - intros fuel Hfl. by apply Hf.
Qed.

End iter.

(** ** The properties *)

Section props.
Context `{HashFunction}.

(** C8: the hash table refines a finite map from keys to items.  A fresh table
    is the empty map; on any table, in the middle of an expansion too,
    [assoc_find] is lookup, [assoc_insert] of a key that is not there is
    insertion and [assoc_delete] of a key that is there is deletion, and neither
    changes anything but the table's cells and the [h_next] fields. *)
Theorem assoc_refines_map :
  (forall w hp, 1 <= hp <= 31 -> expanding (mc_assoc w) = false ->
     exists w', assoc_init hp w = Some (tt, w') /\ assoc_rep w' ∅
       /\ heap w' = heap w /\ expanding (mc_assoc w') = false /\ hashpower (mc_assoc w') = hp)
  /\ (forall w A key, assoc_rep w A ->
     assoc_find key (hash key) w = Some (default NULL (A !! key), w))
  /\ (forall w A p it, assoc_rep w A ->
     p <> NULL -> heap w !! p = Some it -> nkey it = zlen (it_key it) -> A !! it_key it = None ->
     exists w', assoc_insert p (hash (it_key it)) w = Some (1, w') /\ assoc_frame w w'
       /\ assoc_rep w' (<[it_key it := p]> A))
  /\ (forall w A key p, assoc_rep w A -> A !! key = Some p ->
     exists w', assoc_delete key (hash key) w = Some (tt, w') /\ assoc_frame w w'
       /\ (exists it, heap w' !! p = Some it /\ h_next it = NULL)
       /\ assoc_rep w' (base.delete key A)).
Proof.
  split_and!; [apply assoc_init_rep|intros; by apply assoc_find_rep|intros; by apply assoc_insert_rep|].
  intros. by apply assoc_delete_rep.
Qed.

(** C14: an expansion doubles the table, keeps the map at every point, and is
    over once the maintenance thread obtained the item lock as often as there
    are old buckets, whatever the attempts that fail in between; the items keep
    all fields but [h_next]. *)
Theorem assoc_expansion_completes w A locks :
  assoc_rep w A -> expanding (mc_assoc w) = false -> hashpower (mc_assoc w) <= 30 ->
  exists w1 w2,
    assoc_expand true w = Some (tt, w1) /\ assoc_rep w1 A /\ expanding (mc_assoc w1) = true
    /\ maintenance_bulk locks w1 = Some (tt, w2) /\ assoc_rep w2 A
    /\ hashpower (mc_assoc w2) = hashpower (mc_assoc w) + 1
    /\ erase_link <$> heap w2 = erase_link <$> heap w
    /\ (hashsize (hashpower (mc_assoc w)) <= taken locks -> expanding (mc_assoc w2) = false).
Proof.
  intros HR He Hhp. assert (1 <= hashpower (mc_assoc w)) by (destruct HR as (T & HI & _); apply HI).
  destruct (assoc_expand_rep true w A HR He Hhp) as (w1 & E1 & Eh & HR1 & He1 & Hh1 & Hb1).
  destruct (maintenance_bulk_rep locks w1 A HR1) as (w2 & E2 & Eh2 & Hh2 & HR2 & Hfin).
  exists w1, w2. rewrite Hh2, Eh2, Eh. split_and!; [done..|]. rewrite hashsize_pow by lia.
  intros Hle. apply Hfin. right. rewrite Hh1, Hb1. by rewrite Z.add_simpl_r, Z.sub_0_r.
Qed.

(** C20: outside an expansion the iterator hands out every item of the table
    exactly once and then reports the end; the walk terminates and changes
    nothing. *)
Theorem assoc_iterate_visits_once w A :
  assoc_rep w A -> expanding (mc_assoc w) = false ->
  exists items fuel0, NoDup items /\ (forall p, p ∈ items <-> exists k, A !! k = Some p)
    /\ forall fuel, (fuel0 <= fuel)%nat -> iterate_all fuel assoc_get_iterator w = Some (items, w).
Proof. apply iterate_rep. Qed.

End props.

(** A concrete table: three items whose keys collide in a table of two buckets. *)
Module Demo.
Definition byte_hash : HashFunction.
Proof. refine {| hash k := u32 (List.hd 0 k) |}. intros k. apply u32_range. Defined.
#[export] Existing Instance byte_hash.

Definition demo_item (k : list Z) : item := item_zero <| nkey := zlen k |> <| it_key := k |>.
Definition demo_start : mc :=
  mc_init <| heap := {[ 100 := demo_item [1]; 200 := demo_item [3]; 300 := demo_item [4] ]} |>.
Definition demo_fill : M mc unit :=
  assoc_init 1;;
  assoc_insert 100 (hash [1]);; assoc_insert 200 (hash [3]);; assoc_insert 300 (hash [4]);; mret tt.
Definition demo_map : gmap (list Z) ptr := <[[4] := 300]> (<[[3] := 200]> (<[[1] := 100]> ∅)).

Lemma demo_rep : exists w, demo_fill demo_start = Some (tt, w) /\ assoc_rep w demo_map
  /\ expanding (mc_assoc w) = false /\ hashpower (mc_assoc w) = 1.
Proof.
  destruct (assoc_init_rep demo_start 1) as (w0 & E0 & R0 & H0 & X0 & P0); [lia|done|].
  destruct (assoc_insert_rep w0 ∅ 100 (demo_item [1])) as (w1 & E1 & F1 & R1);
    [done|done|by rewrite H0|done|done|].
  destruct (assoc_frame_lookup w0 w1 200 (demo_item [3])) as (v2 & L2); [done|by rewrite H0|].
  destruct (assoc_frame_lookup w0 w1 300 (demo_item [4])) as (v3 & L3); [done|by rewrite H0|].
  destruct (assoc_insert_rep w1 _ 200 (demo_item [3] <| h_next := v2 |>) R1) as (w2 & E2 & F2 & R2); [done|exact L2|done|done|].
  destruct (assoc_frame_lookup w1 w2 300 (demo_item [4] <| h_next := v3 |>)) as (v3' & L3'); [done|exact L3|].
  destruct (assoc_insert_rep w2 _ 300 (demo_item [4] <| h_next := v3' |>) R2) as (w3 & E3 & F3 & R3); [done|exact L3'|done|done|].
  exists w3. unfold demo_fill. run. rewrite E0. run.
  change (assoc_insert 100 (hash [1]) w0 = Some (1, w1)) in E1.
  change (assoc_insert 200 (hash [3]) w1 = Some (1, w2)) in E2.
  change (assoc_insert 300 (hash [4]) w2 = Some (1, w3)) in E3.
  rewrite E1. run. rewrite E2. run.
  rewrite E3. split; [done|]. split; [exact R3|].
  destruct F1 as (_ & (A1 & B1 & _) & _), F2 as (_ & (A2 & B2 & _) & _), F3 as (_ & (A3 & B3 & _) & _).
  by rewrite A3, A2, A1, B3, B2, B1.
Qed.

Lemma assoc_refines_map_witness :
  exists w w', demo_fill demo_start = Some (tt, w)
    /\ assoc_find [3] (hash [3]) w = Some (200, w) /\ assoc_find [2] (hash [2]) w = Some (NULL, w)
    /\ assoc_delete [3] (hash [3]) w = Some (tt, w')
    /\ assoc_rep w' (base.delete [3] demo_map).
Proof.
  destruct demo_rep as (w & E & R & _). destruct assoc_refines_map as (_ & Hf & _ & Hd).
  destruct (Hd w demo_map [3] 200 R) as (w' & Ed & _ & _ & R'); [done|].
  exists w, w'. split_and!; [done|by rewrite (Hf _ _ _ R)|by rewrite (Hf _ _ _ R)|done|done].
Defined.

Lemma assoc_expansion_completes_witness :
  exists w1 w2,
    (demo_fill;; assoc_expand true;; mret tt) demo_start = Some (tt, w1)
    /\ maintenance_bulk [true; false; true] w1 = Some (tt, w2)
    /\ assoc_rep w2 demo_map /\ expanding (mc_assoc w2) = false.
Proof.
  destruct demo_rep as (w & E & R & X & P).
  destruct (assoc_expansion_completes w demo_map [true; false; true] R X) as
    (w1 & w2 & E1 & R1 & X1 & E2 & R2 & H2 & _ & Hfin); [by rewrite P|].
  exists w1, w2. rewrite run_bind, E. run. rewrite E1. split_and!; [done|done|done|].
  apply Hfin. rewrite P. vm_compute. done.
Defined.

Lemma assoc_iterate_visits_once_witness :
  exists w items fuel, demo_fill demo_start = Some (tt, w)
    /\ iterate_all fuel assoc_get_iterator w = Some (items, w) /\ NoDup items /\ 300 ∈ items.
Proof.
  destruct demo_rep as (w & E & R & X & P).
  destruct (assoc_iterate_visits_once w demo_map R X) as (items & fuel & Hnd & Hin & Hit).
  exists w, items, fuel. split_and!; [done|by apply Hit|done|]. apply Hin. by exists [4].
Defined.
End Demo.
