(* ===== verification/Double.v ===== *)
(** * IEEE doubles

    The [double] arithmetic of the C code, on the Standard Library's
    specification of binary floating point (round to nearest even). *)

From Stdlib Require Import SpecFloat.
From S2P Require Import Prelude.

Abbreviation double := spec_float.

Definition double_of_Z (z : Z) : double := binary_normalize 53 1024 z 0 false.
Definition double_mul : double -> double -> double := SFmul 53 1024.
Definition double_div : double -> double -> double := SFdiv 53 1024.
Definition double_add : double -> double -> double := SFadd 53 1024.
Definition double_sub : double -> double -> double := SFsub 53 1024.
Definition double_leb : double -> double -> bool := SFleb.
Definition double_ltb : double -> double -> bool := SFltb.

(** [n / d] for a decimal literal of the source. *)
Definition double_lit (n d : Z) : double := double_div (double_of_Z n) (double_of_Z d).

(** Conversion to an integer type truncates; it is undefined for infinities and
    NaN. *)
Definition double_trunc (x : double) : option Z :=
  match x with
  | S754_zero _ => Some 0
  | S754_finite s m e =>
      let a := if 0 <=? e then Zpos m * 2 ^ e else Zpos m / 2 ^ (- e) in
      Some (if s then - a else a)
  | _ => None
  end.
