(* ===== verification/Slabs.v ===== *)
(** * The slab allocator (slabs.c)

    Size classes, the free lists threaded through [next] and [prev], page
    allocation and the global page pool.  The page mover's loop body, which
    calls into items.c, is in SlabMove.v; its other parts are here. *)

From S2P Require Import Prelude Memory Double.

Definition SLABS_ALLOC_NO_NEWPAGE := 1.
Definition CHUNK_ALIGN_BYTES := 8.

(** ** Access *)

Definition get_class (id : Z) : M mc slabclass_t :=
  s ← gets mc_slabs; lift (zget id (slabclass s)).
Definition update_class (id : Z) (f : slabclass_t -> slabclass_t) : M mc unit :=
  get_class id;; on_slabs (fun s => s <| slabclass ::= alter f (Z.to_nat id) |>).

(** [malloc] and [realloc]: whether the next call succeeds. *)
Definition alloc_succeeds : M mc bool :=
  s ← gets mc_slabs;
  match malloc_ok s with
  | [] => mret true
  | b :: r => on_slabs (fun s => s <| malloc_ok := r |>);; mret b
  end.
Definition malloc (size : Z) : M mc ptr :=
  ok ← alloc_succeeds;
  if (ok : bool) then
    p ← gets (fun w => brk (mc_slabs w));
    on_slabs (fun s => s <| brk := p + size + 16 |>);;
    mret p
  else mret NULL.

(** ** Classes *)

(** The loop leaves at [power_largest] at the latest. *)
Fixpoint clsid_loop (fuel : nat) (size : Z) (res : Z) : M mc Z :=
  match fuel with
  | O => ub
  | S fuel =>
      p ← get_class res;
      if cl_size p <? size then
        largest ← gets (fun w => power_largest (mc_slabs w));
        if res =? largest then mret largest else clsid_loop fuel size (res + 1)
      else mret res
  end.

Definition slabs_clsid (size : Z) : M mc Z :=
  max ← gets (fun w => item_size_max (mc_settings w));
  if (size =? 0) || (max <? size) then mret 0 else clsid_loop 64 size POWER_SMALLEST.

Definition slabs_size (clsid : Z) : M mc Z := p ← get_class clsid; mret (cl_size p).

(** ** Pages *)

(** Realloc'ed cells hold no page yet. *)
Definition grow_slab_list (id : Z) : M mc Z :=
  p ← get_class id;
  if cl_slabs p =? list_size p then
    ok ← alloc_succeeds;
    if (ok : bool) then
      let new_size := if negb (list_size p =? 0) then u32 (list_size p * 2) else 16 in
      update_class id (fun p => p <| list_size := new_size |>
        <| slab_list ::= fun l => l ++ replicate (Z.to_nat (new_size - zlen l)) NULL |>);;
      mret 1
    else mret 0
  else mret 1.

(** [p->slab_list[p->slabs++] = ptr]. *)
Definition add_page (id : Z) (page : ptr) : M mc unit :=
  p ← get_class id;
  massert (bool_decide (0 <= cl_slabs p < zlen (slab_list p)));;
  update_class id (fun p => p <| slab_list ::= <[Z.to_nat (cl_slabs p) := page]> |>
                              <| cl_slabs := u32 (cl_slabs p + 1) |>).

Definition get_page_from_global_pool : M mc ptr :=
  p ← get_class SLAB_GLOBAL_PAGE_POOL;
  if cl_slabs p <? 1 then mret NULL
  else
    ret ← lift (zget (cl_slabs p - 1) (slab_list p));
    update_class SLAB_GLOBAL_PAGE_POOL (fun p => p <| cl_slabs := u32 (cl_slabs p - 1) |>);;
    mret ret.

Definition align_up (size : Z) : Z :=
  if negb (size mod CHUNK_ALIGN_BYTES =? 0)
  then size + (CHUNK_ALIGN_BYTES - size mod CHUNK_ALIGN_BYTES) else size.

Definition memory_allocate (size : Z) : M mc ptr :=
  s ← gets mc_slabs;
  if decide (mem_base s = NULL) then
    ret ← malloc size;
    on_slabs (fun s => s <| mem_malloced ::= fun m => u64 (m + size) |>);;
    mret ret
  else
    if mem_avail s <? size then mret NULL
    else
      let size := align_up size in
      on_slabs (fun s => s <| mem_current ::= fun c => c + size |>
        <| mem_avail ::= fun a => if size <? a then a - size else 0 |>
        <| mem_malloced ::= fun m => u64 (m + size) |>);;
      mret (mem_current s).

(** ** Free lists *)

(** Putting a chunk in front of the free list of class [id]. *)
Definition push_slot (id : Z) (it : ptr) : M mc unit :=
  p ← get_class id;
  update_item it (fun i => i <| prev := NULL |> <| next := slots p |>);;
  when (bool_decide (slots p <> NULL)) (update_item (slots p) (fun i => i <| prev := it |>));;
  update_class id (fun p => p <| slots := it |> <| sl_curr := u32 (sl_curr p + 1) |>).

(** [(item_chunk * ) ITEM_schunk(it)]: the chunk header inside a large item. *)
Definition ITEM_schunk (p : ptr) (it : item) : ptr :=
  p + sizeof_item + nkey it + 1
  + (if has_flag it ITEM_CFLAGS then 4 else 0) + (if has_flag it ITEM_CAS then 8 else 0).

(** The chunks behind the header, each to the class it came from. *)
Fixpoint free_chunks (fuel : nat) (chunk : ptr) : M mc unit :=
  if decide (chunk = NULL) then mret tt
  else match fuel with
       | O => ub
       | S fuel =>
           c ← load chunk;
           massert (it_flags c =? ITEM_CHUNK);;
           update_item chunk (fun c => c <| it_flags := ITEM_SLABBED |>);;
           push_slot (it_clsid c) chunk;;
           free_chunks fuel (next c)
       end.

Definition do_slabs_free_chunked (it : ptr) : M mc unit :=
  i ← load it;
  let chunk := ITEM_schunk it i in
  c ← load chunk;
  (* the original class of the header is kept in [orig_clsid] *)
  update_item it (fun i => i <| it_flags := ITEM_SLABBED |> <| prev := NULL |>
                             <| it_clsid := nkey c |>);;
  when (bool_decide (next c <> NULL)) (update_item (next c) (fun c => c <| prev := NULL |>));;
  push_slot (nkey c) it;;
  fuel ← gets (fun w => S (size (heap w)));
  free_chunks fuel (next c).

Definition do_slabs_free (it : ptr) (id : Z) : M mc unit :=
  largest ← gets (fun w => power_largest (mc_slabs w));
  massert ((POWER_SMALLEST <=? id) && (id <=? largest));;
  i ← load it;
  if negb (has_flag i ITEM_CHUNKED) then
    update_item it (fun i => i <| it_flags := ITEM_SLABBED |> <| it_clsid := id |>);;
    push_slot id it
  else do_slabs_free_chunked it.

Definition slabs_free (it : ptr) (size : Z) (id : Z) : M mc unit := do_slabs_free it id.

Fixpoint split_loop (n : nat) (p : ptr) (id : Z) : M mc unit :=
  match n with
  | O => mret tt
  | S n =>
      do_slabs_free p id;;
      c ← get_class id;
      split_loop n (p + cl_size c) id
  end.
Definition split_slab_page_into_freelist (p : ptr) (id : Z) : M mc unit :=
  c ← get_class id; split_loop (Z.to_nat (perslab c)) p id.

(** [memset] of a page that class [id] will cut up. *)
Definition memset_page (p : ptr) (len id : Z) : M mc unit :=
  c ← get_class id;
  modify (fun w => w <| heap ::= wipe_page p len (cl_size c) (perslab c) |>).

Definition do_slabs_newslab (id : Z) : M mc Z :=
  p ← get_class id;
  g ← get_class SLAB_GLOBAL_PAGE_POOL;
  st ← gets mc_settings;
  s ← gets mc_slabs;
  let len := if slab_reassign st || negb (slab_chunk_size_max st =? slab_page_size st)
             then slab_page_size st else s32 (u32 (cl_size p * perslab p)) in
  if negb (mem_limit s =? 0) && (mem_limit s <? u64 (mem_malloced s + len))
     && (0 <? cl_slabs p) && (cl_slabs g =? 0) then
    on_slabs (fun s => s <| mem_limit_reached := true |>);;
    mret 0
  else
    grown ← grow_slab_list id;
    if grown =? 0 then mret 0
    else
      page ← get_page_from_global_pool;
      page ← (if decide (page = NULL) then memory_allocate len else mret page);
      if decide (page = NULL) then mret 0
      else
        memset_page page len id;;
        split_slab_page_into_freelist page id;;
        add_page id page;;
        mret 1.

(** The end of [do_slabs_alloc]: a chunk off the free list. *)
Definition take_slot (id : Z) : M mc ptr :=
  p ← get_class id;
  if negb (sl_curr p =? 0) then
    let it := slots p in
    i ← load it;
    update_class id (fun p => p <| slots := next i |>);;
    when (bool_decide (next i <> NULL)) (update_item (next i) (fun n => n <| prev := NULL |>));;
    update_item it (fun i => clear_flag ITEM_SLABBED i <| refcount := 1 |>);;
    update_class id (fun p => p <| sl_curr := u32 (sl_curr p - 1) |>);;
    mret it
  else mret NULL.

Definition do_slabs_alloc (size id flags : Z) : M mc ptr :=
  largest ← gets (fun w => power_largest (mc_slabs w));
  if (id <? POWER_SMALLEST) || (largest <? id) then mret NULL
  else
    p ← get_class id;
    when (negb (sl_curr p =? 0)) (i ← load (slots p); massert (has_flag i ITEM_SLABBED));;
    massert (size <=? cl_size p);;
    when ((sl_curr p =? 0) && negb (flags =? SLABS_ALLOC_NO_NEWPAGE)) (do_slabs_newslab id;; mret tt);;
    take_slot id.

Definition slabs_alloc (size id flags : Z) : M mc ptr := do_slabs_alloc size id flags.

(** ** Start-up *)

(** The loop over [i]: [n] bounds the classes still to fill. *)
Fixpoint class_loop (n : nat) (factor : double) (slab_sizes : option (list Z)) (i size : Z) : M mc Z :=
  match n with
  | O => ub
  | S n =>
      let i := i + 1 in
      if i <? MAX_NUMBER_OF_SLAB_CLASSES - 1 then
        st ← gets mc_settings;
        let max := slab_chunk_size_max st in
        let body size :=
          let size := u32 (align_up size) in
          massert (negb (size =? 0));;
          update_class i (fun p => p <| cl_size := size |> <| perslab := slab_page_size st / size |>);;
          size ← (match slab_sizes with
                  | None => s ← lift (double_trunc (double_mul (double_of_Z size) factor));
                            mret (u32 s)
                  | Some _ => mret size
                  end);
          class_loop n factor slab_sizes i size in
        match slab_sizes with
        | Some sizes => s ← lift (zget (i - 1) sizes); if s =? 0 then mret i else body s
        | None =>
            if double_leb (double_div (double_of_Z max) factor) (double_of_Z size)
            then mret i else body size
        end
      else mret i
  end.

Fixpoint preallocate_loop (n : nat) (i prealloc maxslabs : Z) : M mc bool :=
  match n with
  | O => mret true
  | S n =>
      if maxslabs <? prealloc + 1 then mret true
      else
        r ← do_slabs_newslab i;
        if r =? 0 then mret false (* exit(1) *)
        else preallocate_loop n (i + 1) (prealloc + 1) maxslabs
  end.
(** False when the process exits. *)
Definition slabs_preallocate (maxslabs : Z) : M mc bool :=
  preallocate_loop 63 POWER_SMALLEST 0 maxslabs.

(** [large_chunk] is what [alloc_large_chunk] obtained from the system,
    [initial_malloc] the parsed value of the test suite's environment variable. *)
Definition slabs_init (limit : Z) (factor : double) (prealloc : bool)
    (slab_sizes : option (list Z)) (mem_base_external : ptr) (reuse_mem : bool)
    (large_chunk : ptr) (initial_malloc : option Z) : M mc bool :=
  st ← gets mc_settings;
  on_slabs (fun s => s <| mem_limit := limit |>);;
  do_prealloc ← (
    if prealloc && bool_decide (mem_base_external = NULL) then
      on_slabs (fun s => s <| mem_base := large_chunk |>);;
      if decide (large_chunk <> NULL) then
        on_slabs (fun s => s <| mem_current := large_chunk |> <| mem_avail := limit |>);;
        mret true
      else mret false
    else if prealloc then
      on_slabs (fun s => s <| mem_base := mem_base_external |>
        <| mem_current := if reuse_mem then mem_base_external + limit else mem_base_external |>
        <| mem_avail := if reuse_mem then 0 else limit |>);;
      mret true
    else mret false);
  on_slabs (fun s => s <| slabclass := replicate 64 slabclass_zero |>);;
  i ← class_loop 64 factor slab_sizes (POWER_SMALLEST - 1) (u32 (sizeof_item + chunk_size st));
  on_slabs (fun s => s <| power_largest := i |>);;
  update_class i (fun p => p <| cl_size := slab_chunk_size_max st |>
    <| perslab := slab_page_size st / slab_chunk_size_max st |>);;
  (match initial_malloc with
   | Some m => on_slabs (fun s => s <| mem_malloced := m |>)
   | None => mret tt
   end);;
  if (do_prealloc : bool) && negb reuse_mem then slabs_preallocate i else mret true.

Fixpoint prefill_loop (fuel : nat) (len : Z) : M mc unit :=
  match fuel with
  | O => ub
  | S fuel =>
      s ← gets mc_slabs;
      if mem_malloced s <? mem_limit s then
        page ← memory_allocate len;
        if decide (page = NULL) then mret tt
        else
          grow_slab_list SLAB_GLOBAL_PAGE_POOL;;
          modify (fun w => w <| heap ::= <[page := item_zero]> |>);;
          add_page SLAB_GLOBAL_PAGE_POOL page;;
          prefill_loop fuel len
      else mret tt
  end.
Definition slabs_prefill_global : M mc unit :=
  st ← gets mc_settings;
  s ← gets mc_slabs;
  prefill_loop (S (Z.to_nat (mem_limit s - mem_malloced s))) (slab_page_size st);;
  on_slabs (fun s => s <| mem_limit_reached := true |>).

(** Restart: what to skip in the memory, [u32 (-1)] for a page not in use. *)
Definition slabs_fixup (chunk : ptr) (border : Z) : M mc Z :=
  it ← load chunk;
  let id := ITEM_clsid it in
  if id =? 0 then
    grow_slab_list 0;;
    add_page 0 chunk;;
    mret (u32 (-1))
  else
    when (border =? 0) (grow_slab_list id;; add_page id chunk);;
    when (it_flags it =? ITEM_SLABBED) (push_slot id chunk);;
    p ← get_class id;
    mret (cl_size p).

(** ** Limits *)

Fixpoint release_loop (fuel : nat) : M mc unit :=
  match fuel with
  | O => ub
  | S fuel =>
      s ← gets mc_slabs;
      st ← gets mc_settings;
      if mem_limit s <? mem_malloced s then
        page ← get_page_from_global_pool;
        if decide (page = NULL) then mret tt
        else
          modify (fun w => w <| heap ::= filter (fun x => in_range page (slab_page_size st) x.1 = false) |>);;
          on_slabs (fun s => s <| mem_malloced ::= fun m => u64 (m - slab_page_size st) |>);;
          release_loop fuel
      else mret tt
  end.
Definition memory_release : M mc unit :=
  s ← gets mc_slabs;
  st ← gets mc_settings;
  if decide (mem_base s <> NULL) then mret tt
  else if negb (slab_reassign st) then mret tt
  else
    p ← get_class SLAB_GLOBAL_PAGE_POOL;
    release_loop (S (S (Z.to_nat (cl_slabs p)))).

Definition slabs_adjust_mem_limit (new_mem_limit : Z) : M mc bool :=
  s ← gets mc_slabs;
  if decide (mem_base s <> NULL) then mret false
  else
    modify (fun w => w <| mc_settings ::= fun st => st <| maxbytes := new_mem_limit |> |>);;
    on_slabs (fun s => s <| mem_limit := new_mem_limit |> <| mem_limit_reached := false |>);;
    memory_release;;
    mret true.

Definition at_limit (s : slabs) : bool := mem_limit s <=? mem_malloced s.

Definition global_page_pool_size : M mc (Z * bool) :=
  s ← gets mc_slabs; p ← get_class SLAB_GLOBAL_PAGE_POOL; mret (cl_slabs p, at_limit s).

Definition slabs_available_chunks (id : Z) : M mc (Z * bool * Z) :=
  s ← gets mc_slabs; p ← get_class id; mret (sl_curr p, at_limit s, perslab p).

Record slab_stats_automove := SlabStatsAutomove {
  chunks_per_page : Z; chunk_size_ : Z; free_chunks_ : Z; total_pages : Z
}.
Definition fill_slab_stats_automove : M mc (list slab_stats_automove) :=
  s ← gets mc_slabs;
  mret (map (fun p => SlabStatsAutomove (perslab p) (cl_size p) (sl_curr p) (cl_slabs p)) (slabclass s)).

(** ** Asking for a page move *)

Inductive reassign_result_type :=
  REASSIGN_OK | REASSIGN_RUNNING | REASSIGN_BADCLASS | REASSIGN_NOSPARE | REASSIGN_SRC_DST_SAME.

(** [tries] counts down; the static [cur] survives between calls. *)
Fixpoint pick_loop (tries : nat) (dst : Z) : M mc Z :=
  match tries with
  | O => mret (-1)
  | S tries =>
      on_rebal (fun r => r <| pick_cur ::= Z.succ |>);;
      largest ← gets (fun w => power_largest (mc_slabs w));
      on_rebal (fun r => r <| pick_cur ::= fun c => if largest <? c then POWER_SMALLEST else c |>);;
      cur ← gets (fun w => pick_cur (slab_rebal w));
      if cur =? dst then pick_loop tries dst
      else
        p ← get_class cur;
        if 1 <? cl_slabs p then mret cur else pick_loop tries dst
  end.
Definition slabs_reassign_pick_any (dst : Z) : M mc Z :=
  largest ← gets (fun w => power_largest (mc_slabs w));
  pick_loop (Z.to_nat (largest - POWER_SMALLEST + 1)) dst.

Definition do_slabs_reassign (src dst : Z) : M mc reassign_result_type :=
  r ← gets slab_rebal;
  if negb (slab_rebalance_signal r =? 0) then mret REASSIGN_RUNNING
  else if src =? dst then mret REASSIGN_SRC_DST_SAME
  else
    src ← (if src =? -1 then slabs_reassign_pick_any dst else mret src);
    largest ← gets (fun w => power_largest (mc_slabs w));
    if (src <? SLAB_GLOBAL_PAGE_POOL) || (largest <? src)
       || (dst <? SLAB_GLOBAL_PAGE_POOL) || (largest <? dst) then mret REASSIGN_BADCLASS
    else
      p ← get_class src;
      if cl_slabs p <? 2 then mret REASSIGN_NOSPARE
      else
        on_rebal (fun r => r <| s_clsid := src |> <| d_clsid := dst |> <| slab_rebalance_signal := 1 |>);;
        mret REASSIGN_OK.

(** [trylock]: whether [slabs_rebalance_lock] is free. *)
Definition slabs_reassign (trylock : bool) (src dst : Z) : M mc reassign_result_type :=
  if trylock then do_slabs_reassign src dst else mret REASSIGN_RUNNING.
