(* ===== verification/Dll.v ===== *)
(** * Doubly linked lists

    The LRU queues and the slab free lists thread items through [next] and
    [prev].  [dll h l]: the items [l] are linked in that order in the heap [h],
    NULL at both ends.  The heap effects of pushing, popping and cutting out an
    item are stated once here and used by both components. *)

From S2P Require Import Prelude Memory.

(** First and last item of a queue, NULL when it is empty. *)
Definition hd0 (l : list ptr) : ptr := match l with [] => NULL | a :: _ => a end.
Definition last0 (l : list ptr) : ptr := default NULL (last l).

Record dll (h : gmap ptr item) (l : list ptr) : Prop := {
  dll_nodup : NoDup l;
  dll_nonnull : NULL ∉ l;
  dll_link : forall l1 a l2, l = l1 ++ a :: l2 ->
    exists it, h !! a = Some it /\ prev it = last0 l1 /\ next it = hd0 l2
}.

Lemma last0_snoc l a : last0 (l ++ [a]) = a.
Proof. unfold last0. by rewrite last_snoc. Qed.
Lemma last0_cons a b l : last0 (a :: b :: l) = last0 (b :: l).
Proof. done. Qed.
Lemma last0_in l : last0 l <> NULL -> last0 l ∈ l.
Proof.
  unfold last0. destruct (last l) eqn:E; [|done]. intros _. apply last_Some in E as [l' ->].
  set_solver.
Qed.
Lemma hd0_in l : hd0 l <> NULL -> hd0 l ∈ l.
Proof. destruct l; [done|]. intros _. left. Qed.
Lemma hd0_null l : NULL ∉ l -> hd0 l = NULL -> l = [].
Proof. destruct l; [done|]. simpl. intros Hn ->. set_solver. Qed.
Lemma last0_null l : NULL ∉ l -> last0 l = NULL -> l = [].
Proof.
  unfold last0. destruct (last l) eqn:E; simpl.
  - apply last_Some in E as [l' ->]. intros Hn ->. set_solver.
  - by apply last_None in E.
Qed.

Lemma dll_nil h : dll h [].
Proof. split; [constructor|by apply not_elem_of_nil|]. by intros [|??] ?? [=]. Qed.

Lemma dll_lookup h l a : dll h l -> a ∈ l -> a <> NULL /\ exists it, h !! a = Some it.
Proof.
  intros Hd Ha. split; [intros ->; by destruct (dll_nonnull _ _ Hd)|].
  apply list_elem_of_split in Ha as (l1 & l2 & ->).
  destruct (dll_link _ _ Hd l1 a l2) as (it & ? & _); eauto.
Qed.

(** Only the links of the members matter. *)
Definition same_dlinks (it it' : item) : Prop := prev it' = prev it /\ next it' = next it.

Lemma dll_frame h h' l :
  dll h l ->
  (forall a it, a ∈ l -> h !! a = Some it -> exists it', h' !! a = Some it' /\ same_dlinks it it') ->
  dll h' l.
Proof.
  intros [Hnd Hn Hl] Hf. split; [done..|]. intros l1 a l2 E.
  destruct (Hl _ _ _ E) as (it & Hit & Hp & Hx).
  destruct (Hf a it) as (it' & Hit' & E1 & E2); [rewrite E; set_solver|done|].
  exists it'. by rewrite E1, E2.
Qed.

Lemma dll_other h f a l : a ∉ l -> dll h l -> dll (alter f a h) l.
Proof.
  intros Ha Hd. apply (dll_frame h); [done|]. intros b it Hb Hit. exists it.
  by rewrite lookup_alter_ne by (intros ->; done).
Qed.

(** A change of other fields. *)
Lemma dll_same h f a l :
  (forall it, same_dlinks it (f it)) -> dll h l -> dll (alter f a h) l.
Proof.
  intros Hf Hd. apply (dll_frame h); [done|]. intros b it Hb Hit.
  destruct (decide (b = a)) as [->|Hne].
  - exists (f it). by rewrite lookup_alter_eq, Hit.
  - exists it. by rewrite lookup_alter_ne.
Qed.

(** ** Heap effects *)

(** [if (p) p->field = ...]. *)
Definition alter_nn (f : item -> item) (p : ptr) (h : gmap ptr item) : gmap ptr item :=
  if decide (p = NULL) then h else alter f p h.

Definition push_effect (p hd : ptr) (h : gmap ptr item) : gmap ptr item :=
  alter_nn (fun i => i <| prev := p |>) hd (alter (fun i => i <| prev := NULL |> <| next := hd |>) p h).
Definition cut_effect (pv nx : ptr) (h : gmap ptr item) : gmap ptr item :=
  alter_nn (fun i => i <| next := nx |>) pv (alter_nn (fun i => i <| prev := pv |>) nx h).

Lemma lookup_alter_nn f p h a :
  a <> NULL -> alter_nn f p h !! a = if decide (p = a) then f <$> h !! a else h !! a.
Proof.
  intros Ha. unfold alter_nn. repeat case_decide; subst; try done.
  - by rewrite lookup_alter_eq.
  - by rewrite lookup_alter_ne.
Qed.

Lemma dll_push h l p it :
  dll h l -> p ∉ l -> p <> NULL -> h !! p = Some it -> dll (push_effect p (hd0 l) h) (p :: l).
Proof.
  intros Hd Hp Hp0 Hit. pose proof Hd as [Hnd Hn Hl]. split.
  - by constructor.
  - set_solver.
  - intros [|x l1] a l2 E; injection E as <- E.
    + subst l2. assert (hd0 l <> p) as Hne by (destruct l; simpl; [by intros <-|set_solver]).
      unfold push_effect. rewrite lookup_alter_nn, decide_False, lookup_alter_eq, Hit by done.
      eexists. split; [done|]. by upds.
    + destruct (Hl _ _ _ E) as (ia & Hia & Hpv & Hnx).
      assert (a <> NULL) by (intros ->; rewrite E in Hn; set_solver).
      assert (a <> p) by (intros ->; rewrite E in Hp; set_solver).
      unfold push_effect. rewrite lookup_alter_nn, lookup_alter_ne, Hia by done.
      destruct l1 as [|y l1]; subst l; simpl in *.
      * rewrite decide_True by done. eexists. split; [done|]. upds. done.
      * rewrite decide_False; [by exists ia|]. intros ->.
        apply NoDup_cons in Hnd as [Hnd _]. set_solver.
Qed.

Lemma dll_cut h l1 a l2 : dll h (l1 ++ a :: l2) -> dll (cut_effect (last0 l1) (hd0 l2) h) (l1 ++ l2).
Proof.
  intros [Hnd Hn Hl]. apply NoDup_app in Hnd as (Hnd1 & Hd & Hnd2).
  apply NoDup_cons in Hnd2 as [Ha Hnd2].
  assert (NoDup (l1 ++ l2)) as Hnd by (apply NoDup_app; set_solver).
  split; [done|set_solver|]. intros m1 b m2 E.
  assert (b <> NULL) as Hb by (intros ->; assert (NULL ∈ l1 ++ l2) by (rewrite E; set_solver); set_solver).
  unfold cut_effect. rewrite lookup_alter_nn by done. rewrite lookup_alter_nn by done.
  apply app_eq_inv in E as [(k & E1 & E2)|(k & E1 & E2)].
  - (* l1 = m1 ++ k, b :: m2 = k ++ l2 *)
    destruct k as [|b' k]; simpl in E2.
    + rewrite app_nil_r in E1. subst m1 l2. simpl hd0.
      destruct (Hl (l1 ++ [a]) b m2) as (ib & Hib & Hpv & Hnx); [by rewrite <- app_assoc|].
      rewrite decide_False, decide_True, Hib; [..|done|].
      * eexists. split; [done|]. upds. done.
      * intros E. apply (Hd b); [|by right; left]. rewrite <- E. apply last0_in. by rewrite E.
    + injection E2 as <- ->. subst l1. rewrite <- app_assoc in Hl. simpl in Hl.
      destruct (Hl m1 b (k ++ a :: l2)) as (ib & Hib & Hpv & Hnx); [done|].
      rewrite Hib. destruct (decide (hd0 l2 = b)) as [<-|_].
      { exfalso. apply (Hd (hd0 l2)); [set_solver|]. right. by apply hd0_in. }
      destruct k as [|c k].
      * rewrite last0_snoc, decide_True by done. eexists. split; [done|]. upds. done.
      * assert (last0 (m1 ++ b :: c :: k) = last0 (c :: k)) as El by (unfold last0; by rewrite last_app_cons).
        rewrite El, decide_False; [by exists ib|]. intros Ex.
        apply NoDup_app in Hnd1 as (_ & _ & [Hb' _]%NoDup_cons). apply Hb'. rewrite <- Ex.
        apply last0_in. by rewrite Ex.
  - (* m1 = l1 ++ k, l2 = k ++ b :: m2 *)
    subst m1 l2.
    destruct (Hl (l1 ++ a :: k) b m2) as (ib & Hib & Hpv & Hnx); [by rewrite <- app_assoc|].
    rewrite Hib. destruct (decide (last0 l1 = b)) as [<-|_].
    { exfalso. apply (Hd (last0 l1)); [by apply last0_in|]. set_solver. }
    destruct k as [|c k]; simpl hd0.
    + rewrite decide_True by done. eexists. split; [done|]. upds. by rewrite app_nil_r.
    + rewrite decide_False.
      2: { intros ->. simpl in Hnd2. apply NoDup_cons in Hnd2 as [Hnd2 _]. set_solver. }
      exists ib. split_and!; [done| |done]. rewrite Hpv. unfold last0. by rewrite !last_app_cons.
Qed.

Lemma dll_pop h a l : dll h (a :: l) -> dll (alter_nn (fun i => i <| prev := NULL |>) (hd0 l) h) l.
Proof. apply (dll_cut h [] a l). Qed.

(** The effects leave other lists alone. *)
Lemma dll_alter_nn h f p l : p ∉ l -> dll h l -> dll (alter_nn f p h) l.
Proof. intros Hp Hd. unfold alter_nn. case_decide; [done|by apply dll_other]. Qed.

Lemma dll_push_other h p hd l : p ∉ l -> hd ∉ l -> dll h l -> dll (push_effect p hd h) l.
Proof. intros. unfold push_effect. by apply dll_alter_nn, dll_other. Qed.

Lemma dll_cut_other h pv nx l : pv ∉ l -> nx ∉ l -> dll h l -> dll (cut_effect pv nx h) l.
Proof. intros. unfold cut_effect. by apply dll_alter_nn, dll_alter_nn. Qed.
