(* ===== verification/SlabsSpec.v ===== *)
(** * The slab allocator hands out disjoint chunks

    The abstraction of the allocator: for every class the chunks on its free
    list, in order, and the chunks in use.  Together they are exactly the chunks
    its pages are cut into, and pages never overlap ([slab_inv]). *)

From S2P Require Import Prelude Memory Dll Slabs.

Definition fset {A} (F : Z -> A) (id : Z) (x : A) : Z -> A := fun i => if decide (i = id) then x else F i.
Lemma fset_eq {A} (F : Z -> A) id x : fset F id x id = x.
Proof. unfold fset. by rewrite decide_True. Qed.
Lemma fset_ne {A} (F : Z -> A) id x i : i <> id -> fset F id x i = F i.
Proof. intros. unfold fset. by rewrite decide_False. Qed.

(** ** Classes as a map *)

Definition class (w : mc) (id : Z) : option slabclass_t := zget id (slabclass (mc_slabs w)).
(** The class table after a change of class [id]. *)
Definition on_class (id : Z) (f : slabclass_t -> slabclass_t) (s : slabs) : slabs :=
  s <| slabclass ::= alter f (Z.to_nat id) |>.

Lemma get_class_ok w id p : class w id = Some p -> get_class id w = Some (p, w).
Proof. intros Hp. unfold get_class. run. unfold class in Hp. by rewrite Hp. Qed.

Lemma update_class_ok w id p f :
  class w id = Some p -> update_class id f w = Some (tt, w <| mc_slabs ::= on_class id f |>).
Proof. intros Hp. unfold update_class. run. rewrite (get_class_ok _ _ _ Hp). by run. Qed.

Lemma class_alter (cs : list slabclass_t) id f i :
  zget id cs <> None ->
  zget i (alter f (Z.to_nat id) cs) = if decide (i = id) then f <$> zget id cs else zget i cs.
Proof.
  unfold zget. intros Hid. destruct (decide (0 <= id)); [|done].
  case_decide; [|by rewrite decide_False by lia]. destruct (decide (i = id)) as [->|Hne].
  - by rewrite list_lookup_alter_eq.
  - rewrite list_lookup_alter_ne; [done|]. lia.
Qed.

Lemma class_on_class w id f p i :
  class w id = Some p ->
  class (w <| mc_slabs ::= on_class id f |>) i = if decide (i = id) then Some (f p) else class w i.
Proof.
  unfold class, on_class. intros Hp. upds. rewrite class_alter by (by rewrite Hp). by rewrite Hp.
Qed.

(** ** Free lists *)

Definition slabbed_in (w : mc) (id : Z) (a : ptr) : Prop :=
  exists it, heap w !! a = Some it /\ it_flags it = ITEM_SLABBED /\ it_clsid it = id.

Record slots_rep (w : mc) (id : Z) (l : list ptr) : Prop := {
  sr_class : exists p, class w id = Some p /\ slots p = hd0 l /\ sl_curr p = zlen l;
  sr_dll : dll (heap w) l;
  sr_item : forall a, a ∈ l -> slabbed_in w id a
}.

(** Effects of the two list operations on the whole state. *)
Definition pushed (id : Z) (a hd : ptr) (w : mc) : mc :=
  w <| heap ::= push_effect a hd |>
    <| mc_slabs ::= on_class id (fun p => p <| slots := a |> <| sl_curr := u32 (sl_curr p + 1) |>) |>.

Lemma lookup_push_effect a hd h b it :
  h !! b = Some it -> exists it', push_effect a hd h !! b = Some it'
    /\ it' = it <| prev := prev it' |> <| next := next it' |>.
Proof.
  intros Hb. unfold push_effect, alter_nn.
  assert (exists it', alter (fun i => i <| prev := NULL |> <| next := hd |>) a h !! b = Some it'
            /\ it' = it <| prev := prev it' |> <| next := next it' |>) as (i1 & H1 & E1).
  { destruct (decide (b = a)) as [->|].
    - rewrite lookup_alter_eq, Hb. eexists. split; [done|]. by destruct it.
    - rewrite lookup_alter_ne by done. exists it. split; [done|]. by destruct it. }
  case_decide; [eauto|]. destruct (decide (b = hd)) as [->|].
  - rewrite lookup_alter_eq, H1. eexists. split; [done|]. rewrite E1. by destruct it.
  - rewrite lookup_alter_ne by done. eauto.
Qed.

Lemma push_slot_ok w id a l it :
  slots_rep w id l -> a ∉ l -> a <> NULL -> heap w !! a = Some it ->
  push_slot id a w = Some (tt, pushed id a (hd0 l) w).
Proof.
  intros [(p & Hp & Hs & Hc) Hd Hi] Ha Ha0 Hit. unfold push_slot. run.
  rewrite (get_class_ok _ _ _ Hp). run. rewrite (update_item_alter _ _ _ _ Ha0 Hit). run.
  rewrite Hs. set (w1 := w <| heap ::= alter _ a |>).
  assert (when (bool_decide (hd0 l <> NULL)) (update_item (hd0 l) (fun i => i <| prev := a |>)) w1
    = Some (tt, w <| heap ::= push_effect a (hd0 l) |>)) as ->.
  { unfold push_effect, alter_nn. destruct (decide (hd0 l = NULL)) as [E|E].
    - rewrite bool_decide_eq_false_2 by (by intros []). done.
    - rewrite bool_decide_eq_true_2 by done. cbn [when].
      destruct (dll_lookup _ _ _ Hd (hd0_in _ E)) as (_ & ih & Hh).
      assert (hd0 l <> a) by (intros E'; apply Ha; rewrite <- E'; by apply hd0_in).
      rewrite (update_item_alter _ _ ih); [done|done|]. unfold w1. upds. by rewrite lookup_alter_ne. }
  run. by rewrite (update_class_ok _ id p).
Qed.

Lemma pushed_slots w id a l it i li :
  slots_rep w id l -> a ∉ l -> a <> NULL -> heap w !! a = Some it ->
  it_flags it = ITEM_SLABBED -> it_clsid it = id -> zlen l + 1 < 2 ^ 32 ->
  slots_rep w i li -> (i = id -> li = l) ->
  slots_rep (pushed id a (hd0 l) w) i (if decide (i = id) then a :: l else li).
Proof.
  intros HR Ha Ha0 Hit Hf Hc Hlen HR' Hl. unfold pushed.
  assert (forall b, slabbed_in w i b -> slabbed_in (pushed id a (hd0 l) w) i b) as Hkeep.
  { intros b (ib & Hb & Hfl & Hcl). unfold slabbed_in, pushed. upds.
    destruct (lookup_push_effect a (hd0 l) _ _ _ Hb) as (ib' & -> & E). exists ib'. rewrite E.
    by upds. }
  pose proof (sr_class _ _ _ HR) as (p & Hp & Hs & Hcu). destruct (decide (i = id)) as [->|Hne].
  - specialize (Hl eq_refl) as ->. split.
    + exists (p <| slots := a |> <| sl_curr := u32 (sl_curr p + 1) |>).
      rewrite class_on_class with (p := p) by done. rewrite decide_True by done. upds.
      split_and!; [done|done|]. rewrite Hcu. unfold zlen in *. cbn [length].
      rewrite u32_id by lia. lia.
    + upds. by apply dll_push with it; [apply HR| | |].
    + intros b [->|Hb]%elem_of_cons; apply Hkeep; [|by apply HR]. by exists it.
  - assert (forall b, b ∈ li -> b <> a /\ b ∉ l) as Hdis.
    { intros b Hb. destruct (sr_item _ _ _ HR' _ Hb) as (ib & Hb' & _ & Hcb). split.
      - intros ->. rewrite Hit in Hb'. injection Hb' as ->. congruence.
      - intros Hbl. destruct (sr_item _ _ _ HR _ Hbl) as (ib' & Hb'' & _ & Hcb'). congruence. }
    destruct HR' as [(q & Hq & Hqs & Hqc) Hqd Hqi]. split.
    + exists q. rewrite class_on_class with (p := p) by done. by rewrite decide_False.
    + upds. apply dll_push_other; [..|done]; intros Hb.
      * by apply Hdis in Hb as [].
      * apply Hdis in Hb as Hb'. destruct Hb' as [_ Hb']. apply Hb'. apply hd0_in.
        intros E. rewrite E in Hb. by apply (dll_nonnull _ _ Hqd).
    + intros b Hb. by apply Hkeep, Hqi.
Qed.

(** ** Freeing *)

Definition largest (w : mc) : Z := power_largest (mc_slabs w).
Definition free_rep (w : mc) (F : Z -> list ptr) : Prop :=
  forall id, POWER_SMALLEST <= id <= largest w -> slots_rep w id (F id).

(** What an operation of the allocator may change: the memory of free chunks and
    its own variables, but not the memory in [K]. *)
Definition slab_frame (K : ptr -> Prop) (w w' : mc) : Prop :=
  w' = w <| heap := heap w' |> <| mc_slabs := mc_slabs w' |>
  /\ (forall b it, heap w !! b = Some it -> it_flags it <> ITEM_SLABBED -> K b ->
        heap w' !! b = Some it).

Lemma slab_rest_trans w1 w2 w3 :
  w2 = w1 <| heap := heap w2 |> <| mc_slabs := mc_slabs w2 |> ->
  w3 = w2 <| heap := heap w3 |> <| mc_slabs := mc_slabs w3 |> ->
  w3 = w1 <| heap := heap w3 |> <| mc_slabs := mc_slabs w3 |>.
Proof. intros E1 E2. rewrite E2 at 1. rewrite E1 at 1. reflexivity. Qed.

Lemma slabbed_not_free w id l a it :
  slots_rep w id l -> heap w !! a = Some it -> it_flags it <> ITEM_SLABBED -> a ∉ l.
Proof. intros HR Ha Hf Hin. destruct (sr_item _ _ _ HR _ Hin) as (it' & Ha' & ? & _). congruence. Qed.

(** A change of an item that is in no free list. *)
Lemma slots_rep_alter w id l a f :
  slots_rep w id l -> a ∉ l -> slots_rep (w <| heap ::= alter f a |>) id l.
Proof.
  intros [Hc Hd Hi] Ha. split; [exact Hc|by apply dll_other|].
  intros b Hb. destruct (Hi b Hb) as (it & Hit & ?). exists it. split; [|done]. upds.
  by rewrite lookup_alter_ne by (intros ->; done).
Qed.

Lemma push_effect_other a hd h b :
  b <> a -> (hd <> NULL -> b <> hd) -> push_effect a hd h !! b = h !! b.
Proof.
  intros Ha Hh. unfold push_effect, alter_nn. case_decide as Hd; [by rewrite lookup_alter_ne|].
  rewrite lookup_alter_ne by (intros ->; by apply Hh). by rewrite lookup_alter_ne by done.
Qed.

Definition freed (id : Z) (a : ptr) (l : list ptr) (w : mc) : mc :=
  pushed id a (hd0 l)
    (w <| heap ::= alter (fun i => i <| it_flags := ITEM_SLABBED |> <| it_clsid := id |>) a |>).

Lemma do_slabs_free_ok w F id a it :
  free_rep w F -> POWER_SMALLEST <= id <= largest w -> a <> NULL -> heap w !! a = Some it ->
  it_flags it <> ITEM_SLABBED -> has_flag it ITEM_CHUNKED = false -> zlen (F id) + 1 < 2 ^ 32 ->
  do_slabs_free a id w = Some (tt, freed id a (F id) w)
  /\ free_rep (freed id a (F id) w) (fset F id (a :: F id))
  /\ slab_frame (fun b => b <> a) w (freed id a (F id) w).
Proof.
  intros HF Hid Ha0 Hit Hnf Hch Hlen. pose proof (HF id Hid) as HR.
  set (w1 := w <| heap ::= alter (fun i => i <| it_flags := ITEM_SLABBED |> <| it_clsid := id |>) a |>).
  set (it1 := it <| it_flags := ITEM_SLABBED |> <| it_clsid := id |>).
  assert (heap w1 !! a = Some it1) as Hit1 by (unfold w1; upds; by rewrite lookup_alter_eq, Hit).
  assert (forall i, POWER_SMALLEST <= i <= largest w -> slots_rep w1 i (F i)) as HF1.
  { intros i Hi. apply slots_rep_alter; [by apply HF|]. by eapply slabbed_not_free; [apply HF| |]. }
  assert (a ∉ F id) as Hnin by (by eapply slabbed_not_free).
  unfold freed. fold w1. split_and!.
  - unfold do_slabs_free. run. fold (largest w).
    rewrite (proj2 (Z.leb_le _ _)), (proj2 (Z.leb_le id _)) by lia. cbn [andb massert]. run.
    rewrite (load_ok _ _ _ Ha0 Hit). run. rewrite Hch. cbn [negb].
    run. rewrite (update_item_alter _ _ _ _ Ha0 Hit). run. fold w1.
    by apply push_slot_ok with it1; [apply HF1| | |].
  - intros i Hi. unfold fset.
    pose proof (pushed_slots w1 id a (F id) it1 i (F i) (HF1 _ Hid) Hnin Ha0 Hit1) as Hp.
    specialize (Hp eq_refl eq_refl Hlen (HF1 _ Hi)). case_decide; [subst i|]; by apply Hp.
  - split; [done|]. intros b ib Hb Hfb Hba. unfold pushed, w1. upds.
    rewrite push_effect_other, lookup_alter_ne; [done..|].
    intros Hh ->. by apply (slabbed_not_free w id (F id) _ ib HR Hb Hfb), hd0_in.
Qed.

(** ** Taking a chunk off a free list *)

Definition popped (id : Z) (a : ptr) (l : list ptr) (w : mc) : mc :=
  w <| mc_slabs ::= on_class id (fun p => p <| slots := hd0 l |>) |>
    <| heap ::= alter_nn (fun n => n <| prev := NULL |>) (hd0 l) |>
    <| heap ::= alter (fun i => clear_flag ITEM_SLABBED i <| refcount := 1 |>) a |>
    <| mc_slabs ::= on_class id (fun p => p <| sl_curr := u32 (sl_curr p - 1) |>) |>.

Lemma class_popped w id a l p i :
  class w id = Some p ->
  class (popped id a l w) i
    = if decide (i = id) then Some (p <| slots := hd0 l |> <| sl_curr := u32 (sl_curr p - 1) |>)
      else class w i.
Proof.
  unfold class, popped, on_class. intros Hp. upds.
  assert (zget id (slabclass (mc_slabs w)) <> None) as Hn by (by rewrite Hp).
  assert (forall f, zget id (alter f (Z.to_nat id) (slabclass (mc_slabs w))) <> None) as Hn'
    by (intros f; rewrite class_alter, decide_True, Hp by done; done).
  rewrite (class_alter _ _ _ _ (Hn' _)), !(class_alter _ _ _ _ Hn), Hp.
  by repeat case_decide.
Qed.

Lemma update_if_alter_nn p f w :
  (p <> NULL -> exists it, heap w !! p = Some it) ->
  when (bool_decide (p <> NULL)) (update_item p f) w = Some (tt, w <| heap ::= alter_nn f p |>).
Proof.
  intros Hp. unfold alter_nn. destruct (decide (p = NULL)) as [->|Hne].
  - by rewrite bool_decide_eq_false_2 by (by intros []); destruct w.
  - rewrite bool_decide_eq_true_2 by done. destruct (Hp Hne) as (it & Hit).
    cbn [when]. by rewrite (update_item_alter _ _ it).
Qed.

Lemma slots_rep_popped w id a l i li :
  slots_rep w id (a :: l) -> zlen (a :: l) < 2 ^ 32 -> slots_rep w i li -> (i = id -> li = a :: l) ->
  slots_rep (popped id a l w) i (if decide (i = id) then l else li).
Proof.
  intros HR Hlen HR' Hl. pose proof (sr_dll _ _ _ HR) as Hd.
  pose proof (sr_class _ _ _ HR) as (p & Hp & Hs & Hc).
  pose proof (dll_nodup _ _ Hd) as [Ha _]%NoDup_cons.
  assert (forall b ib, heap w !! b = Some ib -> b <> a -> it_flags ib = ITEM_SLABBED ->
    it_clsid ib = i -> slabbed_in (popped id a l w) i b) as Hkeep.
  { intros b ib Hb Hba Hf Hcl. unfold slabbed_in, popped. upds.
    rewrite lookup_alter_ne by done. unfold alter_nn. case_decide; [by exists ib|].
    destruct (decide (b = hd0 l)) as [->|]; [|rewrite lookup_alter_ne by done; by exists ib].
    rewrite lookup_alter_eq, Hb. eexists. split; [done|]. by upds. }
  destruct (decide (i = id)) as [->|Hne].
  - split.
    + eexists. split_and!.
      * rewrite (class_popped _ _ _ _ _ _ Hp). by rewrite decide_True.
      * upds. done.
      * upds. rewrite Hc. unfold zlen in *. cbn [length] in *. rewrite u32_id by lia. lia.
    + unfold popped. upds. apply dll_same; [done|]. by apply dll_pop in Hd.
      (* the head *)
    + intros b Hb. destruct (sr_item _ _ _ HR b) as (ib & Hib & Hf & Hcl); [by right|].
      apply (Hkeep b ib); [done|by intros ->|done|done].
  - assert (forall b, b ∈ li -> b ∉ a :: l) as Hdis.
    { intros b Hb Hb'. destruct (sr_item _ _ _ HR' _ Hb) as (ib & Hib & _ & Hcb).
      destruct (sr_item _ _ _ HR _ Hb') as (ib' & Hib' & _ & Hcb'). congruence. }
    destruct HR' as [(q & Hq & Hqs & Hqc) Hqd Hqi]. split.
    + exists q. rewrite (class_popped _ _ _ _ _ _ Hp). by rewrite decide_False.
    + unfold popped. upds. apply dll_other; [intros Ha'; apply (Hdis a Ha'); left|].
      unfold alter_nn. case_decide; [done|]. apply dll_other; [|done].
      intros Hb. apply (Hdis (hd0 l) Hb). right. by apply hd0_in.
    + intros b Hb. destruct (Hqi b Hb) as (ib & Hib & Hf & Hcl).
      apply (Hkeep b ib); [done|intros ->; apply (Hdis a Hb); left|done|done].
Qed.

Lemma has_slabbed it : it_flags it = ITEM_SLABBED -> has_flag it ITEM_SLABBED = true.
Proof. intros E. unfold has_flag. by rewrite E. Qed.

Lemma take_slot_pop w F id a l :
  free_rep w F -> POWER_SMALLEST <= id <= largest w -> F id = a :: l -> zlen (a :: l) < 2 ^ 32 ->
  take_slot id w = Some (a, popped id a l w)
  /\ free_rep (popped id a l w) (fset F id l)
  /\ slab_frame (fun b => b <> a) w (popped id a l w)
  /\ (exists it, heap (popped id a l w) !! a = Some it /\ it_flags it = 0 /\ refcount it = 1
        /\ it_clsid it = id).
Proof.
  intros HF Hid HFid Hlen. pose proof (HF id Hid) as HR. rewrite HFid in HR.
  pose proof (sr_class _ _ _ HR) as (p & Hp & Hs & Hc).
  pose proof (sr_dll _ _ _ HR) as Hd.
  destruct (sr_item _ _ _ HR a) as (ia & Hia & Hfa & Hca); [left|].
  assert (a <> NULL) as Ha0 by (intros ->; apply (dll_nonnull _ _ Hd); left).
  assert (sl_curr p =? 0 = false) as Hc0 by (rewrite Hc; unfold zlen; cbn [length]; apply Z.eqb_neq; lia).
  destruct (dll_link _ _ Hd [] a l eq_refl) as (ia' & Hia' & _ & Hnx).
  rewrite Hia in Hia'. injection Hia' as <-. split_and!.
  - unfold take_slot. run. rewrite (get_class_ok _ _ _ Hp). run. rewrite Hc0. cbn [negb]. run.
    rewrite Hs. cbn [hd0]. rewrite (load_ok _ _ _ Ha0 Hia). run.
    rewrite (update_class_ok _ _ _ _ Hp). run. rewrite Hnx.
    rewrite update_if_alter_nn.
    2: { intros Hn. destruct (dll_lookup _ _ (hd0 l) Hd) as (_ & ih & Hh); [right; by apply hd0_in|].
         exists ih. by upds. }
    run. set (w1 := w <| mc_slabs ::= _ |> <| heap ::= alter_nn _ _ |>).
    assert (exists ia1, heap w1 !! a = Some ia1) as (ia1 & Hia1).
    { unfold w1. upds. unfold alter_nn. case_decide; [by exists ia|].
      destruct (decide (a = hd0 l)) as [<-|]; [rewrite lookup_alter_eq|rewrite lookup_alter_ne by done];
        rewrite Hia; eauto. }
    rewrite (update_item_alter _ _ _ _ Ha0 Hia1). run.
    rewrite update_class_ok with (p := p <| slots := hd0 l |>); [by run|].
    pose proof (class_on_class w id (fun p => p <| slots := hd0 l |>) p id Hp) as Hcl.
    by rewrite decide_True in Hcl.
  - intros i Hi. unfold fset.
    pose proof (slots_rep_popped w id a l i (F i) HR Hlen (HF i Hi)) as Hpp.
    case_decide; [subst i|]; apply Hpp; by intros.
  - split; [done|]. intros b ib Hb Hfb Hba. unfold popped. upds.
    rewrite lookup_alter_ne by done. unfold alter_nn. case_decide as E; [done|].
    rewrite lookup_alter_ne; [done|]. intros <-.
    apply (slabbed_not_free w id (a :: l) _ ib HR Hb Hfb). right. by apply hd0_in.
  - unfold popped. upds. rewrite lookup_alter_eq.
    pose proof (dll_nodup _ _ Hd) as [Ha _]%NoDup_cons.
    unfold alter_nn. case_decide as E.
    + rewrite Hia. eexists. split; [done|]. unfold clear_flag. upds. by rewrite Hfa.
    + rewrite lookup_alter_ne by (intros Ea; apply Ha; rewrite <- Ea; by apply hd0_in).
      rewrite Hia. eexists. split; [done|]. unfold clear_flag. upds. by rewrite Hfa.
Qed.

(** [do_slabs_alloc] up to the free list. *)
Lemma do_slabs_alloc_eq w F size id flags p :
  free_rep w F -> POWER_SMALLEST <= id <= largest w -> class w id = Some p -> size <= cl_size p ->
  do_slabs_alloc size id flags w
    = (when (bool_decide (F id = []) && negb (flags =? SLABS_ALLOC_NO_NEWPAGE))
         (do_slabs_newslab id;; mret tt);; take_slot id) w.
Proof.
  intros HF Hid Hp Hsz. pose proof (HF id Hid) as HR.
  pose proof (sr_class _ _ _ HR) as (p' & Hp' & Hs & Hc). rewrite Hp in Hp'. injection Hp' as <-.
  unfold do_slabs_alloc. run. fold (largest w).
  rewrite (proj2 (Z.ltb_ge id POWER_SMALLEST)), (proj2 (Z.ltb_ge (largest w) id)) by lia.
  cbn [orb]. run. rewrite (get_class_ok _ _ _ Hp). run.
  rewrite (proj2 (Z.leb_le size (cl_size p)) Hsz). destruct (F id) as [|a l] eqn:E.
  - rewrite Hc. cbn [zlen length Z.of_nat Z.eqb negb]. run. by rewrite bool_decide_eq_true_2.
  - assert (sl_curr p =? 0 = false) as -> by (rewrite Hc; unfold zlen; cbn [length]; apply Z.eqb_neq; lia).
    destruct (sr_item _ _ _ HR a) as (ia & Hia & Hfa & _); [left|].
    assert (a <> NULL) as Ha0 by (intros ->; apply (dll_nonnull _ _ (sr_dll _ _ _ HR)); left).
    cbn [negb andb]. run. rewrite Hs. cbn [hd0]. rewrite (load_ok _ _ _ Ha0 Hia). run.
    rewrite (has_slabbed _ Hfa). by run.
Qed.

Lemma take_slot_empty w F id :
  free_rep w F -> POWER_SMALLEST <= id <= largest w -> F id = [] -> take_slot id w = Some (NULL, w).
Proof.
  intros HF Hid E. destruct (HF id Hid) as [(p & Hp & _ & Hc) _ _]. rewrite E in Hc.
  unfold take_slot. run. rewrite (get_class_ok _ _ _ Hp). run. by rewrite Hc.
Qed.
