(* ===== verification/SlabPages.v ===== *)
(** * Pages of the slab allocator

    Which pages belong to which class, the invariant that ties them to the free
    and used chunks, and what page allocation does to it. *)

From S2P Require Import Prelude Memory Dll Slabs SlabsSpec.

Definition psz (w : mc) : Z := slab_page_size (mc_settings w).
Definition pages (p : slabclass_t) : list ptr := ztake (cl_slabs p) (slab_list p).
Definition page_chunks (p : slabclass_t) (pg : ptr) : list ptr :=
  map (fun x => pg + x * cl_size p) (seqZ 0 (perslab p)).
Definition chunks_of (p : slabclass_t) : list ptr := concat (map (page_chunks p) (pages p)).
Definition all_pages (w : mc) : list ptr := concat (map pages (slabclass (mc_slabs w))).

(** Where the next page comes from. *)
Definition top (w : mc) : Z :=
  if decide (mem_base (mc_slabs w) = NULL) then brk (mc_slabs w) else mem_current (mc_slabs w).

(** Pages [l] of [sz] bytes below [t] that do not overlap. *)
Record pages_ok (t sz : Z) (l : list ptr) : Prop := {
  po_nodup : NoDup l;
  po_bounds : forall p, p ∈ l -> 0 < p /\ p + sz <= t;
  po_disjoint : forall p q, p ∈ l -> q ∈ l -> p <> q -> p + sz <= q \/ q + sz <= p
}.

Lemma pages_ok_perm t sz l l' : l ≡ₚ l' -> pages_ok t sz l -> pages_ok t sz l'.
Proof.
  intros HP [H1 H2 H3]. split.
  - by rewrite <- HP.
  - intros p. rewrite <- HP. apply H2.
  - intros p q. rewrite <- HP. apply H3.
Qed.

(** [held] are pages taken from the pool or from [malloc] and not yet given to a
    class. *)
Record slab_inv_held (held : list ptr) (w : mc) (F U : Z -> list ptr) : Prop := {
  si_reassign : slab_reassign (mc_settings w) = true;
  si_psz : 0 < psz w < 2 ^ 31;
  si_top : 0 < top w;
  si_largest : POWER_SMALLEST <= largest w < zlen (slabclass (mc_slabs w));
  si_list : forall id p, class w id = Some p ->
    (0 <= cl_slabs p <= list_size p /\ list_size p < 2 ^ 32) /\ list_size p = zlen (slab_list p);
  si_size : forall id p, POWER_SMALLEST <= id <= largest w -> class w id = Some p ->
    0 < cl_size p /\ 0 <= perslab p /\ cl_size p * perslab p <= psz w
    /\ cl_slabs p * perslab p < 2 ^ 32;
  si_pages : pages_ok (top w) (psz w) (held ++ all_pages w);
  si_free : free_rep w F;
  si_chunks : forall id p, POWER_SMALLEST <= id <= largest w -> class w id = Some p ->
    F id ++ U id ≡ₚ chunks_of p;
  si_used : forall id a, POWER_SMALLEST <= id <= largest w -> a ∈ U id ->
    exists it, heap w !! a = Some it /\ it_flags it <> ITEM_SLABBED
}.

Abbreviation slab_inv := (slab_inv_held []).

(** ** Lists of classes *)

Lemma class_split w id p :
  class w id = Some p -> exists l1 l2, slabclass (mc_slabs w) = l1 ++ p :: l2 /\ length l1 = Z.to_nat id.
Proof.
  unfold class, zget. case_decide; [|done]. intros Hp. apply list_elem_of_split_length in Hp as
    (l1 & l2 & -> & E). eauto.
Qed.

Lemma all_pages_class w id p :
  class w id = Some p ->
  exists rest, all_pages w ≡ₚ pages p ++ rest
    /\ forall f, all_pages (w <| mc_slabs ::= on_class id f |>) ≡ₚ pages (f p) ++ rest.
Proof.
  intros Hp. destruct (class_split _ _ _ Hp) as (l1 & l2 & E & El).
  exists (concat (map pages l1) ++ concat (map pages l2)).
  assert (forall q, concat (map pages (l1 ++ q :: l2)) ≡ₚ pages q ++ concat (map pages l1) ++ concat (map pages l2)) as HP.
  { intros q. rewrite map_app, concat_app. cbn [map concat].
    rewrite !app_assoc. f_equiv. apply Permutation_app_comm. }
  split; [unfold all_pages; by rewrite E, HP|]. intros f. unfold all_pages, on_class. upds.
  rewrite E, <- El. rewrite alter_app_r_alt by lia. rewrite Nat.sub_diag. cbn. apply HP.
Qed.

Lemma all_pages_same w id p f :
  class w id = Some p -> pages (f p) = pages p ->
  all_pages (w <| mc_slabs ::= on_class id f |>) ≡ₚ all_pages w.
Proof. intros Hp E. destruct (all_pages_class _ _ _ Hp) as (rest & E1 & E2). by rewrite E2, E1, E. Qed.

Lemma pages_in w id p pg : class w id = Some p -> pg ∈ pages p -> pg ∈ all_pages w.
Proof.
  intros Hp Hin. destruct (all_pages_class _ _ _ Hp) as (rest & -> & _). apply elem_of_app. by left.
Qed.

(** Addresses inside the pages of the classes. *)
Definition live_addr (w : mc) (b : ptr) : Prop :=
  exists id p pg, POWER_SMALLEST <= id <= largest w /\ class w id = Some p /\ pg ∈ pages p
    /\ pg <= b < pg + psz w.

Lemma elem_of_page_chunks p pg a :
  a ∈ page_chunks p pg <-> exists x, 0 <= x < perslab p /\ a = pg + x * cl_size p.
Proof.
  unfold page_chunks. rewrite list_elem_of_In, in_map_iff. split.
  - intros (x & <- & Hx%list_elem_of_In%elem_of_seqZ). exists x. split; [lia|done].
  - intros (x & Hx & ->). exists x. split; [done|]. apply list_elem_of_In, elem_of_seqZ. lia.
Qed.

Lemma elem_of_chunks p a : a ∈ chunks_of p <-> exists pg, pg ∈ pages p /\ a ∈ page_chunks p pg.
Proof.
  unfold chunks_of. rewrite list_elem_of_In, in_concat. setoid_rewrite in_map_iff. split.
  - intros (l & (pg & <- & Hpg%list_elem_of_In) & Ha%list_elem_of_In). eauto.
  - intros (pg & Hpg & Ha). exists (page_chunks p pg). split; [|by apply list_elem_of_In].
    exists pg. split; [done|by apply list_elem_of_In].
Qed.

Lemma page_chunk_range p pg a sz :
  0 < cl_size p -> cl_size p * perslab p <= sz -> a ∈ page_chunks p pg -> pg <= a < pg + sz.
Proof. intros Hs Hsz (x & Hx & ->)%elem_of_page_chunks. nia. Qed.

Lemma chunk_live held w F U id a :
  slab_inv_held held w F U -> POWER_SMALLEST <= id <= largest w -> a ∈ F id \/ a ∈ U id ->
  live_addr w a.
Proof.
  intros HI Hid Ha. pose proof (si_free _ _ _ _ HI id Hid) as [(p & Hp & _) _ _].
  destruct (si_size _ _ _ _ HI id p Hid Hp) as (S1 & S2 & S3 & _).
  assert (a ∈ chunks_of p) as (pg & Hpg & Hc)%elem_of_chunks.
  { rewrite <- (si_chunks _ _ _ _ HI id p Hid Hp), elem_of_app. naive_solver. }
  pose proof (page_chunk_range p pg a (psz w) S1 S3 Hc). exists id, p, pg.
  split; [done|]. split; [done|]. by split.
Qed.

(** ** Changes of the class table *)

(** Same chunks: what the free lists and the partition depend on. *)
Definition same_chunks (p p1 : slabclass_t) : Prop :=
  cl_size p1 = cl_size p /\ perslab p1 = perslab p /\ cl_slabs p1 = cl_slabs p
  /\ pages p1 = pages p /\ slots p1 = slots p /\ sl_curr p1 = sl_curr p
  /\ list_size p <= list_size p1.

Record same_classes (w w1 : mc) : Prop := {
  sc_rest : w1 = w <| mc_slabs := mc_slabs w1 |>;
  sc_largest : largest w1 = largest w;
  sc_zlen : zlen (slabclass (mc_slabs w1)) = zlen (slabclass (mc_slabs w));
  sc_class : forall id p, POWER_SMALLEST <= id <= largest w -> class w id = Some p ->
    exists p1, class w1 id = Some p1 /\ same_chunks p p1
}.

Lemma same_classes_refl w : same_classes w w.
Proof. split; [by destruct w|done|done|]. intros id p _ Hp. exists p. by split_and!. Qed.

Lemma same_classes_trans w1 w2 w3 : same_classes w1 w2 -> same_classes w2 w3 -> same_classes w1 w3.
Proof.
  intros [R1 L1 Z1 C1] [R2 L2 Z2 C2]. split.
  - destruct w1, w2, w3. cbv in R1, R2 |- *. congruence.
  - congruence.
  - congruence.
  - intros id p Hid Hp. destruct (C1 id p Hid Hp) as (p1 & Hp1 & (A1 & A2 & A3 & A4 & A5 & A6 & A7)).
    destruct (C2 id p1) as (p2 & Hp2 & (B1 & B2 & B3 & B4 & B5 & B6 & B7)); [by rewrite L1|done|].
    exists p2. split; [done|]. split_and!; [congruence..|lia].
Qed.

Lemma class_in_range w F id : free_rep w F -> POWER_SMALLEST <= id <= largest w -> exists p, class w id = Some p.
Proof. intros HF Hid. destruct (HF id Hid) as [(p & Hp & _) _ _]. eauto. Qed.

Lemma slab_inv_change h h1 w w1 F U :
  slab_inv_held h w F U -> same_classes w w1 -> 0 < top w1 ->
  (forall id p, class w1 id = Some p ->
     (0 <= cl_slabs p <= list_size p /\ list_size p < 2 ^ 32) /\ list_size p = zlen (slab_list p)) ->
  pages_ok (top w1) (psz w) (h1 ++ all_pages w1) ->
  slab_inv_held h1 w1 F U.
Proof.
  intros [I1 I2 I3 I4 I5 I6 I7 I8 I9 I10] [R L Zl C] Htop Hl Hpg.
  assert (mc_settings w1 = mc_settings w) as Es by (by rewrite R).
  assert (heap w1 = heap w) as Eh by (by rewrite R).
  assert (forall id p1, POWER_SMALLEST <= id <= largest w -> class w1 id = Some p1 ->
    exists p, class w id = Some p /\ same_chunks p p1) as C'.
  { intros id p1 Hid Hp1. destruct (class_in_range w F id I8 Hid) as (p & Hp).
    destruct (C id p Hid Hp) as (p1' & Hp1' & Hs). exists p. split; [done|]. congruence. }
  split; try done; unfold psz in *; rewrite ?Es, ?L, ?Zl, ?Eh; try done.
  - intros id p1 Hid Hp1. destruct (C' id p1 Hid Hp1) as (p & Hp & (A1 & A2 & A3 & _)).
    rewrite A1, A2, A3. by apply (I6 id).
  - intros id Hid. rewrite L in Hid. destruct (I8 id Hid) as [(p & Hp & Hs & Hc) Hd Hi].
    destruct (C id p Hid Hp) as (p1 & Hp1 & (_ & _ & _ & _ & A5 & A6 & _)). split.
    + exists p1. by rewrite A5, A6.
    + by rewrite Eh.
    + intros a Ha. unfold slabbed_in. rewrite Eh. by apply Hi.
  - intros id p1 Hid Hp1. destruct (C' id p1 Hid Hp1) as (p & Hp & (A1 & A2 & A3 & A4 & _)).
    rewrite (I9 id p Hid Hp). unfold chunks_of, page_chunks. by rewrite A1, A2, A4.
Qed.

(** A change that touches neither the classes nor where memory comes from. *)
Lemma slab_inv_other h w F U f :
  slab_inv_held h w F U ->
  slabclass (f (mc_slabs w)) = slabclass (mc_slabs w) ->
  power_largest (f (mc_slabs w)) = power_largest (mc_slabs w) ->
  top w <= top (w <| mc_slabs ::= f |>) ->
  slab_inv_held h (w <| mc_slabs ::= f |>) F U /\ same_classes w (w <| mc_slabs ::= f |>).
Proof.
  intros HI Ec El Ht. assert (same_classes w (w <| mc_slabs ::= f |>)) as Hs.
  { split; [done|by unfold largest; upds|by upds; rewrite Ec|].
    intros id p _ Hp. exists p. split; [unfold class in *; upds; by rewrite Ec|by split_and!]. }
  split; [|done]. apply (slab_inv_change h h w); [done|done| | |].
  - pose proof (si_top _ _ _ _ HI). lia.
  - intros id p Hp. apply (si_list _ _ _ _ HI id). unfold class in *. upds. by rewrite <- Ec.
  - destruct (si_pages _ _ _ _ HI) as [P1 P2 P3].
    assert (all_pages (w <| mc_slabs ::= f |>) = all_pages w) as Ea by (unfold all_pages; upds; by rewrite Ec).
    rewrite Ea. split; [done| |done]. intros p Hp. destruct (P2 p Hp). lia.
Qed.
