(* ===== verification/SlabAlloc.v ===== *)
(** * Allocating from the slabs

    The operations that move pages, and the theorems: allocation and freeing keep
    the chunks in use apart from each other and from the free lists. *)

From S2P Require Import Prelude Memory Dll Slabs SlabsSpec SlabPages.

(** There is room for one more page in the counters of class [id]. *)
Definition room (w : mc) (id : Z) : Prop :=
  forall p, class w id = Some p ->
    (cl_slabs p + 1) * perslab p < 2 ^ 32 /\ cl_slabs p + 1 < 2 ^ 32 /\ list_size p < 2 ^ 31.

Lemma alloc_succeeds_ok h w F U :
  slab_inv_held h w F U ->
  exists b w1, alloc_succeeds w = Some (b, w1) /\ slab_inv_held h w1 F U /\ same_classes w w1
    /\ mc_slabs w1 = mc_slabs w <| malloc_ok := malloc_ok (mc_slabs w1) |>.
Proof.
  intros HI. unfold alloc_succeeds. run. destruct (malloc_ok (mc_slabs w)) as [|b r] eqn:E.
  - run. exists true, w. split_and!; [done|done|apply same_classes_refl|].
    by destruct w as [? ? ? [] ? ? ? ? ?].
  - run. eexists b, _. split; [reflexivity|]. upds.
    destruct (slab_inv_other h w F U (fun s => s <| malloc_ok := r |>) HI) as [H1 H2];
      [done|done|unfold top; upds; done|]. by split_and!.
Qed.

Lemma malloc_grows h w F U sz :
  slab_inv_held h w F U -> 0 <= sz -> mem_base (mc_slabs w) = NULL -> sz = psz w ->
  exists p w1, malloc sz w = Some (p, w1) /\ same_classes w w1
    /\ mem_base (mc_slabs w1) = NULL
    /\ ((p = NULL /\ slab_inv_held h w1 F U) \/ (p <> NULL /\ slab_inv_held (p :: h) w1 F U)).
Proof.
  intros HI Hsz Hb E. unfold malloc.
  destruct (alloc_succeeds_ok h w F U HI) as (b & w1 & Ea & HI1 & Hs1 & Hm). run. rewrite Ea.
  assert (mem_base (mc_slabs w1) = NULL) as Hb1 by (rewrite Hm; by upds).
  destruct b; run; [|exists NULL, w1; split_and!; [done..|by left]].
  set (g := fun s : slabs => s <| brk := brk (mc_slabs w1) + sz + 16 |>).
  assert (top w1 = brk (mc_slabs w1)) as Ht by (unfold top; by rewrite Hb1).
  assert (top (w1 <| mc_slabs ::= g |>) = brk (mc_slabs w1) + sz + 16) as Ht2
    by (unfold top, g; upds; by rewrite Hb1).
  destruct (slab_inv_other h w1 F U g HI1) as [HI2 Hs2]; [done|done|lia|].
  exists (brk (mc_slabs w1)), (w1 <| mc_slabs ::= g |>). split_and!; [done| |done|].
  - by eapply same_classes_trans.
  - pose proof (si_top _ _ _ _ HI1) as H0. right. split; [unfold NULL; lia|].
    apply (slab_inv_change h _ w1 _ F U HI1 Hs2); [lia|apply (si_list _ _ _ _ HI2)|].
    destruct (si_pages _ _ _ _ HI1) as [P1 P2 P3].
    assert (psz w1 = psz w) as Ep by (unfold psz; destruct Hs1 as [R _ _ _]; by rewrite R).
    rewrite Ep in *.
    change (all_pages (w1 <| mc_slabs ::= g |>)) with (all_pages w1). cbn [app]. split.
    + constructor; [|done]. intros Hin. destruct (P2 _ Hin). pose proof (si_psz _ _ _ _ HI). lia.
    + intros q [->|Hq]%elem_of_cons; [lia|]. destruct (P2 q Hq). lia.
    + intros q r [->|Hq]%elem_of_cons [->|Hr]%elem_of_cons Hne; [done| | |by apply P3].
      * destruct (P2 r Hr). lia.
      * destruct (P2 q Hq). lia.
Qed.

Lemma align_up_le n : n <= align_up n.
Proof.
  unfold align_up, CHUNK_ALIGN_BYTES. destruct (negb _); [|lia].
  pose proof (Z.mod_pos_bound n 8). lia.
Qed.

Lemma memory_allocate_ok h w F U :
  slab_inv_held h w F U ->
  exists p w1, memory_allocate (psz w) w = Some (p, w1) /\ same_classes w w1
    /\ ((p = NULL /\ slab_inv_held h w1 F U) \/ (p <> NULL /\ slab_inv_held (p :: h) w1 F U)).
Proof.
  intros HI. pose proof (si_psz _ _ _ _ HI) as Hp. unfold memory_allocate. run. case_decide as Hb; run.
  - destruct (malloc_grows h w F U (psz w) HI) as (p & w1 & -> & Hs & Hb1 & Hr); [lia|done|done|].
    set (g := fun s : slabs => s <| mem_malloced ::= fun m => u64 (m + psz w) |>).
    run. fold g. exists p, (w1 <| mc_slabs ::= g |>).
    assert (forall h', slab_inv_held h' w1 F U -> slab_inv_held h' (w1 <| mc_slabs ::= g |>) F U
              /\ same_classes w1 (w1 <| mc_slabs ::= g |>)) as Hg.
    { intros h' HI'. apply (slab_inv_other h' w1 F U g HI'); [done|done|unfold top, g; by upds]. }
    split; [done|].
    destruct Hr as [[E Hr]|[E Hr]]; destruct (Hg _ Hr) as [Hr' Hs'];
      (split; [by eapply same_classes_trans|]); [by left|by right].
  - destruct (Z.ltb_spec (mem_avail (mc_slabs w)) (psz w)).
    + exists NULL, w. split; [done|]. split; [apply same_classes_refl|by left].
    + run. pose proof (align_up_le (psz w)) as Ha.
      set (g := fun s : slabs => _). exists (mem_current (mc_slabs w)), (w <| mc_slabs ::= g |>).
      assert (top w = mem_current (mc_slabs w)) as Ht by (unfold top; by rewrite decide_False).
      assert (top (w <| mc_slabs ::= g |>) = mem_current (mc_slabs w) + align_up (psz w)) as Ht2
        by (unfold top, g; upds; by rewrite decide_False).
      destruct (slab_inv_other h w F U g HI) as [HI2 Hs2]; [done|done|lia|].
      split; [done|]. split; [done|]. right. pose proof (si_top _ _ _ _ HI) as H0.
      split; [unfold NULL; lia|].
      apply (slab_inv_change h _ w _ F U HI Hs2); [lia|apply (si_list _ _ _ _ HI2)|].
      destruct (si_pages _ _ _ _ HI) as [P1 P2 P3].
      change (all_pages (w <| mc_slabs ::= g |>)) with (all_pages w). cbn [app]. split.
      * constructor; [|done]. intros Hin. destruct (P2 _ Hin). lia.
      * intros q [->|Hq]%elem_of_cons; [lia|]. destruct (P2 q Hq). lia.
      * intros q r [->|Hq]%elem_of_cons [->|Hr]%elem_of_cons Hne; [done| | |by apply P3].
        -- destruct (P2 r Hr). lia.
        -- destruct (P2 q Hq). lia.
Qed.

(** ** The page lists *)

Lemma pages_extend p n l :
  0 <= cl_slabs p <= zlen (slab_list p) ->
  pages (p <| list_size := n |> <| slab_list ::= fun s => s ++ l |>) = pages p.
Proof. intros Hp. unfold pages. upds. rewrite ztake_app_l by lia. done. Qed.

Lemma same_classes_on_class w id p f :
  class w id = Some p -> same_chunks p (f p) \/ ~ POWER_SMALLEST <= id <= largest w ->
  same_classes w (w <| mc_slabs ::= on_class id f |>).
Proof.
  intros Hp Hf. split.
  - done.
  - unfold largest, on_class. by upds.
  - unfold on_class, zlen. upds. by rewrite length_alter.
  - intros i q Hi Hq. rewrite (class_on_class _ _ _ _ _ Hp). case_decide as E; [|exists q; by split_and!].
    subst i. exists (f p). split; [done|]. destruct Hf as [Hf|Hf]; [|done]. congruence.
Qed.

Lemma grow_slab_list_ok h w F U id p :
  slab_inv_held h w F U -> class w id = Some p -> list_size p < 2 ^ 31 ->
  exists r w1, grow_slab_list id w = Some (r, w1) /\ slab_inv_held h w1 F U /\ same_classes w w1
    /\ (r = 0 \/ (r = 1 /\ exists p1, class w1 id = Some p1 /\ cl_slabs p1 < list_size p1
                    /\ cl_slabs p1 = cl_slabs p /\ perslab p1 = perslab p)).
Proof.
  intros HI Hp Hsz. unfold grow_slab_list. run. rewrite (get_class_ok _ _ _ Hp).
  destruct (si_list _ _ _ _ HI id p Hp) as [Hl1 Hl2].
  destruct (Z.eqb_spec (cl_slabs p) (list_size p)) as [He|He].
  2: { exists 1, w. split_and!; [done|done|apply same_classes_refl|]. right. split; [done|].
       exists p. split_and!; [done|lia|done..]. }
  destruct (alloc_succeeds_ok h w F U HI) as (b & w1 & Ea & HI1 & Hs1 & Hm). run. rewrite Ea.
  destruct b; [|exists 0, w1; split_and!; [done..|by left]]. run.
  assert (class w1 id = Some p) as Hp1 by (unfold class; rewrite Hm; upds; exact Hp).
  set (ns := if negb (list_size p =? 0) then u32 (list_size p * 2) else 16).
  set (f := fun c : slabclass_t => _). rewrite (update_class_ok _ _ _ f Hp1). run.
  assert (cl_slabs p < ns) as Hns.
  { unfold ns. destruct (Z.eqb_spec (list_size p) 0); cbn [negb]; [lia|]. rewrite u32_id by lia. lia. }
  assert (pages (f p) = pages p) as Epg by (unfold f; apply pages_extend; lia).
  assert (same_classes w1 (w1 <| mc_slabs ::= on_class id f |>)) as Hs2
    by (apply (same_classes_on_class w1 id p); [done|left; split_and!; [done..|unfold f; upds; lia]]).
  exists 1, (w1 <| mc_slabs ::= on_class id f |>). split_and!; [done| | |].
  - apply (slab_inv_change h h w1 _ F U HI1 Hs2).
    + apply (si_top _ _ _ _ HI1).
    + intros i q. rewrite (class_on_class _ _ _ _ _ Hp1). case_decide; [|apply (si_list _ _ _ _ HI1)].
      intros [= <-]. unfold f. upds. unfold zlen. rewrite length_app, length_replicate.
      assert (ns < 2 ^ 32) by (unfold ns; case_match; [apply u32_range|lia]).
      unfold zlen in *. lia.
    + eapply pages_ok_perm; [|apply (si_pages _ _ _ _ HI1)].
      apply Permutation_app_head. symmetry. by apply (all_pages_same _ id p).
  - by eapply same_classes_trans.
  - right. split; [done|]. exists (f p). rewrite (class_on_class _ _ _ _ _ Hp1), decide_True by done.
    unfold f. by upds.
Qed.

(** The last page of a list. *)
Lemma pages_pop p pg :
  0 < cl_slabs p <= zlen (slab_list p) -> zget (cl_slabs p - 1) (slab_list p) = Some pg ->
  pages p = pages (p <| cl_slabs := cl_slabs p - 1 |>) ++ [pg].
Proof.
  intros Hp. unfold pages, zget, ztake. upds. rewrite decide_True by lia. intros Hg.
  replace (Z.to_nat (cl_slabs p)) with (S (Z.to_nat (cl_slabs p - 1))) by lia.
  by apply take_S_r.
Qed.

Lemma get_page_ok w F U :
  slab_inv w F U ->
  exists pg w1, get_page_from_global_pool w = Some (pg, w1) /\ same_classes w w1
    /\ ((pg = NULL /\ w1 = w) \/ (pg <> NULL /\ slab_inv_held [pg] w1 F U)).
Proof.
  intros HI. unfold get_page_from_global_pool. run.
  assert (exists g, class w SLAB_GLOBAL_PAGE_POOL = Some g) as (g & Hg).
  { unfold class, zget. rewrite decide_True by done. apply lookup_lt_is_Some.
    pose proof (si_largest _ _ _ _ HI). unfold zlen, POWER_SMALLEST, SLAB_GLOBAL_PAGE_POOL in *. lia. }
  rewrite (get_class_ok _ _ _ Hg). destruct (si_list _ _ _ _ HI _ _ Hg) as [Hl1 Hl2].
  destruct (Z.ltb_spec (cl_slabs g) 1) as [Hlt|Hge].
  { exists NULL, w. split_and!; [done|apply same_classes_refl|by left]. }
  assert (is_Some (zget (cl_slabs g - 1) (slab_list g))) as (pg & Hpg).
  { unfold zget. rewrite decide_True by lia. apply lookup_lt_is_Some. unfold zlen in *. lia. }
  rewrite Hpg. run. set (f := fun c : slabclass_t => _). rewrite (update_class_ok _ _ _ f Hg). run.
  assert (f g = g <| cl_slabs := cl_slabs g - 1 |>) as Ef by (unfold f; rewrite u32_id by lia; done).
  set (w1 := w <| mc_slabs ::= on_class SLAB_GLOBAL_PAGE_POOL f |>).
  assert (same_classes w w1) as Hs by (apply (same_classes_on_class w _ g); [done|right; by intros []]).
  exists pg, w1. split_and!; [done|done|right].
  assert (pages_ok (top w) (psz w) (pg :: all_pages w1)) as Hok.
  { eapply pages_ok_perm; [|apply (si_pages _ _ _ _ HI)]. cbn [app].
    destruct (all_pages_class w _ g Hg) as (rest & E1 & E2). unfold w1. rewrite E2, Ef, E1.
    rewrite (pages_pop g pg) by (done || lia). rewrite <- app_assoc. symmetry.
    apply Permutation_middle. }
  split.
  - destruct (po_bounds _ _ _ Hok pg) as [H1 _]; [left|]. unfold NULL. lia.
  - apply (slab_inv_change [] _ w w1 F U HI Hs); [apply (si_top _ _ _ _ HI)| |done].
    intros i q. unfold w1. rewrite (class_on_class _ _ _ _ _ Hg). case_decide; [|apply (si_list _ _ _ _ HI)].
    intros [= <-]. rewrite Ef. upds. lia.
Qed.

(** ** Cutting a page into chunks *)

Lemma lookup_page_cells p sz n a it :
  0 < sz -> page_cells p sz n !! a = Some it <-> exists x, 0 <= x < n /\ a = p + x * sz /\ it = item_zero.
Proof.
  intros Hsz. unfold page_cells. rewrite <- elem_of_list_to_map.
  - rewrite list_elem_of_In, in_map_iff. split.
    + intros (x & [= <- <-] & Hx%list_elem_of_In%elem_of_seqZ). exists x. split; [lia|done].
    + intros (x & Hx & -> & ->). exists x. split; [done|]. apply list_elem_of_In, elem_of_seqZ. lia.
  - change (NoDup (fst <$> ((fun x => (p + x * sz, item_zero)) <$> seqZ 0 n))).
    rewrite <- list_fmap_compose. apply NoDup_fmap_2; [|apply NoDup_seqZ].
    intros x y E. simpl in E. nia.
Qed.

Lemma lookup_wipe_in p len sz n h a :
  0 < sz -> (exists x, 0 <= x < n /\ a = p + x * sz) -> wipe_page p len sz n h !! a = Some item_zero.
Proof.
  intros Hsz (x & Hx & ->). unfold wipe_page. apply lookup_union_Some_l, lookup_page_cells; eauto.
Qed.

Lemma lookup_wipe_out p len sz n h a :
  0 < sz -> sz * n <= len -> ~ (p <= a < p + len) -> wipe_page p len sz n h !! a = h !! a.
Proof.
  intros Hsz Hn Ha. unfold wipe_page. rewrite lookup_union_r.
  - apply option_eq. intros it. rewrite map_lookup_filter_Some. split; [by intros [? _]|].
    intros Hit. split; [done|]. unfold in_range. cbn [fst]. apply andb_false_iff.
    rewrite Z.leb_gt, Z.ltb_ge. lia.
  - apply eq_None_not_Some. intros (it & (x & Hx & -> & _)%lookup_page_cells); [nia|done].
Qed.

(** What the list operations keep of a class: all but the free list. *)
Definition geo (p p1 : slabclass_t) : Prop :=
  cl_size p1 = cl_size p /\ perslab p1 = perslab p /\ cl_slabs p1 = cl_slabs p
  /\ slab_list p1 = slab_list p /\ list_size p1 = list_size p.
Record same_geometry (w w1 : mc) : Prop := {
  sg_largest : largest w1 = largest w;
  sg_top : top w1 = top w;
  sg_settings : mc_settings w1 = mc_settings w;
  sg_class : forall id p, class w id = Some p -> exists p1, class w1 id = Some p1 /\ geo p p1;
  sg_zlen : zlen (slabclass (mc_slabs w1)) = zlen (slabclass (mc_slabs w))
}.

Lemma same_geometry_refl w : same_geometry w w.
Proof. split; [done..| |done]. intros id p Hp. exists p. by split_and!. Qed.
Lemma same_geometry_trans w1 w2 w3 :
  same_geometry w1 w2 -> same_geometry w2 w3 -> same_geometry w1 w3.
Proof.
  intros [A1 A2 A3 A4 A5] [B1 B2 B3 B4 B5]. split; [congruence..| |congruence].
  intros id p Hp. destruct (A4 id p Hp) as (p1 & Hp1 & (C1 & C2 & C3 & C4 & C5)).
  destruct (B4 id p1 Hp1) as (p2 & Hp2 & (D1 & D2 & D3 & D4 & D5)).
  exists p2. split; [done|]. split_and!; congruence.
Qed.

Lemma on_class_geometry w id p f :
  class w id = Some p -> geo p (f p) -> same_geometry w (w <| mc_slabs ::= on_class id f |>).
Proof.
  intros Hp Hf. split; [done| |done| |].
  - unfold top, on_class. by upds.
  - intros i q Hq. rewrite (class_on_class _ _ _ _ _ Hp). case_decide as E; [|exists q; by split_and!].
    subst i. exists (f p). split; [done|]. congruence.
  - unfold on_class, zlen. upds. by rewrite length_alter.
Qed.

Lemma heap_geometry w f : same_geometry w (w <| heap ::= f |>).
Proof. split; [done..| |done]. intros id p Hp. exists p. by split_and!. Qed.

Lemma freed_geometry w id a l p : class w id = Some p -> same_geometry w (freed id a l w).
Proof.
  intros Hp. unfold freed, pushed. eapply same_geometry_trans; [apply heap_geometry|].
  eapply same_geometry_trans; [apply heap_geometry|].
  apply (on_class_geometry _ id p); [done|by split_and!].
Qed.

Lemma popped_geometry w id a l p : class w id = Some p -> same_geometry w (popped id a l w).
Proof.
  intros Hp. unfold popped. set (f := fun q : slabclass_t => q <| slots := hd0 l |>).
  eapply same_geometry_trans; [apply (on_class_geometry w id p f Hp); by split_and!|].
  eapply same_geometry_trans; [apply heap_geometry|].
  eapply same_geometry_trans; [apply heap_geometry|].
  apply (on_class_geometry _ id (f p)); [|by split_and!].
  pose proof (class_on_class w id f p id Hp) as Hc. by rewrite decide_True in Hc.
Qed.

(** The chunks [p], [p + sz], ... of a wiped page. *)
Definition chunk_run (p sz : Z) (n : nat) : list ptr := map (fun x => p + x * sz) (seqZ 0 (Z.of_nat n)).

Lemma chunk_run_S p sz n : chunk_run p sz (S n) = p :: chunk_run (p + sz) sz n.
Proof.
  unfold chunk_run. rewrite seqZ_cons by lia. cbn [map]. f_equal; [lia|].
  replace (Z.pred (Z.of_nat (S n))) with (Z.of_nat n) by lia.
  change (Z.succ 0) with (1 + 0). rewrite <- fmap_add_seqZ.
  change (map (fun x => p + x * sz) (Z.add 1 <$> seqZ 0 (Z.of_nat n)))
    with ((fun x => p + x * sz) <$> (Z.add 1 <$> seqZ 0 (Z.of_nat n))).
  rewrite <- list_fmap_compose. apply list_fmap_ext. intros i x _. simpl. lia.
Qed.

Lemma elem_of_chunk_run p sz n a : a ∈ chunk_run p sz n <-> exists x, 0 <= x < Z.of_nat n /\ a = p + x * sz.
Proof.
  unfold chunk_run. rewrite list_elem_of_In, in_map_iff. split.
  - intros (x & <- & Hx%list_elem_of_In%elem_of_seqZ). exists x. split; [lia|done].
  - intros (x & Hx & ->). exists x. split; [done|]. apply list_elem_of_In, elem_of_seqZ. lia.
Qed.

Lemma split_loop_ok n w F id p c :
  free_rep w F -> POWER_SMALLEST <= id <= largest w -> class w id = Some c -> 0 < cl_size c -> 0 < p ->
  (forall a, a ∈ chunk_run p (cl_size c) n -> heap w !! a = Some item_zero) ->
  zlen (F id) + Z.of_nat n < 2 ^ 32 ->
  exists w', split_loop n p id w = Some (tt, w')
    /\ free_rep w' (fset F id (reverse (chunk_run p (cl_size c) n) ++ F id))
    /\ same_geometry w w' /\ slab_frame (fun b => b ∉ chunk_run p (cl_size c) n) w w'.
Proof.
  revert w F p c. induction n as [|n IH]; intros w F p c HF Hid Hc Hsz Hp Hcells Hlen.
  - exists w. split_and!; [done| |apply same_geometry_refl|split; [by destruct w|by intros]].
    intros i Hi. unfold fset. case_decide; [subst; by apply HF|by apply HF].
  - cbn [split_loop]. rewrite chunk_run_S in Hcells |- *.
    destruct (do_slabs_free_ok w F id p item_zero HF Hid) as (E & HF1 & [R1 Fr1]);
      [unfold NULL; lia|apply Hcells; left|done|done|lia|].
    run. rewrite E. run. set (w1 := freed id p (F id) w) in *.
    pose proof (freed_geometry w id p (F id) c Hc) as G1. fold w1 in G1.
    destruct (sg_class _ _ G1 id c Hc) as (c1 & Hc1 & (S1 & _)).
    rewrite (get_class_ok _ _ _ Hc1). run. rewrite <- S1 in *.
    destruct (IH w1 (fset F id (p :: F id)) (p + cl_size c1) c1) as (w' & -> & HF' & G' & [R' Fr']);
      [done|by rewrite (sg_largest _ _ G1)|done|done|lia|..].
    + intros a Ha. apply Fr1; [apply Hcells; by right|done|].
      intros ->. apply elem_of_chunk_run in Ha as (x & Hx & E'). nia.
    + rewrite fset_eq. unfold zlen in *. cbn [length]. lia.
    + exists w'. split_and!; [done| |by eapply same_geometry_trans|].
      * intros i Hi. specialize (HF' i Hi). unfold fset in *. rewrite reverse_cons, <- app_assoc.
        cbn [app]. case_decide; [by rewrite decide_True in HF'|done].
      * split; [by eapply slab_rest_trans|]. intros b ib Hb Hfb Hnb. rewrite not_elem_of_cons in Hnb. apply Fr'; [|done|tauto].
        apply Fr1; [done|done|tauto].
Qed.

(** ** Giving a page to a class *)

Lemma held_not_live pg h w F U b :
  slab_inv_held (pg :: h) w F U -> live_addr w b -> ~ (pg <= b < pg + psz w).
Proof.
  intros HI (id & p & q & Hid & Hp & Hq & Hb) Hin. pose proof (si_pages _ _ _ _ HI) as [P1 _ P3].
  pose proof (pages_in w id p q Hp Hq) as Hq'. assert (q <> pg) as Hne.
  { intros ->. apply NoDup_cons in P1 as [P1 _]. apply P1, elem_of_app. by right. }
  destruct (P3 q pg) as [?|?]; [|by left|done|lia|lia].
  right. apply elem_of_app. by right.
Qed.

Lemma slots_rep_heap w w1 id l :
  slots_rep w id l -> mc_slabs w1 = mc_slabs w ->
  (forall a, a ∈ l -> heap w1 !! a = heap w !! a) -> slots_rep w1 id l.
Proof.
  intros [Hc Hd Hi] Es Hh. split.
  - unfold class in *. by rewrite Es.
  - apply (dll_frame (heap w)); [done|]. intros a it Ha Hit. exists it. by rewrite Hh.
  - intros a Ha. destruct (Hi a Ha) as (it & Hit & ?). exists it. by rewrite Hh.
Qed.

Lemma add_page_geo p pg :
  cl_slabs p + 1 < 2 ^ 32 -> 0 <= cl_slabs p < zlen (slab_list p) ->
  pages (p <| slab_list ::= <[Z.to_nat (cl_slabs p) := pg]> |> <| cl_slabs := u32 (cl_slabs p + 1) |>)
    = pages p ++ [pg].
Proof.
  intros H1 H2. unfold pages, ztake. upds. rewrite u32_id by lia.
  replace (Z.to_nat (cl_slabs p + 1)) with (S (Z.to_nat (cl_slabs p))) by lia.
  unfold zlen in H2. rewrite (take_S_r _ _ pg) by (apply list_lookup_insert_eq; lia).
  by rewrite take_insert_ge by lia.
Qed.

Lemma add_page_ok w id p pg :
  class w id = Some p -> 0 <= cl_slabs p < zlen (slab_list p) ->
  add_page id pg w = Some (tt, w <| mc_slabs ::= on_class id (fun p0 =>
    p0 <| slab_list ::= <[Z.to_nat (cl_slabs p0) := pg]> |> <| cl_slabs := u32 (cl_slabs p0 + 1) |>) |>).
Proof.
  intros Hp Hl. unfold add_page. run. rewrite (get_class_ok _ _ _ Hp). run.
  rewrite bool_decide_eq_true_2 by done. run. by rewrite (update_class_ok _ _ _ _ Hp).
Qed.

Lemma page_chunks_run p pg : page_chunks p pg = chunk_run pg (cl_size p) (Z.to_nat (perslab p)).
Proof.
  unfold page_chunks, chunk_run. destruct (decide (0 <= perslab p)).
  - by rewrite Z2Nat.id by lia.
  - unfold seqZ. by replace (Z.to_nat (perslab p)) with 0%nat by lia.
Qed.

Lemma chunks_of_snoc p p' pg :
  cl_size p' = cl_size p -> perslab p' = perslab p -> pages p' = pages p ++ [pg] ->
  chunks_of p' = chunks_of p ++ page_chunks p pg.
Proof.
  intros E1 E2 E3. unfold chunks_of, page_chunks. rewrite E1, E2, E3, map_app, concat_app. cbn.
  by rewrite app_nil_r.
Qed.

Lemma chunk_count w F U h id p :
  slab_inv_held h w F U -> POWER_SMALLEST <= id <= largest w -> class w id = Some p ->
  zlen (F id) + zlen (U id) = cl_slabs p * perslab p.
Proof.
  intros HI Hid Hp. pose proof (si_chunks _ _ _ _ HI id p Hid Hp) as HP.
  destruct (si_size _ _ _ _ HI id p Hid Hp) as (_ & S2 & _).
  destruct (si_list _ _ _ _ HI id p Hp) as [[L1 _] L2].
  apply Permutation_length in HP. rewrite length_app in HP. unfold zlen.
  assert (length (chunks_of p) = (Z.to_nat (cl_slabs p) * Z.to_nat (perslab p))%nat) as E.
  { assert (length (pages p) = Z.to_nat (cl_slabs p)) as El
      by (unfold pages, ztake; rewrite length_take; unfold zlen in L2; lia).
    rewrite <- El. clear El. unfold chunks_of. induction (pages p) as [|q l IH]; [done|].
    cbn [map concat length Nat.mul]. rewrite length_app, IH. f_equal.
    unfold page_chunks. rewrite length_map. apply length_seqZ. }
  nia.
Qed.

Lemma zlen_free w F U h id p :
  slab_inv_held h w F U -> POWER_SMALLEST <= id <= largest w -> class w id = Some p ->
  zlen (F id) <= cl_slabs p * perslab p.
Proof.
  intros HI Hid Hp. rewrite <- (chunk_count w F U h id p HI Hid Hp). unfold zlen. lia.
Qed.

(** No chunk belongs to two classes or occurs twice. *)
Lemma nodup_concat {A} (ls : list (list A)) m n l l' x :
  NoDup (concat ls) -> ls !! m = Some l -> ls !! n = Some l' -> x ∈ l -> x ∈ l' -> m = n.
Proof.
  revert m n. induction ls as [|k ls IH]; [done|]. cbn [concat]. intros m n (H1 & H2 & H3)%NoDup_app Hm Hn Hx Hx'.
  assert (forall j r, ls !! j = Some r -> x ∈ r -> x ∈ concat ls) as Hc.
  { intros j r Hj Hr. apply list_elem_of_In, in_concat. exists r.
    split; apply list_elem_of_In; [by eapply list_elem_of_lookup_2|done]. }
  destruct m, n; simpl in *.
  - done.
  - injection Hm as ->. exfalso. apply (H2 x Hx). by eapply Hc.
  - injection Hn as ->. exfalso. apply (H2 x Hx'). by eapply Hc.
  - f_equal. by eapply IH.
Qed.

Lemma page_class_unique h w F U i j p q pg :
  slab_inv_held h w F U -> class w i = Some p -> class w j = Some q -> pg ∈ pages p -> pg ∈ pages q -> i = j.
Proof.
  intros HI Hp Hq Hpp Hpq. pose proof (po_nodup _ _ _ (si_pages _ _ _ _ HI)) as Hnd.
  apply NoDup_app in Hnd as (_ & _ & Hnd). unfold class, zget in *.
  destruct (decide (0 <= i)); [|done]. destruct (decide (0 <= j)); [|done].
  assert (Z.to_nat i = Z.to_nat j); [|lia].
  apply (nodup_concat _ (Z.to_nat i) (Z.to_nat j) (pages p) (pages q) pg Hnd); try done;
    change (map pages) with (fmap (M := list) pages); by rewrite list_lookup_fmap, ?Hp, ?Hq.
Qed.

Lemma chunk_class_unique h w F U i j p q a :
  slab_inv_held h w F U -> POWER_SMALLEST <= i <= largest w -> POWER_SMALLEST <= j <= largest w ->
  class w i = Some p -> class w j = Some q -> a ∈ chunks_of p -> a ∈ chunks_of q -> i = j.
Proof.
  intros HI Hi Hj Hp Hq (pg & Hpg & Ha)%elem_of_chunks (pg' & Hpg' & Ha')%elem_of_chunks.
  destruct (si_size _ _ _ _ HI i p Hi Hp) as (S1 & _ & S3 & _).
  destruct (si_size _ _ _ _ HI j q Hj Hq) as (S1' & _ & S3' & _).
  pose proof (page_chunk_range p pg a _ S1 S3 Ha) as R. pose proof (page_chunk_range q pg' a _ S1' S3' Ha') as R'.
  assert (pg = pg') as <-.
  { destruct (decide (pg = pg')) as [|Hne]; [done|].
    pose proof (pages_in w i p pg Hp Hpg). pose proof (pages_in w j q pg' Hq Hpg').
    destruct (po_disjoint _ _ _ (si_pages _ _ _ _ HI) pg pg');
      [apply elem_of_app; by right|apply elem_of_app; by right|done|lia|lia]. }
  by apply (page_class_unique h w F U i j p q pg).
Qed.

Lemma chunks_nodup h w F U i p :
  slab_inv_held h w F U -> POWER_SMALLEST <= i <= largest w -> class w i = Some p -> NoDup (chunks_of p).
Proof.
  intros HI Hi Hp. destruct (si_size _ _ _ _ HI i p Hi Hp) as (S1 & _ & S3 & _).
  pose proof (si_pages _ _ _ _ HI) as [Hnd _ Hdis].
  destruct (all_pages_class _ _ _ Hp) as (rest & HP & _).
  assert (NoDup (pages p)) as Hndp.
  { apply NoDup_app in Hnd as (_ & _ & Hnd). rewrite HP in Hnd. by apply NoDup_app in Hnd as [? _]. }
  assert (forall pg, pg ∈ pages p -> pg ∈ h ++ all_pages w) as Hin
    by (intros pg Hpg; apply elem_of_app; right; by apply (pages_in w i p)).
  clear HP. unfold chunks_of. induction (pages p) as [|pg l IH]; [constructor|]. cbn [map concat].
  apply NoDup_cons in Hndp as [Hpg Hndl]. apply NoDup_app. split_and!.
  - change (NoDup ((fun x => pg + x * cl_size p) <$> seqZ 0 (perslab p))).
    apply NoDup_fmap_2; [|apply NoDup_seqZ]. intros x y E. simpl in E. nia.
  - intros a Ha Hc. apply list_elem_of_In, in_concat in Hc as (r & Hr & Hc).
    apply in_map_iff in Hr as (pg' & <- & Hpg'%list_elem_of_In). apply list_elem_of_In in Hc.
    pose proof (page_chunk_range p pg a _ S1 S3 Ha). pose proof (page_chunk_range p pg' a _ S1 S3 Hc).
    destruct (Hdis pg pg'); [apply Hin; left|apply Hin; by right|by intros ->|lia|lia].
  - apply IH; [done|]. intros pg' Hpg'. apply Hin. by right.
Qed.

Lemma used_class_unique h w F U i j a :
  slab_inv_held h w F U -> POWER_SMALLEST <= i <= largest w -> POWER_SMALLEST <= j <= largest w ->
  a ∈ U i -> a ∈ U j -> i = j.
Proof.
  intros HI Hi Hj Ha Ha'. pose proof (si_free _ _ _ _ HI i Hi) as [(p & Hp & _) _ _].
  pose proof (si_free _ _ _ _ HI j Hj) as [(q & Hq & _) _ _].
  apply (chunk_class_unique h w F U i j p q a HI); try done.
  - rewrite <- (si_chunks _ _ _ _ HI i p Hi Hp). set_solver.
  - rewrite <- (si_chunks _ _ _ _ HI j q Hj Hq). set_solver.
Qed.

Lemma used_nodup h w F U i : slab_inv_held h w F U -> POWER_SMALLEST <= i <= largest w -> NoDup (U i).
Proof.
  intros HI Hi. pose proof (si_free _ _ _ _ HI i Hi) as [(p & Hp & _) _ _].
  pose proof (chunks_nodup h w F U i p HI Hi Hp) as Hnd.
  rewrite <- (si_chunks _ _ _ _ HI i p Hi Hp) in Hnd. by apply NoDup_app in Hnd as (_ & _ & ?).
Qed.

Lemma class_Some_zlen w i q : class w i = Some q -> 0 <= i < zlen (slabclass (mc_slabs w)).
Proof.
  unfold class, zget, zlen. case_decide; [|done]. intros Hq%lookup_lt_Some. lia.
Qed.

Lemma geometry_back w w1 i q1 :
  same_geometry w w1 -> class w1 i = Some q1 -> exists q, class w i = Some q /\ geo q q1.
Proof.
  intros G Hq1. assert (is_Some (class w i)) as (q & Hq).
  { apply class_Some_zlen in Hq1 as Hi. rewrite (sg_zlen _ _ G) in Hi. unfold class, zget.
    rewrite decide_True by lia. apply lookup_lt_is_Some. unfold zlen in Hi. lia. }
  destruct (sg_class _ _ G i q Hq) as (q1' & Hq1' & Hg). exists q. split; [done|]. congruence.
Qed.

Lemma geometry_pages w w1 : same_geometry w w1 -> all_pages w1 = all_pages w.
Proof.
  intros G. unfold all_pages. f_equal. apply list_eq. intros n.
  change (map pages) with (fmap (M := list) pages). rewrite !list_lookup_fmap.
  assert (forall w0 : mc, slabclass (mc_slabs w0) !! n = class w0 (Z.of_nat n)) as E.
  { intros w0. unfold class, zget. by rewrite decide_True, Nat2Z.id by lia. }
  rewrite !E. destruct (class w1 (Z.of_nat n)) as [q1|] eqn:E1.
  - destruct (geometry_back _ _ _ _ G E1) as (q & -> & (A1 & A2 & A3 & A4 & A5)). cbn.
    unfold pages. by rewrite A3, A4.
  - destruct (class w (Z.of_nat n)) as [q|] eqn:E2; [|done].
    destruct (sg_class _ _ G _ _ E2) as (q1 & Hq1 & _). congruence.
Qed.

Lemma slots_rep_class w id l i f p :
  slots_rep w i l -> class w id = Some p -> slots (f p) = slots p -> sl_curr (f p) = sl_curr p ->
  slots_rep (w <| mc_slabs ::= on_class id f |>) i l.
Proof.
  intros [(q & Hq & Hs & Hc) Hd Hi] Hp E1 E2. split; [|done|done].
  rewrite (class_on_class _ _ _ _ _ Hp). case_decide as E; [|by exists q].
  subst i. assert (q = p) as -> by congruence. exists (f p). by rewrite E1, E2.
Qed.

Definition install (pg id : Z) (w : mc) : M mc unit :=
  memset_page pg (psz w) id;; split_slab_page_into_freelist pg id;; add_page id pg.

Lemma install_ok pg w F U id p :
  slab_inv_held [pg] w F U -> POWER_SMALLEST <= id <= largest w -> class w id = Some p ->
  (cl_slabs p + 1) * perslab p < 2 ^ 32 -> cl_slabs p + 1 < 2 ^ 32 -> cl_slabs p < list_size p ->
  exists w', install pg id w w = Some (tt, w')
    /\ slab_inv w' (fset F id (reverse (page_chunks p pg) ++ F id)) U
    /\ slab_frame (live_addr w) w w'
    /\ largest w' = largest w /\ (forall b, live_addr w b -> live_addr w' b)
    /\ (exists p', class w' id = Some p' /\ cl_size p' = cl_size p).
Proof.
  intros HI Hid Hp Hr1 Hr2 Hls.
  destruct (si_size _ _ _ _ HI id p Hid Hp) as (S1 & S2 & S3 & S4).
  destruct (si_list _ _ _ _ HI id p Hp) as [[L1 L1'] L2].
  destruct (po_bounds _ _ _ (si_pages _ _ _ _ HI) pg) as [Hpg _]; [left|].
  set (w1 := w <| heap ::= wipe_page pg (psz w) (cl_size p) (perslab p) |>).
  assert (forall b, live_addr w b -> heap w1 !! b = heap w !! b) as Hlive.
  { intros b Hb. unfold w1. upds. apply lookup_wipe_out; [done|lia|].
    by apply (held_not_live pg [] w F U). }
  assert (free_rep w1 F) as HF1.
  { intros i Hi. apply (slots_rep_heap w); [by apply (si_free _ _ _ _ HI)|done|].
    intros a Ha. apply Hlive. apply (chunk_live [pg] w F U i); [done|done|by left]. }
  assert (forall a, a ∈ chunk_run pg (cl_size p) (Z.to_nat (perslab p)) -> heap w1 !! a = Some item_zero) as Hz.
  { intros a (x & Hx & ->)%elem_of_chunk_run. unfold w1. upds. apply lookup_wipe_in; [done|].
    exists x. split; [lia|done]. }
  pose proof (zlen_free w F U [pg] id p HI Hid Hp) as Hzl.
  destruct (split_loop_ok (Z.to_nat (perslab p)) w1 F id pg p) as (w2 & E2 & HF2 & G2 & [R2 Fr2]);
    [done|done|done|done|done|done|lia|].
  destruct (sg_class _ _ G2 id p Hp) as (p2 & Hp2 & (C1 & C2 & C3 & C4 & C5)).
  set (f := fun p0 : slabclass_t => p0 <| slab_list ::= <[Z.to_nat (cl_slabs p0) := pg]> |>
                                      <| cl_slabs := u32 (cl_slabs p0 + 1) |>).
  assert (pages (f p2) = pages p2 ++ [pg]) as Epg by (apply add_page_geo; [lia|rewrite C3, C4; lia]).
  assert (pages p2 = pages p) as Epp by (unfold pages; by rewrite C3, C4).
  set (w3 := w2 <| mc_slabs ::= on_class id f |>).
  assert (class w3 id = Some (f p2)) as Hp3.
  { unfold w3. rewrite (class_on_class _ _ _ _ _ Hp2). by rewrite decide_True. }
  exists w3. split; [|split].
  - unfold install, memset_page, split_slab_page_into_freelist. run.
    rewrite (get_class_ok _ _ _ Hp). run. fold w1. rewrite (get_class_ok w1 id p Hp). run.
    rewrite E2. run. unfold w3, f. rewrite (add_page_ok w2 id p2 pg Hp2); [done|].
    rewrite C3, C4. lia.
  - assert (same_geometry w w2) as G02 by (eapply same_geometry_trans; [apply heap_geometry|exact G2]).
    assert (forall i q3, class w3 i = Some q3 -> (i = id /\ q3 = f p2) \/
      (i <> id /\ exists q, class w i = Some q /\ geo q q3)) as Hback.
    { intros i q3. unfold w3. rewrite (class_on_class _ _ _ _ _ Hp2).
      case_decide; [intros [= <-]; by left|]. intros Hq3. right. split; [done|].
      by apply (geometry_back w w2). }
    assert (largest w3 = largest w) as Elarge by (unfold w3, largest, on_class; upds; apply (sg_largest _ _ G2)).
    assert (top w3 = top w) as Et by (unfold top, w3, on_class; upds; apply (sg_top _ _ G02)).
    assert (psz w3 = psz w) as Ep by (unfold psz, w3; upds; by rewrite (sg_settings _ _ G2)).
    split; rewrite ?Elarge, ?Et, ?Ep.
    + unfold w3. upds. rewrite (sg_settings _ _ G02). apply HI.
    + apply HI.
    + apply HI.
    + unfold w3, on_class, zlen. upds. rewrite length_alter. fold (zlen (slabclass (mc_slabs w2))).
      rewrite (sg_zlen _ _ G02). apply HI.
    + intros i q3 [[-> ->]|(Hne & q & Hq & (D1 & D2 & D3 & D4 & D5))]%Hback.
      * unfold f. upds. unfold zlen. rewrite length_insert. fold (zlen (slab_list p2)).
        rewrite C3, C4, C5, u32_id by lia. lia.
      * rewrite D3, D4, D5. by apply (si_list _ _ _ _ HI i).
    + intros i q3 Hi [[-> ->]|(Hne & q & Hq & (D1 & D2 & D3 & D4 & D5))]%Hback.
      * unfold f. upds. rewrite C1, C2, C3, u32_id by lia. lia.
      * rewrite D1, D2, D3. by apply (si_size _ _ _ _ HI i).
    + cbn [app]. eapply pages_ok_perm; [|apply (si_pages _ _ _ _ HI)]. cbn [app].
      destruct (all_pages_class _ _ _ Hp2) as (rest & P1 & P2). unfold w3. rewrite P2, Epg.
      rewrite <- (geometry_pages _ _ G02), P1, <- app_assoc. apply Permutation_middle.
    + intros i Hi. rewrite page_chunks_run. rewrite Elarge in Hi.
      apply (slots_rep_class w2 id _ i f p2); [|done|done|done]. apply HF2.
      by rewrite (sg_largest _ _ G2).
    + intros i q3 Hi [[-> ->]|(Hne & q & Hq & (D1 & D2 & D3 & D4 & D5))]%Hback.
      * rewrite fset_eq, (chunks_of_snoc p (f p2) pg C1 C2) by (by rewrite Epg, Epp).
        rewrite <- (si_chunks _ _ _ _ HI id p Hi Hp), reverse_Permutation, <- app_assoc.
        apply Permutation_app_comm.
      * rewrite fset_ne by done. rewrite (si_chunks _ _ _ _ HI i q Hi Hq). unfold chunks_of, page_chunks, pages.
        by rewrite D1, D2, D3, D4.
    + intros i a Hi Ha. destruct (si_used _ _ _ _ HI i a Hi Ha) as (it & Hit & Hf).
      assert (live_addr w a) as Hla by (apply (chunk_live [pg] w F U i); [done|done|by right]).
      exists it. split; [|done]. unfold w3. upds. apply Fr2; [by rewrite Hlive|done|].
      rewrite <- page_chunks_run. intros Hin. apply (held_not_live pg [] w F U a HI Hla).
      by apply (page_chunk_range p).
  - assert (largest w3 = largest w) as Elarge by (unfold w3, largest, on_class; upds; apply (sg_largest _ _ G2)).
    split_and!; [|done| |by exists (f p2)].
    + split.
      * eapply (slab_rest_trans _ w1); [done|]. by eapply (slab_rest_trans _ w2).
      * intros b ib Hb Hfb Hlb. apply (Fr2 b ib); [by rewrite Hlive|done|].
        rewrite <- page_chunks_run. intros Hin. apply (held_not_live pg [] w F U b HI Hlb).
        by apply (page_chunk_range p).
    + intros b (i & q & qg & Hi & Hq & Hqg & Hb).
      destruct (sg_class _ _ G2 i q Hq) as (q2 & Hq2 & (D1 & D2 & D3 & D4 & D5)).
      assert (psz w3 = psz w) as Ep by (unfold psz, w3; upds; by rewrite (sg_settings _ _ G2)).
      destruct (decide (i = id)) as [->|Hne].
      * exists id, (f p2), qg. rewrite Elarge, Ep, Epg, Epp, elem_of_app.
        assert (q = p) as -> by congruence. split; [done|]. split; [done|]. by split; [left|].
      * exists i, q2, qg. rewrite Elarge, Ep. unfold w3.
        rewrite (class_on_class _ _ _ _ _ Hp2), decide_False by done.
        unfold pages in *. rewrite D3, D4. split; [done|]. split; [done|]. by split.
Qed.

(** ** A new page for a class *)

Lemma same_classes_live w w1 b : same_classes w w1 -> live_addr w b -> live_addr w1 b.
Proof.
  intros [R L Zl C] (i & q & qg & Hi & Hq & Hqg & Hb). destruct (C i q Hi Hq) as (q1 & Hq1 & (A1 & A2 & A3 & A4 & _)).
  exists i, q1, qg. rewrite L, A4. assert (psz w1 = psz w) as -> by (unfold psz; by rewrite R).
  split; [done|]. split; [done|]. by split.
Qed.

Lemma same_classes_frame w w1 K : same_classes w w1 -> slab_frame K w w1.
Proof.
  intros [R L Zl C]. assert (heap w1 = heap w) as Eh by (by rewrite R). split.
  - rewrite Eh. rewrite R at 1. by destruct w.
  - intros. by rewrite Eh.
Qed.

(** What is kept of the world when the allocator worked for class [id]. *)
Record grown (id : Z) (w w' : mc) : Prop := {
  gr_frame : slab_frame (live_addr w) w w';
  gr_largest : largest w' = largest w;
  gr_live : forall b, live_addr w b -> live_addr w' b;
  gr_size : forall p, class w id = Some p -> exists p', class w' id = Some p' /\ cl_size p' = cl_size p
}.

Lemma grown_same id w w1 :
  POWER_SMALLEST <= id <= largest w -> same_classes w w1 -> grown id w w1.
Proof.
  intros Hid Hs. split; [by apply same_classes_frame|apply Hs|by intros b; apply same_classes_live|].
  intros p Hp. destruct (sc_class _ _ Hs id p Hid Hp) as (p1 & Hp1 & (A1 & _)). by exists p1.
Qed.

Lemma grown_trans id w1 w2 w3 : grown id w1 w2 -> grown id w2 w3 -> grown id w1 w3.
Proof.
  intros [[R1 F1] L1 V1 S1] [[R2 F2] L2 V2 S2]. split.
  - split; [by eapply slab_rest_trans|]. intros b it Hb Hf Hl. apply F2; auto.
  - congruence.
  - auto.
  - intros p Hp. destruct (S1 p Hp) as (p1 & Hp1 & E1). destruct (S2 p1 Hp1) as (p2 & Hp2 & E2).
    exists p2. split; [done|congruence].
Qed.

Lemma same_classes_room w w1 id p1 :
  POWER_SMALLEST <= id <= largest w -> same_classes w w1 -> room w id -> class w1 id = Some p1 ->
  (exists p, class w id = Some p) ->
  (cl_slabs p1 + 1) * perslab p1 < 2 ^ 32 /\ cl_slabs p1 + 1 < 2 ^ 32.
Proof.
  intros Hid Hs Hr Hp1 (p & Hp). destruct (sc_class _ _ Hs id p Hid Hp) as (q & Hq & (_ & A2 & A3 & _)).
  assert (q = p1) as -> by congruence. rewrite A2, A3. destruct (Hr p Hp) as (? & ? & _). by split.
Qed.

(** The page: from the pool, else from [memory_allocate]. *)
Lemma obtain_page_ok w F U :
  slab_inv w F U ->
  exists pg w1, (p ← get_page_from_global_pool;
                 (if decide (p = NULL) then memory_allocate (psz w) else mret p)) w = Some (pg, w1)
    /\ same_classes w w1
    /\ ((pg = NULL /\ slab_inv w1 F U) \/ (pg <> NULL /\ slab_inv_held [pg] w1 F U)).
Proof.
  intros HI. destruct (get_page_ok w F U HI) as (pg & w1 & E & Hs & Hr). run. rewrite E.
  destruct Hr as [[-> ->]|[Hne HI1]].
  - rewrite decide_True by done. by apply memory_allocate_ok.
  - rewrite decide_False by done. exists pg, w1. run. split_and!; [done|done|by right].
Qed.

Lemma newslab_ok w F U id p :
  slab_inv w F U -> POWER_SMALLEST <= id <= largest w -> class w id = Some p -> room w id ->
  exists r w' cs, do_slabs_newslab id w = Some (r, w')
    /\ slab_inv w' (fset F id (cs ++ F id)) U /\ grown id w w' /\ (r = 0 -> cs = [])
    /\ Forall (fun a => ~ live_addr w a) cs.
Proof.
  intros HI Hid Hp Hroom. destruct (Hroom p Hp) as (Hr1 & Hr2 & Hr3).
  assert (forall w1, slab_inv w1 F U -> slab_inv w1 (fset F id ([] ++ F id)) U) as Hnil.
  { intros w1 [I1 I2 I3 I4 I5 I6 I7 I8 I9 I10].
    assert (forall i, fset F id ([] ++ F id) i = F i) as E
      by (intros i; unfold fset; case_decide; [by subst|done]).
    split; try done.
    - intros i Hi. rewrite E. by apply I8.
    - intros i q Hi Hq. rewrite E. by apply I9. }
  assert (exists g, class w SLAB_GLOBAL_PAGE_POOL = Some g) as (g & Hg).
  { unfold class, zget. rewrite decide_True by done. apply lookup_lt_is_Some.
    pose proof (si_largest _ _ _ _ HI). unfold zlen, POWER_SMALLEST, SLAB_GLOBAL_PAGE_POOL in *. lia. }
  unfold do_slabs_newslab. run. rewrite (get_class_ok _ _ _ Hp). run.
  rewrite (get_class_ok _ _ _ Hg). run. rewrite (si_reassign _ _ _ _ HI). cbn [orb]. fold (psz w).
  case_match.
  { run. set (f := fun s : slabs => s <| mem_limit_reached := true |>).
    destruct (slab_inv_other [] w F U f HI) as [HI1 Hs1]; [done|done|unfold top; by upds|].
    exists 0, (w <| mc_slabs ::= f |>), []. split_and!; [done|by apply Hnil|by apply grown_same|done|done]. }
  destruct (grow_slab_list_ok [] w F U id p HI Hp Hr3) as (r & w1 & Eg & HI1 & Hs1 & Hr). run.
  rewrite Eg. destruct Hr as [->|(-> & p1 & Hp1 & Hlt & Hsl & Hps)].
  { cbn. exists 0, w1, []. split_and!; [done|by apply Hnil|by apply grown_same|done|done]. }
  cbn [Z.eqb]. destruct (obtain_page_ok w1 F U HI1) as (pg & w2 & Eo & Hs2 & Hr).
  assert (psz w1 = psz w) as Ep by (unfold psz; by rewrite (sc_rest _ _ Hs1)). rewrite Ep in Eo.
  run. rewrite run_bind in Eo. destruct (get_page_from_global_pool w1) as [[pg0 w1']|]; [|done].
  rewrite run_bind, Eo. assert (same_classes w w2) as Hs by (by eapply same_classes_trans).
  destruct Hr as [[-> HI2]|[Hne HI2]].
  { rewrite decide_True by done. exists 0, w2, [].
    split_and!; [done|by apply Hnil|by apply grown_same|done|done]. }
  rewrite decide_False by done.
  assert (POWER_SMALLEST <= id <= largest w1) as Hid1 by (by rewrite (sc_largest _ _ Hs1)).
  destruct (sc_class _ _ Hs2 id p1 Hid1 Hp1) as (p2 & Hp2 & (_ & _ & B3' & _ & _ & _ & B7')).
  assert (POWER_SMALLEST <= id <= largest w2) as Hid2 by (by rewrite (sc_largest _ _ Hs)).
  destruct (sc_class _ _ Hs id p Hid Hp) as (p2' & Hp2' & (_ & B2 & B3 & _)).
  assert (p2' = p2) as -> by congruence.
  destruct (install_ok pg w2 F U id p2 HI2 Hid2 Hp2) as (w3 & E3 & HI3 & Hf3 & L3 & V3 & (p3 & Hp3 & E3'));
    [rewrite B2, B3; lia|rewrite B3; lia|lia|].
  assert (Eins := E3). unfold install in Eins. rewrite !run_bind in Eins.
  assert (psz w2 = psz w) as Ep2 by (unfold psz; by rewrite (sc_rest _ _ Hs)). rewrite Ep2 in Eins.
  exists 1, w3, (reverse (page_chunks p2 pg)). split_and!; [|done| |done|].
  - run. destruct (memset_page pg (psz w) id w2) as [[[] wa]|]; [|done]. run. rewrite run_bind in Eins.
    destruct (split_slab_page_into_freelist pg id wa) as [[[] wb]|]; [|done]. by rewrite run_bind, Eins.
  - eapply grown_trans; [by apply grown_same|]. split; [done|done|done|].
    intros q Hq. exists p3. split; [done|congruence].
  - apply Forall_forall. intros a Ha Hl.
    apply (held_not_live pg [] w2 F U a HI2).
    { by apply (same_classes_live w). }
    destruct (si_size _ _ _ _ HI2 id p2 Hid2 Hp2) as (S1 & _ & S3 & _). 
    rewrite elem_of_reverse in Ha. exact (page_chunk_range p2 pg a _ S1 S3 Ha).
Qed.

(** ** Allocation and freeing *)

(** Changes of the free lists and of the memory of chunks, with the classes'
    geometry kept. *)
Lemma slab_inv_chunks h w w1 F U F1 U1 :
  slab_inv_held h w F U -> same_geometry w w1 -> free_rep w1 F1 ->
  (forall i, POWER_SMALLEST <= i <= largest w -> F1 i ++ U1 i ≡ₚ F i ++ U i) ->
  (forall i a, POWER_SMALLEST <= i <= largest w -> a ∈ U1 i ->
     exists it, heap w1 !! a = Some it /\ it_flags it <> ITEM_SLABBED) ->
  slab_inv_held h w1 F1 U1.
Proof.
  intros HI G HF HP HU. pose proof (sg_largest _ _ G) as EL. pose proof (sg_top _ _ G) as ET.
  assert (psz w1 = psz w) as Ep by (unfold psz; by rewrite (sg_settings _ _ G)).
  split; rewrite ?EL, ?ET, ?Ep, ?(sg_settings _ _ G), ?(sg_zlen _ _ G); try apply HI; try done.
  - intros i q1 Hq1. destruct (geometry_back _ _ _ _ G Hq1) as (q & Hq & (D1 & D2 & D3 & D4 & D5)).
    rewrite D3, D4, D5. by apply (si_list _ _ _ _ HI i).
  - intros i q1 Hi Hq1. destruct (geometry_back _ _ _ _ G Hq1) as (q & Hq & (D1 & D2 & D3 & D4 & D5)).
    rewrite D1, D2, D3. by apply (si_size _ _ _ _ HI i).
  - rewrite (geometry_pages _ _ G). apply HI.
  - intros i q1 Hi Hq1. destruct (geometry_back _ _ _ _ G Hq1) as (q & Hq & (D1 & D2 & D3 & D4 & D5)).
    rewrite (HP i Hi), (si_chunks _ _ _ _ HI i q Hi Hq). unfold chunks_of, page_chunks, pages.
    by rewrite D1, D2, D3, D4.
Qed.

Lemma same_geometry_live w w1 b : same_geometry w w1 -> live_addr w b -> live_addr w1 b.
Proof.
  intros G (i & q & qg & Hi & Hq & Hqg & Hb). destruct (sg_class _ _ G i q Hq) as (q1 & Hq1 & (_ & _ & A3 & A4 & _)).
  exists i, q1, qg. rewrite (sg_largest _ _ G). unfold psz in *. rewrite (sg_settings _ _ G).
  unfold pages in *. rewrite A3, A4. split; [done|]. split; [done|]. by split.
Qed.

Lemma free_chunk_unused h w F U i j a :
  slab_inv_held h w F U -> POWER_SMALLEST <= i <= largest w -> POWER_SMALLEST <= j <= largest w ->
  a ∈ F i -> a ∉ U j.
Proof.
  intros HI Hi Hj Ha HU. destruct (sr_item _ _ _ (si_free _ _ _ _ HI i Hi) a Ha) as (it & Hit & Hf & _).
  destruct (si_used _ _ _ _ HI j a Hj HU) as (it' & Hit' & Hf'). congruence.
Qed.

Lemma used_not_free h w F U i j a :
  slab_inv_held h w F U -> POWER_SMALLEST <= i <= largest w -> POWER_SMALLEST <= j <= largest w ->
  a ∈ U j -> a ∉ F i.
Proof. intros HI Hi Hj Ha HF. by apply (free_chunk_unused h w F U i j a HI). Qed.

(** The chunk [r] was given out, to a class whose pages are those of [w']. *)
Record allocated (w w' : mc) (U : Z -> list ptr) (id r : Z) : Prop := {
  al_unused : forall i, POWER_SMALLEST <= i <= largest w -> r ∉ U i;
  al_frame : slab_frame (fun b => live_addr w b /\ b <> r) w w';
  al_item : exists it, heap w' !! r = Some it /\ it_flags it = 0 /\ refcount it = 1 /\ it_clsid it = id;
  al_live : live_addr w' r /\ r <> NULL
}.

Lemma take_slot_ok w F U id a l p :
  slab_inv w F U -> POWER_SMALLEST <= id <= largest w -> class w id = Some p -> F id = a :: l ->
  cl_slabs p * perslab p < 2 ^ 32 ->
  take_slot id w = Some (a, popped id a l w)
  /\ slab_inv (popped id a l w) (fset F id l) (fset U id (a :: U id))
  /\ slab_frame (fun b => b <> a) w (popped id a l w)
  /\ allocated w (popped id a l w) U id a.
Proof.
  intros HI Hid Hp HF Hlen. pose proof (zlen_free w F U [] id p HI Hid Hp) as Hz. rewrite HF in Hz.
  destruct (take_slot_pop w F id a l (si_free _ _ _ _ HI) Hid HF) as (E & HF1 & Hfr & (it & Hit & Hfl & Hrc & Hcl)); [lia|].
  pose proof (popped_geometry w id a l p Hp) as G.
  assert (a ∈ F id) as Hain by (rewrite HF; left).
  split_and!; [done| |done|].
  - apply (slab_inv_chunks [] w _ F U); [done|done|done| |].
    + intros i Hi. unfold fset. case_decide; [subst i; rewrite HF|done]. symmetry. apply Permutation_middle.
    + intros i b Hi Hb. assert (b = a \/ (b <> a /\ b ∈ U i)) as [->|[Hne Hb']].
      { unfold fset in Hb. destruct (decide (b = a)); [by left|right]. split; [done|].
        case_decide; [|done]. subst. set_solver. }
      * exists it. by rewrite Hfl.
      * destruct (si_used _ _ _ _ HI i b Hi Hb') as (ib & Hib & Hfb). exists ib.
        split; [by apply Hfr|done].
  - split.
    + intros i Hi. by apply (free_chunk_unused [] w F U id i a HI).
    + destruct Hfr as [R Hfr]. split; [done|]. intros b ib Hb Hfb [_ Hne]. by apply Hfr.
    + by exists it.
    + split; [apply (same_geometry_live w _ _ G), (chunk_live [] w F U id); [done|done|by left]|].
      intros ->. by apply (dll_nonnull _ _ (sr_dll _ _ _ (si_free _ _ _ _ HI id Hid))).
Qed.

Lemma slabs_alloc_ok w F U size id p :
  slab_inv w F U -> POWER_SMALLEST <= id <= largest w -> class w id = Some p -> size <= cl_size p ->
  room w id ->
  exists r w' F', slabs_alloc size id 0 w = Some (r, w')
    /\ largest w' = largest w /\ (forall b, live_addr w b -> live_addr w' b)
    /\ (exists p', class w' id = Some p' /\ cl_size p' = cl_size p)
    /\ ((r = NULL /\ F id = [] /\ F' id = [] /\ slab_inv w' F' U /\ slab_frame (live_addr w) w w')
        \/ (slab_inv w' F' (fset U id (r :: U id)) /\ allocated w w' U id r)).
Proof.
  intros HI Hid Hp Hsz Hroom. destruct (si_size _ _ _ _ HI id p Hid Hp) as (_ & _ & _ & S4).
  unfold slabs_alloc. rewrite (do_slabs_alloc_eq w F size id 0 p); [|apply HI|done..].
  destruct (F id) as [|a l] eqn:EF.
  - rewrite bool_decide_eq_true_2 by done. cbn [Z.eqb SLABS_ALLOC_NO_NEWPAGE negb andb]. run.
    destruct (newslab_ok w F U id p HI Hid Hp Hroom) as (r0 & w1 & cs & E & HI1 & [G1 L1 V1 S1] & _ & Hcs).
    rewrite E. run. destruct (S1 p Hp) as (p1 & Hp1 & Es).
    assert (POWER_SMALLEST <= id <= largest w1) as Hid1 by (by rewrite L1).
    rewrite EF, app_nil_r in HI1. destruct cs as [|a cs].
    + exists NULL, w1, (fset F id []). rewrite (take_slot_empty w1 (fset F id [])) by
        (try apply HI1; try done; by rewrite fset_eq).
      split_and!; [done|done|done|by exists p1|]. left. by rewrite fset_eq.
    + destruct (si_size _ _ _ _ HI1 id p1 Hid1 Hp1) as (_ & _ & _ & S4').
      destruct (take_slot_ok w1 _ U id a cs p1 HI1 Hid1 Hp1) as (E2 & HI2 & Fr2 & [A1 A2 A3 A4]);
        [by rewrite fset_eq|done|].
      pose proof (popped_geometry w1 id a cs p1 Hp1) as G2.
      destruct (sg_class _ _ G2 id p1 Hp1) as (p2 & Hp2 & (D1 & _)).
      apply Forall_cons in Hcs as [Hla _]. rewrite E2.
      exists a, (popped id a cs w1), (fset (fset F id (a :: cs)) id cs).
      split_and!; [done| | | |].
      * by rewrite (sg_largest _ _ G2).
      * intros b Hb. apply (same_geometry_live w1); [done|by apply V1].
      * exists p2. split; [done|congruence].
      * right. split; [done|]. split; [|split|done|done].
        -- intros i Hi. apply A1. by rewrite L1.
        -- destruct G1 as [R1 _], A2 as [R2 _]. by eapply slab_rest_trans.
        -- intros b ib Hb Hfb [Hlb Hne]. destruct A2 as [_ A2], G1 as [_ G1]. apply A2; auto.
  - rewrite bool_decide_eq_false_2 by done. cbn [andb]. run.
    destruct (take_slot_ok w F U id a l p HI Hid Hp EF S4) as (E2 & HI2 & Fr2 & HA).
    pose proof (popped_geometry w id a l p Hp) as G2.
    destruct (sg_class _ _ G2 id p Hp) as (p2 & Hp2 & (D1 & _)). rewrite E2.
    exists a, (popped id a l w), (fset F id l). split_and!; [done| | | |].
    + apply (sg_largest _ _ G2).
    + intros b. by apply same_geometry_live.
    + by exists p2.
    + by right.
Qed.

(** With a chunk on the free list the front one is given out. *)
Lemma slabs_alloc_head w F U size id flags p a l :
  slab_inv w F U -> POWER_SMALLEST <= id <= largest w -> class w id = Some p -> size <= cl_size p ->
  F id = a :: l ->
  exists w', slabs_alloc size id flags w = Some (a, w') /\ slab_inv w' (fset F id l) (fset U id (a :: U id))
    /\ allocated w w' U id a.
Proof.
  intros HI Hid Hp Hsz EF. destruct (si_size _ _ _ _ HI id p Hid Hp) as (_ & _ & _ & S4).
  destruct (take_slot_ok w F U id a l p HI Hid Hp EF S4) as (E2 & HI2 & _ & HA). exists (popped id a l w). split; [|done].
  unfold slabs_alloc. rewrite (do_slabs_alloc_eq w F size id flags p); [|apply HI|done..]. rewrite EF.
  rewrite bool_decide_eq_false_2 by done. cbn [andb]. by run.
Qed.

Lemma slabs_free_ok w F U id a size p U' it :
  slab_inv w F U -> POWER_SMALLEST <= id <= largest w -> class w id = Some p -> U id ≡ₚ a :: U' ->
  heap w !! a = Some it -> has_flag it ITEM_CHUNKED = false ->
  slabs_free a size id w = Some (tt, freed id a (F id) w)
  /\ slab_inv (freed id a (F id) w) (fset F id (a :: F id)) (fset U id U')
  /\ slab_frame (fun b => b <> a) w (freed id a (F id) w)
  /\ same_geometry w (freed id a (F id) w).
Proof.
  intros HI Hid Hp HU Hit Hch. assert (a ∈ U id) as Ha by (rewrite HU; left).
  destruct (si_used _ _ _ _ HI id a Hid Ha) as (it' & Hit' & Hf).
  assert (it' = it) as -> by congruence.
  destruct (si_size _ _ _ _ HI id p Hid Hp) as (S1 & S2 & S3 & S4).
  pose proof (si_chunks _ _ _ _ HI id p Hid Hp) as HP.
  assert (0 < a) as Ha0.
  { assert (a ∈ chunks_of p) as (pg & Hpg & Hc)%elem_of_chunks by (rewrite <- HP; set_solver).
    pose proof (pages_in w id p pg Hp Hpg) as Hin.
    destruct (po_bounds _ _ _ (si_pages _ _ _ _ HI) pg) as [? _]; [done|].
    pose proof (page_chunk_range p pg a (psz w) S1 S3 Hc). lia. }
  assert (zlen (F id) + 1 <= cl_slabs p * perslab p) as Hz.
  { rewrite <- (chunk_count w F U [] id p HI Hid Hp). apply Permutation_length in HU.
    unfold zlen. cbn in HU. lia. }
  destruct (do_slabs_free_ok w F id a it (si_free _ _ _ _ HI) Hid) as (E & HF1 & Hfr);
    [unfold NULL; lia|done|done|done|lia|].
  pose proof (freed_geometry w id a (F id) p Hp) as G. split_and!; [done| |done|done].
  apply (slab_inv_chunks [] w _ F U); [done|done|done| |].
  - intros i Hi. unfold fset. case_decide; [subst i|done]. rewrite HU. apply Permutation_middle.
  - intros i b Hi Hb. assert (b ∈ U i /\ b <> a) as [Hb' Hne]; [|].
    { unfold fset in Hb. case_decide as Ei; [subst i|].
      - split; [rewrite HU; by right|]. intros ->.
        pose proof (used_nodup [] w F U id HI Hid) as Hnd. rewrite HU in Hnd.
        by apply NoDup_cons in Hnd as [? _].
      - split; [done|]. intros ->. by apply Ei, (used_class_unique [] w F U i id a HI). }
    destruct (si_used _ _ _ _ HI i b Hi Hb') as (ib & Hib & Hfb). exists ib. split; [by apply Hfr|done].
Qed.
