(* ===== verification/SlabProps.v ===== *)
(** * Properties of the slab allocator *)

From S2P Require Import Prelude Memory Double Dll Slabs SlabsSpec SlabPages SlabAlloc.

(** ** Size classes *)

(** All classes up to the largest are in the table. *)
Definition classes_present (w : mc) : Prop :=
  POWER_SMALLEST <= largest w < 64
  /\ forall i, POWER_SMALLEST <= i <= largest w -> exists p, class w i = Some p.

Lemma clsid_loop_ok fuel w size r :
  classes_present w -> POWER_SMALLEST <= r <= largest w -> largest w - r < Z.of_nat fuel ->
  exists res, clsid_loop fuel size r w = Some (res, w) /\ r <= res <= largest w
    /\ (forall i p, r <= i < res -> class w i = Some p -> cl_size p < size)
    /\ (forall p, class w res = Some p -> size <= cl_size p \/ res = largest w).
Proof.
  intros Hc. revert r. induction fuel as [|fuel IH]; intros r Hr Hf; [lia|]. cbn [clsid_loop].
  destruct (proj2 Hc r Hr) as (p & Hp). run. rewrite (get_class_ok _ _ _ Hp).
  destruct (Z.ltb_spec (cl_size p) size) as [Hlt|Hge].
  - run. fold (largest w). destruct (Z.eqb_spec r (largest w)) as [->|Hne].
    + run. exists (largest w). split_and!; [done|lia|lia|intros i q ? ?; lia|by right].
    + destruct (IH (r + 1)) as (res & -> & H1 & H2 & H3); [lia..|].
      exists res. split_and!; [done|lia|lia| |done].
      intros i q Hi Hq. destruct (decide (i = r)) as [->|]; [congruence|]. apply (H2 i); [lia|done].
  - run. exists r. split_and!; [done|lia|lia|intros i q ? ?; lia|].
    intros q Hq. left. congruence.
Qed.

Lemma clsid_ok w size :
  classes_present w -> 0 < size <= item_size_max (mc_settings w) ->
  exists res, slabs_clsid size w = Some (res, w) /\ POWER_SMALLEST <= res <= largest w
    /\ (forall i p, POWER_SMALLEST <= i < res -> class w i = Some p -> cl_size p < size)
    /\ (forall p, class w res = Some p -> size <= cl_size p \/ res = largest w).
Proof.
  intros Hc Hs. unfold slabs_clsid. run.
  rewrite (proj2 (Z.eqb_neq size 0)), (proj2 (Z.ltb_ge _ _)) by lia. cbn [orb].
  destruct (clsid_loop_ok 64 w size POWER_SMALLEST) as (res & -> & ?); [done|..].
  - split; [unfold POWER_SMALLEST; lia|apply Hc].
  - destruct Hc as [Hc _]. unfold POWER_SMALLEST in *. lia.
  - by exists res.
Qed.

(** C23: [slabs_clsid] returns the first class, in table order, whose chunks hold
    the size, the largest class when none does, and 0 exactly for the sizes 0 and
    above [item_size_max]; it terminates and changes nothing. *)
Theorem slabs_clsid_first_fit w size :
  classes_present w -> 0 <= size ->
  exists res, slabs_clsid size w = Some (res, w)
    /\ (res = 0 <-> size = 0 \/ item_size_max (mc_settings w) < size)
    /\ (res <> 0 -> POWER_SMALLEST <= res <= largest w
          /\ (forall i p, POWER_SMALLEST <= i < res -> class w i = Some p -> cl_size p < size)
          /\ (forall p, class w res = Some p -> size <= cl_size p \/ res = largest w)).
Proof.
  intros Hc Hs. destruct (decide (0 < size <= item_size_max (mc_settings w))) as [Hd|Hd].
  - destruct (clsid_ok w size Hc Hd) as (res & E & H1 & H2 & H3). exists res.
    split_and!; [done| |by intros].
    unfold POWER_SMALLEST in *. lia.
  - exists 0. split_and!; [|lia|done]. unfold slabs_clsid. run.
    destruct (Z.eqb_spec size 0); [done|]. cbn [orb].
    by rewrite (proj2 (Z.ltb_lt _ _)) by lia.
Qed.

(** ** Disjoint chunks *)

(** C9: a successful [slabs_alloc] returns a chunk that is not in use in any class,
    lies inside a page of its class and comes back with no flags and one
    reference; a failing one leaves the free list empty.  Either way all chunks
    in use keep their contents, every chunk of every page stays on exactly one
    free list or in use, and pages never overlap. *)
Theorem slabs_alloc_disjoint w F U size id p :
  slab_inv w F U -> POWER_SMALLEST <= id <= largest w -> class w id = Some p -> size <= cl_size p ->
  room w id ->
  exists r w' F', slabs_alloc size id 0 w = Some (r, w')
    /\ ((r = NULL /\ F' id = [] /\ slab_inv w' F' U /\ slab_frame (live_addr w) w w')
        \/ (slab_inv w' F' (fset U id (r :: U id)) /\ allocated w w' U id r)).
Proof.
  intros HI Hid Hp Hsz Hr.
  destruct (slabs_alloc_ok w F U size id p HI Hid Hp Hsz Hr) as (r & w' & F' & E & _ & _ & _ & HR).
  exists r, w', F'. split; [done|]. destruct HR as [(H1 & H2 & H3 & H4 & H5)|[H1 H2]]; [left|right]; done.
Qed.

(** C16: [slabs_free] of a chunk in use that is not a part of a chunked item puts it
    in front of the free list of its class and changes no other chunk in use; the
    chunks stay partitioned.  The next [slabs_alloc] of the class returns the same
    chunk, unflagged and with one reference, and the free list is the one there was
    before. *)
Theorem slabs_free_returns_chunk w F U id a size p U' it :
  slab_inv w F U -> POWER_SMALLEST <= id <= largest w -> class w id = Some p -> U id ≡ₚ a :: U' ->
  heap w !! a = Some it -> has_flag it ITEM_CHUNKED = false ->
  exists w', slabs_free a size id w = Some (tt, w')
    /\ slab_inv w' (fset F id (a :: F id)) (fset U id U') /\ slab_frame (fun b => b <> a) w w'
    /\ forall size' flags, size' <= cl_size p -> exists w'' F'' U'', slabs_alloc size' id flags w' = Some (a, w'')
         /\ slab_inv w'' F'' U'' /\ F'' id = F id /\ U'' id = a :: U' /\ allocated w' w'' (fset U id U') id a.
Proof.
  intros HI Hid Hp HU Hit Hch.
  destruct (slabs_free_ok w F U id a size p U' it HI Hid Hp HU Hit Hch) as (E & H1 & H2 & G).
  eexists. split; [exact E|]. split; [done|]. split; [done|]. intros size' flags Hsz.
  destruct (sg_class _ _ G id p Hp) as (p' & Hp' & Es & _).
  destruct (slabs_alloc_head _ _ _ size' id flags p' a (F id) H1) as (w'' & E2 & HI2 & HA);
    [by rewrite (sg_largest _ _ G)|done|by rewrite Es|by rewrite fset_eq|].
  eexists w'', _, _. split; [exact E2|]. split; [exact HI2|]. by rewrite !fset_eq.
Qed.

(** ** Start-up *)

Definition run_init (m : M mc bool) (w : mc) : mc := match m w with Some (_, w') => w' | None => w end.
(** What start-up leaves in a class, as a check that evaluates; [n] is the
    largest class, [sz] the page size. *)
Definition fresh_class (n sz i : Z) (p : slabclass_t) : bool :=
  (slots p =? 0) && (sl_curr p =? 0) && (cl_slabs p =? 0) && (list_size p =? 0)
  && (zlen (slab_list p) =? 0)
  && (if (1 <=? i) && (i <=? n)
      then (0 <? cl_size p) && (perslab p =? sz / cl_size p) && (cl_size p mod 8 =? 0) else true).
Definition fresh_classes (w : mc) : bool :=
  forallb (fun i => from_option (fresh_class (largest w) (psz w) i) false (class w i))
    (seqZ 0 (zlen (slabclass (mc_slabs w)))).

Lemma fresh_class_ok w i p :
  fresh_classes w = true -> class w i = Some p -> fresh_class (largest w) (psz w) i p = true.
Proof.
  unfold fresh_classes. rewrite forallb_forall. intros Hf Hp. specialize (Hf i). rewrite Hp in Hf. apply Hf.
  apply list_elem_of_In, elem_of_seqZ. apply class_Some_zlen in Hp. lia.
Qed.

Lemma fresh_class_sizes w i p :
  fresh_classes w = true -> POWER_SMALLEST <= i <= largest w -> class w i = Some p ->
  perslab p = psz w / cl_size p /\ cl_size p mod CHUNK_ALIGN_BYTES = 0 /\ 0 < cl_size p.
Proof.
  intros Hf Hi Hp. pose proof (fresh_class_ok w i p Hf Hp) as Hc. unfold fresh_class, POWER_SMALLEST in *.
  rewrite (proj2 (Z.leb_le 1 i)), (proj2 (Z.leb_le i (largest w))) in Hc by lia. cbn [andb] in Hc.
  rewrite !andb_true_iff, !Z.eqb_eq, Z.ltb_lt in Hc. unfold CHUNK_ALIGN_BYTES. tauto.
Qed.

Lemma fresh_present w :
  POWER_SMALLEST <= largest w < 64 -> zlen (slabclass (mc_slabs w)) = 64 -> classes_present w.
Proof.
  intros Hl Hz. split; [done|]. intros i Hi. unfold class, zget, POWER_SMALLEST, zlen in *.
  rewrite decide_True by lia. apply lookup_lt_is_Some. lia.
Qed.

(** The allocator starts out with no page and no chunk. *)
Lemma fresh_slab_inv w :
  fresh_classes w = true -> slab_reassign (mc_settings w) = true -> 0 < psz w < 2 ^ 31 -> 0 < top w ->
  POWER_SMALLEST <= largest w < 64 -> zlen (slabclass (mc_slabs w)) = 64 -> all_pages w = [] ->
  slab_inv w (fun _ => []) (fun _ => []).
Proof.
  intros Hf Hr Hp Ht Hl Hz Ha.
  assert (forall i p, class w i = Some p ->
    slots p = 0 /\ sl_curr p = 0 /\ cl_slabs p = 0 /\ list_size p = 0 /\ zlen (slab_list p) = 0) as Hc.
  { intros i p Hi. pose proof (fresh_class_ok w i p Hf Hi) as H. unfold fresh_class in H.
    rewrite !andb_true_iff, !Z.eqb_eq in H. tauto. }
  split; try done.
  - lia.
  - intros i p Hi. destruct (Hc i p Hi) as (_ & _ & -> & -> & ->). lia.
  - intros i p Hi Hp'. destruct (fresh_class_sizes w i p Hf Hi Hp') as (E & _ & Hs).
    destruct (Hc i p Hp') as (_ & _ & -> & _). rewrite E.
    pose proof (Z.div_pos (psz w) (cl_size p)). pose proof (Z.mul_div_le (psz w) (cl_size p)). lia.
  - rewrite Ha. split; [constructor|..]; intros q; [|intros r]; intros Hq; by apply not_elem_of_nil in Hq.
  - intros i Hi. destruct (proj2 (fresh_present w Hl Hz) i Hi) as (p & Hi'). split.
    + exists p. destruct (Hc i p Hi') as (-> & -> & _). done.
    + apply dll_nil.
    + intros a H. by apply not_elem_of_nil in H.
  - intros i p Hi Hi'. destruct (Hc i p Hi') as (_ & _ & E & _). unfold chunks_of, pages. by rewrite E.
  - intros i a Hi H. by apply not_elem_of_nil in H.
Qed.

(** ** A small configuration for examples

    Pages of 1 kB, chunk sizes 96, 120 and 512. *)
Definition tiny_settings : settings :=
  Settings 0 0 true true 1024 512 1024 48 true true 1 0 false 61 20 40 65536.
Definition tiny_init : M mc bool :=
  slabs_init 65536 (double_lit 5 4) false (Some [96; 120; 0]) NULL false NULL None.
Definition tiny_mc : mc := Eval vm_compute in run_init tiny_init (mc_init <| mc_settings := tiny_settings |>).

Lemma tiny_init_eq : tiny_init (mc_init <| mc_settings := tiny_settings |>) = Some (true, tiny_mc).
Proof. vm_compute. reflexivity. Qed.
#[global] Opaque tiny_mc.
Lemma tiny_largest : largest tiny_mc = 3.
Proof. vm_compute. reflexivity. Qed.
Lemma tiny_settings_eq : mc_settings tiny_mc = tiny_settings.
Proof. vm_compute. reflexivity. Qed.
Lemma tiny_present : classes_present tiny_mc.
Proof. apply fresh_present; [rewrite tiny_largest; unfold POWER_SMALLEST; lia|vm_compute; reflexivity]. Qed.
Lemma tiny_slab_inv : slab_inv tiny_mc (fun _ => []) (fun _ => []).
Proof.
  assert (psz tiny_mc = 1024) as E by (vm_compute; reflexivity).
  apply fresh_slab_inv; try (vm_compute; reflexivity); [rewrite E; lia|].
  rewrite tiny_largest. unfold POWER_SMALLEST. lia.
Qed.

Lemma slabs_clsid_first_fit_witness : slabs_clsid 100 tiny_mc = Some (2, tiny_mc).
Proof.
  destruct (slabs_clsid_first_fit tiny_mc 100 tiny_present) as (res & E & _); [lia|].
  rewrite E. assert (fst <$> slabs_clsid 100 tiny_mc = Some 2) as E2 by (vm_compute; reflexivity).
  rewrite E in E2. injection E2 as ->. reflexivity.
Defined.

(** Class 2 holds 120-byte chunks. *)
Lemma tiny_class2 : exists p, class tiny_mc 2 = Some p /\ cl_size p = 120 /\ perslab p = 8
  /\ cl_slabs p = 0 /\ list_size p = 0.
Proof.
  exists (Slabclass 120 8 0 0 0 [] 0). split; [vm_compute; reflexivity|]. repeat split; reflexivity.
Qed.

Lemma slabs_alloc_disjoint_witness :
  exists r w' F', slabs_alloc 100 2 0 tiny_mc = Some (r, w') /\ r = 66376
    /\ slab_inv w' F' (fset (fun _ => []) 2 [r]).
Proof.
  destruct tiny_class2 as (p & Hp & E1 & E2 & E3 & E4).
  destruct (slabs_alloc_disjoint tiny_mc (fun _ => []) (fun _ => []) 100 2 p tiny_slab_inv) as
    (r & w' & F' & E & HR); [rewrite tiny_largest; unfold POWER_SMALLEST; lia|done|lia|..].
  { intros q Hq. assert (q = p) as -> by congruence. lia. }
  assert (fst <$> slabs_alloc 100 2 0 tiny_mc = Some 66376) as Er by (vm_compute; reflexivity).
  rewrite E in Er. injection Er as ->. exists 66376, w', F'. split; [done|]. split; [done|].
  destruct HR as [([=] & _)|[HI _]]. exact HI.
Defined.

(** Allocate and free again. *)
Lemma slabs_free_returns_chunk_witness :
  exists r w' w'' F'', slabs_alloc 100 2 0 tiny_mc = Some (r, w')
    /\ slabs_free r 100 2 w' = Some (tt, w'') /\ slab_inv w'' F'' (fset (fset (fun _ => []) 2 [r]) 2 [])
    /\ exists w3, slabs_alloc 110 2 0 w'' = Some (r, w3).
Proof.
  destruct tiny_class2 as (p & Hp & E1 & E2 & E3 & E4).
  destruct (slabs_alloc_ok tiny_mc (fun _ => []) (fun _ => []) 100 2 p tiny_slab_inv) as
    (r & w' & F' & E & EL & _ & (p' & Hp' & Es') & HR); [rewrite tiny_largest; unfold POWER_SMALLEST; lia|done|lia|..].
  { intros q Hq. assert (q = p) as -> by congruence. lia. }
  assert (fst <$> slabs_alloc 100 2 0 tiny_mc = Some 66376) as Er by (vm_compute; reflexivity).
  rewrite E in Er. injection Er as ->.
  destruct HR as [([=] & _)|[HI [_ _ (it & Hit & Hf & _) _]]].
  destruct (slabs_free_returns_chunk w' F' _ 2 66376 100 p' [] it HI) as (w'' & E'' & HI'' & _ & Hnext).
  - rewrite EL, tiny_largest. unfold POWER_SMALLEST. lia.
  - done.
  - by rewrite fset_eq.
  - done.
  - unfold has_flag. by rewrite Hf.
  - destruct (Hnext 110 0) as (w3 & _ & _ & E5 & _); [rewrite Es', E1; lia|].
    exists 66376, w', w'', (fset F' 2 (66376 :: F' 2)). do 3 (split; [done|]). by exists w3.
Defined.
