(* ===== verification/Items.v ===== *)
(** * Items and the LRU queues (items.c)

    Linking and unlinking items, reference counts, allocation with eviction,
    lazy expiry on fetch, and the segmented LRU.  An item is in the hash table
    and in one queue exactly while [ITEM_LINKED] is set.  The item locks are the
    caller's; where the code only tries one, [locked hv] tells whether somebody
    else holds it. *)

From S2P Require Import Prelude BipBuffer Memory Assoc Slabs.

Section items.
Context `{HashFunction}.

(** ** Reference counts and CAS ids *)

Definition refcount_incr (p : ptr) : M mc Z :=
  update_item p (fun i => i <| refcount := u16 (refcount i + 1) |>);;
  i ← load p; mret (refcount i).
Definition refcount_decr (p : ptr) : M mc Z :=
  update_item p (fun i => i <| refcount := u16 (refcount i - 1) |>);;
  i ← load p; mret (refcount i).

Definition get_cas_id : M mc Z :=
  on_lru (fun l => l <| cas_id := u64 (cas_id l + 1) |>);;
  gets (fun w => cas_id (mc_lru w)).
Definition set_cas_id (new_cas : Z) : M mc unit := on_lru (fun l => l <| cas_id := new_cas |>).

Definition item_is_flushed (it : item) (w : mc) : bool :=
  let oldest_live := oldest_live (mc_settings w) in
  let cas := ITEM_get_cas it in
  let oldest_cas := oldest_cas (mc_settings w) in
  if (oldest_live =? 0) || (current_time w <? oldest_live) then false
  else (time it <=? oldest_live)
       || (negb (oldest_cas =? 0) && negb (cas =? 0) && (cas <? oldest_cas)).

Definition do_get_lru_size (id : Z) : M mc Z := gets (fun w => aget (sizes (mc_lru w)) id).

(** The expiry tests of the LRU ([<]) and of fetches ([<=]). *)
Definition item_expired_lt (it : item) (w : mc) : bool :=
  negb (exptime it =? 0) && (exptime it <? current_time w).
Definition item_expired_le (it : item) (w : mc) : bool :=
  negb (exptime it =? 0) && (exptime it <=? current_time w).

(** [storage_delete] of storage.c asks extstore to drop what an [ITEM_HDR]
    points at. *)
Definition STORAGE_delete (p : ptr) : M mc unit :=
  i ← load p;
  when (has_flag i ITEM_HDR) (modify (fun w => w <| storage_deleted ::= cons p |>)).

(** ** The histogram of item sizes *)

Definition size_bucket (it : item) : Z :=
  let ntotal := s32 (ITEM_ntotal it) in
  let bucket := Z.quot ntotal 32 in
  if negb (Z.rem ntotal 32 =? 0) then bucket + 1 else bucket.

Definition item_stats_sizes_bump (d : Z) (p : ptr) : M mc unit :=
  i ← load p;
  l ← gets mc_lru;
  match stats_sizes_hist l with
  | None => mret tt
  | Some h =>
      if ITEM_get_cas i <? stats_sizes_cas_min l then mret tt
      else
        let bucket := size_bucket i in
        when (bucket <? stats_sizes_buckets l)
          (on_lru (fun l => l <| stats_sizes_hist := Some (<[bucket := u32 (aget h bucket + d)]> h) |>))
  end.
Definition item_stats_sizes_add (p : ptr) : M mc unit := item_stats_sizes_bump 1 p.
Definition item_stats_sizes_remove (p : ptr) : M mc unit := item_stats_sizes_bump (-1) p.

(** [calloc_ok]: whether the histogram could be allocated. *)
Definition item_stats_sizes_init (calloc_ok : bool) : M mc unit :=
  l ← gets mc_lru;
  match stats_sizes_hist l with
  | Some _ => mret tt
  | None =>
      st ← gets mc_settings;
      on_lru (fun l => l <| stats_sizes_buckets := item_size_max st / 32 + 1 |>
                         <| stats_sizes_hist := if calloc_ok then Some ∅ else None |>);;
      cas ← (if use_cas st then get_cas_id else mret 0);
      on_lru (fun l => l <| stats_sizes_cas_min := cas |>)
  end.

(** ** Queues *)

(** The bytes an item counts for in [sizes_bytes]. *)
Definition lru_bytes (it : item) : Z :=
  if has_flag it ITEM_HDR then u64 (ITEM_ntotal it - nbytes it + sizeof_item_hdr) else ITEM_ntotal it.

(** The item becomes the head of the queue named by [slabs_clsid]. *)
Definition do_item_link_q (it : ptr) : M mc unit :=
  i ← load it;
  massert (negb (has_flag i ITEM_SLABBED));;
  let id := it_clsid i in
  l ← gets mc_lru;
  let head := aget (heads l) id in
  let tail := aget (tails l) id in
  massert (bool_decide (it <> head));;
  massert (bool_decide ((head <> NULL /\ tail <> NULL) \/ (head = NULL /\ tail = NULL)));;
  update_item it (fun i => i <| prev := NULL |> <| next := head |>);;
  when (bool_decide (head <> NULL)) (update_item head (fun n => n <| prev := it |>));;
  on_lru (fun l => l <| heads ::= <[id := it]> |>);;
  when (bool_decide (tail = NULL)) (on_lru (fun l => l <| tails ::= <[id := it]> |>));;
  i ← load it;
  on_lru (fun l => l <| sizes ::= <[id := u32 (aget (sizes l) id + 1)]> |>
                     <| sizes_bytes ::= <[id := u64 (aget (sizes_bytes l) id + lru_bytes i)]> |>).
Definition item_link_q (it : ptr) : M mc unit := do_item_link_q it.

Definition on_istats (id : Z) (f : itemstats_t -> itemstats_t) : M mc unit :=
  on_lru (fun l => l <| itemstats ::= <[id := f (istats l id)]> |>).

Definition item_link_q_warm (it : ptr) : M mc unit :=
  do_item_link_q it;;
  i ← load it;
  on_istats (it_clsid i) (fun s => s <| moves_to_warm := u64 (moves_to_warm s + 1) |>).

Definition do_item_unlink_q (it : ptr) : M mc unit :=
  i ← load it;
  let id := it_clsid i in
  l ← gets mc_lru;
  when (bool_decide (aget (heads l) id = it))
    (massert (bool_decide (prev i = NULL));; on_lru (fun l => l <| heads ::= <[id := next i]> |>));;
  when (bool_decide (aget (tails l) id = it))
    (massert (bool_decide (next i = NULL));; on_lru (fun l => l <| tails ::= <[id := prev i]> |>));;
  massert (bool_decide (next i <> it));;
  massert (bool_decide (prev i <> it));;
  when (bool_decide (next i <> NULL)) (update_item (next i) (fun n => n <| prev := prev i |>));;
  when (bool_decide (prev i <> NULL)) (update_item (prev i) (fun n => n <| next := next i |>));;
  on_lru (fun l => l <| sizes ::= <[id := u32 (aget (sizes l) id - 1)]> |>
                     <| sizes_bytes ::= <[id := u64 (aget (sizes_bytes l) id - lru_bytes i)]> |>).
Definition item_unlink_q (it : ptr) : M mc unit := do_item_unlink_q it.

(** ** Linking, unlinking, releasing *)

Definition item_free (it : ptr) : M mc unit :=
  i ← load it;
  l ← gets mc_lru;
  massert (negb (has_flag i ITEM_LINKED));;
  massert (bool_decide (it <> aget (heads l) (it_clsid i)));;
  massert (bool_decide (it <> aget (tails l) (it_clsid i)));;
  massert (refcount i =? 0);;
  slabs_free it (ITEM_ntotal i) (ITEM_clsid i).

Definition do_item_remove (it : ptr) : M mc unit :=
  i ← load it;
  massert (negb (has_flag i ITEM_SLABBED));;
  massert (0 <? refcount i);;
  r ← refcount_decr it;
  if r =? 0 then item_free it else mret tt.

Definition do_item_link (it : ptr) (hv : Z) : M mc Z :=
  i ← load it;
  massert (negb (has_flag i ITEM_LINKED) && negb (has_flag i ITEM_SLABBED));;
  now ← gets current_time;
  update_item it (fun i => set_flag ITEM_LINKED i <| time := now |>);;
  i ← load it;
  on_stats (fun s => s <| curr_bytes ::= fun b => u64 (b + ITEM_ntotal i) |>
                       <| curr_items ::= fun n => u64 (n + 1) |>
                       <| total_items ::= fun n => u64 (n + 1) |>);;
  st ← gets mc_settings;
  cas ← (if use_cas st then get_cas_id else mret 0);
  update_item it (ITEM_set_cas cas);;
  assoc_insert it hv;;
  item_link_q it;;
  refcount_incr it;;
  item_stats_sizes_add it;;
  mret 1.

Definition do_item_unlink (it : ptr) (hv : Z) : M mc unit :=
  i ← load it;
  if has_flag i ITEM_LINKED then
    update_item it (clear_flag ITEM_LINKED);;
    on_stats (fun s => s <| curr_bytes ::= fun b => u64 (b - ITEM_ntotal i) |>
                         <| curr_items ::= fun n => u64 (n - 1) |>);;
    item_stats_sizes_remove it;;
    assoc_delete (ITEM_key i) hv;;
    item_unlink_q it;;
    do_item_remove it
  else mret tt.

(** The same with the LRU lock already held. *)
Definition do_item_unlink_nolock (it : ptr) (hv : Z) : M mc unit :=
  i ← load it;
  if has_flag i ITEM_LINKED then
    update_item it (clear_flag ITEM_LINKED);;
    on_stats (fun s => s <| curr_bytes ::= fun b => u64 (b - ITEM_ntotal i) |>
                         <| curr_items ::= fun n => u64 (n - 1) |>);;
    item_stats_sizes_remove it;;
    assoc_delete (ITEM_key i) hv;;
    do_item_unlink_q it;;
    do_item_remove it
  else mret tt.

Definition do_item_replace (it new_it : ptr) (hv : Z) : M mc Z :=
  i ← load it;
  massert (negb (has_flag i ITEM_SLABBED));;
  do_item_unlink it hv;;
  do_item_link new_it hv.

(** Warm restart: the queues' links are in the memory already. *)
Definition do_item_link_fixup (it : ptr) : M mc unit :=
  i ← load it;
  assoc_insert it (hash (ITEM_key i));;
  i ← load it;
  let id := it_clsid i in
  let ntotal := s32 (ITEM_ntotal i) in
  on_lru (fun l => l <| heads ::= fun h =>
      if bool_decide (prev i = NULL /\ aget h id = NULL) then <[id := it]> h else h |>
    <| tails ::= fun t =>
      if bool_decide (next i = NULL /\ aget t id = NULL) then <[id := it]> t else t |>
    <| sizes ::= <[id := u32 (aget (sizes l) id + 1)]> |>
    <| sizes_bytes ::= <[id := u64 (aget (sizes_bytes l) id + ntotal)]> |>);;
  on_stats (fun s => s <| curr_bytes ::= fun b => u64 (b + ntotal) |>
                       <| curr_items ::= fun n => u64 (n + 1) |>
                       <| total_items ::= fun n => u64 (n + 1) |>);;
  item_stats_sizes_add it.

Definition ITEM_UPDATE_INTERVAL := 60.

Definition do_item_update (it : ptr) : M mc unit :=
  i ← load it;
  st ← gets mc_settings;
  now ← gets current_time;
  if lru_segmented st then
    massert (negb (has_flag i ITEM_SLABBED));;
    if has_flag i ITEM_LINKED then
      if (ITEM_lruid i =? COLD_LRU) && has_flag i ITEM_ACTIVE then
        update_item it (fun i => i <| time := now |>);;
        item_unlink_q it;;
        update_item it (fun i => clear_flag ITEM_ACTIVE
          (i <| it_clsid := ITEM_clsid i |> <| it_clsid ::= fun c => Z.lor c WARM_LRU |>));;
        item_link_q_warm it
      else update_item it (fun i => i <| time := now |>)
    else mret tt
  else if time i <? u32 (now - ITEM_UPDATE_INTERVAL) then
    massert (negb (has_flag i ITEM_SLABBED));;
    if has_flag i ITEM_LINKED then
      update_item it (fun i => i <| time := now |>);;
      item_unlink_q it;;
      item_link_q it
    else mret tt
  else mret tt.

(** ** The tail of a queue *)

Definition LRU_PULL_EVICT := 1.
Definition LRU_PULL_CRAWL_BLOCKS := 2.
Definition LRU_PULL_RETURN_ITEM := 4.
Definition pull_flag (flags f : Z) : bool := negb (Z.land flags f =? 0).

(** What the body of the loop leaves in [it], [removed], [move_to_lru] and
    [*ret_it]; [pl_it] is NULL when the loop goes on. *)
Record pulled := Pulled { pl_it : ptr; pl_removed : Z; pl_move : Z; pl_ret : option (ptr * Z) }.

(** [limit] when the [switch] uses it: HOT falls through into WARM. *)
Definition pull_limit (cur_lru total_bytes : Z) (st : settings) : Z :=
  let hot := if cur_lru =? HOT_LRU then u64 (total_bytes * hot_lru_pct st) / 100 else 0 in
  if hot =? 0 then u64 (total_bytes * warm_lru_pct st) / 100 else hot.

(** [case HOT_LRU] and [case WARM_LRU]. *)
Definition pull_hot_warm (id cur_lru total_bytes max_age : Z) (search : ptr) : M mc pulled :=
  i ← load search;
  st ← gets mc_settings;
  now ← gets current_time;
  bytes ← gets (fun w => aget (sizes_bytes (mc_lru w)) id);
  if has_flag i ITEM_ACTIVE then
    update_item search (clear_flag ITEM_ACTIVE);;
    if cur_lru =? WARM_LRU then
      on_istats id (fun s => s <| moves_within_lru := u64 (moves_within_lru s + 1) |>);;
      do_item_unlink_q search;;
      do_item_link_q search;;
      do_item_remove search;;
      mret (Pulled NULL 1 0 None)
    else
      on_istats id (fun s => s <| moves_to_warm := u64 (moves_to_warm s + 1) |>);;
      do_item_unlink_q search;;
      mret (Pulled search 1 WARM_LRU None)
  else if (pull_limit cur_lru total_bytes st <? bytes) || (max_age <? u32 (now - time i)) then
    on_istats id (fun s => s <| moves_to_cold := u64 (moves_to_cold s + 1) |>);;
    do_item_unlink_q search;;
    mret (Pulled search 1 COLD_LRU None)
  else mret (Pulled search 0 0 None).

(** [case COLD_LRU]. *)
Definition pull_cold (orig_id id flags : Z) (reassign_lock : bool) (search : ptr) (hv : Z) : M mc pulled :=
  i ← load search;
  st ← gets mc_settings;
  now ← gets current_time;
  if pull_flag flags LRU_PULL_EVICT then
    if negb (evict_to_free st) then mret (Pulled search 0 0 None)
    else
      on_istats id (fun s => s <| evicted := u64 (evicted s + 1) |>
        <| evicted_time := u32 (now - time i) |>
        <| evicted_nonzero ::= fun x => if negb (exptime i =? 0) then u64 (x + 1) else x |>
        <| evicted_unfetched ::= fun x => if negb (has_flag i ITEM_FETCHED) then u64 (x + 1) else x |>
        <| evicted_active ::= fun x => if has_flag i ITEM_ACTIVE then u64 (x + 1) else x |>);;
      STORAGE_delete search;;
      do_item_unlink_nolock search hv;;
      (if slab_automove st =? 2 then slabs_reassign reassign_lock (-1) orig_id;; mret tt else mret tt);;
      mret (Pulled search 1 0 None)
  else if pull_flag flags LRU_PULL_RETURN_ITEM then mret (Pulled search 0 0 (Some (search, hv)))
  else if has_flag i ITEM_ACTIVE && lru_segmented st then
    on_istats id (fun s => s <| moves_to_warm := u64 (moves_to_warm s + 1) |>);;
    update_item search (clear_flag ITEM_ACTIVE);;
    do_item_unlink_q search;;
    mret (Pulled search 1 WARM_LRU None)
  else mret (Pulled search 0 0 None).

(** One item of the walk, its lock held. *)
Definition pull_item (orig_id id cur_lru total_bytes flags max_age : Z) (reassign_lock : bool)
    (search : ptr) (hv : Z) : M mc pulled :=
  refs ← refcount_incr search;
  i ← load search;
  st ← gets mc_settings;
  now ← gets current_time;
  if negb (refs =? 2) && negb (tail_repair_time st =? 0)
     && (u32 (time i + tail_repair_time st) <? now) then
    on_istats id (fun s => s <| lrutail_reflocked := u64 (lrutail_reflocked s + 1) |>
                             <| tailrepairs := u64 (tailrepairs s + 1) |>);;
    update_item search (fun i => i <| refcount := 1 |>);;
    STORAGE_delete search;;
    do_item_unlink_nolock search hv;;
    mret (Pulled NULL 0 0 None)
  else
    when (negb (refs =? 2))
      (on_istats id (fun s => s <| lrutail_reflocked := u64 (lrutail_reflocked s + 1) |>));;
    gone ← gets (fun w => item_expired_lt i w || item_is_flushed i w);
    if (gone : bool) then
      on_istats id (fun s => s <| reclaimed := u64 (reclaimed s + 1) |>
        <| expired_unfetched ::= fun x => if negb (has_flag i ITEM_FETCHED) then u64 (x + 1) else x |>);;
      do_item_unlink_nolock search hv;;
      STORAGE_delete search;;
      do_item_remove search;;
      mret (Pulled NULL 1 0 None)
    else if (cur_lru =? HOT_LRU) || (cur_lru =? WARM_LRU) then
      pull_hot_warm id cur_lru total_bytes max_age search
    else if cur_lru =? COLD_LRU then pull_cold orig_id id flags reassign_lock search hv
    else mret (Pulled search 0 0 None).

Definition is_crawler (i : item) : bool := (nbytes i =? 0) && (nkey i =? 0) && (it_flags i =? 1).

(** The walk up from the tail.  [None]: blocked by a crawler.  A crawler does
    not count as a try; [fuel] bounds the items passed. *)
Fixpoint pull_loop (fuel : nat) (tries : Z) (orig_id id cur_lru total_bytes flags max_age : Z)
    (locked : Z -> bool) (reassign_lock : bool) (search : ptr) (removed : Z) : M mc (option pulled) :=
  if (tries <=? 0) || bool_decide (search = NULL) then mret (Some (Pulled NULL removed 0 None))
  else match fuel with
  | O => ub
  | S fuel =>
      i ← load search;
      let next_it := prev i in
      if is_crawler i then
        if pull_flag flags LRU_PULL_CRAWL_BLOCKS then mret None
        else pull_loop fuel tries orig_id id cur_lru total_bytes flags max_age locked reassign_lock
               next_it removed
      else
        let hv := hash (ITEM_key i) in
        if locked hv then
          pull_loop fuel (tries - 1) orig_id id cur_lru total_bytes flags max_age locked reassign_lock
            next_it removed
        else
          r ← pull_item orig_id id cur_lru total_bytes flags max_age reassign_lock search hv;
          if decide (pl_it r = NULL) then
            pull_loop fuel (tries - 1) orig_id id cur_lru total_bytes flags max_age locked reassign_lock
              next_it (removed + pl_removed r)
          else mret (Some (Pulled (pl_it r) (removed + pl_removed r) (pl_move r) (pl_ret r)))
  end.

(** Returns [removed] and what was stored through [ret_it]. *)
Definition lru_pull_tail (orig_id cur_lru total_bytes flags max_age : Z) (locked : Z -> bool)
    (reassign_lock : bool) : M mc (Z * option (ptr * Z)) :=
  if orig_id =? 0 then mret (0, None)
  else
    let id := Z.lor orig_id cur_lru in
    search ← gets (fun w => aget (tails (mc_lru w)) id);
    fuel ← gets (fun w => S (size (heap w)));
    r ← pull_loop fuel 5 orig_id id cur_lru total_bytes flags max_age locked reassign_lock search 0;
    match r with
    | None => mret (0, None)
    | Some r =>
        if decide (pl_it r = NULL) then mret (pl_removed r, pl_ret r)
        else
          when (negb (pl_move r =? 0))
            (update_item (pl_it r) (fun i => i <| it_clsid := Z.lor (ITEM_clsid i) (pl_move r) |>);;
             item_link_q (pl_it r));;
          when (negb (pull_flag flags LRU_PULL_RETURN_ITEM)) (do_item_remove (pl_it r));;
          mret (pl_removed r, pl_ret r)
    end.

(** ** Allocation *)

(** The environment an allocation meets: which item locks are held elsewhere and
    whether the page mover's lock is free, for each of its LRU passes. *)
Record alloc_env := AllocEnv { env_locked : nat -> Z -> bool; env_reassign : nat -> bool }.

Fixpoint alloc_pull_loop (n : nat) (pass : nat) (ntotal id : Z) (e : alloc_env) (it : ptr)
    : M mc (ptr * Z) :=
  match n with
  | O => mret (it, 10)
  | S n =>
      st ← gets mc_settings;
      when (negb (lru_segmented st))
        (lru_pull_tail id COLD_LRU 0 0 0 (env_locked e pass) (env_reassign e pass);; mret tt);;
      it ← slabs_alloc ntotal id 0;
      if decide (it = NULL) then
        r ← lru_pull_tail id COLD_LRU 0 LRU_PULL_EVICT 0
              (env_locked e (pass + 1)) (env_reassign e (pass + 1));
        if fst r <=? 0 then
          if lru_segmented st then
            lru_pull_tail id HOT_LRU 0 0 0 (env_locked e (pass + 2)) (env_reassign e (pass + 2));;
            alloc_pull_loop n (pass + 3) ntotal id e it
          else mret (it, Z.of_nat (9 - n)%nat)
        else alloc_pull_loop n (pass + 3) ntotal id e it
      else mret (it, Z.of_nat (9 - n)%nat)
  end.

(** [i] of the source counts the rounds that went round the loop. *)
Definition do_item_alloc_pull (ntotal id : Z) (e : alloc_env) : M mc ptr :=
  r ← alloc_pull_loop 10 0 ntotal id e NULL;
  let '(it, i) := r in
  when (0 <? i) (on_istats id (fun s => s <| direct_reclaims := u64 (direct_reclaims s + i) |>));;
  mret it.

(** The size of an item's header and the length of its suffix. *)
Definition item_make_header (nkey flags nbytes : Z) : Z * Z :=
  let nsuffix := if flags =? 0 then 0 else 4 in
  (u64 (sizeof_item + u8 nkey + nsuffix + nbytes), nsuffix).

Definition item_size_ok (nkey flags nbytes : Z) : M mc bool :=
  if nbytes <? 2 then mret false
  else
    st ← gets mc_settings;
    let '(ntotal, nsuffix) := item_make_header (nkey + 1) flags nbytes in
    cls ← slabs_clsid (if use_cas st then u64 (ntotal + 8) else ntotal);
    mret (negb (cls =? 0)).

(** The LRU a new item starts in. *)
Definition initial_lru (st : settings) (now exptime : Z) : Z :=
  if temp_lru st && (u32 (exptime - now) <=? temporary_ttl st) then TEMP_LRU
  else if lru_segmented st then HOT_LRU else COLD_LRU.

(** The chunk header inside a large item; fields the source does not set start
    as zero here. *)
Definition init_internal_chunk (it : ptr) (hdr_id : Z) : M mc unit :=
  i ← load it;
  let chunk := ITEM_schunk it i in
  modify (fun w => w <| heap ::= <[chunk := item_zero <| h_next := it |> <| nkey := hdr_id |>]> |>).

Definition do_item_alloc (key : list Z) (flags exptime nbytes : Z) (e : alloc_env) : M mc ptr :=
  if nbytes <? 2 then mret NULL
  else
    st ← gets mc_settings;
    now ← gets current_time;
    let nkey := zlen key in
    let '(ntotal, nsuffix) := item_make_header (nkey + 1) flags nbytes in
    let ntotal := if use_cas st then u64 (ntotal + 8) else ntotal in
    id ← slabs_clsid ntotal;
    if id =? 0 then mret NULL
    else
      r ← (if slab_chunk_size_max st <? ntotal then
             let htotal := nkey + 1 + nsuffix + sizeof_item + sizeof_item_chunk
                           + (if use_cas st then 8 else 0) in
             hdr_id ← slabs_clsid htotal;
             it ← do_item_alloc_pull htotal hdr_id e;
             when (bool_decide (it <> NULL)) (update_item it (set_flag ITEM_CHUNKED));;
             mret (it, hdr_id)
           else
             it ← do_item_alloc_pull ntotal id e;
             mret (it, 0));
      let '(it, hdr_id) := r in
      if decide (it = NULL) then
        on_istats id (fun s => s <| outofmemory := u64 (outofmemory s + 1) |>);;
        mret NULL
      else
        i ← load it;
        massert ((it_flags i =? 0) || (it_flags i =? ITEM_CHUNKED));;
        let lruid := Z.lor id (initial_lru st now exptime) in
        update_item it (fun i => i <| next := NULL |> <| prev := NULL |> <| it_clsid := u8 lruid |>
          <| it_flags ::= fun f => Z.lor (Z.lor f (if use_cas st then ITEM_CAS else 0))
                                         (if negb (nsuffix =? 0) then ITEM_CFLAGS else 0) |>
          <| Memory.nkey := u8 nkey |> <| Memory.nbytes := nbytes |> <| it_key := key |>
          <| Memory.exptime := exptime |>
          <| it_cflags ::= fun f => if 0 <? nsuffix then flags else f |>);;
        i ← load it;
        when (has_flag i ITEM_CHUNKED) (init_internal_chunk it hdr_id);;
        update_item it (fun i => i <| h_next := NULL |>);;
        mret it.

(** Another chunk behind [ch]. *)
Definition do_item_alloc_chunk (ch : ptr) (bytes_remain : Z) (e : alloc_env) : M mc ptr :=
  st ← gets mc_settings;
  let size := Z.min (u64 (bytes_remain + sizeof_item_chunk)) (slab_chunk_size_max st) in
  id ← slabs_clsid size;
  nch ← do_item_alloc_pull size id e;
  if decide (nch = NULL) then mret NULL
  else
    c ← load ch;
    update_item nch (fun n => n <| h_next := h_next c |>);;
    update_item ch (fun c => c <| next := nch |>);;
    update_item nch (fun n => set_flag ITEM_CHUNK (n <| prev := ch |> <| next := NULL |>
      <| exptime := 0 |> <| it_clsid := u8 id |> <| time := s32 (size - sizeof_item_chunk) |>));;
    mret nch.

(** ** Bumping *)

Definition le_bytes (n : nat) (z : Z) : list Z := map (fun i => (z / 256 ^ i) mod 256) (seqZ 0 (Z.of_nat n)).
Definition le_value (l : list Z) : Z := foldr (fun b v => b + 256 * v) 0 l.

(** [lru_bump_entry]: the item, the hash value, padding. *)
Definition sizeof_lru_bump_entry := 16.
Definition bump_entry (it hv : Z) : list Z := le_bytes 8 it ++ le_bytes 4 hv.

Definition set_bump_buf (t : Z) (b : lru_bump_buf) : M mc unit :=
  modify (fun w => w <| bump_bufs ::= <[Z.to_nat t := b]> |>).

Definition lru_bump_async (it hv : Z) : M mc bool :=
  refcount_incr it;;
  t ← gets cur_thread;
  bs ← gets bump_bufs;
  b ← lift (zget t bs);
  ok ← (match bipbuf_request (bump_bip b) sizeof_lru_bump_entry with
        | None => mret (false, bump_bip b)
        | Some off =>
            d ← lift (memcpy_at (bip_data (bump_bip b)) off (bump_entry it hv));
            let q := bump_bip b in
            let '(q, n) := bipbuf_push
              (Bipbuf (bip_size q) (a_start q) (a_end q) (b_end q) (b_inuse q) d) sizeof_lru_bump_entry in
            mret (negb (n =? 0), q)
        end);
  let '(ret, q) := (ok : bool * bipbuf) in
  set_bump_buf t (LruBumpBuf q (if ret then dropped b else u64 (dropped b + 1)));;
  when (negb ret) (refcount_decr it;; mret tt);;
  mret ret.

Definition do_item_bump (it hv : Z) : M mc unit :=
  i ← load it;
  st ← gets mc_settings;
  now ← gets current_time;
  if lru_segmented st then
    if negb (has_flag i ITEM_ACTIVE) then
      if negb (has_flag i ITEM_FETCHED) then update_item it (set_flag ITEM_FETCHED)
      else
        update_item it (set_flag ITEM_ACTIVE);;
        if negb (ITEM_lruid i =? COLD_LRU) then update_item it (fun i => i <| time := now |>)
        else
          ok ← lru_bump_async it hv;
          when (negb ok) (update_item it (clear_flag ITEM_ACTIVE))
    else mret tt
  else
    update_item it (set_flag ITEM_FETCHED);;
    do_item_update it.

(** The bumps one thread queued: [todo] bytes from [off]. *)
Fixpoint bump_loop (n : nat) (d : list Z) (off : Z) : M mc unit :=
  match n with
  | O => mret tt
  | S n =>
      let it := le_value (slice off (off + 8) d) in
      do_item_update it;;
      do_item_remove it;;
      bump_loop n d (off + sizeof_lru_bump_entry)
  end.
Fixpoint bumps_loop (n : nat) (t : Z) (bumped : bool) : M mc bool :=
  match n with
  | O => mret bumped
  | S n =>
      bs ← gets bump_bufs;
      b ← lift (zget t bs);
      match bipbuf_peek_all (bump_bip b) with
      | None => bumps_loop n (t + 1) bumped
      | Some (off, size) =>
          bump_loop (Z.to_nat (size / sizeof_lru_bump_entry)) (bip_data (bump_bip b)) off;;
          set_bump_buf t (LruBumpBuf (fst (bipbuf_poll (bump_bip b) size)) (dropped b));;
          bumps_loop n (t + 1) true
      end
  end.
Definition lru_maintainer_bumps : M mc bool :=
  bs ← gets bump_bufs; bumps_loop (length bs) 0 false.

Definition lru_total_bumps_dropped : M mc Z :=
  bs ← gets bump_bufs; mret (foldl (fun t b => u64 (t + dropped b)) 0 bs).

(** ** Fetching *)

(** The item, and [was_found]: 0 not found, 1 found, 2 flushed, 3 expired. *)
Definition do_item_get_found (key : list Z) (hv : Z) (do_update : bool) : M mc (ptr * Z) :=
  it ← assoc_find key hv;
  if decide (it = NULL) then mret (NULL, 0)
  else
    refcount_incr it;;
    i ← load it;
    flushed ← gets (item_is_flushed i);
    expired ← gets (item_expired_le i);
    if (flushed : bool) then
      do_item_unlink it hv;;
      STORAGE_delete it;;
      do_item_remove it;;
      count get_flushed;;
      mret (NULL, 2)
    else if (expired : bool) then
      do_item_unlink it hv;;
      STORAGE_delete it;;
      do_item_remove it;;
      count get_expired;;
      mret (NULL, 3)
    else
      when do_update (do_item_bump it hv);;
      mret (it, 1).
Definition do_item_get (key : list Z) (hv : Z) (do_update : bool) : M mc ptr :=
  r ← do_item_get_found key hv do_update; mret (fst r).

Definition do_item_touch (key : list Z) (exptime hv : Z) : M mc ptr :=
  it ← do_item_get key hv true;
  when (bool_decide (it <> NULL)) (update_item it (fun i => i <| Memory.exptime := exptime |>));;
  mret it.
End items.
