(* ===== verification/LruSpec.v ===== *)
(** * The LRU queues are doubly linked lists

    [lru_rep w Q]: for every LRU id the items of the queue [Q id], newest first,
    with the counters that go with them.  Linking and unlinking an item are cons
    and removal on that queue. *)

From S2P Require Import Prelude Memory Dll Assoc AssocSpec SlabsSpec Items.

Lemma aget_insert m (id i v : Z) : aget (<[id := v]> m) i = if decide (i = id) then v else aget m i.
Proof.
  unfold aget. case_decide; [subst; by rewrite lookup_insert_eq|by rewrite lookup_insert_ne].
Qed.

(** The bytes the items of a queue count for. *)
Definition qbytes (h : gmap ptr item) (l : list ptr) : Z :=
  foldr (fun a s => from_option lru_bytes 0 (h !! a) + s) 0 l.

Lemma qbytes_cons h a l : qbytes h (a :: l) = from_option lru_bytes 0 (h !! a) + qbytes h l.
Proof. done. Qed.
Lemma qbytes_app h l1 l2 : qbytes h (l1 ++ l2) = qbytes h l1 + qbytes h l2.
Proof. unfold qbytes. induction l1 as [|a l1 IH]; simpl; [done|]. rewrite IH. lia. Qed.

Lemma qbytes_ext h h' l :
  (forall a, a ∈ l -> from_option lru_bytes 0 (h' !! a) = from_option lru_bytes 0 (h !! a)) ->
  qbytes h' l = qbytes h l.
Proof.
  unfold qbytes. induction l as [|a l IH]; intros Hl; simpl; [done|].
  rewrite IH by (intros; apply Hl; by right). by rewrite (Hl a) by left.
Qed.

(** A queued item. *)
Definition queued (id : Z) (it : item) : Prop :=
  has_flag it ITEM_LINKED = true /\ has_flag it ITEM_SLABBED = false /\ it_clsid it = id.

Record lru_rep (w : mc) (Q : Z -> list ptr) : Prop := {
  lr_dll : forall id, dll (heap w) (Q id);
  lr_heads : forall id, aget (heads (mc_lru w)) id = hd0 (Q id);
  lr_tails : forall id, aget (tails (mc_lru w)) id = last0 (Q id);
  lr_sizes : forall id, aget (sizes (mc_lru w)) id = u32 (zlen (Q id));
  lr_bytes : forall id, aget (sizes_bytes (mc_lru w)) id = u64 (qbytes (heap w) (Q id));
  lr_clsid : forall id a, a ∈ Q id -> exists it, heap w !! a = Some it /\ it_clsid it = id
}.

Lemma queue_unique w Q i j a : lru_rep w Q -> a ∈ Q i -> a ∈ Q j -> i = j.
Proof.
  intros HR Hi Hj. destruct (lr_clsid _ _ HR i a Hi) as (it & Hit & <-).
  destruct (lr_clsid _ _ HR j a Hj) as (it' & Hit' & <-). congruence.
Qed.

(** Items after a change of links. *)
Definition relinked (it it' : item) : Prop := it' = it <| prev := prev it' |> <| next := next it' |>.

Lemma relinked_refl it : relinked it it.
Proof. by destruct it. Qed.
Lemma relinked_trans a b c : relinked a b -> relinked b c -> relinked a c.
Proof. unfold relinked. intros E1 E2. rewrite E2 at 1. rewrite E1 at 1. reflexivity. Qed.
Lemma relinked_bytes a b : relinked a b -> lru_bytes b = lru_bytes a.
Proof. intros ->. reflexivity. Qed.

Definition relinked_heap (h h' : gmap ptr item) : Prop :=
  forall a, match h !! a, h' !! a with
            | Some it, Some it' => relinked it it'
            | None, None => True
            | _, _ => False
            end.

Lemma relinked_heap_refl h : relinked_heap h h.
Proof. intros a. destruct (h !! a); [apply relinked_refl|done]. Qed.
Lemma relinked_heap_trans h1 h2 h3 : relinked_heap h1 h2 -> relinked_heap h2 h3 -> relinked_heap h1 h3.
Proof.
  intros H1 H2 a. specialize (H1 a). specialize (H2 a).
  destruct (h1 !! a), (h2 !! a), (h3 !! a); try done. by eapply relinked_trans.
Qed.
Lemma relinked_alter h p f : (forall it, relinked it (f it)) -> relinked_heap h (alter f p h).
Proof.
  intros Hf a. destruct (decide (a = p)) as [->|Hne].
  - rewrite lookup_alter_eq. destruct (h !! p); simpl; [apply Hf|done].
  - rewrite lookup_alter_ne by done. destruct (h !! a); [apply relinked_refl|done].
Qed.
Lemma relinked_alter_nn h p f : (forall it, relinked it (f it)) -> relinked_heap h (alter_nn f p h).
Proof. intros Hf. unfold alter_nn. case_decide; [apply relinked_heap_refl|by apply relinked_alter]. Qed.
Lemma relinked_push a hd h : relinked_heap h (push_effect a hd h).
Proof.
  unfold push_effect. eapply relinked_heap_trans; [|apply relinked_alter_nn; by intros []].
  apply relinked_alter. by intros [].
Qed.
Lemma relinked_cut pv nx h : relinked_heap h (cut_effect pv nx h).
Proof.
  unfold cut_effect. eapply relinked_heap_trans; [|apply relinked_alter_nn; by intros []].
  apply relinked_alter_nn. by intros [].
Qed.

Lemma relinked_lookup h h' a it :
  relinked_heap h h' -> h !! a = Some it -> exists it', h' !! a = Some it' /\ relinked it it'.
Proof. intros Hr Ha. specialize (Hr a). rewrite Ha in Hr. destruct (h' !! a); [eauto|done]. Qed.

Lemma relinked_qbytes h h' l : relinked_heap h h' -> qbytes h' l = qbytes h l.
Proof.
  intros Hr. apply qbytes_ext. intros a _. specialize (Hr a).
  destruct (h !! a), (h' !! a); simpl; try done. by apply relinked_bytes.
Qed.

Lemma relinked_clsid h h' a id :
  relinked_heap h h' -> (exists it, h !! a = Some it /\ it_clsid it = id) ->
  exists it, h' !! a = Some it /\ it_clsid it = id.
Proof.
  intros Hr (it & Hit & <-). destruct (relinked_lookup _ _ _ _ Hr Hit) as (it' & Hit' & E).
  exists it'. split; [done|]. by rewrite E.
Qed.

(** ** Linking *)

Definition link_lru (id : Z) (p : ptr) (b : Z) (l : lru) : lru :=
  l <| heads ::= <[id := p]> |>
    <| tails := if decide (aget (tails l) id = NULL) then <[id := p]> (tails l) else tails l |>
    <| sizes ::= <[id := u32 (aget (sizes l) id + 1)]> |>
    <| sizes_bytes ::= <[id := u64 (aget (sizes_bytes l) id + b)]> |>.

Definition linked_q (id : Z) (p hd : ptr) (b : Z) (w : mc) : mc :=
  w <| heap ::= push_effect p hd |> <| mc_lru := link_lru id p b (mc_lru w) |>.

Lemma do_item_link_q_ok w Q p it :
  lru_rep w Q -> p <> NULL -> heap w !! p = Some it -> has_flag it ITEM_SLABBED = false ->
  p ∉ Q (it_clsid it) ->
  do_item_link_q p w = Some (tt, linked_q (it_clsid it) p (hd0 (Q (it_clsid it))) (lru_bytes it) w).
Proof.
  intros HR Hp0 Hp Hs Hnin. set (id := it_clsid it) in *. pose proof (lr_dll _ _ HR id) as Hd.
  unfold do_item_link_q. run. rewrite (load_ok _ _ _ Hp0 Hp). run. rewrite Hs. run. fold id.
  rewrite (lr_heads _ _ HR), (lr_tails _ _ HR).
  rewrite bool_decide_eq_true_2.
  2: { intros E. apply Hnin. rewrite E. apply hd0_in. by rewrite <- E. }
  run. rewrite bool_decide_eq_true_2.
  2: { destruct (decide (Q id = [])) as [E|E]; [right; by rewrite E|left]. split; intros E'; apply E;
       [apply hd0_null|apply last0_null]; try done; apply (dll_nonnull _ _ Hd). }
  run. rewrite (update_item_alter _ _ _ _ Hp0 Hp). run.
  assert (hd0 (Q id) <> NULL -> hd0 (Q id) <> p) as Hhp by (intros E <-; by apply Hnin, hd0_in).
  set (w1 := w <| heap ::= _ |>).
  rewrite (update_if_alter_nn (hd0 (Q id)) _ w1).
  2: { intros E. destruct (dll_lookup _ _ _ Hd (hd0_in _ E)) as (_ & ih & Hh). exists ih.
       unfold w1. upds. rewrite lookup_alter_ne; [done|]. intros E'. by apply Hhp. }
  run. assert (exists i2, push_effect p (hd0 (Q id)) (heap w) !! p = Some i2 /\ relinked it i2) as (i2 & Hi2 & E2)
    by (by apply (relinked_lookup (heap w)); [apply relinked_push|]).
  destruct (decide (last0 (Q id) = NULL)) as [El|El].
  - rewrite (bool_decide_eq_true_2 _ El). run.
    rewrite (load_ok p i2) by (try done; unfold w1; upds; exact Hi2). run.
    rewrite (relinked_bytes _ _ E2). unfold linked_q, link_lru.
    rewrite (lr_tails _ _ HR), decide_True by done. reflexivity.
  - rewrite (bool_decide_eq_false_2 _ El). run.
    rewrite (load_ok p i2) by (try done; unfold w1; upds; exact Hi2). run.
    rewrite (relinked_bytes _ _ E2). unfold linked_q, link_lru.
    rewrite (lr_tails _ _ HR), decide_False by done. reflexivity.
Qed.


Lemma linked_q_rep w Q p it :
  lru_rep w Q -> p <> NULL -> heap w !! p = Some it -> (forall i, p ∉ Q i) ->
  lru_rep (linked_q (it_clsid it) p (hd0 (Q (it_clsid it))) (lru_bytes it) w)
    (fset Q (it_clsid it) (p :: Q (it_clsid it))).
Proof.
  intros HR Hp0 Hp Hnin. set (id := it_clsid it) in *. pose proof HR as [Hd Hh Ht Hs Hb Hc].
  pose proof (relinked_push p (hd0 (Q id)) (heap w)) as Hr.
  unfold linked_q, link_lru. split; intros i; upds; unfold fset.
  - case_decide as E; [subst i; by apply dll_push with it|].
    destruct (decide (hd0 (Q id) = NULL)) as [Eh|Eh].
    + unfold push_effect, alter_nn. rewrite decide_True by done. by apply dll_other.
    + apply dll_push_other; [done| |done]. intros Hin. apply E.
      by apply (queue_unique w Q i id (hd0 (Q id)) HR), hd0_in.
  - rewrite aget_insert. case_decide; [done|apply Hh].
  - rewrite Ht. destruct (decide (last0 (Q id) = NULL)) as [El|El].
    + rewrite aget_insert. case_decide as E; [|apply Ht]. subst i.
      apply last0_null in El as ->; [done|apply (dll_nonnull _ _ (Hd id))].
    + rewrite Ht. case_decide as E; [|done]. subst i. by destruct (Q id).
  - rewrite aget_insert. case_decide as E; [subst i|apply Hs]. by rewrite Hs, u32_add_l, zlen_cons, Z.add_comm.
  - rewrite aget_insert. rewrite (relinked_qbytes _ _ _ Hr). case_decide as E; [subst i|apply Hb].
    rewrite Hb, u64_add_l, qbytes_cons, Hp. cbn [from_option]. f_equal. lia.
  - intros a Ha. apply (relinked_clsid _ _ _ _ Hr). case_decide as E; [subst i|by apply Hc].
    apply elem_of_cons in Ha as [->|Ha]; [by exists it|by apply Hc].
Qed.

(** ** Unlinking *)

Definition unlink_lru (id : Z) (p pv nx : ptr) (b : Z) (l : lru) : lru :=
  l <| heads := if decide (aget (heads l) id = p) then <[id := nx]> (heads l) else heads l |>
    <| tails := if decide (aget (tails l) id = p) then <[id := pv]> (tails l) else tails l |>
    <| sizes ::= <[id := u32 (aget (sizes l) id - 1)]> |>
    <| sizes_bytes ::= <[id := u64 (aget (sizes_bytes l) id - b)]> |>.

Definition unlinked_q (id : Z) (p pv nx : ptr) (b : Z) (w : mc) : mc :=
  w <| heap ::= cut_effect pv nx |> <| mc_lru := unlink_lru id p pv nx b (mc_lru w) |>.

Lemma hd0_eq l1 p l2 : NoDup (l1 ++ p :: l2) -> hd0 (l1 ++ p :: l2) = p <-> l1 = [].
Proof.
  destruct l1 as [|a l1]; [done|]. cbn. intros [Ha _]%NoDup_cons. split; [|done].
  intros ->. set_solver.
Qed.
Lemma last0_eq l1 p l2 : NoDup (l1 ++ p :: l2) -> last0 (l1 ++ p :: l2) = p <-> l2 = [].
Proof.
  intros Hnd. split; [|intros ->; apply last0_snoc]. destruct (decide (l2 = [])) as [|Hne]; [done|].
  intros E. exfalso. apply NoDup_app in Hnd as (_ & _ & [Hp _]%NoDup_cons). apply Hp.
  assert (last0 (l1 ++ p :: l2) = last0 l2) as El.
  { unfold last0. rewrite last_app_cons. destruct l2; [done|]. done. }
  destruct (last l2) as [q|] eqn:E2; [|by apply last_None in E2].
  apply last_Some in E2 as [l3 ->]. rewrite last0_snoc in El. assert (q = p) as -> by congruence. set_solver.
Qed.

(** The two conditional updates of the queue's ends. *)
Lemma unlink_head w id p l1 l2 :
  NoDup (l1 ++ p :: l2) ->
  when (bool_decide (hd0 (l1 ++ p :: l2) = p))
    (massert (bool_decide (last0 l1 = NULL));; on_lru (fun l => l <| heads ::= <[id := hd0 l2]> |>)) w
  = Some (tt, w <| mc_lru ::= fun l =>
      l <| heads := if decide (l1 = []) then <[id := hd0 l2]> (heads l) else heads l |> |>).
Proof.
  intros Hnd. pose proof (hd0_eq _ _ _ Hnd) as E. destruct (decide (l1 = [])) as [->|Hne].
  - rewrite bool_decide_eq_true_2 by done. reflexivity.
  - rewrite bool_decide_eq_false_2 by tauto. by destruct w as [? ? [] ? ? ? ? ? ? ? ? ?].
Qed.
Lemma unlink_tail w id p l1 l2 :
  NoDup (l1 ++ p :: l2) ->
  when (bool_decide (last0 (l1 ++ p :: l2) = p))
    (massert (bool_decide (hd0 l2 = NULL));; on_lru (fun l => l <| tails ::= <[id := last0 l1]> |>)) w
  = Some (tt, w <| mc_lru ::= fun l =>
      l <| tails := if decide (l2 = []) then <[id := last0 l1]> (tails l) else tails l |> |>).
Proof.
  intros Hnd. pose proof (last0_eq _ _ _ Hnd) as E. destruct (decide (l2 = [])) as [->|Hne].
  - rewrite bool_decide_eq_true_2 by tauto. reflexivity.
  - rewrite bool_decide_eq_false_2 by tauto. by destruct w as [? ? [] ? ? ? ? ? ? ? ? ?].
Qed.

Lemma do_item_unlink_q_ok w Q p it l1 l2 :
  lru_rep w Q -> heap w !! p = Some it -> Q (it_clsid it) = l1 ++ p :: l2 ->
  do_item_unlink_q p w = Some (tt, unlinked_q (it_clsid it) p (last0 l1) (hd0 l2) (lru_bytes it) w).
Proof.
  intros HR Hp HQ. set (id := it_clsid it) in *. pose proof (lr_dll _ _ HR id) as Hd.
  rewrite HQ in Hd. destruct (dll_link _ _ Hd l1 p l2 eq_refl) as (it' & Hit' & Hpv & Hnx).
  assert (it' = it) as -> by congruence.
  assert (p <> NULL) as Hp0 by (intros ->; apply (dll_nonnull _ _ Hd); set_solver).
  pose proof (dll_nodup _ _ Hd) as Hnd.
  assert (p ∉ l1 /\ p ∉ l2) as [Hp1 Hp2] by (apply NoDup_app in Hnd as (_ & ? & [? _]%NoDup_cons); set_solver).
  assert (hd0 l2 <> p) as Hn2 by (intros E; apply Hp2; rewrite <- E; apply hd0_in; by rewrite E).
  assert (last0 l1 <> p) as Hn1 by (intros E; apply Hp1; rewrite <- E; apply last0_in; by rewrite E).
  unfold do_item_unlink_q. run. rewrite (load_ok _ _ _ Hp0 Hp). run. fold id.
  rewrite (lr_heads _ _ HR), (lr_tails _ _ HR), Hpv, Hnx, HQ.
  rewrite (unlink_head w id p l1 l2) by done. run. rewrite (unlink_tail _ id p l1 l2) by done. run.
  rewrite (bool_decide_eq_true_2 _ Hn2). run. rewrite (bool_decide_eq_true_2 _ Hn1). run.
  rewrite update_if_alter_nn.
  2: { intros E. destruct (dll_lookup _ _ (hd0 l2) Hd) as (_ & ih & ?); [|by exists ih].
       apply elem_of_app. right. right. by apply hd0_in. }
  run. rewrite update_if_alter_nn.
  2: { intros E. upds. destruct (dll_lookup _ _ (last0 l1) Hd) as (_ & ih & Hih).
       { apply elem_of_app. left. by apply last0_in. }
       unfold alter_nn. case_decide; [by exists ih|]. destruct (decide (hd0 l2 = last0 l1)) as [E2|Hne].
       - rewrite E2, lookup_alter_eq, Hih. eauto.
       - rewrite lookup_alter_ne by done. eauto. }
  run. unfold unlinked_q, unlink_lru. rewrite (lr_heads _ _ HR), (lr_tails _ _ HR), HQ.
  pose proof (hd0_eq _ _ _ Hnd). pose proof (last0_eq _ _ _ Hnd).
  repeat case_decide; try tauto; reflexivity.
Qed.

Lemma unlinked_q_rep w Q p it l1 l2 :
  lru_rep w Q -> heap w !! p = Some it -> Q (it_clsid it) = l1 ++ p :: l2 ->
  lru_rep (unlinked_q (it_clsid it) p (last0 l1) (hd0 l2) (lru_bytes it) w) (fset Q (it_clsid it) (l1 ++ l2)).
Proof.
  intros HR Hp HQ. set (id := it_clsid it) in *. pose proof HR as [Hd Hh Ht Hs Hb Hc].
  pose proof (relinked_cut (last0 l1) (hd0 l2) (heap w)) as Hr.
  pose proof (dll_nodup _ _ (Hd id)) as Hnd. pose proof (dll_nonnull _ _ (Hd id)) as Hnn.
  rewrite HQ in Hnd, Hnn. pose proof (hd0_eq _ _ _ Hnd). pose proof (last0_eq _ _ _ Hnd).
  unfold unlinked_q, unlink_lru. split; intros i; upds; unfold fset.
  - case_decide as E; [subst i; apply (dll_cut _ l1 p l2); by rewrite <- HQ|].
    assert (forall b, b ∈ l1 ++ p :: l2 -> b ∉ Q i) as Hdis.
    { intros b Hb1 Hb2. apply E. apply (queue_unique w Q i id b HR); [done|by rewrite HQ]. }
    unfold cut_effect. unfold alter_nn at 1. case_decide as E1.
    + unfold alter_nn. case_decide; [done|]. apply dll_other; [|done]. apply Hdis.
      apply elem_of_app. right. right. by apply hd0_in.
    + apply dll_other; [apply Hdis, elem_of_app; left; by apply last0_in|].
      unfold alter_nn. case_decide; [done|]. apply dll_other; [|done]. apply Hdis.
      apply elem_of_app. right. right. by apply hd0_in.
  - rewrite Hh, HQ. destruct (decide (hd0 (l1 ++ p :: l2) = p)) as [E|E].
    + rewrite aget_insert. case_decide; [|apply Hh]. assert (l1 = []) as -> by tauto. done.
    + rewrite Hh. case_decide as Ei; [|done]. subst i. rewrite HQ. by destruct l1.
  - rewrite Ht, HQ. destruct (decide (last0 (l1 ++ p :: l2) = p)) as [E|E].
    + rewrite aget_insert. case_decide; [|apply Ht]. assert (l2 = []) as -> by tauto. by rewrite app_nil_r.
    + rewrite Ht. case_decide as Ei; [|done]. subst i. rewrite HQ. destruct l2 as [|b l2]; [tauto|].
      unfold last0. by rewrite !last_app_cons.
  - rewrite aget_insert. case_decide as E; [subst i|apply Hs]. rewrite Hs, u32_sub_l, HQ.
    unfold zlen. rewrite !length_app. cbn [length]. f_equal. lia.
  - rewrite aget_insert, (relinked_qbytes _ _ _ Hr). case_decide as E; [subst i|apply Hb].
    rewrite Hb, u64_sub_l, HQ, !qbytes_app, qbytes_cons, Hp. cbn [from_option]. f_equal. lia.
  - intros a Ha. apply (relinked_clsid _ _ _ _ Hr). case_decide as E; [subst i|by apply Hc].
    apply Hc. rewrite HQ. set_solver.
Qed.
