(* ===== verification/Parts.v ===== *)
(** * The three structures over one heap

    The hash table, the LRU queues and the slab allocator thread the same items.
    [parts w A Q F U] says that each is well formed; the lemmas say what a step
    of one component does to all three. *)

From S2P Require Import Prelude Memory Dll Assoc AssocSpec Slabs SlabsSpec SlabPages SlabAlloc.
From S2P Require Import Items LruSpec.

Section parts.
Context `{HashFunction}.
Implicit Types (w : mc) (A : gmap (list Z) ptr) (Q F U : Z -> list ptr).

Record parts w A Q F U : Prop := {
  pt_assoc : assoc_rep w A;
  pt_lru : lru_rep w Q;
  pt_slab : slab_inv w F U;
  pt_queue : forall id a it, a ∈ Q id -> heap w !! a = Some it -> it_flags it <> ITEM_SLABBED
}.

(** ** Frames *)

Definition same_queues (l l' : lru) : Prop :=
  heads l' = heads l /\ tails l' = tails l /\ sizes l' = sizes l /\ sizes_bytes l' = sizes_bytes l.

Lemma lru_rep_frame w w' Q :
  lru_rep w Q -> same_queues (mc_lru w) (mc_lru w') ->
  (forall id a it, a ∈ Q id -> heap w !! a = Some it -> exists it', heap w' !! a = Some it'
     /\ same_dlinks it it' /\ lru_bytes it' = lru_bytes it /\ it_clsid it' = it_clsid it) ->
  lru_rep w' Q.
Proof.
  intros [R1 R2 R3 R4 R5 R6] (E1 & E2 & E3 & E4) Hf. split; intros id; rewrite ?E1, ?E2, ?E3, ?E4; try done.
  - apply (dll_frame (heap w)); [done|]. intros a it Ha Hit.
    destruct (Hf id a it Ha Hit) as (it' & ? & ? & _). by exists it'.
  - rewrite R5. f_equal. symmetry. apply qbytes_ext. intros a Ha.
    destruct (R6 id a Ha) as (it & Hit & _). destruct (Hf id a it Ha Hit) as (it' & -> & _ & E & _).
    by rewrite Hit.
  - intros a Ha. destruct (R6 id a Ha) as (it & Hit & <-).
    destruct (Hf _ a it Ha Hit) as (it' & ? & _ & _ & E). by exists it'.
Qed.

Lemma slab_inv_frame w w' F U :
  slab_inv w F U -> mc_slabs w' = mc_slabs w -> mc_settings w' = mc_settings w ->
  (forall a it, heap w !! a = Some it -> it_flags it = ITEM_SLABBED -> exists it', heap w' !! a = Some it'
     /\ same_dlinks it it' /\ it_flags it' = it_flags it /\ it_clsid it' = it_clsid it) ->
  (forall a it, heap w !! a = Some it -> it_flags it <> ITEM_SLABBED -> exists it', heap w' !! a = Some it'
     /\ it_flags it' <> ITEM_SLABBED) ->
  slab_inv w' F U.
Proof.
  intros HI Es Et Hs Hu.
  assert (same_geometry w w') as G.
  { split; unfold largest, top, class; rewrite ?Es, ?Et; try done. intros id p Hp. by exists p. }
  apply (slab_inv_chunks [] w w' F U); [done|done| |done|].
  - intros id Hid. rewrite (sg_largest _ _ G) in Hid.
    destruct (si_free _ _ _ _ HI id Hid) as [Hc Hd Hi]. split.
    + unfold class in *. by rewrite Es.
    + apply (dll_frame (heap w)); [done|]. intros a it Ha Hit.
      destruct (Hi a Ha) as (it0 & Hit0 & Hf & _). assert (it0 = it) as -> by congruence.
      destruct (Hs a it Hit Hf) as (it' & ? & ? & _). by exists it'.
    + intros a Ha. destruct (Hi a Ha) as (it & Hit & Hf & Hcl).
      destruct (Hs a it Hit Hf) as (it' & ? & _ & E1 & E2). exists it'. split; [done|]. split; congruence.
  - intros i a Hi Ha. destruct (si_used _ _ _ _ HI i a Hi Ha) as (it & Hit & Hf). by apply (Hu a it).
Qed.

(** Changes outside the three structures. *)
Lemma parts_other w w' A Q F U :
  parts w A Q F U -> heap w' = heap w -> mc_assoc w' = mc_assoc w ->
  same_queues (mc_lru w) (mc_lru w') -> mc_slabs w' = mc_slabs w -> mc_settings w' = mc_settings w ->
  parts w' A Q F U.
Proof.
  intros [P1 P2 P3 P4] Eh Ea El Es Et. split.
  - apply (assoc_rep_frame w); [done|done|]. intros k p it _ Hit. exists it. by rewrite Eh.
  - apply (lru_rep_frame w); [done|done|]. intros id a it _ Hit. exists it. by rewrite Eh.
  - apply (slab_inv_frame w); [done|done|done|..]; intros a it Hit Hf; exists it; by rewrite Eh.
  - intros id a it Ha Hit. rewrite Eh in Hit. by apply (P4 id a).
Qed.

(** ** A change of one item *)

(** [f] keeps everything the structures look at. *)
Definition keeps (f : item -> item) (it : item) : Prop :=
  same_link it (f it) /\ same_dlinks it (f it) /\ lru_bytes (f it) = lru_bytes it
  /\ it_clsid (f it) = it_clsid it /\ it_flags it <> ITEM_SLABBED /\ it_flags (f it) <> ITEM_SLABBED.

Lemma parts_item w A Q F U p it f :
  parts w A Q F U -> heap w !! p = Some it -> keeps f it ->
  parts (w <| heap ::= alter f p |>) A Q F U.
Proof.
  intros [P1 P2 P3 P4] Hp (K1 & K2 & K3 & K4 & K5 & K6).
  assert (forall a i, heap w !! a = Some i -> exists i', heap (w <| heap ::= alter f p |>) !! a = Some i'
    /\ (i' = i \/ (a = p /\ i = it /\ i' = f it))) as Hl.
  { intros a i Ha. upds. destruct (decide (a = p)) as [->|Hne].
    - rewrite lookup_alter_eq, Ha. assert (i = it) as -> by congruence. eexists. split; [done|by right].
    - rewrite lookup_alter_ne by done. eauto. }
  split.
  - apply (assoc_rep_frame w); [done|done|]. intros k a i _ Hi.
    destruct (Hl a i Hi) as (i' & ? & [->|(-> & -> & ->)]); eauto. by exists i.
  - apply (lru_rep_frame w); [done|by split_and!|]. intros id a i _ Hi.
    destruct (Hl a i Hi) as (i' & ? & [->|(-> & -> & ->)]); [by exists i|by exists (f it)].
  - apply (slab_inv_frame w); [done|done|done|..]; intros a i Hi Hf;
      destruct (Hl a i Hi) as (i' & ? & [->|(-> & -> & ->)]); try done; eauto. by exists i.
  - intros id a i' Ha Hi'. destruct (lr_clsid _ _ P2 id a Ha) as (i & Hi & _).
    destruct (Hl a i Hi) as (i2 & Hi2 & Hor). assert (i2 = i') as -> by congruence.
    destruct Hor as [->|(-> & -> & ->)]; [by apply (P4 id a)|done].
Qed.

(** ** Steps of the hash table *)

Lemma frame_lookup w w' a it :
  assoc_frame w w' -> heap w !! a = Some it -> exists v, heap w' !! a = Some (it <| h_next := v |>).
Proof. apply assoc_frame_lookup. Qed.

Lemma frame_lookup_back w w' a it' :
  assoc_frame w w' -> heap w' !! a = Some it' -> exists it v, heap w !! a = Some it /\ it' = it <| h_next := v |>.
Proof.
  intros Hf Hit'. destruct (heap w !! a) as [it|] eqn:E.
  - destruct (assoc_frame_lookup _ _ _ _ Hf E) as (v & E'). exists it, v. split; [done|]. congruence.
  - destruct Hf as (_ & _ & Eh). apply (f_equal (.!! a)) in Eh. rewrite !lookup_fmap, E, Hit' in Eh. done.
Qed.

Lemma parts_assoc w w' A A' Q F U :
  parts w A Q F U -> assoc_frame w w' -> assoc_rep w' A' -> parts w' A' Q F U.
Proof.
  intros [P1 P2 P3 P4] Hf HA. pose proof Hf as (Ew & _ & _).
  split; [done|..].
  - apply (lru_rep_frame w); [done|by rewrite Ew; split_and!|]. intros id a it _ Hit.
    destruct (frame_lookup _ _ _ _ Hf Hit) as (v & Hv). eexists. split; [exact Hv|]. by split_and!.
  - apply (slab_inv_frame w); [done|by rewrite Ew|by rewrite Ew|..]; intros a it Hit Hfl;
      destruct (frame_lookup _ _ _ _ Hf Hit) as (v & Hv); eexists; (split; [exact Hv|]); [by split_and!|done].
  - intros id a it' Ha Hit'. destruct (frame_lookup_back _ _ _ _ Hf Hit') as (it & v & Hit & ->).
    exact (P4 id a it Ha Hit).
Qed.

(** ** Steps of the queues *)

Lemma parts_link_q w A Q F U p it :
  parts w A Q F U -> p <> NULL -> heap w !! p = Some it -> (forall i, p ∉ Q i) ->
  has_flag it ITEM_SLABBED = false ->
  exists w', do_item_link_q p w = Some (tt, w')
    /\ w' = linked_q (it_clsid it) p (hd0 (Q (it_clsid it))) (lru_bytes it) w
    /\ parts w' A (fset Q (it_clsid it) (p :: Q (it_clsid it))) F U.
Proof.
  intros [P1 P2 P3 P4] Hp0 Hp Hnin Hs. set (id := it_clsid it).
  assert (it_flags it <> ITEM_SLABBED) as Hf by (intros E; by rewrite (has_slabbed _ E) in Hs).
  rewrite (do_item_link_q_ok w Q p it P2 Hp0 Hp Hs (Hnin _)). fold id.
  eexists. split; [done|]. split; [done|].
  set (w' := linked_q id p (hd0 (Q id)) (lru_bytes it) w).
  assert (relinked_heap (heap w) (heap w')) as Hr by (unfold w', linked_q; upds; apply relinked_push).
  split.
  - apply (assoc_rep_frame w); [done|done|]. intros k a i _ Hi.
    destruct (relinked_lookup _ _ _ _ Hr Hi) as (i' & Hi' & E). exists i'. split; [done|]. by rewrite E.
  - by apply linked_q_rep.
  - apply (slab_inv_frame w); [done|done|done|..]; intros a i Hi Hfl.
    + exists i. split; [|by split_and!]. unfold w', linked_q. upds. rewrite push_effect_other; [done| |].
      * intros ->. congruence.
      * intros E ->. apply (P4 id (hd0 (Q id)) i); [by apply hd0_in|done|done].
    + destruct (relinked_lookup _ _ _ _ Hr Hi) as (i' & Hi' & E). exists i'. split; [done|]. by rewrite E.
  - intros j a i' Ha Hi'. specialize (Hr a). rewrite Hi' in Hr. destruct (heap w !! a) as [i|] eqn:Ei; [|done].
    rewrite Hr. change (it_flags i <> ITEM_SLABBED).
    unfold fset in Ha. case_decide as Ej; [|exact (P4 j a i Ha Ei)].
    apply elem_of_cons in Ha as [->|Ha]; [|exact (P4 id a i Ha Ei)].
    by assert (i = it) as -> by congruence.
Qed.

Lemma cut_effect_other pv nx h b :
  (pv <> NULL -> b <> pv) -> (nx <> NULL -> b <> nx) -> cut_effect pv nx h !! b = h !! b.
Proof.
  intros H1 H2. unfold cut_effect, alter_nn.
  destruct (decide (pv = NULL)), (decide (nx = NULL)); rewrite ?lookup_alter_ne by naive_solver; done.
Qed.

Lemma parts_unlink_q w A Q F U p it l1 l2 :
  parts w A Q F U -> heap w !! p = Some it -> Q (it_clsid it) = l1 ++ p :: l2 ->
  exists w', do_item_unlink_q p w = Some (tt, w')
    /\ w' = unlinked_q (it_clsid it) p (last0 l1) (hd0 l2) (lru_bytes it) w
    /\ parts w' A (fset Q (it_clsid it) (l1 ++ l2)) F U.
Proof.
  intros [P1 P2 P3 P4] Hp HQ. set (id := it_clsid it) in *.
  rewrite (do_item_unlink_q_ok w Q p it l1 l2 P2 Hp HQ). fold id.
  eexists. split; [done|]. split; [done|].
  set (w' := unlinked_q id p (last0 l1) (hd0 l2) (lru_bytes it) w).
  assert (relinked_heap (heap w) (heap w')) as Hr by (unfold w', unlinked_q; upds; apply relinked_cut).
  assert (forall b, b ∈ l1 ++ l2 -> b ∈ Q id) as Hin by (intros b; rewrite HQ; set_solver).
  split.
  - apply (assoc_rep_frame w); [done|done|]. intros k a i _ Hi.
    destruct (relinked_lookup _ _ _ _ Hr Hi) as (i' & Hi' & E). exists i'. split; [done|]. by rewrite E.
  - by apply (unlinked_q_rep w Q p it).
  - apply (slab_inv_frame w); [done|done|done|..]; intros a i Hi Hfl.
    + exists i. split; [|by split_and!]. unfold w', unlinked_q. upds. rewrite cut_effect_other; [done|..];
        intros E ->; [apply (P4 id (last0 l1) i)|apply (P4 id (hd0 l2) i)]; try done;
        apply Hin, elem_of_app; [left; by apply last0_in|right; by apply hd0_in].
    + destruct (relinked_lookup _ _ _ _ Hr Hi) as (i' & Hi' & E). exists i'. split; [done|]. by rewrite E.
  - intros j a i' Ha Hi'. specialize (Hr a). rewrite Hi' in Hr. destruct (heap w !! a) as [i|] eqn:Ei; [|done].
    rewrite Hr. change (it_flags i <> ITEM_SLABBED).
    unfold fset in Ha. case_decide as Ej; [exact (P4 id a i (Hin a Ha) Ei)|exact (P4 j a i Ha Ei)].
Qed.

(** ** Steps of the allocator *)

Lemma parts_alloc w w' A Q F F' U U' (K : ptr -> Prop) :
  parts w A Q F U -> slab_frame K w w' -> slab_inv w' F' U' ->
  (forall k a, A !! k = Some a -> K a /\ forall it, heap w !! a = Some it -> it_flags it <> ITEM_SLABBED) ->
  (forall id a, a ∈ Q id -> K a) ->
  parts w' A Q F' U'.
Proof.
  intros [P1 P2 P3 P4] [R Fr] HI HA HQ.
  assert (mc_assoc w' = mc_assoc w /\ mc_lru w' = mc_lru w) as [Ea El] by (by rewrite R).
  split; [| |done|].
  - apply (assoc_rep_frame w); [done|done|]. intros k a it Ha Hit. destruct (HA k a Ha) as [Hk Hf].
    exists it. split; [apply Fr; auto|by split_and!].
  - apply (lru_rep_frame w); [done|rewrite El; by split_and!|]. intros id a it Ha Hit.
    exists it. split; [apply Fr; eauto|by split_and!].
  - intros id a it Ha Hit. destruct (lr_clsid _ _ P2 id a Ha) as (it0 & Hit0 & _).
    assert (heap w' !! a = Some it0) by (apply Fr; eauto). assert (it0 = it) as -> by congruence.
    by apply (P4 id a).
Qed.

End parts.
