(* ===== verification/CacheSpec.v ===== *)
(** * The cache as a whole

    [cache_inv w A Q F U]: the hash table stands for the map [A] from keys to
    items, the LRU queues are [Q], the allocator's free and used chunks are [F]
    and [U]; exactly the items of the map are in the queues, carry [ITEM_LINKED]
    and hold a reference; all items live in chunks in use.  Large items made of
    several chunks are outside this invariant. *)

From S2P Require Import Prelude Memory Dll Assoc AssocSpec Slabs SlabsSpec SlabPages SlabAlloc.
From S2P Require Import Items LruSpec Parts.

Section cache.
Context `{HashFunction}.
Implicit Types (w : mc) (A : gmap (list Z) ptr) (Q F U : Z -> list ptr).

(** Everything about an item but the links other items' operations change. *)
Definition content (it it' : item) : Prop :=
  it' = it <| prev := prev it' |> <| next := next it' |> <| h_next := h_next it' |>.

Lemma content_refl it : content it it.
Proof. by destruct it. Qed.
Lemma content_trans a b c : content a b -> content b c -> content a c.
Proof. unfold content. intros E1 E2. rewrite E2 at 1. rewrite E1 at 1. reflexivity. Qed.
Lemma relinked_content it it' : relinked it it' -> content it it'.
Proof. unfold content, relinked. destruct it, it'. cbv. intros [=]. by subst. Qed.
Lemma hnext_content it v : content it (it <| h_next := v |>).
Proof. by destruct it. Qed.

(** The class an LRU id belongs to. *)
Definition clsid_of (id : Z) : Z := Z.ldiff id (Z.shiftl 3 6).

Definition in_map A (p : ptr) : Prop := exists k, A !! k = Some p.
Definition in_queues Q (p : ptr) : Prop := exists id, p ∈ Q id.

(** A chunk the slab mover took out of use: its flags are exactly
    [ITEM_SLABBED|ITEM_FETCHED]. *)
Definition cleared (it : item) : Prop := it_flags it = Z.lor ITEM_SLABBED ITEM_FETCHED.

Lemma used_flags it : has_flag it ITEM_SLABBED = false \/ cleared it -> it_flags it <> ITEM_SLABBED.
Proof. unfold has_flag, cleared. intros [Hf|Hf] E; rewrite E in Hf; done. Qed.
Lemma linked_not_cleared it :
  has_flag it ITEM_SLABBED = false \/ cleared it -> has_flag it ITEM_LINKED = true -> has_flag it ITEM_SLABBED = false.
Proof. intros [Hf|Hf] HL; [done|]. unfold has_flag in HL. by rewrite Hf in HL. Qed.

(** A chunk in use by an ordinary item, or cleared. *)
Record item_ok w Q (cls : Z) (p : ptr) : Prop := {
  io_item : exists it, heap w !! p = Some it
    /\ (has_flag it ITEM_SLABBED = false \/ cleared it) /\ has_flag it ITEM_CHUNKED = false
    /\ ITEM_clsid it = cls /\ 0 <= refcount it < 2 ^ 16
    /\ (has_flag it ITEM_LINKED = true <-> in_queues Q p)
    /\ (has_flag it ITEM_LINKED = true -> 1 <= refcount it)
}.

Definition class_range w (cls : Z) : Prop := POWER_SMALLEST <= cls <= largest w.

(** The invariant but for the items [X], and with [n] items counted. *)
Record cache_but (X : ptr -> Prop) (n : nat) w A Q F U : Prop := {
  cb_parts : parts w A Q F U;
  cb_same : forall p, ~ X p -> in_map A p <-> in_queues Q p;
  cb_item : forall cls p, class_range w cls -> p ∈ U cls -> ~ X p -> item_ok w Q cls p;
  cb_used : forall id p, p ∈ Q id -> class_range w (clsid_of id) /\ p ∈ U (clsid_of id);
  cb_curr : curr_items (mc_stats w) = u64 (Z.of_nat n)
}.
Definition cache_inv w A Q F U : Prop := cache_but (fun _ => False) (size A) w A Q F U.

(** ** What a step leaves alone *)

Definition keeps_others (x : ptr) w w' : Prop :=
  forall a it, a <> x -> heap w !! a = Some it -> it_flags it <> ITEM_SLABBED ->
    exists it', heap w' !! a = Some it' /\ content it it'.

Definition same_env w w' : Prop :=
  mc_settings w' = mc_settings w /\ current_time w' = current_time w
  /\ slab_rebal w' = slab_rebal w /\ bump_bufs w' = bump_bufs w /\ cur_thread w' = cur_thread w
  /\ thread_stats w' = thread_stats w /\ storage_deleted w' = storage_deleted w.

Lemma content_flags it it' : content it it' -> it_flags it' = it_flags it.
Proof. intros E. by rewrite E. Qed.

Lemma keeps_others_refl x w : keeps_others x w w.
Proof. intros a it _ Ha _. exists it. split; [done|apply content_refl]. Qed.
Lemma keeps_others_trans x w1 w2 w3 : keeps_others x w1 w2 -> keeps_others x w2 w3 -> keeps_others x w1 w3.
Proof.
  intros K1 K2 a it Hne Ha Hf. destruct (K1 a it Hne Ha Hf) as (i2 & H2 & C2).
  destruct (K2 a i2 Hne H2) as (i3 & H3 & C3); [by rewrite (content_flags _ _ C2)|].
  exists i3. split; [done|by eapply content_trans].
Qed.
Lemma same_env_refl w : same_env w w.
Proof. by split_and!. Qed.
Lemma same_env_trans w1 w2 w3 : same_env w1 w2 -> same_env w2 w3 -> same_env w1 w3.
Proof. unfold same_env. intros (A1&A2&A3&A4&A5&A6&A7) (B1&B2&B3&B4&B5&B6&B7). split_and!; congruence. Qed.

(** [same_env], the class table's size and the CAS counter. *)
Definition quiet w w' : Prop :=
  same_env w w' /\ largest w' = largest w /\ cas_id (mc_lru w') = cas_id (mc_lru w).
Lemma quiet_trans w1 w2 w3 : quiet w1 w2 -> quiet w2 w3 -> quiet w1 w3.
Proof.
  intros (A1 & A2 & A3) (B1 & B2 & B3). split; [by apply (same_env_trans _ w2)|]. split; congruence.
Qed.

(** What a later step of the same operation relies on: the settings, the clock,
    the class table's size and the CAS counter. *)
Definition calm w w' : Prop :=
  mc_settings w' = mc_settings w /\ current_time w' = current_time w /\ largest w' = largest w
  /\ cas_id (mc_lru w') = cas_id (mc_lru w).
Lemma calm_trans w1 w2 w3 : calm w1 w2 -> calm w2 w3 -> calm w1 w3.
Proof. unfold calm. intros (A1 & A2 & A3 & A4) (B1 & B2 & B3 & B4). split_and!; congruence. Qed.
Lemma quiet_calm w w' : quiet w w' -> calm w w'.
Proof. intros ((A1 & A2 & _) & A3 & A4). by split_and!. Qed.

(** Every chunk in use but [p] stays in use. *)
Definition keeps_class (p : ptr) w U U' : Prop :=
  forall i q, class_range w i -> q <> p -> q ∈ U i -> q ∈ U' i.
Lemma keeps_class_refl p w U : keeps_class p w U U.
Proof. by intros i q. Qed.
Lemma keeps_class_trans p w w' U1 U2 U3 :
  largest w' = largest w -> keeps_class p w U1 U2 -> keeps_class p w' U2 U3 -> keeps_class p w U1 U3.
Proof.
  intros E K1 K2 i q Hi Hq Hu. apply K2; [unfold class_range in *; by rewrite E|done|]. by apply K1.
Qed.
Lemma keeps_class_free p w U cls us : U cls ≡ₚ p :: us -> keeps_class p w U (fset U cls us).
Proof.
  intros E i q _ Hq Hu. unfold fset. case_decide; [|done]. subst i. rewrite E in Hu. set_solver.
Qed.

Lemma relinked_keeps x w w' : relinked_heap (heap w) (heap w') -> keeps_others x w w'.
Proof.
  intros Hr a it _ Ha _. destruct (relinked_lookup _ _ _ _ Hr Ha) as (it' & ? & ?).
  exists it'. split; [done|by apply relinked_content].
Qed.
Lemma frame_keeps x w w' : assoc_frame w w' -> keeps_others x w w'.
Proof.
  intros Hf a it _ Ha _. destruct (assoc_frame_lookup _ _ _ _ Hf Ha) as (v & Hv).
  eexists. split; [exact Hv|apply hnext_content].
Qed.
Lemma alter_keeps x w f : keeps_others x w (w <| heap ::= alter f x |>).
Proof.
  intros a it Hne Ha _. exists it. split; [|apply content_refl]. upds. by rewrite lookup_alter_ne.
Qed.
Lemma slab_keeps x w w' : slab_frame (fun b => b <> x) w w' -> keeps_others x w w'.
Proof. intros [_ Fr] a it Hne Ha Hf. exists it. split; [by apply Fr|apply content_refl]. Qed.

(** An item in good standing stays so as long as its content does. *)
Lemma item_ok_content w w' Q Q' cls p :
  item_ok w Q cls p ->
  (forall it, heap w !! p = Some it -> it_flags it <> ITEM_SLABBED ->
     exists it', heap w' !! p = Some it' /\ content it it') ->
  (in_queues Q' p <-> in_queues Q p) -> item_ok w' Q' cls p.
Proof.
  intros [(it & Hit & I1 & I2 & I3 & I4 & I5 & I6)] Hk HQ.
  destruct (Hk it Hit) as (it' & Hit' & C).
  { by apply used_flags. }
  assert (it_flags it' = it_flags it /\ it_clsid it' = it_clsid it /\ refcount it' = refcount it)
    as (E1 & E2 & E3) by (rewrite C; by split_and!).
  split. exists it'. unfold cleared, has_flag, ITEM_clsid in *. rewrite E1, E2, E3, HQ. repeat (split; [done|]). done.
Qed.

Lemma has_flag_slabbed it : has_flag it ITEM_SLABBED = false -> it_flags it <> ITEM_SLABBED.
Proof. intros Hf E. by rewrite (has_slabbed _ E) in Hf. Qed.

(** Only the item [x], its links and the counter [n] change. *)
Lemma cache_but_step x n n' w w' A A' Q Q' F U :
  cache_but (fun p => p = x) n w A Q F U -> parts w' A' Q' F U ->
  keeps_others x w w' -> largest w' = largest w ->
  (forall p, p <> x -> in_map A' p <-> in_map A p) ->
  (forall p, p <> x -> in_queues Q' p <-> in_queues Q p) ->
  (forall id p, p ∈ Q' id -> class_range w (clsid_of id) /\ p ∈ U (clsid_of id)) ->
  curr_items (mc_stats w') = u64 (Z.of_nat n') ->
  cache_but (fun p => p = x) n' w' A' Q' F U.
Proof.
  intros [C1 C2 C3 C4 C5] HP HK HL HA HQ HU Hn. split; [done|..|done].
  - intros p Hp. rewrite (HA p Hp), (HQ p Hp). by apply C2.
  - intros cls p Hcls Hin Hp. unfold class_range in *. rewrite HL in Hcls.
    apply (item_ok_content w w' Q Q'); [by apply C3| |by apply HQ]. intros it. by apply HK.
  - intros id p Hp. destruct (HU id p Hp) as [? ?]. unfold class_range. by rewrite HL.
Qed.

(** ** Flags *)

Lemma has_flag_clear it f g : Z.land f g = 0 -> has_flag (clear_flag f it) g = has_flag it g.
Proof.
  intros E. unfold has_flag, clear_flag. upds. do 2 f_equal. rewrite Z.ldiff_land, <- Z.land_assoc.
  f_equal. apply Z.bits_inj'. intros n Hn. apply (f_equal (fun z => Z.testbit z n)) in E.
  rewrite Z.land_spec, Z.bits_0 in E. rewrite Z.land_spec, Z.lnot_spec by done.
  by destruct (Z.testbit f n), (Z.testbit g n).
Qed.
Lemma has_flag_set it f g : Z.land f g = 0 -> has_flag (set_flag f it) g = has_flag it g.
Proof.
  intros E. unfold has_flag, set_flag. upds. do 2 f_equal. by rewrite Z.land_lor_distr_l, E, Z.lor_0_r.
Qed.
Lemma has_flag_cleared it f : has_flag (clear_flag f it) f = false.
Proof. unfold has_flag, clear_flag. upds.
  by rewrite Z.ldiff_land, <- Z.land_assoc, (Z.land_comm (Z.lnot f)), Z.land_lnot_diag, Z.land_0_r.
Qed.

(** ** Unlinking *)

Lemma sizes_bump_ok d p it w :
  p <> NULL -> heap w !! p = Some it ->
  exists l', item_stats_sizes_bump d p w = Some (tt, w <| mc_lru := l' |>) /\ same_queues (mc_lru w) l'
    /\ cas_id l' = cas_id (mc_lru w).
Proof.
  intros Hp Hit. assert (w = w <| mc_lru := mc_lru w |>) as E by (by destruct w).
  unfold item_stats_sizes_bump. run. rewrite (load_ok _ _ _ Hp Hit). run.
  destruct (stats_sizes_hist (mc_lru w)) as [h|]; [|exists (mc_lru w); split; [by rewrite <- E|by split_and!]].
  cbv beta iota zeta. destruct (ITEM_get_cas it <? _); [exists (mc_lru w); split; [run; by rewrite <- E|by split_and!]|].
  destruct (size_bucket it <? _); run.
  - eexists. split; [reflexivity|by split_and!].
  - exists (mc_lru w). split; [run; by rewrite <- E|by split_and!].
Qed.

Lemma queue_split w A Q F U p it :
  parts w A Q F U -> heap w !! p = Some it -> in_queues Q p ->
  exists l1 l2, Q (it_clsid it) = l1 ++ p :: l2.
Proof.
  intros HP Hit (id & Hid). destruct (lr_clsid _ _ (pt_lru _ _ _ _ _ HP) id p Hid) as (i & Hi & E).
  assert (i = it) as -> by congruence. rewrite E. by apply list_elem_of_split.
Qed.

Lemma cache_but_weaken (X Y : ptr -> Prop) n w A Q F U :
  (forall p, X p -> Y p) -> cache_but X n w A Q F U -> cache_but Y n w A Q F U.
Proof. intros HX [C1 C2 C3 C4 C5]. split; auto. Qed.

Record item_of_map w A Q U (k : list Z) (p : ptr) (it : item) : Prop := {
  im_heap : heap w !! p = Some it;
  im_null : p <> NULL;
  im_key : ITEM_key it = k;
  im_flags : has_flag it ITEM_LINKED = true /\ has_flag it ITEM_SLABBED = false
             /\ has_flag it ITEM_CHUNKED = false;
  im_refs : 1 <= refcount it < 2 ^ 16;
  im_used : class_range w (ITEM_clsid it) /\ p ∈ U (ITEM_clsid it);
  im_queue : in_queues Q p
}.

(** What the invariant says of an item of the map. *)
Lemma cache_item w A Q F U k p :
  cache_inv w A Q F U -> A !! k = Some p -> exists it, item_of_map w A Q U k p it.
Proof.
  intros HC Hk. destruct (rep_item w A k p (pt_assoc _ _ _ _ _ (cb_parts _ _ _ _ _ _ _ HC)) Hk)
    as (Hp & it & Hit & Ek & En).
  assert (in_queues Q p) as Hq by (apply (cb_same _ _ _ _ _ _ _ HC p); [by intros []|by exists k]).
  exists it. destruct Hq as (id & Hid). destruct (cb_used _ _ _ _ _ _ _ HC id p Hid) as [Hr Hu].
  destruct (cb_item _ _ _ _ _ _ _ HC _ p Hr Hu) as [(i & Hi & I1 & I2 & I3 & I4 & I5 & I6)]; [by intros []|].
  assert (i = it) as -> by congruence.
  assert (has_flag it ITEM_LINKED = true) as HL by (apply I5; by exists id).
  specialize (I6 HL). split; [done|done| |split_and!; [done|by apply linked_not_cleared|done]|lia|rewrite I3; by split|by exists id].
  unfold ITEM_key. by rewrite En, Ek, ztake_all.
Qed.
Lemma same_parts_keeps x w w' : heap w' = heap w -> keeps_others x w w'.
Proof. intros E a it _ Ha _. exists it. rewrite E. split; [done|apply content_refl]. Qed.

Lemma unlinked_largest id p pv nx b w : largest (unlinked_q id p pv nx b w) = largest w.
Proof. done. Qed.

Lemma keeps_clear f it :
  Z.land f ITEM_HDR = 0 -> Z.land f ITEM_CFLAGS = 0 -> Z.land f ITEM_CAS = 0 -> Z.land f ITEM_SLABBED = 0 ->
  has_flag it ITEM_SLABBED = false -> keeps (clear_flag f) it.
Proof.
  intros H1 H2 H3 H4 Hs. unfold keeps. split; [by split_and!|]. split; [by split_and!|].
  split; [|split; [done|]].
  - unfold lru_bytes, ITEM_ntotal. by rewrite !has_flag_clear.
  - split; intros E; apply has_slabbed in E; [congruence|]. rewrite has_flag_clear in E by done. congruence.
Qed.

Lemma in_queues_fset Q id l p' p :
  (p' ∈ l <-> p' ∈ Q id /\ p' <> p) -> p' <> p ->
  in_queues (fset Q id l) p' <-> in_queues Q p'.
Proof.
  intros Hl Hp. unfold in_queues, fset. split; intros (i & Hi).
  - case_decide; [exists id; naive_solver|by exists i].
  - exists i. case_decide; [subst; naive_solver|done].
Qed.

Lemma in_map_delete A k p p' :
  A !! k = Some p -> p' <> p ->
  in_map (base.delete k A) p' <-> in_map A p'.
Proof.
  intros Hk Hp. unfold in_map. split; intros (k' & Hk').
  - apply lookup_delete_Some in Hk' as [_ Hk']. by exists k'.
  - exists k'. apply lookup_delete_Some. split; [|done]. intros ->. congruence.
Qed.

(** Both unlink functions come down to releasing the item in a state where it is
    out of the table and out of its queue. *)
Lemma unlink_body w A Q F U k p it :
  cache_inv w A Q F U -> A !! k = Some p -> item_of_map w A Q U k p it ->
  exists w' it' Q', do_item_unlink p (hash k) w = do_item_remove p w'
    /\ do_item_unlink_nolock p (hash k) w = do_item_remove p w'
    /\ cache_but (fun q => q = p) (pred (size A)) w' (base.delete k A) Q' F U
    /\ heap w' !! p = Some it' /\ content (clear_flag ITEM_LINKED it) it'
    /\ keeps_others p w w' /\ quiet w w' /\ mc_slabs w' = mc_slabs w /\ ~ in_queues Q' p.
Proof.
  intros HC Hk [I1 I2 I3 (I4 & I5 & I6) I7 [I8 I9] I10].
  unfold do_item_unlink, do_item_unlink_nolock, item_unlink_q. run. rewrite !(load_ok _ _ _ I2 I1). run.
  rewrite I4, I3. run.
  rewrite (update_item_alter _ _ _ _ I2 I1). run.
  set (w2 := w <| heap ::= _ |> <| mc_stats ::= _ |>).
  assert (heap w2 !! p = Some (clear_flag ITEM_LINKED it)) as H2
    by (unfold w2; upds; by rewrite lookup_alter_eq, I1).
  unfold item_stats_sizes_remove. destruct (sizes_bump_ok (-1) p _ w2 I2 H2) as (l3 & -> & Hl3 & Hl3'). run.
  set (w3 := w2 <| mc_lru := l3 |>).
  assert (parts w3 A Q F U) as P3.
  { apply (parts_other w2); try done. apply (parts_other (w <| heap ::= alter (clear_flag ITEM_LINKED) p |>)); try done.
    apply (parts_item _ _ _ _ _ _ it); [apply HC|done|by apply keeps_clear]. }
  destruct (assoc_delete_rep w3 A k p (pt_assoc _ _ _ _ _ P3) Hk) as (w4 & -> & Fr & _ & R4). run.
  pose proof (parts_assoc _ _ _ _ _ _ _ P3 Fr R4) as P4.
  destruct (frame_lookup _ _ _ _ Fr H2) as (v & H4).
  destruct (queue_split _ _ _ _ _ p _ P4 H4 I10) as (l1 & l2 & HQ).
  destruct (parts_unlink_q _ _ _ _ _ _ _ _ _ P4 H4 HQ) as (w5 & -> & Ew & P5). run.
  set (id := it_clsid _) in *.
  assert (relinked_heap (heap w4) (heap w5)) as Hr by (rewrite Ew; unfold unlinked_q; upds; apply relinked_cut).
  destruct (relinked_lookup _ _ _ _ Hr H4) as (it5 & H5 & E5). apply relinked_content in E5.
  assert (quiet w w5 /\ mc_slabs w5 = mc_slabs w /\ mc_stats w5 = mc_stats w2) as (He & Es & Et).
  { destruct Fr as (E4 & _). rewrite Ew. unfold unlinked_q. rewrite E4. unfold quiet. by split_and!. }
  assert (keeps_others p w w5) as HK.
  { apply (keeps_others_trans _ _ w3); [by apply (alter_keeps p w (clear_flag ITEM_LINKED))|].
    apply (keeps_others_trans _ _ w4); [by apply frame_keeps|by apply relinked_keeps]. }
  assert (forall q, q ∈ l1 ++ l2 <-> q ∈ Q id /\ q <> p) as Hl.
  { intros q. pose proof (dll_nodup _ _ (lr_dll _ _ (pt_lru _ _ _ _ _ P4) id)) as Hnd.
    rewrite HQ in Hnd |- *. apply NoDup_app in Hnd as (_ & Hd & [Hp2 _]%NoDup_cons). set_solver. }
  exists w5, it5, (fset Q id (l1 ++ l2)). split; [done|]. split; [done|].
  assert (~ in_queues (fset Q id (l1 ++ l2)) p) as HnQ.
  { intros (i & Hi). unfold fset in Hi. case_decide as Ei; [apply Hl in Hi as [_ []]; done|].
    apply Ei. apply (queue_unique w4 Q i id p (pt_lru _ _ _ _ _ P4)); [done|]. rewrite HQ. set_solver. }
  split; [|split; [done|split; [by apply (content_trans _ _ _ (hnext_content _ v))|by split_and!]]].
  apply (cache_but_step p (size A) (pred (size A)) w w5 A _ Q); try done.
  - by apply (cache_but_weaken (fun _ => False)).
  - unfold largest. by rewrite Es.
  - intros q Hq. by apply (in_map_delete A k p q).
  - intros q Hq. by apply (in_queues_fset Q id _ q p).
  - intros i q Hi. unfold fset in Hi. case_decide as Ei; [apply Hl in Hi as [Hi _]; subst i|];
      by apply (cb_used _ _ _ _ _ _ _ HC).
  - rewrite Et. unfold w2. upds. rewrite (cb_curr _ _ _ _ _ _ _ HC), u64_sub_l.
    assert (size A <> 0%nat) by (apply map_size_ne_0_lookup; eauto). f_equal. lia.
Qed.
(** ** Releasing *)

Lemma keeps_refcount r it : it_flags it <> ITEM_SLABBED -> keeps (fun i => i <| refcount := r |>) it.
Proof. intros Hf. unfold keeps. by split_and!. Qed.

Lemma update_refcount w p it r :
  p <> NULL -> heap w !! p = Some it ->
  update_item p (fun i => i <| refcount := r (refcount i) |>) w
  = Some (tt, w <| heap ::= alter (fun i => i <| refcount := r (refcount it) |>) p |>).
Proof.
  intros Hp Hit. rewrite (update_item_alter _ _ _ _ Hp Hit). do 2 f_equal.
  assert (alter (fun i => i <| refcount := r (refcount i) |>) p (heap w)
    = alter (fun i => i <| refcount := r (refcount it) |>) p (heap w)) as E
    by (apply alter_ext; intros i Hi; by assert (i = it) as -> by congruence).
  destruct w; cbv -[alter] in *. by rewrite E.
Qed.

(** An item out of the table and the queues that somebody holds. *)
Record held_item w A Q U (p : ptr) (it : item) : Prop := {
  hi_heap : heap w !! p = Some it;
  hi_null : p <> NULL;
  hi_flags : has_flag it ITEM_LINKED = false /\ has_flag it ITEM_SLABBED = false
             /\ has_flag it ITEM_CHUNKED = false;
  hi_used : class_range w (ITEM_clsid it) /\ p ∈ U (ITEM_clsid it);
  hi_out : ~ in_queues Q p /\ ~ in_map A p
}.

Lemma drop_ref_dec n w A Q F U p it :
  cache_but (fun q => q = p) n w A Q F U -> held_item w A Q U p it -> 1 < refcount it < 2 ^ 16 ->
  exists w', do_item_remove p w = Some (tt, w') /\ cache_but (fun _ => False) n w' A Q F U
    /\ keeps_others p w w' /\ quiet w w' /\ mc_slabs w' = mc_slabs w
    /\ heap w' !! p = Some (it <| refcount := refcount it - 1 |>).
Proof.
  intros HC [I1 I2 (I4 & I5 & I6) [I8 I9] [O1 O2]] Hr. unfold do_item_remove, refcount_decr. run.
  rewrite (load_ok _ _ _ I2 I1). run. rewrite I5, (proj2 (Z.ltb_lt 0 (refcount it))) by lia. run.
  rewrite (update_refcount w p it (fun r => u16 (r - 1)) I2 I1). run.
  rewrite (load_ok p (it <| refcount := u16 (refcount it - 1) |>))
    by (try done; upds; by rewrite lookup_alter_eq, I1). run.
  rewrite (u16_id (refcount it - 1)) by lia. upds. rewrite (proj2 (Z.eqb_neq (refcount it - 1) 0)) by lia. run.
  set (w' := w <| heap ::= _ |>). exists w'.
  assert (heap w' !! p = Some (it <| refcount := refcount it - 1 |>)) as Hp'
    by (unfold w'; upds; by rewrite lookup_alter_eq, I1).
  assert (keeps_others p w w') as HK by apply alter_keeps.
  split; [done|]. split; [|split; [done|split; [by split_and!|by split]]].
  destruct HC as [C1 C2 C3 C4 C5]. split; [|intros q _|intros cls q Hc Hq _|done|done].
  - apply (parts_item _ _ _ _ _ _ it); [done|done|]. apply keeps_refcount. by apply has_flag_slabbed.
  - destruct (decide (q = p)) as [->|Hq]; [tauto|by apply C2].
  - destruct (decide (q = p)) as [->|Hne].
    + assert (cls = ITEM_clsid it) as -> by (by apply (used_class_unique _ w F U _ _ p (pt_slab _ _ _ _ _ C1))).
      split. eexists. split; [exact Hp'|]. unfold has_flag, ITEM_clsid in *. upds.
      rewrite I4, I5, I6. split; [by left|split; [done|split; [done|split; [lia|]]]]. split; [|done]. by split.
    + apply (item_ok_content w w' Q Q); [by apply C3| |done]. intros i. by apply HK.
Qed.
Lemma drop_ref_free n w A Q F U p it :
  cache_but (fun q => q = p) n w A Q F U -> held_item w A Q U p it -> refcount it = 1 ->
  exists w' us, do_item_remove p w = Some (tt, w')
    /\ U (ITEM_clsid it) ≡ₚ p :: us /\
    cache_but (fun _ => False) n w' A Q (fset F (ITEM_clsid it) (p :: F (ITEM_clsid it)))
      (fset U (ITEM_clsid it) us)
    /\ keeps_others p w w' /\ quiet w w'.
Proof.
  intros HC [I1 I2 (I4 & I5 & I6) [I8 I9] [O1 O2]] Hr. set (cls := ITEM_clsid it) in *.
  pose proof (cb_parts _ _ _ _ _ _ _ HC) as HP.
  assert (it_flags it <> ITEM_SLABBED) as Hf by (by apply has_flag_slabbed).
  unfold do_item_remove, refcount_decr. run.
  rewrite (load_ok _ _ _ I2 I1). run. rewrite I5, Hr. run.
  rewrite (update_refcount w p it (fun r => u16 (r - 1)) I2 I1), Hr. run.
  set (w1 := w <| heap ::= _ |>). set (it1 := it <| refcount := 0 |>).
  assert (heap w1 !! p = Some it1) as Hp1 by (unfold w1; upds; by rewrite lookup_alter_eq, I1).
  assert (parts w1 A Q F U) as P1 by (apply (parts_item _ _ _ _ _ _ it); [done|done|by apply keeps_refcount]).
  rewrite (load_ok p it1) by done. run. change (refcount it1 =? 0) with true. unfold item_free. run.
  rewrite (load_ok p it1) by done. run.
  assert (forall id, p <> hd0 (Q id) /\ p <> last0 (Q id)) as Hends.
  { intros id. split; intros E; apply O1; exists id; rewrite E; [apply hd0_in|apply last0_in]; by rewrite <- E. }
  rewrite (lr_heads _ _ (pt_lru _ _ _ _ _ P1)), (lr_tails _ _ (pt_lru _ _ _ _ _ P1)).
  change (has_flag it1 ITEM_LINKED) with (has_flag it ITEM_LINKED). rewrite I4. run.
  rewrite !bool_decide_eq_true_2 by apply Hends. run. change (ITEM_clsid it1) with cls.
  destruct (elem_of_Permutation (U cls) p) as [(us & HU) _]; [done|].
  destruct (class_in_range w1 F cls) as (sc & Hsc); [by apply (si_free [] w1 F U), P1|done|].
  destruct (slabs_free_ok w1 F U cls p (ITEM_ntotal it1) sc us it1 (pt_slab _ _ _ _ _ P1) I8 Hsc HU Hp1 I6)
    as (-> & HI' & Fr & G).
  set (w' := freed _ _ _ _) in *. exists w', us. split; [done|]. split; [done|].
  assert (quiet w w') as He by (split; [destruct Fr as [E _]; rewrite E; by split_and!|split; [apply (sg_largest _ _ G)|destruct Fr as [E _]; by rewrite E]]).
  assert (keeps_others p w w') as HK
    by (apply (keeps_others_trans _ _ w1); [apply alter_keeps|by apply slab_keeps]).
  split; [|by split]. pose proof (sg_largest _ _ G) as EL. change (largest w1) with (largest w) in EL.
  assert (forall i q, class_range w i -> q ∈ fset U cls us i <-> q ∈ U i /\ q <> p) as HU'.
  { intros i q Hi. unfold fset. pose proof (used_nodup _ _ _ _ cls (pt_slab _ _ _ _ _ HP) I8) as Hnd.
    rewrite HU in Hnd. apply NoDup_cons in Hnd as [Hnd _]. case_decide as Ei.
    - subst i. rewrite HU. set_solver.
    - split; [|tauto]. intros Hq. split; [done|]. intros ->. apply Ei.
      by apply (used_class_unique _ w F U _ _ p (pt_slab _ _ _ _ _ HP)). }
  destruct HC as [_ C2 C3 C4 C5]. split; [|intros q _|intros i q Hi Hq _|intros id q Hq|].
  - apply (parts_alloc w1 w' A Q F _ U _ (fun b => b <> p)); [done|done|done|intros k a Ha|intros id a Ha ->].
    + assert (a <> p) as Hne by (intros ->; apply O2; by exists k). split; [done|].
      destruct (C2 a Hne) as [HQ _]. destruct HQ as (id & Hid); [by exists k|].
      intros i Hi. by apply (pt_queue _ _ _ _ _ P1 id a).
    + apply O1. by exists id.
  - destruct (decide (q = p)) as [->|Hq]; [tauto|by apply C2].
  - unfold class_range in *. rewrite EL in Hi. apply HU' in Hq as [Hq Hne]; [|done].
    apply (item_ok_content w w' Q Q); [by apply C3| |done]. intros i'. by apply HK.
  - destruct (C4 id q Hq) as [R1 R2]. unfold class_range in *. rewrite EL. split; [done|].
    apply HU'; [done|]. split; [done|]. intros ->. apply O1. by exists id.
  - destruct Fr as [E _]. by rewrite E.
Qed.
(** ** Linking *)

Lemma held_not_slabbed w A Q U p it : held_item w A Q U p it -> it_flags it <> ITEM_SLABBED.
Proof. intros HI. apply has_flag_slabbed, HI. Qed.

Definition linked_item (now cas : Z) (it : item) : item :=
  ITEM_set_cas cas (set_flag ITEM_LINKED it <| time := now |>).

Lemma keeps_link now it :
  has_flag it ITEM_SLABBED = false -> keeps (fun i => set_flag ITEM_LINKED i <| time := now |>) it.
Proof.
  intros Hs. unfold keeps. split; [by split_and!|]. split; [by split_and!|]. split; [|split; [done|]].
  - transitivity (lru_bytes (set_flag ITEM_LINKED it)); [done|].
    unfold lru_bytes, ITEM_ntotal. by rewrite !has_flag_set.
  - split; intros E; [apply has_slabbed in E; congruence|].
    change (it_flags (set_flag ITEM_LINKED it) = ITEM_SLABBED) in E. apply has_slabbed in E.
    rewrite has_flag_set in E by done. congruence.
Qed.
Lemma keeps_set_cas c it : has_flag it ITEM_SLABBED = false -> keeps (ITEM_set_cas c) it.
Proof.
  intros Hs%has_flag_slabbed. unfold keeps, ITEM_set_cas. destruct (has_flag it ITEM_CAS); by split_and!.
Qed.

Lemma parts_unheld w A Q F U p it f :
  parts w A Q F U -> p <> NULL -> heap w !! p = Some it -> keeps f it ->
  exists w', update_item p f w = Some (tt, w') /\ w' = w <| heap ::= alter f p |> /\ parts w' A Q F U
    /\ heap w' !! p = Some (f it) /\ keeps_others p w w'.
Proof.
  intros HP Hp Hit Hk. eexists. split; [by apply (update_item_alter _ _ it)|]. split; [done|].
  split; [by apply (parts_item _ _ _ _ _ _ it)|]. split; [upds; by rewrite lookup_alter_eq, Hit|].
  apply alter_keeps.
Qed.

(** The CAS ids of [do_item_link]. *)
Lemma link_cas_ok w A Q F U :
  parts w A Q F U ->
  exists c w', (if use_cas (mc_settings w) then get_cas_id else mret 0) w = Some (c, w')
    /\ parts w' A Q F U /\ heap w' = heap w /\ same_env w w' /\ mc_slabs w' = mc_slabs w
    /\ mc_stats w' = mc_stats w
    /\ c = (if use_cas (mc_settings w) then u64 (cas_id (mc_lru w) + 1) else 0).
Proof.
  intros HP. destruct (use_cas (mc_settings w)); unfold get_cas_id; run.
  - eexists _, _. split; [done|]. split; [|by split_and!]. by apply (parts_other w).
  - exists 0, w. by split_and!.
Qed.
Lemma cache_but_close x n w A Q F U :
  cache_but (fun q => q = x) n w A Q F U -> (in_map A x <-> in_queues Q x) ->
  (forall cls, class_range w cls -> x ∈ U cls -> item_ok w Q cls x) ->
  cache_but (fun _ => False) n w A Q F U.
Proof.
  intros [C1 C2 C3 C4 C5] HM HI. split; [done| | |done|done].
  - intros q _. destruct (decide (q = x)) as [->|]; [done|by apply C2].
  - intros cls q ? ? _. destruct (decide (q = x)) as [->|]; [by apply HI|by apply C3].
Qed.

Lemma in_map_insert A k p q :
  q <> p -> A !! k = None -> in_map (<[k:=p]> A) q <-> in_map A q.
Proof.
  intros Hq Hk. unfold in_map. split; intros (k' & Hk').
  - apply lookup_insert_Some in Hk' as [[_ ->]|[_ Hk']]; [done|by exists k'].
  - exists k'. apply lookup_insert_Some. right. split; [intros ->; congruence|done].
Qed.

Lemma link_body n w A Q F U p it :
  cache_but (fun q => q = p) n w A Q F U -> held_item w A Q U p it -> nkey it = zlen (it_key it) ->
  A !! it_key it = None -> 0 <= refcount it < 2 ^ 16 - 1 ->
  exists w' it' c, do_item_link p (hash (it_key it)) w = Some (1, w')
    /\ (c = if use_cas (mc_settings w) then u64 (cas_id (mc_lru w) + 1) else 0)
    /\ parts w' (<[it_key it := p]> A) (fset Q (it_clsid it) (p :: Q (it_clsid it))) F U
    /\ heap w' !! p = Some (it' <| refcount := refcount it + 1 |>)
    /\ content (linked_item (current_time w) c it) it' 
    /\ keeps_others p w w' /\ same_env w w' /\ mc_slabs w' = mc_slabs w
    /\ curr_items (mc_stats w') = u64 (curr_items (mc_stats w) + 1).
Proof.
  intros HC HI Hk HA Hr. pose proof HI as [I1 I2 (I4 & I5 & I6) [I8 I9] [O1 O2]].
  pose proof (cb_parts _ _ _ _ _ _ _ HC) as HP.
  unfold do_item_link. run. rewrite (load_ok _ _ _ I2 I1). run. rewrite I4, I5. run.
  destruct (parts_unheld w A Q F U p it _ HP I2 I1 (keeps_link (current_time w) it I5))
    as (w1 & -> & E1 & P1 & H1 & K1). run.
  set (i1 := set_flag ITEM_LINKED it <| time := current_time w |>) in *.
  assert (has_flag i1 ITEM_SLABBED = false) as S1.
  { change (has_flag (set_flag ITEM_LINKED it) ITEM_SLABBED = false). by rewrite has_flag_set. }
  rewrite (load_ok _ _ _ I2 H1). run. set (w2 := w1 <| mc_stats ::= _ |>).
  assert (parts w2 A Q F U) as P2 by (by apply (parts_other w1)).
  destruct (link_cas_ok w2 A Q F U P2) as (c & w3 & Ec & P3 & H3 & V3 & S3 & T3 & Hc).
  rewrite Ec. run. assert (heap w3 !! p = Some i1) as H3p by (by rewrite H3).
  destruct (parts_unheld w3 A Q F U p i1 _ P3 I2 H3p (keeps_set_cas c i1 S1)) as (w4 & -> & E4 & P4 & H4 & K4). run.
  assert (it_key (ITEM_set_cas c i1) = it_key it /\ it_clsid (ITEM_set_cas c i1) = it_clsid it
    /\ nkey (ITEM_set_cas c i1) = nkey it /\ refcount (ITEM_set_cas c i1) = refcount it
    /\ has_flag (ITEM_set_cas c i1) ITEM_SLABBED = false) as (K & Kc & Kn & Kr & Ks).
  { unfold ITEM_set_cas. destruct (has_flag i1 ITEM_CAS); by split_and!. }
  destruct (assoc_insert_rep w4 A p _ (pt_assoc _ _ _ _ _ P4) I2 H4) as (w5 & E5 & Fr & R5);
    [congruence|by rewrite K|]. rewrite K in E5, R5. rewrite E5. run.
  pose proof (parts_assoc _ _ _ _ _ _ _ P4 Fr R5) as P5. destruct (frame_lookup _ _ _ _ Fr H4) as (v & H5).
  unfold item_link_q.
  destruct (parts_link_q w5 _ Q F U p _ P5 I2 H5) as (w6 & -> & E6 & P6); [|done|].
  { intros i Hi. apply O1. by exists i. }
  run. change (it_clsid (ITEM_set_cas c i1 <| h_next := v |>)) with (it_clsid (ITEM_set_cas c i1)) in *.
  rewrite Kc in *.
  assert (relinked_heap (heap w5) (heap w6)) as Hr6 by (rewrite E6; unfold linked_q; upds; apply relinked_push).
  destruct (relinked_lookup _ _ _ _ Hr6 H5) as (it6 & H6 & C6).
  assert (refcount it6 = refcount it /\ it_flags it6 = it_flags (ITEM_set_cas c i1)) as [R6 L6]
    by (rewrite C6; by split).
  unfold refcount_incr, item_stats_sizes_add. run.
  rewrite (update_refcount w6 p it6 (fun r => u16 (r + 1)) I2 H6). cbv beta.
  rewrite R6, u16_id by lia. run. set (w7 := w6 <| heap ::= _ |>).
  set (it7 := it6 <| refcount := refcount it + 1 |>).
  assert (heap w7 !! p = Some it7) as H7 by (unfold w7; upds; by rewrite lookup_alter_eq, H6).
  rewrite (load_ok p it7) by done. run.
  destruct (sizes_bump_ok 1 p it7 w7 I2 H7) as (l8 & -> & Hl8 & _). run.
  set (w8 := w7 <| mc_lru := l8 |>).
  exists w8, it6, c. split; [done|]. split; [by rewrite Hc; unfold w2; rewrite E1|].
  assert (mc_slabs w6 = mc_slabs w /\ same_env w w6 /\ mc_stats w6 = mc_stats w2) as (Es & Ee & Et).
  { rewrite E6. destruct Fr as (E5' & _). unfold linked_q. rewrite E5', E4. upds. rewrite S3, T3.
    destruct V3 as (V1&V2&V3&V4&V5&V6&V7). unfold same_env. upds.
    rewrite V1, V2, V3, V4, V5, V6, V7. unfold w2. rewrite E1. by split_and!. }
  split.
  { apply (parts_other w7); try done. apply (parts_item _ _ _ _ _ _ it6); [done|done|].
    apply keeps_refcount. rewrite L6. by apply has_flag_slabbed. }
  split; [exact H7|]. split.
  { apply (content_trans _ (ITEM_set_cas c i1 <| h_next := v |>)); [apply hnext_content|by apply relinked_content]. }
  split.
  { apply (keeps_others_trans _ _ w2); [done|]. apply (keeps_others_trans _ _ w3); [by apply same_parts_keeps|].
    apply (keeps_others_trans _ _ w4); [done|]. apply (keeps_others_trans _ _ w5); [by apply frame_keeps|].
    apply (keeps_others_trans _ _ w6); [by apply relinked_keeps|]. apply (alter_keeps p w6). }
  split; [exact Ee|]. split; [exact Es|]. change (mc_stats w8) with (mc_stats w6).
  rewrite Et. unfold w2. upds. by rewrite E1.
Qed.
Lemma has_flag_set_same it f : f <> 0 -> has_flag (set_flag f it) f = true.
Proof.
  intros Hf. unfold has_flag, set_flag. upds. apply negb_true_iff, Z.eqb_neq. intros E. apply Hf.
  rewrite <- E. apply Z.bits_inj'. intros n _. rewrite Z.land_spec, Z.lor_spec.
  by destruct (Z.testbit (it_flags it) n), (Z.testbit f n).
Qed.

Lemma linked_item_flags now c it :
  it_flags (linked_item now c it) = Z.lor (it_flags it) ITEM_LINKED
  /\ it_clsid (linked_item now c it) = it_clsid it.
Proof. unfold linked_item, ITEM_set_cas. case_match; by split. Qed.

Lemma link_ok n w A Q F U p it :
  cache_but (fun q => q = p) n w A Q F U -> held_item w A Q U p it -> nkey it = zlen (it_key it) ->
  A !! it_key it = None -> 0 <= refcount it < 2 ^ 16 - 1 ->
  exists w' Q' it', do_item_link p (hash (it_key it)) w = Some (1, w')
    /\ cache_but (fun _ => False) (S n) w' (<[it_key it := p]> A) Q' F U
    /\ heap w' !! p = Some (it' <| refcount := refcount it + 1 |>)
    /\ content (linked_item (current_time w)
         (if use_cas (mc_settings w) then u64 (cas_id (mc_lru w) + 1) else 0) it) it'
    /\ keeps_others p w w' /\ same_env w w' /\ mc_slabs w' = mc_slabs w.
Proof.
  intros HC HI Hk HA Hr. pose proof HI as [I1 I2 (I4 & I5 & I6) [I8 I9] [O1 O2]].
  destruct (link_body n w A Q F U p it HC HI Hk HA Hr)
    as (w' & it' & c & E & Hc & HP & Hp & Hcont & HK & He & Es & Et).
  set (id := it_clsid it) in *. exists w', (fset Q id (p :: Q id)), it'. rewrite <- Hc.
  split; [done|]. split; [|done].
  assert (in_queues (fset Q id (p :: Q id)) p) as HQ by (exists id; rewrite fset_eq; by left).
  apply (cache_but_close p); [apply (cache_but_step p n (S n) w w' A _ Q); try done| |].
  - unfold largest. by rewrite Es.
  - intros q Hq. by apply in_map_insert.
  - intros q Hq. unfold in_queues, fset. split; intros (i & Hi).
    + case_decide; [subst; exists id; set_solver|by exists i].
    + exists i. case_decide; [subst; set_solver|done].
  - intros i q Hi. unfold fset in Hi. case_decide; [|by apply (cb_used _ _ _ _ _ _ _ HC)].
    subst i. apply elem_of_cons in Hi as [->|Hi]; [done|by apply (cb_used _ _ _ _ _ _ _ HC)].
  - rewrite Et, (cb_curr _ _ _ _ _ _ _ HC), u64_add_l. f_equal. lia.
  - split; [done|]. intros _. exists (it_key it). apply lookup_insert_eq.
  - intros cls Hcls Hu. unfold class_range, largest in Hcls. rewrite Es in Hcls.
    assert (cls = ITEM_clsid it) as -> by (by apply (used_class_unique _ w F U _ _ p (pt_slab _ _ _ _ _ (cb_parts _ _ _ _ _ _ _ HC)))).
    destruct (linked_item_flags (current_time w) c it) as [L1 L2].
    assert (it_flags it' = Z.lor (it_flags it) ITEM_LINKED /\ it_clsid it' = it_clsid it) as [F1 F2]
      by (rewrite Hcont; by split).
    assert (forall f, has_flag (it' <| refcount := refcount it + 1 |>) f = has_flag (set_flag ITEM_LINKED it) f) as Hf.
    { intros f. unfold has_flag, set_flag. upds. by rewrite F1. }
    split. eexists. split; [exact Hp|]. rewrite !Hf, has_flag_set_same, !has_flag_set by done.
    unfold ITEM_clsid. upds. rewrite F2.
    split; [by left|split; [done|split; [done|split; [lia|split; [done|lia]]]]].
Qed.

(** [do_item_unlink] on an item of the map: out of table and queue, its reference
    released. *)
Lemma unlink_ok w A Q F U k p it :
  cache_inv w A Q F U -> A !! k = Some p -> item_of_map w A Q U k p it ->
  exists w' Q' F' U', do_item_unlink p (hash k) w = Some (tt, w')
    /\ do_item_unlink_nolock p (hash k) w = Some (tt, w')
    /\ cache_inv w' (base.delete k A) Q' F' U' /\ keeps_others p w w' /\ quiet w w'
    /\ (1 < refcount it -> F' = F /\ U' = U /\ exists it', heap w' !! p = Some it'
          /\ content (clear_flag ITEM_LINKED it <| refcount := refcount it - 1 |>) it'
          /\ held_item w' (base.delete k A) Q' U p it')
    /\ (refcount it = 1 -> F' = fset F (ITEM_clsid it) (p :: F (ITEM_clsid it))
          /\ exists us, U (ITEM_clsid it) ≡ₚ p :: us /\ U' = fset U (ITEM_clsid it) us)
    /\ (1 < refcount it -> mc_slabs w' = mc_slabs w).
Proof.
  intros HC Hk HI. pose proof HI as [I1 I2 I3 (I4 & I5 & I6) I7 [I8 I9] I10].
  destruct (unlink_body w A Q F U k p it HC Hk HI)
    as (w1 & it1 & Q1 & -> & -> & C1 & H1 & Hcont & K1 & V1 & S1 & O1).
  assert (it_flags it1 = it_flags (clear_flag ITEM_LINKED it) /\ it_clsid it1 = it_clsid it
    /\ refcount it1 = refcount it) as (L1 & L2 & L3) by (rewrite Hcont; by split_and!).
  assert (forall f, has_flag it1 f = has_flag (clear_flag ITEM_LINKED it) f) as Hf
    by (intros f; unfold has_flag; by rewrite L1).
  assert (ITEM_clsid it1 = ITEM_clsid it) as L4 by (unfold ITEM_clsid; by rewrite L2).
  assert (~ in_map (base.delete k A) p) as O2.
  { intros (k' & [Hne Hk']%lookup_delete_Some). apply Hne.
    destruct (cache_item w A Q F U k' p HC Hk') as (i & Hi). destruct Hi as [J1 _ <- _ _ _ _].
    rewrite <- I3. congruence. }
  assert (size (base.delete k A) = pred (size A)) as Hsz by (apply map_size_delete_Some; eauto).
  assert (held_item w1 (base.delete k A) Q1 U p it1) as HI1.
  { split; [done|done| |split; [|by rewrite L4]|done].
    - rewrite !Hf, has_flag_cleared, !has_flag_clear by done. done.
    - unfold class_range, largest. by rewrite S1, L4. }
  destruct (decide (1 < refcount it)) as [Hr|Hr].
  - destruct (drop_ref_dec _ w1 _ Q1 F U p it1 C1 HI1) as (w2 & -> & C2 & K2 & V2 & S2 & H2); [lia|].
    exists w2, Q1, F, U. split; [done|]. split; [done|]. split; [unfold cache_inv; by rewrite Hsz|].
    split; [by eapply keeps_others_trans|]. split; [by eapply quiet_trans|].
    split; [|split; [lia|intros _; by rewrite S2]].
    intros _. split; [done|]. split; [done|]. eexists. split; [exact H2|]. split.
    + rewrite L3, Hcont. by destruct it.
    + destruct HI1 as [_ J2 J3 [J4 J4'] J5]. split; [exact H2|done|done| |done].
      split; [|done]. by unfold class_range, largest; rewrite S2.
  - assert (refcount it1 = 1) as Hr1 by lia.
    destruct (drop_ref_free _ w1 _ Q1 F U p it1 C1 HI1 Hr1) as (w2 & us & -> & HU & C2 & K2 & V2).
    exists w2, Q1. eexists _, _. split; [done|]. split; [done|].
    split; [unfold cache_inv; rewrite Hsz; exact C2|].
    split; [by eapply keeps_others_trans|]. split; [by eapply quiet_trans|]. split; [lia|split; [|lia]].
    intros _. rewrite L4 in *. split; [done|]. by exists us.
Qed.
(** ** Fetching *)

(** A change outside the structures. *)
Lemma cache_other X n w w' A Q F U :
  cache_but X n w A Q F U -> heap w' = heap w -> mc_assoc w' = mc_assoc w ->
  same_queues (mc_lru w) (mc_lru w') -> mc_slabs w' = mc_slabs w -> mc_settings w' = mc_settings w ->
  curr_items (mc_stats w') = curr_items (mc_stats w) ->
  cache_but X n w' A Q F U.
Proof.
  intros [C1 C2 C3 C4 C5] H1 H2 H3 H4 H5 H6. split; [by apply (parts_other w)|done| | |by rewrite H6].
  - intros cls q Hc Hq Hx. unfold class_range, largest in Hc. rewrite H4 in Hc.
    apply (item_ok_content w w' Q Q); [by apply C3| |done]. intros it Hit _. exists it.
    rewrite H1. split; [done|apply content_refl].
  - intros id q Hq. unfold class_range, largest. rewrite H4. by apply C4.
Qed.

(** A change of an item of the map that keeps it linked. *)
Definition stays_linked (it it' : item) : Prop :=
  ITEM_key it' = ITEM_key it /\ has_flag it' ITEM_LINKED = true
  /\ has_flag it' ITEM_SLABBED = false /\ has_flag it' ITEM_CHUNKED = false /\ 1 <= refcount it' < 2 ^ 16.

Lemma cache_alter w A Q F U k p it f :
  cache_inv w A Q F U -> item_of_map w A Q U k p it -> keeps f it -> stays_linked it (f it) ->
  exists w', update_item p f w = Some (tt, w') /\ w' = w <| heap ::= alter f p |>
    /\ cache_inv w' A Q F U /\ item_of_map w' A Q U k p (f it) /\ keeps_others p w w'.
Proof.
  intros HC [I1 I2 I3 (I4 & I5 & I6) I7 [I8 I9] I10] Hk (S1 & S2 & S3 & S4 & S5).
  destruct (parts_unheld w A Q F U p it f (cb_parts _ _ _ _ _ _ _ HC) I2 I1 Hk) as (w' & E & Ew & P' & H' & K').
  exists w'. split; [done|]. split; [done|].
  assert (ITEM_clsid (f it) = ITEM_clsid it) as Ec by (unfold ITEM_clsid; by rewrite (proj1 (proj2 (proj2 (proj2 Hk))))).
  assert (item_of_map w' A Q U k p (f it)) as HI'.
  { split; [done|done|by rewrite S1|done|done| |done]. rewrite Ec. by rewrite Ew. }
  split; [|done]. apply (cache_but_close p).
  - apply (cache_but_step p (size A) (size A) w w' A A Q Q); try done.
    + by apply (cache_but_weaken (fun _ => False)).
    + by rewrite Ew.
    + apply (cb_used _ _ _ _ _ _ _ HC).
    + rewrite Ew. apply (cb_curr _ _ _ _ _ _ _ HC).
  - apply (cb_same _ _ _ _ _ _ _ HC p). by intros [].
  - intros cls Hc Hu. assert (class_range w cls) as Hcw by (by rewrite Ew in Hc).
    assert (cls = ITEM_clsid it) as -> by (by apply (used_class_unique _ w F U _ _ p (pt_slab _ _ _ _ _ (cb_parts _ _ _ _ _ _ _ HC)))).
    split. exists (f it). rewrite S2, Ec. split; [done|]. split; [by left|]. split; [done|]. split; [done|].
    split; [lia|]. split; [done|lia].
Qed.

Lemma refcount_incr_ok w A Q F U k p it :
  cache_inv w A Q F U -> item_of_map w A Q U k p it -> refcount it < 2 ^ 16 - 1 ->
  exists w', refcount_incr p w = Some (refcount it + 1, w')
    /\ w' = w <| heap ::= alter (fun i => i <| refcount := refcount it + 1 |>) p |>
    /\ cache_inv w' A Q F U /\ item_of_map w' A Q U k p (it <| refcount := refcount it + 1 |>)
    /\ keeps_others p w w'.
Proof.
  intros HC HI Hr. pose proof HI as [I1 I2 I3 (I4 & I5 & I6) I7 I8 I9].
  destruct (cache_alter w A Q F U k p it (fun i => i <| refcount := refcount it + 1 |>) HC HI)
    as (w' & _ & Ew & HC' & HI' & HK').
  - apply keeps_refcount. by apply has_flag_slabbed.
  - split; [done|]. do 3 (split; [done|]). upds. lia.
  - exists w'. split; [|done]. unfold refcount_incr. run.
    rewrite (update_refcount w p it (fun r => u16 (r + 1)) I2 I1). cbv beta. rewrite u16_id by lia. run.
    rewrite <- Ew. rewrite (load_ok p _ _ I2 (im_heap _ _ _ _ _ _ _ HI')). by run.
Qed.

(** One reference of [it] is gone: others still hold the item, or its chunk is at
    the front of the free list. *)
Definition released w' (F U F' U' : Z -> list ptr) (p : ptr) (it : item) : Prop :=
  (1 < refcount it -> F' = F /\ U' = U
     /\ exists it', heap w' !! p = Some it' /\ content (it <| refcount := refcount it - 1 |>) it')
  /\ (refcount it = 1 -> F' = fset F (ITEM_clsid it) (p :: F (ITEM_clsid it))
     /\ exists us, U (ITEM_clsid it) ≡ₚ p :: us /\ U' = fset U (ITEM_clsid it) us).

Lemma released_content w' F U F' U' p it it1 :
  content it it1 -> released w' F U F' U' p it1 -> released w' F U F' U' p it.
Proof.
  intros C [R1 R2]. assert (refcount it1 = refcount it /\ ITEM_clsid it1 = ITEM_clsid it) as [E1 E2]
    by (rewrite C; by split).
  unfold released. rewrite <- E1, <- E2. split; [|done]. intros Hr. destruct (R1 Hr) as (? & ? & it' & ? & C').
  split; [done|]. split; [done|]. exists it'. split; [done|]. apply (content_trans _ (it1 <| refcount := refcount it1 - 1 |>)); [|done].
  rewrite C. by destruct it.
Qed.

(** Releasing the reference of an item that was unlinked. *)
Lemma remove_ok w A Q F U p it :
  cache_inv w A Q F U -> held_item w A Q U p it -> 1 <= refcount it < 2 ^ 16 ->
  exists w' F' U', do_item_remove p w = Some (tt, w') /\ cache_inv w' A Q F' U'
    /\ keeps_others p w w' /\ quiet w w' /\ keeps_class p w U U' /\ released w' F U F' U' p it.
Proof.
  intros HC HI Hr. apply (cache_but_weaken _ (fun q => q = p)) in HC; [|done].
  destruct (decide (refcount it = 1)) as [E|E].
  - destruct (drop_ref_free _ _ _ _ _ _ _ _ HC HI E) as (w' & us & H1 & HU & H2 & H3 & H4).
    eexists w', _, _. split; [done|]. split; [exact H2|]. do 2 (split; [done|]). split; [by apply keeps_class_free|].
    split; [lia|]. intros _. split; [done|]. by exists us.
  - destruct (drop_ref_dec _ _ _ _ _ _ _ _ HC HI) as (w' & H1 & H2 & H3 & H4 & _ & Hp); [lia|].
    exists w', F, U. do 4 (split; [done|]). split; [apply keeps_class_refl|].
    split; [|lia]. intros _. split; [done|]. split; [done|]. eexists. split; [exact Hp|apply content_refl].
Qed.

Lemma STORAGE_delete_ok p it w :
  p <> NULL -> heap w !! p = Some it ->
  STORAGE_delete p w = Some (tt, w <| storage_deleted := if has_flag it ITEM_HDR then p :: storage_deleted w else storage_deleted w |>).
Proof.
  intros Hp Hit. unfold STORAGE_delete. run. rewrite (load_ok _ _ _ Hp Hit). run.
  destruct (has_flag it ITEM_HDR); run; by destruct w.
Qed.

Lemma held_other w w' A Q U p it :
  held_item w A Q U p it -> heap w' = heap w -> mc_slabs w' = mc_slabs w -> held_item w' A Q U p it.
Proof. intros [H1 H2 H3 H4 H5] E1 E2. split; [by rewrite E1|done|done| |done]. unfold class_range, largest. by rewrite E2. Qed.

(** A fetched item that must not be served: unlinked and released. *)
Lemma drop_fetched w A Q F U k p it :
  cache_inv w A Q F U -> A !! k = Some p -> item_of_map w A Q U k p it -> 1 < refcount it ->
  exists w' Q' F' U', (do_item_unlink p (hash k);; STORAGE_delete p;; do_item_remove p) w = Some (tt, w')
    /\ cache_inv w' (base.delete k A) Q' F' U' /\ keeps_others p w w' /\ calm w w' /\ keeps_class p w U U'
    /\ released w' F U F' U' p (clear_flag ITEM_LINKED it <| refcount := refcount it - 1 |>).
Proof.
  intros HC Hk HI Hr.
  destruct (unlink_ok w A Q F U k p it HC Hk HI) as (w1 & Q1 & F1 & U1 & E1 & _ & C1 & K1 & V1 & HD & _).
  destruct (HD Hr) as (-> & -> & it1 & H1 & Hc & HH). pose proof (hi_null _ _ _ _ _ _ HH) as Hp.
  run. rewrite E1. run. rewrite (STORAGE_delete_ok p it1) by done. run.
  set (w2 := w1 <| storage_deleted := _ |>).
  assert (refcount it1 = refcount it - 1) as Er by (by rewrite Hc). pose proof (im_refs _ _ _ _ _ _ _ HI).
  destruct (remove_ok w2 (base.delete k A) Q1 F U p it1) as (w3 & F3 & U3 & E3 & C3 & K3 & V3 & L3 & R3).
  - by apply (cache_other _ _ w1).
  - by apply (held_other w1).
  - lia.
  - rewrite E3. exists w3, Q1, F3, U3. split; [done|]. split; [done|].
    split; [by apply (keeps_others_trans _ _ w1)|].
    split; [apply (calm_trans _ w1); [by apply quiet_calm|exact (quiet_calm _ _ V3)]|].
    split; [|by apply (released_content _ _ _ _ _ _ _ it1)].
    intros i q Hi. apply L3. unfold class_range in *. change (largest w2) with (largest w1).
    by rewrite (proj1 (proj2 V1)).
Qed.
End cache.
