(* ===== verification/CacheAlloc.v ===== *)
(** * Allocating items

    [do_item_alloc] when the class has memory: the new item is a chunk nobody
    uses, its header is filled in, it holds one reference and is in no table
    or queue yet. *)

From S2P Require Import Prelude Memory Dll Assoc AssocSpec Slabs SlabsSpec SlabPages SlabAlloc.
From S2P Require Import Items LruSpec Parts CacheSpec.

Section alloc.
Context `{HashFunction}.
Implicit Types (w : mc) (A : gmap (list Z) ptr) (Q F U : Z -> list ptr).

(** ** Changing an item that is in no table and no queue *)

Lemma parts_held w A Q F U p it f :
  parts w A Q F U -> heap w !! p = Some it -> ~ in_map A p -> ~ in_queues Q p ->
  it_flags it <> ITEM_SLABBED -> it_flags (f it) <> ITEM_SLABBED ->
  parts (w <| heap ::= alter f p |>) A Q F U.
Proof.
  intros [P1 P2 P3 P4] Hp HA HQ Hf Hf'.
  assert (forall a i, heap w !! a = Some i -> a <> p -> heap (w <| heap ::= alter f p |>) !! a = Some i) as Hl.
  { intros a i Ha Hne. upds. by rewrite lookup_alter_ne. }
  assert (forall id a, a ∈ Q id -> a <> p) as HQp by (intros id a Ha ->; apply HQ; by exists id).
  split.
  - apply (assoc_rep_frame w); [done|done|]. intros k a i Ha Hi. exists i. split; [|by split_and!].
    apply Hl; [done|]. intros ->. apply HA. by exists k.
  - apply (lru_rep_frame w); [done|by split_and!|]. intros id a i Ha Hi. exists i.
    split; [|by split_and!]. by apply Hl, (HQp id).
  - apply (slab_inv_frame w); [done|done|done|..]; intros a i Hi Hfl.
    + exists i. split; [|by split_and!]. apply Hl; [done|]. intros ->. congruence.
    + upds. destruct (decide (a = p)) as [->|Hne].
      * rewrite lookup_alter_eq, Hp. by eexists.
      * exists i. by rewrite lookup_alter_ne.
  - intros id a i Ha Hi. apply (P4 id a); [done|]. revert Hi. upds. rewrite lookup_alter_ne; [done|].
    intros <-. by apply (HQp id p).
Qed.

(** A change that leaves the item out of use, or clears it for the slab mover. *)
Lemma held_alter_used w A Q F U p it f :
  cache_inv w A Q F U -> held_item w A Q U p it ->
  has_flag (f it) ITEM_SLABBED = false \/ cleared (f it) -> has_flag (f it) ITEM_LINKED = false ->
  has_flag (f it) ITEM_CHUNKED = false -> ITEM_clsid (f it) = ITEM_clsid it -> 0 <= refcount (f it) < 2 ^ 16 ->
  exists w', update_item p f w = Some (tt, w') /\ w' = w <| heap ::= alter f p |>
    /\ cache_inv w' A Q F U /\ heap w' !! p = Some (f it) /\ keeps_others p w w'.
Proof.
  intros HC HH H2 H3 H4 H5 H6. pose proof HH as [I1 I2 (I4 & I5 & I6) [I8 I9] [O1 O2]].
  set (w' := w <| heap ::= alter f p |>).
  assert (heap w' !! p = Some (f it)) as Hp' by (unfold w'; upds; by rewrite lookup_alter_eq, I1).
  exists w'. split; [by apply (update_item_alter _ _ it)|]. split; [done|].
  split; [|split; [done|apply alter_keeps]].
  apply (cache_but_close p).
  - apply (cache_but_step p (size A) (size A) w w' A A Q Q); try done.
    + by apply (cache_but_weaken (fun _ => False)).
    + apply (parts_held w A Q F U p it f); [apply HC|done|done|done|by apply has_flag_slabbed|by apply used_flags].
    + apply alter_keeps.
    + apply (cb_used _ _ _ _ _ _ _ HC).
    + apply (cb_curr _ _ _ _ _ _ _ HC).
  - tauto.
  - intros cls Hc Hu.
    assert (cls = ITEM_clsid it) as -> by (by apply (used_class_unique _ w F U _ _ p (pt_slab _ _ _ _ _ (cb_parts _ _ _ _ _ _ _ HC)))).
    split. exists (f it). rewrite H3, H5. split_and!; try done; lia.
Qed.

Lemma held_alter w A Q F U p it f :
  cache_inv w A Q F U -> held_item w A Q U p it ->
  has_flag (f it) ITEM_LINKED = false ->
  has_flag (f it) ITEM_SLABBED = false -> has_flag (f it) ITEM_CHUNKED = false ->
  ITEM_clsid (f it) = ITEM_clsid it -> 0 <= refcount (f it) < 2 ^ 16 ->
  exists w', update_item p f w = Some (tt, w') /\ w' = w <| heap ::= alter f p |>
    /\ cache_inv w' A Q F U /\ held_item w' A Q U p (f it) /\ keeps_others p w w'.
Proof.
  intros HC HH H2 H3 H4 H5 H6.
  destruct (held_alter_used w A Q F U p it f HC HH) as (w' & E & Ew & HC' & Hp' & HK); [by left|done..|].
  exists w'. split; [done|]. split; [done|]. split; [done|]. split; [|done].
  destruct HH as [_ I2 _ [I8 I9] O]. split; [done|done|done| |done]. rewrite H5. by rewrite Ew.
Qed.

(** ** A fresh chunk *)

Lemma used_live w A Q F U cls p :
  cache_inv w A Q F U -> class_range w cls -> p ∈ U cls -> live_addr w p.
Proof.
  intros HC Hc Hu. pose proof (pt_slab _ _ _ _ _ (cb_parts _ _ _ _ _ _ _ HC)) as HS.
  apply (chunk_live [] w F U cls p HS Hc). by right.
Qed.
Definition keeps_used w w' U : Prop :=
  forall i q, class_range w i -> q ∈ U i -> forall it, heap w !! q = Some it ->
    it_flags it <> ITEM_SLABBED -> heap w' !! q = Some it.

(** The allocator took the chunk [r], or none, and cut pages. *)
Lemma slab_step_cache r n w w' A Q F F' U V :
  cache_but (fun _ => False) n w A Q F U -> n = size A -> slab_inv w' F' V ->
  slab_frame (fun b => live_addr w b /\ b <> r) w w' -> largest w' = largest w ->
  (forall i, class_range w i -> r ∉ U i) ->
  (forall i q, class_range w i -> q <> r -> q ∈ V i <-> q ∈ U i) ->
  cache_but (fun q => q = r) n w' A Q F' V /\ keeps_used w w' U.
Proof.
  intros HC -> HS Hf HL Hr HV. pose proof HC as [C1 C2 C3 C4 C5]. pose proof Hf as [Ew Fr].
  assert (forall i q, class_range w i -> q ∈ U i -> q <> r) as Hne by (intros i q Hi Hq ->; by apply (Hr i)).
  assert (keeps_used w w' U) as HK.
  { intros i q Hi Hq it Hit Hfl. apply Fr; [done|done|]. split; [by apply (used_live w A Q F U i)|by apply (Hne i)]. }
  assert (forall id q, q ∈ Q id -> class_range w (clsid_of id) /\ q ∈ U (clsid_of id) /\ q <> r) as HQ.
  { intros id q Hq. destruct (C4 id q Hq). split; [done|]. split; [done|]. by apply (Hne (clsid_of id)). }
  split; [|done]. split; [|intros q _; apply C2; by intros []| | |by rewrite Ew].
  - apply (parts_alloc w w' A Q F F' U V _ C1 Hf HS).
    + intros k a Ha. destruct (cache_item w A Q F U k a HC Ha) as (it & [J1 _ _ (_ & J4 & _) _ [J6 J7] _]).
      split; [split; [by apply (used_live w A Q F U _ a HC J6)|by apply (Hne (ITEM_clsid it))]|].
      intros i Hi. assert (i = it) as -> by congruence. by apply has_flag_slabbed.
    + intros id a Ha. destruct (HQ id a Ha) as (J1 & J2 & J3). split; [|done].
      by apply (used_live w A Q F U _ a HC J1).
  - intros i q Hi Hq Hqr. unfold class_range in *. rewrite HL in Hi. apply (HV i q Hi Hqr) in Hq.
    apply (item_ok_content w w' Q Q); [by apply C3; [..|intros []]| |done].
    intros it Hit Hfl. exists it. split; [by apply (HK i q Hi Hq)|apply content_refl].
  - intros id q Hq. destruct (HQ id q Hq) as (J1 & J2 & J3). unfold class_range in *. rewrite HL.
    split; [done|]. by apply HV.
Qed.

(** Class numbers leave the LRU bits of [slabs_clsid] free. *)
Lemma clsid_bits (f : Z -> bool) id :
  forallb f (seqZ 0 64) = true -> 0 <= id < 64 -> f id = true.
Proof. rewrite forallb_forall. intros Hf Hid. apply Hf, list_elem_of_In, elem_of_seqZ. lia. Qed.
Lemma small_clsid id : 0 <= id < 64 -> Z.ldiff id (Z.shiftl 3 6) = id.
Proof.
  intros Hid. apply Z.eqb_eq. apply (clsid_bits (fun i => Z.ldiff i (Z.shiftl 3 6) =? i)); [|done].
  vm_compute. reflexivity.
Qed.

(** The chunk [r] was given out: somebody holds it. *)
Lemma allocated_cache w w' A Q F F' U id r :
  cache_inv w A Q F U -> class_range w id -> id < 64 -> slab_inv w' F' (fset U id (r :: U id)) ->
  allocated w w' U id r -> largest w' = largest w ->
  cache_inv w' A Q F' (fset U id (r :: U id)) /\ keeps_used w w' U
  /\ exists it, held_item w' A Q (fset U id (r :: U id)) r it /\ it_flags it = 0 /\ refcount it = 1 /\ it_clsid it = id.
Proof.
  intros HC Hid Hlt HS [Hun Hf (it & Hit & I1 & I2 & I3) [Hl Hr0]] HL.
  destruct (slab_step_cache r (base.size A) w w' A Q F F' U _ HC eq_refl HS Hf HL Hun) as [C' K'].
  { intros i q Hi Hq. unfold fset. case_decide; [subst; set_solver|done]. }
  assert (~ in_queues Q r) as HQ.
  { intros (j & Hj). destruct (cb_used _ _ _ _ _ _ _ HC j r Hj) as [J1 J2]. by apply (Hun _ J1). }
  assert (~ in_map A r) as HA by (intros HA; apply HQ, (cb_same _ _ _ _ _ _ _ HC); [by intros []|done]).
  assert (ITEM_clsid it = id) as Ec.
  { unfold ITEM_clsid. rewrite I3. apply small_clsid. unfold class_range, POWER_SMALLEST in Hid. lia. }
  assert (forall f, has_flag it f = false) as Hfl by (intros f; unfold has_flag; by rewrite I1, Z.land_0_l).
  assert (held_item w' A Q (fset U id (r :: U id)) r it) as HH.
  { split; [done|done|by split_and!| |done]. rewrite Ec, fset_eq. unfold class_range. rewrite HL. split; [done|by left]. }
  split; [|split; [done|by exists it]].
  apply (cache_but_close r); [done|tauto|]. intros cls Hc Hu.
  assert (cls = id) as ->.
  { apply (used_class_unique [] w' F' (fset U id (r :: U id)) cls id r HS); [done| |done|rewrite fset_eq; by left].
    by rewrite HL. }
  split. exists it. rewrite !Hfl, Ec, I2. split_and!; try done; [by left|lia..].
Qed.

Lemma cache_slabs_alloc w A Q F U size id sc :
  cache_inv w A Q F U -> class_range w id -> id < 64 -> class w id = Some sc -> size <= cl_size sc ->
  room w id ->
  exists r w' F', slabs_alloc size id 0 w = Some (r, w') /\ keeps_used w w' U
    /\ w' = w <| heap := heap w' |> <| mc_slabs := mc_slabs w' |> /\ largest w' = largest w
    /\ ((r = NULL /\ cache_inv w' A Q F' U)
        \/ (cache_inv w' A Q F' (fset U id (r :: U id)) /\ (forall i, class_range w i -> r ∉ U i)
            /\ exists it, held_item w' A Q (fset U id (r :: U id)) r it
                 /\ it_flags it = 0 /\ refcount it = 1 /\ it_clsid it = id)).
Proof.
  intros HC Hid Hlt Hsc Hsz Hroom.
  destruct (slabs_alloc_ok w F U size id sc (pt_slab _ _ _ _ _ (cb_parts _ _ _ _ _ _ _ HC)) Hid Hsc Hsz Hroom)
    as (r & w' & F' & E & HL & _ & _ & HR).
  exists r, w', F'. split; [done|]. destruct HR as [(-> & _ & _ & HS & Hf)|[HS HA]].
  - assert (forall i, class_range w i -> NULL ∉ U i) as Hn.
    { intros i Hi Hq. destruct (cb_item _ _ _ _ _ _ _ HC i NULL Hi Hq) as [(it & _)]; [by intros []|].
      pose proof (pt_slab _ _ _ _ _ (cb_parts _ _ _ _ _ _ _ HC)) as HS0.
      destruct (used_live w A Q F U i NULL HC Hi Hq) as (j & p & pg & Hj & Hp & Hpg & Hb).
      destruct (po_bounds _ _ _ (si_pages _ _ _ _ HS0) pg (pages_in w j p pg Hp Hpg)). unfold NULL in *. lia. }
    assert (slab_frame (fun b => live_addr w b /\ b <> NULL) w w') as Hf'.
    { destruct Hf as [? Fr]. split; [done|]. intros b it Hb Hfl [Hlv _]. by apply Fr. }
    destruct (slab_step_cache NULL (base.size A) w w' A Q F F' U U HC eq_refl HS Hf' HL Hn) as [C' K']; [done|].
    split; [done|]. split; [apply Hf|]. split; [done|]. left. split; [done|].
    apply (cache_but_close NULL); [done|apply (cb_same _ _ _ _ _ _ _ HC); by intros []|].
    intros cls Hc Hq. unfold class_range in Hc. rewrite HL in Hc. by destruct (Hn cls Hc).
  - destruct (allocated_cache w w' A Q F F' U id r HC Hid Hlt HS HA HL) as (C' & K' & it & HH & I).
    split; [done|]. split; [apply HA|]. split; [done|]. right. split; [done|]. split; [apply HA|by exists it].
Qed.
(** ** do_item_alloc *)

Lemma alloc_pull_fresh w ntotal id e r w1 :
  lru_segmented (mc_settings w) = true -> slabs_alloc ntotal id 0 w = Some (r, w1) -> r <> NULL ->
  do_item_alloc_pull ntotal id e w = Some (r, w1).
Proof.
  intros Hs E Hr. unfold do_item_alloc_pull, alloc_pull_loop. run. rewrite Hs. run. rewrite E. run.
  rewrite decide_False by done. run. done.
Qed.

Definition alloc_total (st : settings) (key : list Z) (flags nbytes : Z) : Z :=
  let ntotal := fst (item_make_header (zlen key + 1) flags nbytes) in
  if use_cas st then u64 (ntotal + 8) else ntotal.

(** The header [do_item_alloc] fills in. *)
Definition new_item (st : settings) (now : Z) (key : list Z) (flags exptime nbytes id : Z) (i : item) : item :=
  i <| next := NULL |> <| prev := NULL |> <| it_clsid := u8 (Z.lor id (initial_lru st now exptime)) |>
    <| it_flags := Z.lor (if use_cas st then ITEM_CAS else 0) (if flags =? 0 then 0 else ITEM_CFLAGS) |>
    <| Memory.nkey := u8 (zlen key) |> <| Memory.nbytes := nbytes |> <| it_key := key |>
    <| Memory.exptime := exptime |> <| it_cflags ::= fun f => if flags =? 0 then f else flags |>
    <| h_next := NULL |>.

Definition fill_item (st : settings) (now : Z) (key : list Z) (flags exptime nbytes id : Z) (i : item) : item :=
  i <| next := NULL |> <| prev := NULL |> <| it_clsid := u8 (Z.lor id (initial_lru st now exptime)) |>
    <| it_flags ::= fun f => Z.lor (Z.lor f (if use_cas st then ITEM_CAS else 0))
                               (if flags =? 0 then 0 else ITEM_CFLAGS) |>
    <| Memory.nkey := u8 (zlen key) |> <| Memory.nbytes := nbytes |> <| it_key := key |>
    <| Memory.exptime := exptime |> <| it_cflags ::= fun f => if flags =? 0 then f else flags |>.

Lemma lor_lru_clsid id st now exptime :
  0 <= id < 64 -> Z.ldiff (u8 (Z.lor id (initial_lru st now exptime))) (Z.shiftl 3 6) = id.
Proof.
  intros Hid. assert (initial_lru st now exptime ∈ [HOT_LRU; COLD_LRU; TEMP_LRU]) as Hl.
  { unfold initial_lru. repeat case_match; set_solver. }
  assert (forallb (fun l => Z.ldiff (u8 (Z.lor id l)) (Z.shiftl 3 6) =? id) [HOT_LRU; COLD_LRU; TEMP_LRU] = true) as Hf.
  { apply (clsid_bits (fun i => forallb (fun l => Z.ldiff (u8 (Z.lor i l)) (Z.shiftl 3 6) =? i) _)); [|done].
    vm_compute. reflexivity. }
  rewrite forallb_forall in Hf. by apply Z.eqb_eq, Hf, list_elem_of_In.
Qed.

Lemma do_item_alloc_ok w A Q F U key flags exptime nbytes e id sc :
  cache_inv w A Q F U -> lru_segmented (mc_settings w) = true -> 2 <= nbytes ->
  let ntotal := alloc_total (mc_settings w) key flags nbytes in
  slabs_clsid ntotal w = Some (id, w) -> ntotal <= slab_chunk_size_max (mc_settings w) ->
  class_range w id -> id < 64 -> class w id = Some sc -> ntotal <= cl_size sc -> room w id ->
  (forall w1, slabs_alloc ntotal id 0 w <> Some (NULL, w1)) ->
  exists r w' F' it, do_item_alloc key flags exptime nbytes e w = Some (r, w')
    /\ r <> NULL /\ (forall i, class_range w i -> r ∉ U i)
    /\ cache_inv w' A Q F' (fset U id (r :: U id)) /\ keeps_used w w' U /\ same_env w w'
    /\ held_item w' A Q (fset U id (r :: U id)) r (new_item (mc_settings w) (current_time w) key flags exptime nbytes id it)
    /\ refcount it = 1 /\ mc_lru w' = mc_lru w /\ mc_stats w' = mc_stats w /\ largest w' = largest w.
Proof.
  intros HC Hseg Hnb ntotal Hcls Hmax Hid Hlt Hsc Hsz Hroom Hmem.
  destruct (cache_slabs_alloc w A Q F U ntotal id sc HC Hid Hlt Hsc Hsz Hroom)
    as (r & w1 & F' & E & HK & Ew & HL & [(-> & _)|(HC1 & Hun & it & HH & I1 & I2 & I3)]); [by destruct (Hmem w1)|].
  pose proof (hi_null _ _ _ _ _ _ HH) as Hr. pose proof (hi_heap _ _ _ _ _ _ HH) as H1.
  set (V := fset U id (r :: U id)) in *. set (st := mc_settings w) in *.
  assert (do_item_alloc key flags exptime nbytes e w =
    (update_item r (fill_item st (current_time w) key flags exptime nbytes id);;
     i ← load r; when (has_flag i ITEM_CHUNKED) (init_internal_chunk r 0);;
     update_item r (fun i => i <| h_next := NULL |>);; mret r) w1) as ->.
  { unfold do_item_alloc. rewrite (proj2 (Z.ltb_ge nbytes 2)) by lia. run. fold st.
    unfold item_make_header. cbv beta zeta iota. run.
    set (nt := if use_cas st then u64 (u64 _ + 8) else u64 _). change nt with ntotal. rewrite Hcls. run.
    rewrite (proj2 (Z.eqb_neq id 0)) by (unfold class_range, POWER_SMALLEST in Hid; lia).
    rewrite (proj2 (Z.ltb_ge (slab_chunk_size_max st) ntotal)) by done. run.
    rewrite (alloc_pull_fresh w ntotal id e r w1 Hseg E Hr). run. rewrite decide_False by done. run.
    rewrite (load_ok r it) by done. run. rewrite I1. run. unfold fill_item. destruct (flags =? 0); reflexivity. }
  assert (0 <= id < 64) as Hid' by (unfold class_range, POWER_SMALLEST in Hid; lia).
  assert (ITEM_clsid it = id) as Ec by (unfold ITEM_clsid; rewrite I3; by apply small_clsid).
  set (f1 := fill_item st (current_time w) key flags exptime nbytes id).
  assert (it_flags (f1 it) = Z.lor (if use_cas st then ITEM_CAS else 0) (if flags =? 0 then 0 else ITEM_CFLAGS)) as Hfl
    by (unfold f1, fill_item; upds; rewrite I1; by destruct (use_cas st), (flags =? 0)).
  assert (ITEM_clsid (f1 it) = id) as Ec1 by (unfold f1, fill_item, ITEM_clsid; upds; by apply lor_lru_clsid).
  destruct (held_alter w1 A Q F' V r it f1 HC1 HH) as (w2 & E2 & Ew2 & HC2 & HH2 & HK2);
    [..|by rewrite Ec1|change (refcount (f1 it)) with (refcount it); lia|].
  1-3: unfold has_flag; rewrite Hfl; by destruct (use_cas st), (flags =? 0).
  run. rewrite E2. run. rewrite (load_ok r _ _ Hr (hi_heap _ _ _ _ _ _ HH2)). run.
  destruct (hi_flags _ _ _ _ _ _ HH2) as (L1 & L2 & L3). rewrite L3. run.
  destruct (held_alter w2 A Q F' V r (f1 it) (fun i => i <| h_next := NULL |>) HC2 HH2)
    as (w3 & E3 & Ew3 & HC3 & HH3 & HK3); try done.
  { change (0 <= refcount it < 2 ^ 16). lia. }
  rewrite E3. run. exists r, w3, F', it. split; [done|]. split; [done|]. split; [done|]. split; [done|].
  split.
  { intros i q Hi Hq j Hj Hfj. assert (q <> r) as Hqr by (intros ->; by apply (Hun i)).
    rewrite Ew3, Ew2. upds. rewrite !lookup_alter_ne by done. by apply (HK i q). }
  split; [rewrite Ew3, Ew2, Ew; by split_and!|].
  split; [|rewrite <- HL; rewrite Ew3, Ew2, Ew; by split_and!].
  replace (new_item st (current_time w) key flags exptime nbytes id it) with (f1 it <| h_next := NULL |>); [done|].
  unfold new_item. rewrite <- Hfl. by destruct it.
Qed.
End alloc.
