(* ===== verification/CacheProps.v ===== *)
(** * Properties of the cache *)

From S2P Require Import Prelude Memory Dll Assoc AssocSpec AssocIter Slabs SlabsSpec SlabPages SlabAlloc SlabProps.
From S2P Require Import Items LruSpec Parts CacheSpec CacheAlloc.

Section props.
Context `{HashFunction}.
Implicit Types (w : mc) (A : gmap (list Z) ptr) (Q F U : Z -> list ptr).

(** ** Fetching *)

(** An item that must not be served any more. *)
Definition item_gone (it : item) (w : mc) : bool := item_is_flushed it w || item_expired_le it w.

Lemma gone_refcount r p it w :
  item_is_flushed (it <| refcount := r |>) (w <| heap ::= alter (fun i => i <| refcount := r |>) p |>) = item_is_flushed it w
  /\ item_expired_le (it <| refcount := r |>) (w <| heap ::= alter (fun i => i <| refcount := r |>) p |>) = item_expired_le it w.
Proof. by split. Qed.

Lemma get_found_ok w A Q F U key p it :
  cache_inv w A Q F U -> A !! key = Some p -> item_of_map w A Q U key p it -> refcount it < 2 ^ 16 - 1 ->
  item_gone it w = false ->
  exists w', do_item_get key (hash key) false w = Some (p, w') /\ cache_inv w' A Q F U
    /\ w' = w <| heap ::= alter (fun i => i <| refcount := refcount it + 1 |>) p |>
    /\ item_of_map w' A Q U key p (it <| refcount := refcount it + 1 |>) /\ keeps_others p w w'.
Proof.
  intros HC Hk HI Hr Hg. pose proof (im_null _ _ _ _ _ _ _ HI) as Hp.
  unfold item_gone in Hg. apply orb_false_iff in Hg as [Hg1 Hg2].
  destruct (refcount_incr_ok w A Q F U key p it HC HI Hr) as (w' & E & Ew & HC' & HI' & HK').
  exists w'. split; [|done]. unfold do_item_get, do_item_get_found. run.
  rewrite (assoc_find_rep w A key) by apply HC. rewrite Hk. change (default NULL (Some p)) with p. run. rewrite decide_False by done. run.
  rewrite E. run. rewrite (load_ok p _ _ Hp (im_heap _ _ _ _ _ _ _ HI')). run.
  rewrite Ew. destruct (gone_refcount (refcount it + 1) p it w) as [-> ->]. rewrite Hg1, Hg2. by run.
Qed.

Lemma get_gone_ok w A Q F U key p it u :
  cache_inv w A Q F U -> A !! key = Some p -> item_of_map w A Q U key p it -> refcount it < 2 ^ 16 - 1 ->
  item_gone it w = true ->
  exists w' Q' F' U', do_item_get key (hash key) u w = Some (NULL, w')
    /\ cache_inv w' (base.delete key A) Q' F' U' /\ keeps_others p w w' /\ calm w w' /\ keeps_class p w U U'
    /\ released w' F U F' U' p (clear_flag ITEM_LINKED it).
Proof.
  intros HC Hk HI Hr Hg. pose proof (im_null _ _ _ _ _ _ _ HI) as Hp.
  destruct (refcount_incr_ok w A Q F U key p it HC HI Hr) as (w1 & E & Ew & HC1 & HI1 & HK1).
  destruct (drop_fetched w1 A Q F U key p _ HC1 Hk HI1) as (w2 & Q' & F' & V & E2 & HC2 & HK2 & V2 & L2 & R2).
  { pose proof (im_refs _ _ _ _ _ _ _ HI). upds. lia. }
  assert (clear_flag ITEM_LINKED (it <| refcount := refcount it + 1 |>)
    <| refcount := refcount (it <| refcount := refcount it + 1 |>) - 1 |> = clear_flag ITEM_LINKED it) as Ei
    by (upds; rewrite Z.add_simpl_r; by destruct it).
  rewrite Ei in R2. clear Ei.
  assert (forall c, exists w', (do_item_unlink p (hash key);; STORAGE_delete p;; do_item_remove p;; count c;; mret (NULL, 2)) w1
    = Some ((NULL, 2), w') /\ (do_item_unlink p (hash key);; STORAGE_delete p;; do_item_remove p;; count c;; mret (NULL, 3)) w1
    = Some ((NULL, 3), w') /\ cache_inv w' (base.delete key A) Q' F' V /\ keeps_others p w w'
    /\ calm w w' /\ keeps_class p w U V /\ released w' F U F' V p (clear_flag ITEM_LINKED it)) as Hc.
  { intros c. run. revert E2. run. destruct (do_item_unlink p (hash key) w1) as [[[] u1]|]; [|done]. run.
    destruct (STORAGE_delete p u1) as [[[] u2]|]; [|done]. run. intros ->. run. eexists. split; [done|].
    split; [done|]. split; [by apply (cache_other _ _ w2)|]. split; [by apply (keeps_others_trans _ _ w1)|].
    rewrite Ew in V2, L2. split; [exact V2|]. split; [exact L2|exact R2]. }
  unfold do_item_get, do_item_get_found. run.
  rewrite (assoc_find_rep w A key) by apply HC. rewrite Hk. change (default NULL (Some p)) with p. run. rewrite decide_False by done. run.
  rewrite E. run. rewrite (load_ok p _ _ Hp (im_heap _ _ _ _ _ _ _ HI1)). run.
  assert (item_is_flushed (it <| refcount := refcount it + 1 |>) w1 = item_is_flushed it w
    /\ item_expired_le (it <| refcount := refcount it + 1 |>) w1 = item_expired_le it w) as [-> ->]
    by (rewrite Ew; apply gone_refcount).
  unfold item_gone in Hg. destruct (item_is_flushed it w).
  - destruct (Hc get_flushed) as (w' & E' & _ & HR). exists w', Q', F', V. split; [|done].
    revert E'. run. intros E'. rewrite E'. by run.
  - cbn [orb] in Hg. rewrite Hg. destruct (Hc get_expired) as (w' & _ & E' & HR). exists w', Q', F', V.
    split; [|done]. revert E'. run. intros E'. rewrite E'. by run.
Qed.

(** ** Linking and unlinking *)

(** C13: [do_item_unlink] takes exactly the item's key out of the map and the item
    out of its queue and releases one reference: an item others hold stays
    allocated, unlinked, with one reference less; an item nobody holds goes to
    the front of its class's free list.  The cache stays well formed. *)
Theorem do_item_unlink_correct w A Q F U key p :
  cache_inv w A Q F U -> A !! key = Some p ->
  exists it w' Q' F' U', heap w !! p = Some it /\ do_item_unlink p (hash key) w = Some (tt, w')
    /\ cache_inv w' (base.delete key A) Q' F' U' /\ keeps_others p w w' /\ quiet w w'
    /\ (1 < refcount it -> F' = F /\ U' = U /\ exists it', heap w' !! p = Some it'
          /\ content (clear_flag ITEM_LINKED it <| refcount := refcount it - 1 |>) it')
    /\ (refcount it = 1 -> F' = fset F (ITEM_clsid it) (p :: F (ITEM_clsid it))
          /\ exists us, U (ITEM_clsid it) ≡ₚ p :: us /\ U' = fset U (ITEM_clsid it) us).
Proof.
  intros HC Hk. destruct (cache_item w A Q F U key p HC Hk) as (it & HI).
  destruct (unlink_ok w A Q F U key p it HC Hk HI) as (w' & Q' & F' & V & E & _ & HR & HK & HE & H1 & H2 & _).
  exists it, w', Q', F', V. split; [apply HI|]. do 4 (split; [done|]). split; [|done].
  intros Hr. destruct (H1 Hr) as (? & ? & it' & ? & ? & _). split; [done|]. split; [done|]. by exists it'.
Qed.

(** C12: [do_item_link] on an item out of the table whose key is free adds exactly
    that key to the map: the item gets [ITEM_LINKED], the current time, the next
    CAS id when CAS is on, and the table's reference; the cache stays well
    formed. *)
Theorem do_item_link_correct w A Q F U p it :
  cache_inv w A Q F U -> held_item w A Q U p it -> nkey it = zlen (it_key it) ->
  A !! it_key it = None -> 0 <= refcount it < 2 ^ 16 - 1 ->
  exists w' Q' it', do_item_link p (hash (it_key it)) w = Some (1, w')
    /\ cache_inv w' (<[it_key it := p]> A) Q' F U
    /\ heap w' !! p = Some (it' <| refcount := refcount it + 1 |>)
    /\ content (linked_item (current_time w)
         (if use_cas (mc_settings w) then u64 (cas_id (mc_lru w) + 1) else 0) it) it'
    /\ keeps_others p w w' /\ same_env w w'.
Proof.
  intros HC HI Hn HA Hr.
  destruct (link_ok (base.size A) w A Q F U p it) as (w' & Q' & it' & E & HR & H1 & H2 & H3 & H4 & _); try done.
  { by apply (cache_but_weaken (fun _ => False)). }
  exists w', Q', it'. split; [done|]. split; [|done].
  unfold cache_inv. by rewrite map_size_insert_None.
Qed.
(** ** Replacing *)

Lemma held_of_unlinked w A Q F U p it :
  cache_inv w A Q F U -> heap w !! p = Some it -> p <> NULL -> has_flag it ITEM_LINKED = false ->
  has_flag it ITEM_SLABBED = false ->
  class_range w (ITEM_clsid it) -> p ∈ U (ITEM_clsid it) -> held_item w A Q U p it.
Proof.
  intros HC Hp Hn HL HS Hr Hu.
  destruct (cb_item _ _ _ _ _ _ _ HC _ p Hr Hu) as [(i & Hi & I1 & I2 & I3 & I4 & I5 & I6)]; [by intros []|].
  assert (i = it) as -> by congruence.
  assert (~ in_queues Q p) as HQ by (intros HQ; apply I5 in HQ; congruence).
  split; [done|done|done|done|]. split; [done|]. intros HA. apply HQ, (cb_same _ _ _ _ _ _ _ HC); [by intros []|done].
Qed.

Lemma linked_item_content now c i i' : content i i' -> content (linked_item now c i) (linked_item now c i').
Proof.
  unfold content. generalize (prev i') (next i') (h_next i'). intros a b d ->.
  unfold linked_item, ITEM_set_cas.
  change (has_flag (set_flag ITEM_LINKED (i <| prev := a |> <| next := b |> <| h_next := d |>) <| time := now |>) ITEM_CAS)
    with (has_flag (set_flag ITEM_LINKED i <| time := now |>) ITEM_CAS).
  by destruct (has_flag _ _).
Qed.

Lemma replace_ok w A Q F U k p it q new :
  cache_inv w A Q F U -> A !! k = Some p -> item_of_map w A Q U k p it ->
  held_item w A Q U q new -> it_key new = k -> nkey new = zlen k -> 0 <= refcount new < 2 ^ 16 - 1 ->
  exists w' Q' F' U' it', do_item_replace p q (hash k) w = Some (1, w')
    /\ cache_inv w' (<[k := q]> A) Q' F' U'
    /\ heap w' !! q = Some (it' <| refcount := refcount new + 1 |>)
    /\ content (linked_item (current_time w)
         (if use_cas (mc_settings w) then u64 (cas_id (mc_lru w) + 1) else 0) new) it'
    /\ (forall a i, a <> p -> a <> q -> heap w !! a = Some i -> it_flags i <> ITEM_SLABBED ->
          exists i', heap w' !! a = Some i' /\ content i i')
    /\ released w' F U F' U' p (clear_flag ITEM_LINKED it).
Proof.
  intros HC Hk HI HH Ek En Hr. pose proof HI as [I1 I2 I3 (I4 & I5 & I6) I7 [I8 I9] I10].
  pose proof HH as [J1 J2 (J4 & J5 & J6) [J8 J9] [O1 O2]].
  assert (q <> p) as Hqp by (intros ->; apply O2; by exists k).
  destruct (unlink_ok w A Q F U k p it HC Hk HI) as (w1 & Q1 & F1 & U1 & E & _ & HC1 & HK1 & HE1 & H1 & H2 & _).
  destruct (HK1 q new Hqp J1) as (new1 & Hn1 & Hc1); [by apply has_flag_slabbed|].
  assert (it_key new1 = k /\ nkey new1 = zlen k /\ refcount new1 = refcount new
    /\ it_flags new1 = it_flags new /\ ITEM_clsid new1 = ITEM_clsid new) as (K1 & K2 & K3 & K4 & K5)
    by (rewrite Hc1; by split_and!).
  assert (q ∈ U1 (ITEM_clsid new1)) as Hu1.
  { rewrite K5. destruct (decide (1 < refcount it)) as [Hr1|Hr1].
    - by destruct (H1 Hr1) as (_ & -> & _).
    - destruct H2 as (_ & us & HU & ->); [lia|]. unfold fset. case_decide as Ec; [|done].
      rewrite Ec in J9. rewrite HU in J9. set_solver. }
  assert (class_range w1 (ITEM_clsid new1)) as Hr1.
  { rewrite K5. unfold class_range. by rewrite (proj1 (proj2 HE1)). }
  assert (held_item w1 (base.delete k A) Q1 U1 q new1) as HH1.
  { apply (held_of_unlinked _ _ _ F1); try done; unfold has_flag; by rewrite K4. }
  destruct HE1 as ((Es & Et & _) & EL & Ec).
  unfold do_item_replace. run. rewrite (load_ok p it) by done. run. rewrite I5. run. rewrite E. run.
  destruct (link_ok (base.size (base.delete k A)) w1 (base.delete k A) Q1 F1 U1 q new1)
    as (w2 & Q2 & it2 & E2 & HC2 & Hp2 & Hc2 & HK2 & _); try done.
  { by apply (cache_but_weaken (fun _ => False)). }
  { by rewrite K1. }
  { rewrite K1. apply lookup_delete_eq. }
  { lia. }
  rewrite K1 in E2, HC2. rewrite E2.
  exists w2, Q2, F1, U1, it2. split; [done|]. split; [|split; [by rewrite <- K3|split]].
  - rewrite <- (insert_delete_eq A k q). unfold cache_inv. by rewrite map_size_insert_None by apply lookup_delete_eq.
  - rewrite <- Es, <- Et, <- Ec. apply (content_trans _ _ _ (linked_item_content _ _ _ _ Hc1) Hc2).
  - split; [|split; [|done]].
    + intros a i Hap Haq Ha Hf. destruct (HK1 a i Hap Ha Hf) as (i1 & Ha1 & Hi1).
      destruct (HK2 a i1 Haq Ha1) as (i2 & Ha2 & Hi2); [by rewrite (content_flags _ _ Hi1)|].
      exists i2. split; [done|]. by apply (content_trans _ i1).
    + intros Hlt. destruct (H1 Hlt) as (-> & -> & i1 & Hi1 & Hci & HHi). split; [done|]. split; [done|].
      destruct (HK2 p i1 (not_eq_sym Hqp) Hi1) as (i2 & Hi2 & Hci2).
      { apply has_flag_slabbed. by apply HHi. }
      exists i2. split; [done|]. by apply (content_trans _ i1).
Qed.
(** C11: [do_item_replace] makes the key's entry point at the new item, which gets
    the next CAS id and the table's reference, and releases the table's reference
    of the old one: the old item loses [ITEM_LINKED], stays allocated with one
    reference less when somebody still holds it, and goes to the front of its
    class's free list when nobody does.  No other key and no other item is
    touched, and the cache stays well formed. *)
Theorem do_item_replace_correct w A Q F U k p q new :
  cache_inv w A Q F U -> A !! k = Some p ->
  held_item w A Q U q new -> it_key new = k -> nkey new = zlen k -> 0 <= refcount new < 2 ^ 16 - 1 ->
  exists it w' Q' F' U' it', heap w !! p = Some it /\ do_item_replace p q (hash k) w = Some (1, w')
    /\ cache_inv w' (<[k := q]> A) Q' F' U'
    /\ heap w' !! q = Some (it' <| refcount := refcount new + 1 |>)
    /\ content (linked_item (current_time w)
         (if use_cas (mc_settings w) then u64 (cas_id (mc_lru w) + 1) else 0) new) it'
    /\ (forall a i, a <> p -> a <> q -> heap w !! a = Some i -> it_flags i <> ITEM_SLABBED ->
          exists i', heap w' !! a = Some i' /\ content i i')
    /\ released w' F U F' U' p (clear_flag ITEM_LINKED it).
Proof.
  intros HC Hk HH E1 E2 Hr. destruct (cache_item w A Q F U k p HC Hk) as (it & HI). pose proof (im_heap _ _ _ _ _ _ _ HI).
  destruct (replace_ok w A Q F U k p it q new) as (w' & Q' & F' & V & it' & HR); [done..|].
  by exists it, w', Q', F', V, it'.
Qed.

(** C10: while its class has memory, [do_item_alloc] returns a chunk that no item
    uses, with the key, flags, expiry and size filled in, one reference and no
    [ITEM_LINKED]; the map and the queues stay as they are and no item in use
    changes. *)
Theorem do_item_alloc_correct w A Q F U key flags exptime nbytes e id sc :
  cache_inv w A Q F U -> lru_segmented (mc_settings w) = true -> 2 <= nbytes ->
  let ntotal := alloc_total (mc_settings w) key flags nbytes in
  slabs_clsid ntotal w = Some (id, w) -> ntotal <= slab_chunk_size_max (mc_settings w) ->
  class_range w id -> id < 64 -> class w id = Some sc -> ntotal <= cl_size sc -> room w id ->
  (forall w1, slabs_alloc ntotal id 0 w <> Some (NULL, w1)) ->
  exists r w' F' it, do_item_alloc key flags exptime nbytes e w = Some (r, w')
    /\ r <> NULL /\ (forall i, class_range w i -> r ∉ U i)
    /\ cache_inv w' A Q F' (fset U id (r :: U id)) /\ keeps_used w w' U /\ same_env w w'
    /\ heap w' !! r = Some (new_item (mc_settings w) (current_time w) key flags exptime nbytes id it)
    /\ refcount it = 1 /\ mc_lru w' = mc_lru w /\ mc_stats w' = mc_stats w.
Proof.
  intros HC Hs Hn ntotal Hc Hm Hr Hlt Hsc Hsz Hroom Hmem.
  destruct (do_item_alloc_ok w A Q F U key flags exptime nbytes e id sc HC Hs Hn Hc Hm Hr Hlt Hsc Hsz Hroom Hmem)
    as (r & w' & F' & it & E & H1 & H2 & H3 & H4 & H5 & H6 & H7 & H8 & H9 & _).
  exists r, w', F', it. repeat (split; [done|]). by split; [apply H6|].
Qed.
End props.

Lemma assoc_init_other `{HashFunction} hp w w' :
  assoc_init hp w = Some (tt, w') ->
  mc_slabs w' = mc_slabs w /\ mc_settings w' = mc_settings w /\ mc_lru w' = mc_lru w
  /\ curr_items (mc_stats w') = curr_items (mc_stats w).
Proof. destruct w. unfold assoc_init. run. intros [= <-]. by split_and!. Qed.

Lemma lru_rep_empty w :
  heads (mc_lru w) = ∅ -> tails (mc_lru w) = ∅ -> sizes (mc_lru w) = ∅ -> sizes_bytes (mc_lru w) = ∅ ->
  lru_rep w (fun _ => []).
Proof.
  intros H1 H2 H3 H4. split; intros id; rewrite ?H1, ?H2, ?H3, ?H4; [apply dll_nil|reflexivity..|].
  intros a Ha. by apply not_elem_of_nil in Ha.
Qed.

(** Start-up: nothing allocated, nothing stored. *)
Lemma empty_cache `{HashFunction} hp w :
  1 <= hp <= 31 -> expanding (mc_assoc w) = false -> slab_inv w (fun _ => []) (fun _ => []) ->
  heads (mc_lru w) = ∅ -> tails (mc_lru w) = ∅ -> sizes (mc_lru w) = ∅ -> sizes_bytes (mc_lru w) = ∅ ->
  curr_items (mc_stats w) = 0 ->
  exists w', assoc_init hp w = Some (tt, w') /\ mc_slabs w' = mc_slabs w /\ mc_settings w' = mc_settings w
    /\ cache_inv w' ∅ (fun _ => []) (fun _ => []) (fun _ => []).
Proof.
  intros Hhp He HS H1 H2 H3 H4 Hn.
  destruct (assoc_init_rep w hp Hhp He) as (w' & E & HR & Hh & _).
  destruct (assoc_init_other hp w w' E) as (Es & Et & El & En).
  exists w'. split; [done|]. split; [done|]. split; [done|]. split.
  - split; [done| | |].
    + by apply lru_rep_empty; rewrite El.
    + apply (slab_inv_frame w); [done|done|done|..];
        intros a it Ha Hf; exists it; rewrite Hh; [by split_and!|done].
    + intros id a it Ha. by apply not_elem_of_nil in Ha.
  - intros p _. split; intros (k & Hk); [by rewrite lookup_empty in Hk|by apply not_elem_of_nil in Hk].
  - intros cls p _ Hp. by apply not_elem_of_nil in Hp.
  - intros id p Hp. by apply not_elem_of_nil in Hp.
  - by rewrite En, Hn.
Qed.

(** ** A small cache: start-up, then two values for one key *)
Module CacheDemo.
Import Demo.

Definition env : alloc_env := AllocEnv (fun _ _ => false) (fun _ => true).
Definition key_a : list Z := [97].
Definition boot : M mc unit := assoc_init 4.
Definition first : M mc ptr := boot;; do_item_alloc key_a 0 0 2 env.
Definition stored : M mc ptr := p ← first; do_item_link p (hash key_a);; mret p.
Definition second : M mc (ptr * ptr) := p ← stored; q ← do_item_alloc key_a 7 0 2 env; mret (p, q).

Lemma boot_inv : exists w, boot tiny_mc = Some (tt, w) /\ mc_slabs w = mc_slabs tiny_mc
  /\ mc_settings w = tiny_settings /\ cache_inv w ∅ (fun _ => []) (fun _ => []) (fun _ => []).
Proof.
  rewrite <- tiny_settings_eq. apply (empty_cache 4 tiny_mc);
    [lia|vm_compute; reflexivity|apply tiny_slab_inv|vm_compute; reflexivity..].
Qed.
(** What an allocation of [key_a] asks of the state. *)
Definition alloc_ready (w : mc) (flags n : Z) : Prop :=
  let ntotal := alloc_total (mc_settings w) key_a flags n in
  lru_segmented (mc_settings w) = true
  /\ slabs_clsid ntotal w = Some (1, w) /\ ntotal <= slab_chunk_size_max (mc_settings w)
  /\ class_range w 1 /\ (exists sc, class w 1 = Some sc /\ ntotal <= cl_size sc) /\ room w 1
  /\ (forall w1, slabs_alloc ntotal 1 0 w <> Some (NULL, w1)).

(** The part of it that evaluates. *)
Definition ready_check (flags n : Z) (w : mc) : bool :=
  let ntotal := alloc_total tiny_settings key_a flags n in
  (largest w =? 3) && match class w 1 with
    | Some p => (ntotal <=? cl_size p) && (cl_slabs p <=? 1) && (perslab p <=? 10) && (list_size p <=? 16)
    | None => false
    end
  && match slabs_clsid ntotal w with Some (c, _) => c =? 1 | None => false end
  && match slabs_alloc ntotal 1 0 w with Some (r, _) => negb (r =? NULL) | None => true end.

Lemma ready_ok w A Q F U flags n :
  cache_inv w A Q F U -> mc_settings w = tiny_settings ->
  alloc_total tiny_settings key_a flags n = 58 + n + (if flags =? 0 then 0 else 4) -> 0 <= n <= 20 ->
  ready_check flags n w = true -> alloc_ready w flags n.
Proof.
  intros HC Es Ht Hn Hc. unfold ready_check in Hc. rewrite !andb_true_iff in Hc. destruct Hc as (((H1 & H2) & H3) & H4).
  apply Z.eqb_eq in H1. destruct (class w 1) as [p|] eqn:Hp; [|done].
  rewrite !andb_true_iff, !Z.leb_le in H2. destruct H2 as (((H2 & H5) & H6) & H7).
  pose proof (pt_slab _ _ _ _ _ (cb_parts _ _ _ _ _ _ _ HC)) as HS.
  assert (class_range w 1) as Hr by (unfold class_range, POWER_SMALLEST; lia).
  destruct (si_list _ _ _ _ HS 1 p Hp) as [[J1 J2] _]. destruct (si_size _ _ _ _ HS 1 p Hr Hp) as (_ & J3 & _).
  unfold alloc_ready. rewrite Es. split; [done|]. split.
  - assert (classes_present w) as Hcp.
    { split; [unfold POWER_SMALLEST; lia|]. intros i Hi. apply (class_in_range w F i); [apply HS|done]. }
    destruct (clsid_ok w (alloc_total tiny_settings key_a flags n) Hcp) as (c & E & _).
    + rewrite Ht, Es. change (item_size_max tiny_settings) with 1024. destruct (flags =? 0); lia.
    + rewrite E in H3. apply Z.eqb_eq in H3 as ->. exact E.
  - split; [rewrite Ht; change (slab_chunk_size_max tiny_settings) with 512; destruct (flags =? 0); lia|].
    split; [done|]. split; [by exists p|]. split.
    + intros q Hq. assert (q = p) as -> by congruence. split; [|split]; nia.
    + intros w1 E. by rewrite E in H4.
Qed.

Lemma ready_run {B} (m : M mc B) x w flags n :
  m tiny_mc = Some (x, w) ->
  option_map (fun r => ready_check flags n (snd r)) (m tiny_mc) = Some true -> ready_check flags n w = true.
Proof. intros E H. rewrite E in H. injection H as H. exact H. Qed.

Lemma do_item_alloc_correct_witness :
  exists w w' r F' it, boot tiny_mc = Some (tt, w)
    /\ do_item_alloc key_a 0 0 2 env w = Some (r, w')
    /\ cache_inv w' ∅ (fun _ => []) F' (fset (fun _ => []) 1 [r])
    /\ heap w' !! r = Some (new_item tiny_settings (current_time w) key_a 0 0 2 1 it).
Proof.
  destruct boot_inv as (w & E & _ & Es & HC).
  assert (alloc_ready w 0 2) as (R1 & R2 & R3 & R4 & (sc & R5 & R6) & R7 & R8).
  { apply (ready_ok w _ _ _ _ 0 2 HC Es); [vm_compute; reflexivity|lia|].
    apply (ready_run boot tt w 0 2 E). vm_compute. reflexivity. }
  destruct (do_item_alloc_correct w _ _ _ _ key_a 0 0 2 env 1 sc HC R1 ltac:(lia) R2 R3 R4 ltac:(lia) R5 R6 R7 R8)
    as (r & w' & F' & it & E' & _ & _ & HC' & _ & _ & Hi & _).
  exists w, w', r, F', it. rewrite Es in Hi. split; [exact E|]. split; [exact E'|]. split; [exact HC'|exact Hi].
Defined.
Lemma first_ok : exists w r F it, first tiny_mc = Some (r, w) /\ mc_settings w = tiny_settings
  /\ cache_inv w ∅ (fun _ => []) F (fset (fun _ => []) 1 [r]) /\ refcount it = 1
  /\ held_item w ∅ (fun _ => []) (fset (fun _ => []) 1 [r]) r (new_item tiny_settings 0 key_a 0 0 2 1 it).
Proof.
  destruct boot_inv as (w & E & _ & Es & HC).
  assert (alloc_ready w 0 2) as (R1 & R2 & R3 & R4 & (sc & R5 & R6) & R7 & R8).
  { apply (ready_ok w _ _ _ _ 0 2 HC Es); [vm_compute; reflexivity|lia|].
    apply (ready_run boot tt w 0 2 E). vm_compute. reflexivity. }
  assert (current_time w = 0) as Hnow.
  { assert (option_map (fun r => current_time (snd r)) (boot tiny_mc) = Some 0) as Ht by (vm_compute; reflexivity).
    rewrite E in Ht. injection Ht as Ht. exact Ht. }
  destruct (do_item_alloc_ok w _ _ _ _ key_a 0 0 2 env 1 sc HC R1 ltac:(lia) R2 R3 R4 ltac:(lia) R5 R6 R7 R8)
    as (r & w' & F' & it & E' & _ & _ & HC' & _ & He & Hi & Hr & _). rewrite Es, Hnow in Hi.
  exists w', r, F', it. split; [unfold first; rewrite run_bind, E; exact E'|].
  split; [rewrite (proj1 He); exact Es|]. split; [exact HC'|]. split; [exact Hr|exact Hi].
Qed.

Lemma do_item_link_correct_witness :
  exists w w' r Q F U, first tiny_mc = Some (r, w)
    /\ do_item_link r (hash key_a) w = Some (1, w') /\ cache_inv w' {[key_a := r]} Q F U.
Proof.
  destruct first_ok as (w & r & F & it & E & Es & HC & Hr & HI).
  destruct (do_item_link_correct w ∅ _ F _ r _ HC HI) as (w' & Q' & it' & E' & HC' & _).
  - reflexivity.
  - apply lookup_empty.
  - change (0 <= refcount it < 2 ^ 16 - 1). rewrite Hr. split; [discriminate|reflexivity].
  - exists w, w', r, Q', F, (fset (fun _ => []) 1 [r]). split; [exact E|]. split; [exact E'|exact HC'].
Defined.

Lemma stored_ok : exists w r Q F U it, stored tiny_mc = Some (r, w) /\ mc_settings w = tiny_settings
  /\ cache_inv w {[key_a := r]} Q F U /\ heap w !! r = Some it /\ refcount it = 2.
Proof.
  destruct first_ok as (w & r & F & it & E & Es & HC & Hr & HI).
  destruct (link_ok 0 w ∅ _ F _ r _ (cache_but_weaken (fun _ => False) _ _ _ _ _ _ _ ltac:(by intros p []) HC) HI)
    as (w' & Q' & it' & E' & HC' & Hi & _ & _ & He & _).
  - reflexivity.
  - apply lookup_empty.
  - change (0 <= refcount it < 2 ^ 16 - 1). rewrite Hr. split; [discriminate|reflexivity].
  - exists w', r, Q', F, (fset (fun _ => []) 1 [r]). eexists. split; [|split; [|split; [|split; [exact Hi|]]]].
    + unfold stored. rewrite run_bind, E. rewrite run_bind. unfold key_a in *.
      change (do_item_link r (hash [97]) w = Some (1, w')) in E'. rewrite E'. reflexivity.
    + rewrite (proj1 He). exact Es.
    + exact HC'.
    + change (refcount it + 1 = 2). by rewrite Hr.
Qed.

Lemma do_item_unlink_correct_witness :
  exists w w' r Q F U, stored tiny_mc = Some (r, w)
    /\ do_item_unlink r (hash key_a) w = Some (tt, w') /\ cache_inv w' ∅ Q F U.
Proof.
  destruct stored_ok as (w & r & Q & F & U & it & E & _ & HC & Hi & Hr).
  destruct (do_item_unlink_correct w _ Q F U key_a r HC) as (i & w' & Q' & F' & V & _ & E' & HC' & _).
  - apply lookup_singleton_eq.
  - rewrite delete_singleton_eq in HC'. exists w, w', r, Q', F', V. split; [exact E|]. split; [exact E'|exact HC'].
Defined.

(** The state of [second]: one value stored, another item ready for the same key. *)
Lemma second_ok : exists w p q Q F U it2, second tiny_mc = Some ((p, q), w) /\ mc_settings w = tiny_settings
  /\ cache_inv w {[key_a := p]} Q F U /\ refcount it2 = 1
  /\ exists now, held_item w {[key_a := p]} Q U q (new_item tiny_settings now key_a 7 0 2 1 it2).
Proof.
  destruct stored_ok as (w & p & Q & F & U & it & E & Es & HC & Hi & Hr).
  assert (alloc_ready w 7 2) as (R1 & R2 & R3 & R4 & (sc & R5 & R6) & R7 & R8).
  { apply (ready_ok w _ _ _ _ 7 2 HC Es); [vm_compute; reflexivity|lia|].
    apply (ready_run stored p w 7 2 E). vm_compute. reflexivity. }
  destruct (do_item_alloc_ok w _ Q F U key_a 7 0 2 env 1 sc HC R1 ltac:(lia) R2 R3 R4 ltac:(lia) R5 R6 R7 R8)
    as (q & w2 & F' & it2 & E2 & _ & _ & HC2 & _ & He & Hi2 & Hr2 & _). rewrite Es in Hi2.
  exists w2, p, q, Q, F', (fset U 1 (q :: U 1)), it2.
  split; [unfold second; rewrite run_bind, E, run_bind, E2; reflexivity|].
  split; [rewrite (proj1 He); exact Es|]. split; [exact HC2|]. split; [exact Hr2|]. exists (current_time w). exact Hi2.
Qed.

Lemma do_item_replace_correct_witness :
  exists w w' p q Q F U, second tiny_mc = Some ((p, q), w)
    /\ do_item_replace p q (hash key_a) w = Some (1, w') /\ cache_inv w' {[key_a := q]} Q F U.
Proof.
  destruct second_ok as (w2 & p & q & Q & F & U & it2 & E & _ & HC2 & Hr2 & now & Hi2).
  destruct (do_item_replace_correct w2 _ Q F _ key_a p q _ HC2 (lookup_singleton_eq _ _) Hi2)
    as (old & w3 & Q3 & F3 & V3 & it3 & _ & E3 & HC3 & _).
  - reflexivity.
  - reflexivity.
  - change (0 <= refcount it2 < 2 ^ 16 - 1). rewrite Hr2. split; [discriminate|reflexivity].
  - rewrite insert_singleton_eq in HC3. exists w2, w3, p, q, Q3, F3, V3.
    split; [exact E|]. split; [exact E3|exact HC3].
Defined.
End CacheDemo.
