(* ===== verification/Base64.v ===== *)
(** * Base 64 (base64.c)

    Encoder and decoder as used by the meta commands for binary keys.  A buffer
    written from its start is the list of bytes written; the size of the
    caller's buffer is the argument [out_len].  A result is the value returned
    and the bytes stored. *)

From S2P Require Import Prelude.

Definition base64_table : list Z := str
  "ABCDEFGHIJKLMNOPQRSTUVWXYZabcdefghijklmnopqrstuvwxyz0123456789+/".

Definition dtable : list Z := [
  128; 128; 128; 128; 128; 128; 128; 128; 128; 128; 128; 128; 128; 128; 128; 128; 128; 128; 128; 128; 128; 128; 128; 128;
  128; 128; 128; 128; 128; 128; 128; 128; 128; 128; 128; 128; 128; 128; 128; 128; 128; 128; 128; 62; 128; 128; 128; 63;
  52; 53; 54; 55; 56; 57; 58; 59; 60; 61; 128; 128; 128; 0; 128; 128; 128; 0; 1; 2; 3; 4; 5; 6;
  7; 8; 9; 10; 11; 12; 13; 14; 15; 16; 17; 18; 19; 20; 21; 22; 23; 24; 25; 128; 128; 128; 128; 128;
  128; 26; 27; 28; 29; 30; 31; 32; 33; 34; 35; 36; 37; 38; 39; 40; 41; 42; 43; 44; 45; 46; 47; 48;
  49; 50; 51; 128; 128; 128; 128; 128; 128; 128; 128; 128; 128; 128; 128; 128; 128; 128; 128; 128; 128; 128; 128; 128;
  128; 128; 128; 128; 128; 128; 128; 128; 128; 128; 128; 128; 128; 128; 128; 128; 128; 128; 128; 128; 128; 128; 128; 128;
  128; 128; 128; 128; 128; 128; 128; 128; 128; 128; 128; 128; 128; 128; 128; 128; 128; 128; 128; 128; 128; 128; 128; 128;
  128; 128; 128; 128; 128; 128; 128; 128; 128; 128; 128; 128; 128; 128; 128; 128; 128; 128; 128; 128; 128; 128; 128; 128;
  128; 128; 128; 128; 128; 128; 128; 128; 128; 128; 128; 128; 128; 128; 128; 128; 128; 128; 128; 128; 128; 128; 128; 128;
  128; 128; 128; 128; 128; 128; 128; 128; 128; 128; 128; 128; 128; 128; 128; 128].

(** Reads outside the tables do not happen; a byte and a 6-bit group are always
    in range. *)
Definition enc (x : Z) : Z := default 0 (zget x base64_table).
Definition dec (c : Z) : Z := default 0 (zget c dtable).
Definition EQUALS := 61.

(** ** base64_encode *)

Fixpoint encode_loop (src : list Z) : list Z :=
  match src with
  | a :: b :: c :: src' =>
      enc (Z.shiftr a 2) :: enc (Z.lor (Z.shiftl (Z.land a 3) 4) (Z.shiftr b 4))
      :: enc (Z.lor (Z.shiftl (Z.land b 15) 2) (Z.shiftr c 6)) :: enc (Z.land c 63)
      :: encode_loop src'
  | [a; b] =>
      [enc (Z.shiftr a 2); enc (Z.lor (Z.shiftl (Z.land a 3) 4) (Z.shiftr b 4));
       enc (Z.shiftl (Z.land b 15) 2); EQUALS]
  | [a] => [enc (Z.shiftr a 2); enc (Z.shiftl (Z.land a 3) 4); EQUALS; EQUALS]
  | [] => []
  end.

(** The space the encoder asks for. *)
Definition encode_olen (len : Z) : Z :=
  let olen := u64 (u64 (len * 4) / 3 + 4) in
  let olen := u64 (olen + olen / 72) in
  u64 (olen + 1).

Definition base64_encode (src : list Z) (out_null : bool) (out_len : Z) : Z * list Z :=
  let olen := encode_olen (zlen src) in
  if olen <? zlen src then (0, [])
  else if out_len <? olen then (0, [])
  else if out_null then (0, [])
  else let out := encode_loop src in (zlen out, out ++ [0]).

(** ** base64_decode *)

Definition valid (c : Z) : bool := negb (dec c =? 128).
Definition decode_count (src : list Z) : Z := zlen (filter (fun c => valid c = true) src).

(** [block] holds the [count] groups read so far, [out] the bytes stored.  The
    result is what the function returns and the bytes stored. *)
Fixpoint decode_loop (src : list Z) (block : list Z) (pad : Z) (out : list Z) : Z * list Z :=
  match src with
  | [] => (zlen out, out)
  | c :: src' =>
      let tmp := dec c in
      if tmp =? 128 then decode_loop src' block pad out
      else
        let pad := if c =? EQUALS then pad + 1 else pad in
        match block with
        | [b0; b1; b2] =>
            let b3 := tmp in
            let out := out ++ [u8 (Z.lor (Z.shiftl b0 2) (Z.shiftr b1 4));
                               u8 (Z.lor (Z.shiftl b1 4) (Z.shiftr b2 2));
                               u8 (Z.lor (Z.shiftl b2 6) b3)] in
            if negb (pad =? 0) then
              if pad =? 1 then (zlen out - 1, out)
              else if pad =? 2 then (zlen out - 2, out)
              else (0, out)
            else decode_loop src' [] pad out
        | _ => decode_loop src' (block ++ [tmp]) pad out
        end
  end.

Definition base64_decode (src : list Z) (out_null : bool) (out_len : Z) : Z * list Z :=
  let count := decode_count src in
  if (count =? 0) || negb (count mod 4 =? 0) then (0, [])
  else
    let olen := count / 4 * 3 in
    if out_len <? olen then (0, [])
    else if out_null then (0, [])
    else decode_loop src [] 0 [].

(** [lia] with division and the powers of two at hand. *)
Ltac dlia := change (2 ^ 2) with 4 in *; change (2 ^ 4) with 16 in *; change (2 ^ 6) with 64 in *;
  change (2 ^ 8) with 256 in *; Z.to_euclidean_division_equations; lia.

(** ** The tables invert each other *)

Lemma dec_enc x : 0 <= x < 64 -> dec (enc x) = x /\ enc x <> EQUALS.
Proof.
  intros Hx. assert (forallb (fun x => (dec (enc x) =? x) && negb (enc x =? EQUALS)) (seqZ 0 64) = true) as Hf
    by (vm_compute; reflexivity).
  rewrite forallb_forall in Hf. specialize (Hf x). rewrite andb_true_iff, negb_true_iff, Z.eqb_eq, Z.eqb_neq in Hf.
  apply Hf, list_elem_of_In, elem_of_seqZ. lia.
Qed.
Lemma dec_equals : dec EQUALS = 0.
Proof. vm_compute. reflexivity. Qed.

(** The groups of three bytes. *)
Definition group_ok (x : Z) : Prop := 0 <= x < 64.

Lemma groups a b c :
  is_byte a -> is_byte b -> is_byte c ->
  let x0 := Z.shiftr a 2 in let x1 := Z.lor (Z.shiftl (Z.land a 3) 4) (Z.shiftr b 4) in
  let x2 := Z.lor (Z.shiftl (Z.land b 15) 2) (Z.shiftr c 6) in let x3 := Z.land c 63 in
  group_ok x0 /\ group_ok x1 /\ group_ok x2 /\ group_ok x3
  /\ u8 (Z.lor (Z.shiftl x0 2) (Z.shiftr x1 4)) = a
  /\ u8 (Z.lor (Z.shiftl x1 4) (Z.shiftr x2 2)) = b
  /\ u8 (Z.lor (Z.shiftl x2 6) x3) = c.
Proof.
  unfold is_byte, group_ok. intros Ha Hb Hc.
  change 3 with (2 ^ 2 - 1). change 15 with (2 ^ 4 - 1). change 63 with (2 ^ 6 - 1).
  rewrite !land_ones_mod, !shiftl_mul, !shiftr_div by lia.
  rewrite (lor_add (a mod 2 ^ 2) (b / 2 ^ 4) 4), (lor_add (b mod 2 ^ 4) (c / 2 ^ 6) 2) by dlia.
  rewrite !lor_add by dlia. unfold u8. dlia.
Qed.

(** ** Lengths *)

Lemma byte_0 : is_byte 0.
Proof. unfold is_byte. lia. Qed.
#[local] Hint Resolve byte_0 : core.
Ltac inv_bytes := unfold bytes in *;
  repeat match goal with H : Forall is_byte (_ :: _) |- _ => apply Forall_cons in H as [? H] end.


Lemma triples_ind (P : list Z -> Prop) :
  P [] -> (forall a, P [a]) -> (forall a b, P [a; b]) ->
  (forall a b c l, P l -> P (a :: b :: c :: l)) -> forall l, P l.
Proof.
  intros H0 H1 H2 H3. fix IH 1. intros [|a [|b [|c l]]]; [apply H0|apply H1|apply H2|]. apply H3, IH.
Qed.

Lemma encode_length src : zlen (encode_loop src) = 4 * ((zlen src + 2) / 3).
Proof.
  induction src as [|a|a b|a b c l IH] using triples_ind; [done..|].
  cbn [encode_loop]. autorewrite with zlist. rewrite IH.
  replace (1 + (1 + (1 + zlen l)) + 2) with (zlen l + 2 + 1 * 3) by lia.
  rewrite Z.div_add by lia. lia.
Qed.

Lemma valid_enc x : group_ok x -> valid (enc x) = true.
Proof.
  intros Hx. unfold valid, group_ok in *. destruct (dec_enc x Hx) as [-> _].
  rewrite (proj2 (Z.eqb_neq x 128)) by lia. done.
Qed.

Lemma encode_valid src : bytes src -> Forall (fun c => valid c = true) (encode_loop src).
Proof.
  assert (valid EQUALS = true) as Hq by (vm_compute; reflexivity).
  induction src as [|a|a b|a b c l IH] using triples_ind; intros Hb; cbn [encode_loop];
    inv_bytes.
  - constructor.
  - destruct (groups a 0 0) as (G0 & G1 & _); [done..|]. rewrite Z.lor_0_r in G1.
    repeat (apply Forall_cons; split); try done; by apply valid_enc.
  - destruct (groups a b 0) as (G0 & G1 & G2 & _); [done..|]. rewrite Z.lor_0_r in G2.
    repeat (apply Forall_cons; split); try done; by apply valid_enc.
  - destruct (groups a b c) as (G0 & G1 & G2 & G3 & _); [done..|].
    repeat (apply Forall_cons; split); try (by apply valid_enc). by apply IH.
Qed.

Lemma decode_count_all src : Forall (fun c => valid c = true) src -> decode_count src = zlen src.
Proof. intros Hf. unfold decode_count. f_equal. induction Hf; [done|]. by rewrite filter_cons_True, IHHf. Qed.

(** ** Decoding a group *)

Lemma dec_not_skip x : group_ok x -> (dec (enc x) =? 128) = false /\ (enc x =? EQUALS) = false /\ dec (enc x) = x.
Proof.
  intros Hx. destruct (dec_enc x Hx) as [-> Hn]. unfold group_ok in Hx.
  split; [apply Z.eqb_neq; lia|]. split; [by apply Z.eqb_neq|done].
Qed.

Lemma decode_step x rest block out :
  group_ok x -> (length block < 3)%nat ->
  decode_loop (enc x :: rest) block 0 out = decode_loop rest (block ++ [x]) 0 out.
Proof.
  intros Hx Hb. destruct (dec_not_skip x Hx) as (E1 & E2 & E3). cbn [decode_loop]. rewrite E1, E2, E3.
  destruct block as [|? [|? [|? [|? ?]]]]; simpl in Hb; try lia; done.
Qed.

Lemma decode_group x0 x1 x2 x3 rest out :
  group_ok x0 -> group_ok x1 -> group_ok x2 -> group_ok x3 ->
  decode_loop (enc x0 :: enc x1 :: enc x2 :: enc x3 :: rest) [] 0 out
  = decode_loop rest [] 0 (out ++ [u8 (Z.lor (Z.shiftl x0 2) (Z.shiftr x1 4));
                                   u8 (Z.lor (Z.shiftl x1 4) (Z.shiftr x2 2)); u8 (Z.lor (Z.shiftl x2 6) x3)]).
Proof.
  intros H0 H1 H2 H3. rewrite !decode_step by (simpl; (done || lia)). cbn [app].
  destruct (dec_not_skip x3 H3) as (E1 & E2 & E3). cbn [decode_loop]. by rewrite E1, E2, E3.
Qed.

Lemma decode_pad1 x0 x1 x2 out :
  group_ok x0 -> group_ok x1 -> group_ok x2 ->
  decode_loop [enc x0; enc x1; enc x2; EQUALS] [] 0 out
  = (zlen out + 2, out ++ [u8 (Z.lor (Z.shiftl x0 2) (Z.shiftr x1 4));
                           u8 (Z.lor (Z.shiftl x1 4) (Z.shiftr x2 2)); u8 (Z.lor (Z.shiftl x2 6) 0)]).
Proof.
  intros H0 H1 H2. rewrite !decode_step by (simpl; (done || lia)). cbn [app decode_loop].
  rewrite dec_equals. cbn [Z.eqb EQUALS Z.add Pos.eqb negb]. f_equal. autorewrite with zlist. lia.
Qed.

Lemma decode_pad2 x0 x1 out :
  group_ok x0 -> group_ok x1 ->
  decode_loop [enc x0; enc x1; EQUALS; EQUALS] [] 0 out
  = (zlen out + 1, out ++ [u8 (Z.lor (Z.shiftl x0 2) (Z.shiftr x1 4));
                           u8 (Z.lor (Z.shiftl x1 4) 0); u8 0]).
Proof.
  intros H0 H1. rewrite !decode_step by (simpl; (done || lia)). cbn [app decode_loop].
  rewrite !dec_equals. cbn [Z.eqb EQUALS Z.add Pos.eqb negb app]. f_equal. autorewrite with zlist. lia.
Qed.

Lemma decode_encode_loop src out :
  bytes src -> exists w, decode_loop (encode_loop src) [] 0 out = (zlen out + zlen src, w)
    /\ ztake (zlen out + zlen src) w = out ++ src.
Proof.
  revert out. induction src as [|a|a b|a b c l IH] using triples_ind; intros out Hb;
    pose proof (zlen_nonneg out);
    inv_bytes; cbn [encode_loop].
  - exists out. cbn [decode_loop]. rewrite zlen_nil, Z.add_0_r, app_nil_r. split; [done|apply ztake_all].
  - destruct (groups a 0 0) as (G0 & G1 & _ & _ & B0 & _); [done..|]. rewrite Z.lor_0_r in *.
    rewrite decode_pad2 by done. eexists. split; [done|]. cbn [Z.shiftl Z.shiftr] in *. rewrite B0.
    rewrite (app_assoc out [a] _ : out ++ a :: _ = _). rewrite ztake_app_l by (autorewrite with zlist; lia).
    replace (zlen out + zlen [a]) with (zlen (out ++ [a])) by (by autorewrite with zlist). apply ztake_all.
  - destruct (groups a b 0) as (G0 & G1 & G2 & _ & B0 & B1 & _); [done..|]. rewrite Z.lor_0_r in *.
    rewrite decode_pad1 by done. eexists. split; [done|]. rewrite B0, B1.
    rewrite (app_assoc out [a; b] _ : out ++ a :: b :: _ = _). rewrite ztake_app_l by (autorewrite with zlist; lia).
    replace (zlen out + zlen [a; b]) with (zlen (out ++ [a; b])) by (by autorewrite with zlist). apply ztake_all.
  - destruct (groups a b c) as (G0 & G1 & G2 & G3 & B0 & B1 & B2); [done..|].
    rewrite decode_group by done. rewrite B0, B1, B2.
    destruct (IH (out ++ [a; b; c])) as (w & E & Hw); [done|]. exists w. autorewrite with zlist in *.
    rewrite <- app_assoc in Hw. cbn [app] in Hw.
    replace (zlen out + (1 + (1 + (1 + zlen l)))) with (zlen out + (1 + (1 + (1 + 0))) + zlen l) by lia.
    by split.
Qed.

(** ** Bounds *)

Lemma encode_olen_room len : 0 <= len < 2 ^ 60 -> 4 * ((len + 2) / 3) + 1 <= encode_olen len.
Proof.
  intros Hl. unfold encode_olen. assert (0 <= len * 4 / 3 <= len * 4) by dlia.
  rewrite (u64_id (len * 4)) by lia. rewrite (u64_id (len * 4 / 3 + 4)) by lia.
  set (o := len * 4 / 3 + 4) in *. assert (0 <= o / 72 <= o) by dlia.
  rewrite (u64_id (o + o / 72)) by lia. rewrite u64_id by lia. unfold o. dlia.
Qed.

Lemma decode_count_cons c src :
  decode_count (c :: src) = (if dec c =? 128 then 0 else 1) + decode_count src.
Proof.
  unfold decode_count. rewrite filter_cons. case_decide as E; unfold valid in E; destruct (dec c =? 128); try done.
  by rewrite zlen_cons.
Qed.

(** The output stays within three bytes per four input groups. *)
Lemma decode_loop_bound src block pad out r w :
  (length block <= 3)%nat -> 0 <= pad ->
  decode_loop src block pad out = (r, w) ->
  zlen w * 4 <= zlen out * 4 + 3 * (zlen block + decode_count src) /\ 0 <= r <= zlen w.
Proof.
  revert block pad out. induction src as [|c src IH]; intros block pad out Hb Hp; cbn [decode_loop].
  - intros [= <- <-]. change (decode_count []) with 0. pose proof (zlen_nonneg out). unfold zlen. lia.
  - rewrite decode_count_cons. destruct (dec c =? 128); [by apply IH|].
    set (p := if c =? EQUALS then pad + 1 else pad). assert (0 <= p) by (unfold p; destruct (c =? EQUALS); lia).
    pose proof (zlen_nonneg out). assert (0 <= decode_count src) by apply zlen_nonneg.
    destruct block as [|b0 [|b1 [|b2 [|b3 block]]]]; [| | | |simpl in Hb; lia].
    1-3: intros Hd; apply IH in Hd; [|simpl; lia|lia]; cbn [app] in Hd; autorewrite with zlist in *; lia.
    destruct (p =? 0); cbn [negb].
    + intros Hd; apply IH in Hd; [|simpl; lia|lia]; autorewrite with zlist in *; lia.
    + destruct (p =? 1), (p =? 2); intros [= <- <-]; autorewrite with zlist; lia.
Qed.

(** C17: base 64 round trip.  With buffers as large as the functions ask for, decoding
    what the encoder produced gives back the input, for every non-empty byte
    string below 2^60 bytes; neither function stores past its buffer. *)
Theorem base64_roundtrip src n m :
  bytes src -> src <> [] -> zlen src < 2 ^ 60 -> encode_olen (zlen src) <= n -> zlen src + 2 <= m ->
  exists text w, base64_encode src false n = (zlen text, text ++ [0]) /\ zlen (text ++ [0]) <= n
    /\ base64_decode text false m = (zlen src, w) /\ ztake (zlen src) w = src /\ zlen w <= m.
Proof.
  intros Hb Hne Hlen Hn Hm. pose proof (zlen_nonneg src).
  assert (0 < zlen src) by (destruct src; [done|rewrite zlen_cons; pose proof (zlen_nonneg src); lia]).
  pose proof (encode_olen_room (zlen src) ltac:(lia)) as Ho. pose proof (encode_length src) as El.
  destruct (decode_encode_loop src [] Hb) as (w & Ed & Ew).
  exists (encode_loop src), w. unfold base64_encode, base64_decode.
  rewrite (decode_count_all _ (encode_valid src Hb)).
  rewrite (proj2 (Z.ltb_ge (encode_olen (zlen src)) (zlen src))) by dlia.
  rewrite (proj2 (Z.ltb_ge n (encode_olen (zlen src)))) by lia. split; [done|]. split; [autorewrite with zlist; lia|].
  rewrite (proj2 (Z.eqb_neq (zlen (encode_loop src)) 0)) by dlia.
  rewrite (proj2 (Z.eqb_eq (zlen (encode_loop src) mod 4) 0)) by dlia. cbn [orb negb].
  rewrite (proj2 (Z.ltb_ge m (zlen (encode_loop src) / 4 * 3))) by dlia.
  split; [exact Ed|]. split; [exact Ew|]. apply decode_loop_bound in Ed as [Ed _]; [|simpl; lia|lia].
  rewrite (decode_count_all _ (encode_valid src Hb)), !(zlen_nil (A:=Z)) in Ed. dlia.
Qed.

Lemma base64_roundtrip_witness :
  base64_decode (str "bWVtY2FjaGVkIQ==") false 12 = (10, str "memcached!" ++ [0; 0])
  /\ exists text w, base64_encode (str "memcached!") false 20 = (zlen text, text ++ [0])
       /\ base64_decode text false 12 = (10, w) /\ ztake 10 w = str "memcached!".
Proof.
  split; [vm_compute; reflexivity|].
  destruct (base64_roundtrip (str "memcached!") 20 12) as (text & w & E1 & _ & E2 & E3 & _);
    [apply bytes_str|discriminate|reflexivity|discriminate..|].
  exists text, w. split; [exact E1|]. split; [exact E2|exact E3].
Defined.

(** C28: on any input the decoder stores at most [out_len] bytes and returns a length
    between 0 and what it stored; it ends after one pass. *)
Theorem base64_decode_safe src out_null m :
  0 <= m -> let '(r, w) := base64_decode src out_null m in zlen w <= m /\ 0 <= r <= zlen w.
Proof.
  intros Hm. unfold base64_decode. set (k := decode_count src). assert (0 <= k) by apply zlen_nonneg.
  destruct (k =? 0); [cbn [orb]; rewrite zlen_nil; lia|]. cbn [orb].
  destruct (Z.eqb_spec (k mod 4) 0) as [Hk|]; [|cbn [negb]; rewrite zlen_nil; lia]. cbn [negb].
  destruct (Z.ltb_spec m (k / 4 * 3)) as [|Ho]; [rewrite zlen_nil; lia|]. destruct out_null; [rewrite zlen_nil; lia|].
  destruct (decode_loop src [] 0 []) as [r w] eqn:E.
  apply decode_loop_bound in E as [E Er]; [|simpl; lia|lia]. fold k in E. rewrite !(zlen_nil (A:=Z)) in E.
  split; [dlia|done].
Qed.

(** Three [=] in a group are refused. *)
Lemma base64_decode_safe_witness :
  base64_decode (str "A===") false 3 = (0, [0; 0; 0])
  /\ let '(r, w) := base64_decode (str "A===") false 3 in zlen w <= 3 /\ 0 <= r <= zlen w.
Proof. split; [vm_compute; reflexivity|]. apply (base64_decode_safe (str "A===") false 3). lia. Defined.
