(* ===== verification/Jenkins.v ===== *)
(** * Jenkins' hash (jenkins_hash.c), the default [hash]

    The little-endian build.  [mem i] is the byte at offset [i] from the key;
    depending on the key's alignment the function reads 32-bit words (past the
    key's end, masking), 16-bit words or bytes. *)

From S2P Require Import Prelude Memory.

Definition rot (x k : Z) : Z := Z.lxor (u32 (Z.shiftl x k)) (Z.shiftr x (32 - k)).

(** [x -= z; x ^= rot(z,k); z += y]. *)
Definition mix_line (k x y z : Z) : Z * Z :=
  let x := u32 (x - z) in
  let x := Z.lxor x (rot z k) in
  let z := u32 (z + y) in
  (x, z).

Definition mix (s : Z * Z * Z) : Z * Z * Z :=
  let '(a, b, c) := s in
  let '(a, c) := mix_line 4 a b c in
  let '(b, a) := mix_line 6 b c a in
  let '(c, b) := mix_line 8 c a b in
  let '(a, c) := mix_line 16 a b c in
  let '(b, a) := mix_line 19 b c a in
  let '(c, b) := mix_line 4 c a b in
  (a, b, c).

(** [x ^= y; x -= rot(y,k)]. *)
Definition final_line (k x y : Z) : Z := u32 (Z.lxor x y - rot y k).

Definition final (s : Z * Z * Z) : Z :=
  let '(a, b, c) := s in
  let c := final_line 14 c b in
  let a := final_line 11 a c in
  let b := final_line 25 b a in
  let c := final_line 16 c b in
  let a := final_line 4 a c in
  let b := final_line 14 b a in
  let c := final_line 24 c b in
  c.

Section reads.
Variable mem : Z -> Z.

(** The words at offset [o + i]. *)
Definition word16 (o i : Z) : Z := mem (o + i) + Z.shiftl (mem (o + (i + 1))) 8.
Definition word32 (o i : Z) : Z :=
  mem (o + i) + Z.shiftl (mem (o + (i + 1))) 8 + Z.shiftl (mem (o + (i + 2))) 16
  + Z.shiftl (mem (o + (i + 3))) 24.

Definition add3 (s : Z * Z * Z) (x y z : Z) : Z * Z * Z :=
  let '(a, b, c) := s in (u32 (a + x), u32 (b + y), u32 (c + z)).

(** The last block at offset [o]; [None] for length 0. *)
Definition last32 (o length : Z) (s : Z * Z * Z) : option (Z * Z * Z) :=
  let k i := word32 o (4 * i) in
  match length with
  | 12 => Some (add3 s (k 0) (k 1) (k 2))
  | 11 => Some (add3 s (k 0) (k 1) (Z.land (k 2) 0xffffff))
  | 10 => Some (add3 s (k 0) (k 1) (Z.land (k 2) 0xffff))
  | 9 => Some (add3 s (k 0) (k 1) (Z.land (k 2) 0xff))
  | 8 => Some (add3 s (k 0) (k 1) 0)
  | 7 => Some (add3 s (k 0) (Z.land (k 1) 0xffffff) 0)
  | 6 => Some (add3 s (k 0) (Z.land (k 1) 0xffff) 0)
  | 5 => Some (add3 s (k 0) (Z.land (k 1) 0xff) 0)
  | 4 => Some (add3 s (k 0) 0 0)
  | 3 => Some (add3 s (Z.land (k 0) 0xffffff) 0 0)
  | 2 => Some (add3 s (Z.land (k 0) 0xffff) 0 0)
  | 1 => Some (add3 s (Z.land (k 0) 0xff) 0 0)
  | 0 => None
  | _ => Some s
  end.

Definition last16 (o length : Z) (s : Z * Z * Z) : option (Z * Z * Z) :=
  let '(a, b, c) := s in
  let k i := word16 o (2 * i) in
  let k8 i := mem (o + i) in
  match length with
  | 12 => Some (u32 (a + (k 0 + Z.shiftl (k 1) 16)), u32 (b + (k 2 + Z.shiftl (k 3) 16)),
                u32 (c + (k 4 + Z.shiftl (k 5) 16)))
  | 11 => Some (u32 (a + (k 0 + Z.shiftl (k 1) 16)), u32 (b + (k 2 + Z.shiftl (k 3) 16)),
                u32 (u32 (c + Z.shiftl (k8 10) 16) + k 4))
  | 10 => Some (u32 (a + (k 0 + Z.shiftl (k 1) 16)), u32 (b + (k 2 + Z.shiftl (k 3) 16)), u32 (c + k 4))
  | 9 => Some (u32 (a + (k 0 + Z.shiftl (k 1) 16)), u32 (b + (k 2 + Z.shiftl (k 3) 16)), u32 (c + k8 8))
  | 8 => Some (u32 (a + (k 0 + Z.shiftl (k 1) 16)), u32 (b + (k 2 + Z.shiftl (k 3) 16)), c)
  | 7 => Some (u32 (a + (k 0 + Z.shiftl (k 1) 16)), u32 (u32 (b + Z.shiftl (k8 6) 16) + k 2), c)
  | 6 => Some (u32 (a + (k 0 + Z.shiftl (k 1) 16)), u32 (b + k 2), c)
  | 5 => Some (u32 (a + (k 0 + Z.shiftl (k 1) 16)), u32 (b + k8 4), c)
  | 4 => Some (u32 (a + (k 0 + Z.shiftl (k 1) 16)), b, c)
  | 3 => Some (u32 (u32 (a + Z.shiftl (k8 2) 16) + k 0), b, c)
  | 2 => Some (u32 (a + k 0), b, c)
  | 1 => Some (u32 (a + k8 0), b, c)
  | 0 => None
  | _ => Some s
  end.

(** The switch falls through: the statement of [case i] runs when [i <= length]. *)
Definition last8 (o length : Z) (s : Z * Z * Z) : option (Z * Z * Z) :=
  if length =? 0 then None
  else if 12 <? length then Some s
  else
    let fall i sh x := if i <=? length then u32 (x + Z.shiftl (mem (o + (i - 1))) sh) else x in
    let '(a, b, c) := s in
    let c := fall 12 24 c in
    let c := fall 11 16 c in
    let c := fall 10 8 c in
    let c := fall 9 0 c in
    let b := fall 8 24 b in
    let b := fall 7 16 b in
    let b := fall 6 8 b in
    let b := fall 5 0 b in
    let a := fall 4 24 a in
    let a := fall 3 16 a in
    let a := fall 2 8 a in
    let a := fall 1 0 a in
    Some (a, b, c).

(** A whole block of twelve bytes. *)
Definition block32 (o : Z) (s : Z * Z * Z) : Z * Z * Z :=
  mix (add3 s (word32 o 0) (word32 o 4) (word32 o 8)).
Definition block16 (o : Z) (s : Z * Z * Z) : Z * Z * Z :=
  let k i := word16 o (2 * i) in
  mix (add3 s (k 0 + Z.shiftl (k 1) 16) (k 2 + Z.shiftl (k 3) 16) (k 4 + Z.shiftl (k 5) 16)).
Definition block8 (o : Z) (s : Z * Z * Z) : Z * Z * Z :=
  let k i sh x := u32 (x + Z.shiftl (mem (o + i)) sh) in
  let '(a, b, c) := s in
  mix (k 3 24 (k 2 16 (k 1 8 (k 0 0 a))), k 7 24 (k 6 16 (k 5 8 (k 4 0 b))),
       k 11 24 (k 10 16 (k 9 8 (k 8 0 c)))).

(** [while (length > 12)]: the offset and length of the last block. *)
Fixpoint blocks (block : Z -> Z * Z * Z -> Z * Z * Z) (fuel : nat) (o length : Z) (s : Z * Z * Z)
    : Z * Z * (Z * Z * Z) :=
  match fuel with
  | O => (o, length, s)
  | S fuel => if 12 <? length then blocks block fuel (o + 12) (length - 12) (block o s) else (o, length, s)
  end.

Definition jenkins_hash (align length : Z) : Z :=
  let a := u32 (0xdeadbeef + u32 length + 0) in
  let '(block, last) :=
    if Z.land align 3 =? 0 then (block32, last32)
    else if Z.land align 1 =? 0 then (block16, last16)
    else (block8, last8) in
  let '(o, n, s) := blocks block (Z.to_nat length) 0 length (a, a, a) in
  match last o n s with
  | None => let '(_, _, c) := s in c
  | Some s => final s
  end.
End reads.

(** ** The three ways to read agree *)

(** The value of [n] bytes, little-endian. *)
Fixpoint bytes_le (f : Z -> Z) (n : nat) : Z :=
  match n with O => 0 | S n => f 0 + 256 * bytes_le (fun i => f (1 + i)) n end.

Definition is_mem (mem : Z -> Z) : Prop := forall i, is_byte (mem i).
Definition words_ok (s : Z * Z * Z) : Prop :=
  let '(a, b, c) := s in 0 <= a < 2 ^ 32 /\ 0 <= b < 2 ^ 32 /\ 0 <= c < 2 ^ 32.

(** Evaluates arithmetic on literals. *)
Ltac literals :=
  let fold_op op x y :=
    match isZcst x with true => match isZcst y with true =>
      let v := eval vm_compute in (op x y) in change (op x y) with v end end in
  repeat match goal with
  | |- context [?x + ?y] => fold_op Z.add x y
  | |- context [?x - ?y] => fold_op Z.sub x y
  | |- context [?x * ?y] => fold_op Z.mul x y
  | |- context [?x ^ ?y] => fold_op Z.pow x y
  | |- context [Z.min ?x ?y] => fold_op Z.min x y
  | |- context [Z.to_nat ?x] => match isZcst x with true =>
      let v := eval vm_compute in (Z.to_nat x) in change (Z.to_nat x) with v end
  end.

Section agree.
Variables (mem : Z -> Z) (o : Z).
Hypothesis Hmem : is_mem mem.

(** What a block adds to the word at offset [lo] when [length] bytes are left. *)
Definition part (length lo : Z) : Z :=
  bytes_le (fun i => mem (o + (lo + i))) (Z.to_nat (Z.min 4 (length - lo))).
Definition add_parts (length : Z) (s : Z * Z * Z) : Z * Z * Z :=
  add3 s (part length 0) (part length 4) (part length 8).
Definition last_ref (length : Z) (s : Z * Z * Z) : option (Z * Z * Z) :=
  if length =? 0 then None
  else if 12 <? length then Some s
  else Some (add_parts length s).

Lemma word32_mask i :
  Z.land (word32 mem o i) 0xff = mem (o + i)
  /\ Z.land (word32 mem o i) 0xffff = mem (o + i) + mem (o + (i + 1)) * 2 ^ 8
  /\ Z.land (word32 mem o i) 0xffffff = mem (o + i) + mem (o + (i + 1)) * 2 ^ 8 + mem (o + (i + 2)) * 2 ^ 16.
Proof.
  pose proof (Hmem (o + i)). pose proof (Hmem (o + (i + 1))). pose proof (Hmem (o + (i + 2))).
  pose proof (Hmem (o + (i + 3))). unfold is_byte in *.
  change 0xff with (2 ^ 8 - 1). change 0xffff with (2 ^ 16 - 1). change 0xffffff with (2 ^ 24 - 1).
  rewrite !land_ones_mod by lia. unfold word32. rewrite !shiftl_mul by lia.
  split; [|split]; symmetry; [apply Z.mod_unique with (mem (o + (i + 1)) + mem (o + (i + 2)) * 2 ^ 8 + mem (o + (i + 3)) * 2 ^ 16)
    |apply Z.mod_unique with (mem (o + (i + 2)) + mem (o + (i + 3)) * 2 ^ 8)|apply Z.mod_unique with (mem (o + (i + 3)))]; lia.
Qed.

Lemma cases_13 (P : Z -> Prop) n :
  0 <= n -> P 0 -> P 1 -> P 2 -> P 3 -> P 4 -> P 5 -> P 6 -> P 7 -> P 8 -> P 9 -> P 10 -> P 11 -> P 12 ->
  (12 < n -> P n) -> P n.
Proof.
  intros Hn. intros. destruct (Z.ltb_spec 12 n); [auto|].
  let rec go k := lazymatch k with
    | 13 => lia
    | _ => destruct (decide (n = k)) as [->|]; [assumption | let k' := eval compute in (k + 1) in go k']
    end in go 0.
Qed.

(** Both sides are sums of the same bytes, modulo 2^32. *)
Lemma u32_add_l2 a b c : u32 (u32 a + b + c) = u32 (a + b + c).
Proof. by rewrite <- !Z.add_assoc, u32_add_l. Qed.
Lemma u32_add_l3 a b c d : u32 (u32 a + b + c + d) = u32 (a + b + c + d).
Proof. by rewrite <- !Z.add_assoc, u32_add_l. Qed.
Lemma some_triple (x y z x' y' z' : Z) : x = x' -> y = y' -> z = z' -> Some (x, y, z) = Some (x', y', z').
Proof. by intros -> -> ->. Qed.
Ltac same_sums a b c :=
  cbn [add3 Z.eqb Z.ltb Z.leb Z.compare Pos.compare Pos.compare_cont Pos.eqb]; literals; cbn [bytes_le]; literals;
  repeat match goal with |- context [Z.land (word32 mem o ?i) _] =>
    let H := fresh in let H' := fresh in let H'' := fresh in
    destruct (word32_mask i) as (H & H' & H''); rewrite ?H, ?H', ?H''; clear H H' H'' end;
  unfold word16, word32; repeat first [rewrite u32_add_l | rewrite u32_add_l2 | rewrite u32_add_l3]; rewrite ?shiftl_mul by lia; literals;
  rewrite ?Z.add_0_r, ?(u32_id a), ?(u32_id b), ?(u32_id c) by done;
  apply some_triple; first [reflexivity | apply (f_equal u32); lia].

Lemma last8_ref n s : 0 <= n -> words_ok s -> last8 mem o n s = last_ref n s.
Proof.
  intros Hn. destruct s as [[a b] c]. intros (Ha & Hb & Hc). unfold last_ref, add_parts, part.
  pattern n. apply cases_13; [done|..].
  1: reflexivity.
  1-12: unfold last8; same_sums a b c.
  intros Hlt. unfold last8. by rewrite (proj2 (Z.eqb_neq n 0)), (proj2 (Z.ltb_lt 12 n)) by lia.
Qed.

Lemma last16_ref n s : 0 <= n -> words_ok s -> last16 mem o n s = last_ref n s.
Proof.
  intros Hn. destruct s as [[a b] c]. intros (Ha & Hb & Hc). unfold last_ref, add_parts, part.
  pattern n. apply cases_13; [done|..].
  1: reflexivity.
  1-12: unfold last16; same_sums a b c.
  intros Hlt. rewrite (proj2 (Z.eqb_neq n 0)), (proj2 (Z.ltb_lt 12 n)) by lia.
  destruct n as [|p|p]; [lia| |lia]. by do 4 (destruct p as [p|p|]; try done).
Qed.

Lemma last32_ref n s : 0 <= n -> words_ok s -> last32 mem o n s = last_ref n s.
Proof.
  intros Hn. destruct s as [[a b] c]. intros (Ha & Hb & Hc). unfold last_ref, add_parts, part.
  pattern n. apply cases_13; [done|..].
  1: reflexivity.
  1-12: unfold last32; same_sums a b c.
  intros Hlt. rewrite (proj2 (Z.eqb_neq n 0)), (proj2 (Z.ltb_lt 12 n)) by lia.
  destruct n as [|p|p]; [lia| |lia]. by do 4 (destruct p as [p|p|]; try done).
Qed.

(** ** Whole blocks *)

Lemma block8_ref s : block8 mem o s = mix (add_parts 12 s).
Proof.
  destruct s as [[a b] c]. unfold block8, add_parts, part. f_equal.
  assert (forall x y : Z * Z * Z, Some x = Some y -> x = y) as Hs by congruence. apply Hs. same_sums a b c.
Qed.
Lemma block16_ref s : block16 mem o s = mix (add_parts 12 s).
Proof.
  destruct s as [[a b] c]. unfold block16, add_parts, part. f_equal.
  assert (forall x y : Z * Z * Z, Some x = Some y -> x = y) as Hs by congruence. apply Hs. same_sums a b c.
Qed.
Lemma block32_ref s : block32 mem o s = mix (add_parts 12 s).
Proof.
  destruct s as [[a b] c]. unfold block32, add_parts, part. f_equal.
  assert (forall x y : Z * Z * Z, Some x = Some y -> x = y) as Hs by congruence. apply Hs. same_sums a b c.
Qed.
End agree.

(** ** Ranges *)

Lemma rot_range x k : 0 <= k <= 32 -> 0 <= x < 2 ^ 32 -> 0 <= rot x k < 2 ^ 32.
Proof. intros Hk Hx. unfold rot. apply lxor_range; [lia|apply u32_range|apply shiftr_range; lia]. Qed.

Lemma mix_line_range k x y z :
  0 <= k <= 32 -> 0 <= x < 2 ^ 32 -> 0 <= y < 2 ^ 32 -> 0 <= z < 2 ^ 32 ->
  0 <= fst (mix_line k x y z) < 2 ^ 32 /\ 0 <= snd (mix_line k x y z) < 2 ^ 32.
Proof.
  intros Hk Hx Hy Hz. unfold mix_line. cbn [fst snd]. split; [|apply u32_range].
  apply lxor_range; [lia|apply u32_range|by apply rot_range].
Qed.

(** [mix_line] loses nothing. *)
Definition unmix_line (k x y z : Z) : Z * Z :=
  let z := u32 (z - y) in
  (u32 (Z.lxor x (rot z k) + z), z).
Lemma unmix_line_ok k x y z :
  0 <= x < 2 ^ 32 -> 0 <= z < 2 ^ 32 ->
  let '(x', z') := mix_line k x y z in unmix_line k x' y z' = (x, z).
Proof.
  intros Hx Hz. unfold mix_line, unmix_line. cbv zeta beta.
  rewrite u32_sub_l, (Z.add_simpl_r z y), (u32_id z) by done.
  by rewrite Z.lxor_assoc, Z.lxor_nilpotent, Z.lxor_0_r, u32_add_l, Z.sub_simpl_r, u32_id.
Qed.

Definition unmix (s : Z * Z * Z) : Z * Z * Z :=
  let '(a, b, c) := s in
  let '(c, b) := unmix_line 4 c a b in
  let '(b, a) := unmix_line 19 b c a in
  let '(a, c) := unmix_line 16 a b c in
  let '(c, b) := unmix_line 8 c a b in
  let '(b, a) := unmix_line 6 b c a in
  let '(a, c) := unmix_line 4 a b c in
  (a, b, c).

Lemma mix_words s : words_ok s -> words_ok (mix s).
Proof.
  destruct s as [[a b] c]. intros (Ha & Hb & Hc). unfold mix.
  repeat match goal with |- context [mix_line ?k ?x ?y ?z] =>
    let H := fresh in pose proof (mix_line_range k x y z ltac:(lia) ltac:(done) ltac:(done) ltac:(done)) as H;
    destruct (mix_line k x y z) as [? ?]; cbn [fst snd] in H; destruct H end.
  unfold words_ok. tauto.
Qed.

Lemma add3_words s x y z : words_ok (add3 s x y z).
Proof. destruct s as [[a b] c]. pose proof u32_range. unfold words_ok, add3. auto. Qed.

Lemma final_range s : 0 <= final s < 2 ^ 32.
Proof. destruct s as [[a b] c]. unfold final, final_line. apply u32_range. Qed.

(** ** The loop over the blocks *)

Section loop.
Variables (block block' : Z -> Z * Z * Z -> Z * Z * Z).

Lemma blocks_ext fuel o n s :
  (forall o' s, o <= o' -> o' + 12 < o + n -> block o' s = block' o' s) ->
  blocks block fuel o n s = blocks block' fuel o n s.
Proof.
  revert o n s. induction fuel as [|fuel IH]; intros o n s Hb; [done|]. cbn [blocks].
  destruct (Z.ltb_spec 12 n); [|done]. rewrite (Hb o) by lia. apply IH. intros o' s' ? ?. apply Hb; lia.
Qed.

Lemma blocks_rest fuel o n s :
  (forall o s, words_ok (block o s)) -> words_ok s -> 0 <= n -> n <= 12 + Z.of_nat fuel ->
  let '(o', n', s') := blocks block fuel o n s in
  o <= o' /\ o' + n' = o + n /\ 0 <= n' <= 12 /\ words_ok s'.
Proof.
  intros Hb. revert o n s. induction fuel as [|fuel IH]; intros o n s Hs Hn Hf; cbn [blocks].
  - split; [lia|split; [lia|split; [lia|done]]].
  - destruct (Z.ltb_spec 12 n); [|split; [lia|split; [lia|split; [lia|done]]]].
    specialize (IH (o + 12) (n - 12) (block o s) (Hb o s) ltac:(lia) ltac:(lia)).
    destruct (blocks _ _ _ _ _) as [[o' n'] s']. destruct IH as (? & ? & ? & ?).
    split; [lia|split; [lia|split; [lia|done]]].
Qed.
End loop.

(** The bytewise reference all three agree with. *)
Definition block_ref (mem : Z -> Z) (o : Z) (s : Z * Z * Z) : Z * Z * Z := mix (add_parts mem o 12 s).
Definition jenkins_ref (mem : Z -> Z) (length : Z) : Z :=
  let a := u32 (0xdeadbeef + u32 length + 0) in
  let '(o, n, s) := blocks (block_ref mem) (Z.to_nat length) 0 length (a, a, a) in
  match last_ref mem o n s with
  | None => let '(_, _, c) := s in c
  | Some s => final s
  end.

Lemma block_ref_words mem o s : words_ok (block_ref mem o s).
Proof. unfold block_ref, add_parts. apply mix_words, add3_words. Qed.

Lemma start_words n : let a := u32 n in words_ok (a, a, a).
Proof. pose proof (u32_range n). by unfold words_ok. Qed.

Lemma jenkins_is_ref mem align length :
  is_mem mem -> 0 <= length -> jenkins_hash mem align length = jenkins_ref mem length.
Proof.
  intros Hm Hl. unfold jenkins_hash, jenkins_ref. set (a := u32 _).
  assert (forall block last,
    (forall o s, block o s = block_ref mem o s) ->
    (forall o n s, 0 <= n -> words_ok s -> last o n s = last_ref mem o n s) ->
    (let '(o, n, s) := blocks block (Z.to_nat length) 0 length (a, a, a) in
     match last o n s with None => let '(_, _, c) := s in c | Some s => final s end)
    = (let '(o, n, s) := blocks (block_ref mem) (Z.to_nat length) 0 length (a, a, a) in
     match last_ref mem o n s with None => let '(_, _, c) := s in c | Some s => final s end)) as Hg.
  { intros block last Hb Hlast. rewrite (blocks_ext block (block_ref mem)) by (intros; apply Hb).
    pose proof (blocks_rest (block_ref mem) (Z.to_nat length) 0 length (a, a, a) (block_ref_words mem)
      (start_words _) Hl ltac:(lia)) as Hr.
    destruct (blocks _ _ _ _ _) as [[o n] s]. destruct Hr as (_ & _ & Hn & Hs). by rewrite Hlast by (done || lia). }
  destruct (Z.land align 3 =? 0); [|destruct (Z.land align 1 =? 0)]; apply Hg.
  - intros. by apply block32_ref.
  - intros. by apply last32_ref.
  - intros. by apply block16_ref.
  - intros. by apply last16_ref.
  - intros. by apply block8_ref.
  - intros. by apply last8_ref.
Qed.

Lemma bytes_le_ext f g n : (forall i, 0 <= i < Z.of_nat n -> f i = g i) -> bytes_le f n = bytes_le g n.
Proof.
  revert f g. induction n as [|n IH]; intros f g Hfg; [done|]. cbn [bytes_le].
  rewrite (Hfg 0) by lia. f_equal. f_equal. apply IH. intros i Hi. apply Hfg. lia.
Qed.

Lemma add_parts_ext mem mem' o n s :
  (forall i, o <= i < o + n -> mem i = mem' i) -> add_parts mem o n s = add_parts mem' o n s.
Proof.
  intros He. unfold add_parts, part.
  assert (forall lo, 0 <= lo -> bytes_le (fun i => mem (o + (lo + i))) (Z.to_nat (Z.min 4 (n - lo)))
    = bytes_le (fun i => mem' (o + (lo + i))) (Z.to_nat (Z.min 4 (n - lo)))) as Hp.
  { intros lo Hlo. apply bytes_le_ext. intros i Hi. apply He. lia. }
  by rewrite !Hp by lia.
Qed.

(** ** Properties *)

(** C18: the hash of a key depends on its bytes only: not on the address the key
    happens to have, which selects one of three ways to read it, and not on the
    bytes behind it, which the word-wise variants read and mask. *)
Theorem jenkins_hash_of_key mem mem' align align' length :
  is_mem mem -> is_mem mem' -> 0 <= length -> (forall i, 0 <= i < length -> mem i = mem' i) ->
  jenkins_hash mem align length = jenkins_hash mem' align' length.
Proof.
  intros Hm Hm' Hl He. rewrite !jenkins_is_ref by done. unfold jenkins_ref. set (a := u32 _).
  rewrite (blocks_ext (block_ref mem) (block_ref mem')).
  2: { intros o s Ho Hn. unfold block_ref. f_equal. apply add_parts_ext. intros i Hi. apply He. lia. }
  pose proof (blocks_rest (block_ref mem') (Z.to_nat length) 0 length (a, a, a) (block_ref_words mem')
    (start_words _) Hl ltac:(lia)) as Hr.
  destruct (blocks _ _ _ _ _) as [[o n] s]. destruct Hr as (Ho & Hs & Hn & _). unfold last_ref.
  destruct (n =? 0); [done|]. destruct (12 <? n); [done|].
  rewrite (add_parts_ext mem mem'); [done|]. intros i Hi. apply He. lia.
Qed.

(** The key "memcached is hashed", 19 bytes, at addresses 0, 2 and 3 mod 4 and
    with different bytes behind it. *)
Definition demo_mem (junk : Z) (i : Z) : Z := default junk (zget i (str "memcached is hashed")).
Lemma jenkins_hash_of_key_witness :
  jenkins_hash (demo_mem 0) 0 19 = 2541891070
  /\ jenkins_hash (demo_mem 0) 0 19 = jenkins_hash (demo_mem 255) 2 19
  /\ jenkins_hash (demo_mem 0) 0 19 = jenkins_hash (demo_mem 7) 3 19.
Proof.
  assert (forall j, 0 <= j < 256 -> is_mem (demo_mem j)) as Hm.
  { intros j Hj i. unfold demo_mem, zget. case_decide; [|done].
    destruct (str "memcached is hashed" !! Z.to_nat i) as [b|] eqn:E; [|done].
    apply (Forall_lookup_1 _ _ _ _ (bytes_str "memcached is hashed") E). }
  assert (forall j i, 0 <= i < 19 -> demo_mem j i = demo_mem 0 i) as He.
  { intros j i Hi. unfold demo_mem, zget. rewrite decide_True by lia.
    destruct (lookup_lt_is_Some_2 (str "memcached is hashed") (Z.to_nat i)) as [b ->]; [|done].
    change (length (str "memcached is hashed")) with 19%nat. lia. }
  split; [vm_compute; reflexivity|].
  split; apply jenkins_hash_of_key; try (apply Hm; lia); try lia; intros i Hi; symmetry; by apply He.
Defined.

(** C29: [mix] is reversible, as its comment says: [unmix] recovers the three words,
    so no information of a block is lost before the next one. *)
Theorem mix_reversible s : words_ok s -> unmix (mix s) = s /\ words_ok (mix s).
Proof.
  intros Hs. split; [|by apply mix_words]. destruct s as [[a b] c]. destruct Hs as (Ha & Hb & Hc).
  unfold mix, unmix.
  repeat match goal with |- context [mix_line ?k ?x ?y ?z] =>
    let H := fresh in let H' := fresh in
    pose proof (mix_line_range k x y z ltac:(lia) ltac:(done) ltac:(done) ltac:(done)) as H;
    pose proof (unmix_line_ok k x y z ltac:(done) ltac:(done)) as H';
    destruct (mix_line k x y z) as [? ?]; cbn [fst snd] in H; destruct H end.
  repeat match goal with E : unmix_line ?k ?x ?y ?z = _ |- context [unmix_line ?k ?x ?y ?z] => rewrite E; cbv beta iota zeta end.
  reflexivity.
Qed.
Lemma mix_reversible_witness : unmix (mix (1, 2, 3)) = (1, 2, 3) /\ mix (1, 2, 3) <> (1, 2, 3).
Proof. split; [apply (mix_reversible (1, 2, 3)); unfold words_ok; lia|vm_compute; discriminate]. Defined.

(** The default [hash] function. *)
Definition key_mem (k : list Z) (i : Z) : Z := default 0 (zget i k).
Definition jenkins : HashFunction.
Proof.
  refine {| hash k := jenkins_hash (key_mem k) 0 (zlen k) |}. intros k. unfold jenkins_hash. set (a := u32 _).
  change (Z.land 0 3 =? 0) with true. cbv beta iota.
  assert (forall o s, words_ok (block32 (key_mem k) o s)) as Hb by (intros; apply mix_words, add3_words).
  pose proof (blocks_rest _ (Z.to_nat (zlen k)) 0 (zlen k) (a, a, a) Hb (start_words _) (zlen_nonneg k) ltac:(lia)) as Hr.
  destruct (blocks _ _ _ _ _) as [[o n] s]. destruct Hr as (_ & _ & _ & Hs).
  destruct (last32 _ _ _ _); [apply final_range|]. destruct s as [[? ?] ?]. apply Hs.
Defined.
