(* ===== verification/Murmur3.v ===== *)
(** * MurmurHash3 (murmur3_hash.c) and the choice of hash (hash.c) *)

From S2P Require Import Prelude Memory Jenkins.

Definition rotl32 (x r : Z) : Z := Z.lor (u32 (Z.shiftl x r)) (Z.shiftr x (32 - r)).

(** Block [i] counted back from the end of the blocks at offset [base]. *)
Definition getblock32 (mem : Z -> Z) (base i : Z) : Z := word32 mem (base + 4 * i) 0.

Definition fmix32 (h : Z) : Z :=
  let h := Z.lxor h (Z.shiftr h 16) in
  let h := u32 (h * 0x85ebca6b) in
  let h := Z.lxor h (Z.shiftr h 13) in
  let h := u32 (h * 0xc2b2ae35) in
  let h := Z.lxor h (Z.shiftr h 16) in
  h.

Definition c1 := 0xcc9e2d51.
Definition c2 := 0x1b873593.

Definition scramble (k1 : Z) : Z :=
  let k1 := u32 (k1 * c1) in
  let k1 := rotl32 k1 15 in
  u32 (k1 * c2).

(** [for (int i = -nblocks; i; i++)]. *)
Fixpoint body_loop (mem : Z -> Z) (base : Z) (n : nat) (h1 : Z) : Z :=
  match n with
  | O => h1
  | S n' =>
      let k1 := scramble (getblock32 mem base (- Z.of_nat n)) in
      let h1 := Z.lxor h1 k1 in
      let h1 := rotl32 h1 13 in
      let h1 := u32 (h1 * 5 + 0xe6546b64) in
      body_loop mem base n' h1
  end.

(** The switch on [length & 3] falls through. *)
Definition tail_part (mem : Z -> Z) (base length h1 : Z) : Z :=
  let r := Z.land length 3 in
  let k1 := 0 in
  let k1 := if 3 <=? r then Z.lxor k1 (Z.shiftl (mem (base + 2)) 16) else k1 in
  let k1 := if 2 <=? r then Z.lxor k1 (Z.shiftl (mem (base + 1)) 8) else k1 in
  if 1 <=? r then Z.lxor h1 (scramble (Z.lxor k1 (mem base))) else h1.

Definition MurmurHash3_x86_32 (mem : Z -> Z) (length : Z) : Z :=
  let nblocks := s32 (length / 4) in
  let base := nblocks * 4 in
  let h1 := body_loop mem base (Z.to_nat nblocks) 0 in
  let h1 := tail_part mem base length h1 in
  let h1 := Z.lxor h1 (u32 length) in
  fmix32 h1.

(** ** hash.c *)

Inductive hashfunc_type := JENKINS_HASH | MURMUR3_HASH | XXH3_HASH.

(** [hash = ...]; XXH3 is a vendored header, a parameter here. *)
Definition hash_init (XXH3_64bits : list Z -> Z) (type : hashfunc_type) : list Z -> Z :=
  match type with
  | JENKINS_HASH => fun k => jenkins_hash (key_mem k) 0 (zlen k)
  | MURMUR3_HASH => fun k => MurmurHash3_x86_32 (key_mem k) (zlen k)
  | XXH3_HASH => fun k => u32 (XXH3_64bits k)
  end.

(** ** Each step loses nothing *)

Lemma rotl32_range x r : 0 <= r <= 32 -> 0 <= x < 2 ^ 32 -> 0 <= rotl32 x r < 2 ^ 32.
Proof. intros Hr Hx. unfold rotl32. apply lor_range; [lia|apply u32_range|apply shiftr_range; lia]. Qed.

Lemma rotl32_back x r : 0 <= r <= 32 -> 0 <= x < 2 ^ 32 -> rotl32 (rotl32 x r) (32 - r) = x.
Proof.
  intros Hr Hx. pose proof (rotl32_range x r Hr Hx) as Hy. apply Z.bits_inj'. intros i Hi.
  assert (forall y k j, 0 <= k <= 32 -> 0 <= y < 2 ^ 32 -> 0 <= j -> Z.testbit (rotl32 y k) j =
    (j <? 32) && (if j <? k then Z.testbit y (j + (32 - k)) else Z.testbit y (j - k))) as Hrot.
  { intros y k j Hk Hyr Hj. unfold rotl32, u32. rewrite Z.lor_spec, Z.shiftr_spec by lia.
    destruct (Z.ltb_spec j 32).
    - rewrite Z.mod_pow2_bits_low, Z.shiftl_spec by lia. destruct (Z.ltb_spec j k).
      + by rewrite Z.testbit_neg_r by lia.
      + apply (bits_range y 32) in Hyr as [_ Hyb]; [|lia]. by rewrite (Hyb (j + (32 - k))), orb_false_r by lia.
    - rewrite Z.mod_pow2_bits_high by lia. apply (bits_range y 32) in Hyr as [_ Hyb]; [|lia].
      by rewrite (Hyb (j + (32 - k))) by lia. }
  apply (bits_range x 32) in Hx as Hxb; [|lia]. destruct Hxb as [_ Hxb].
  rewrite (Hrot (rotl32 x r)) by (done || lia). destruct (Z.ltb_spec i 32); [|by rewrite Hxb by lia]. cbn [andb].
  destruct (Z.ltb_spec i (32 - r)); rewrite Hrot by (done || lia).
  - rewrite (proj2 (Z.ltb_lt _ 32)), (proj2 (Z.ltb_ge _ r)) by lia. cbn [andb]. f_equal. lia.
  - rewrite (proj2 (Z.ltb_lt _ 32)), (proj2 (Z.ltb_lt _ r)) by lia. cbn [andb]. f_equal. lia.
Qed.

Lemma u32_mul_l a b : u32 (u32 a * b) = u32 (a * b).
Proof. unfold u32. apply Zmult_mod_idemp_l. Qed.

(** Multiplication by an odd constant is undone by its inverse. *)
Lemma mul_back x c c' : 0 <= x < 2 ^ 32 -> u32 (c * c') = 1 -> u32 (u32 (x * c) * c') = x.
Proof.
  intros Hx Hc. rewrite u32_mul_l, <- Z.mul_assoc, Z.mul_comm, <- u32_mul_l, Hc, Z.mul_1_l. by apply u32_id.
Qed.

(** [h ^= h >> k] is undone by xoring all multiples of the shift. *)
Lemma xorshift_back x k :
  11 <= k -> 0 <= x < 2 ^ 32 ->
  let y := Z.lxor x (Z.shiftr x k) in
  Z.lxor (Z.lxor y (Z.shiftr y k)) (Z.shiftr y (2 * k)) = x.
Proof.
  intros Hk Hx y. unfold y. apply (bits_range x 32) in Hx as [_ Hx]; [|lia].
  apply Z.bits_inj'. intros i Hi. rewrite !Z.lxor_spec, !Z.shiftr_spec, !Z.lxor_spec, !Z.shiftr_spec by lia.
  rewrite (Hx (i + 2 * k + k)) by lia. replace (i + k + k) with (i + 2 * k) by lia.
  by destruct (Z.testbit x i), (Z.testbit x (i + k)), (Z.testbit x (i + 2 * k)).
Qed.

Definition unxorshift (k y : Z) : Z := Z.lxor (Z.lxor y (Z.shiftr y k)) (Z.shiftr y (2 * k)).
Definition unfmix32 (h : Z) : Z :=
  let h := unxorshift 16 h in
  let h := u32 (h * 0x7ed1b41d) in
  let h := unxorshift 13 h in
  let h := u32 (h * 0xa5cb9243) in
  unxorshift 16 h.
Definition unscramble (k1 : Z) : Z :=
  let k1 := u32 (k1 * 0x56ed309b) in
  let k1 := rotl32 k1 17 in
  u32 (k1 * 0xdee13bb1).

Lemma xorshift_range x k : 0 <= k -> 0 <= x < 2 ^ 32 -> 0 <= Z.lxor x (Z.shiftr x k) < 2 ^ 32.
Proof. intros. apply lxor_range; [lia|done|by apply shiftr_range]. Qed.

Lemma fmix32_range h : 0 <= h < 2 ^ 32 -> 0 <= fmix32 h < 2 ^ 32.
Proof. intros. unfold fmix32. apply xorshift_range; [lia|apply u32_range]. Qed.

Lemma unfmix32_ok h : 0 <= h < 2 ^ 32 -> unfmix32 (fmix32 h) = h.
Proof.
  intros Hh. unfold fmix32, unfmix32, unxorshift. pose proof u32_range as Hr.
  rewrite (xorshift_back _ 16) by (lia || apply Hr). rewrite mul_back by (done || by apply xorshift_range).
  rewrite (xorshift_back _ 13) by (lia || apply Hr). rewrite mul_back by (done || by apply xorshift_range).
  by rewrite (xorshift_back h 16) by lia.
Qed.

Lemma unscramble_ok k : 0 <= k < 2 ^ 32 -> unscramble (scramble k) = k.
Proof.
  intros Hk. unfold scramble, unscramble. rewrite mul_back; [|apply rotl32_range; [lia|apply u32_range]|done].
  change 17 with (32 - 15). rewrite rotl32_back by (lia || apply u32_range). by apply mul_back.
Qed.

Lemma scramble_range k : 0 <= scramble k < 2 ^ 32.
Proof. apply u32_range. Qed.

(** ** Properties *)

(** C0: the finalization of murmur3 is a bijection of the 32-bit words: no two
    states before it give the same hash. *)
Theorem fmix32_bijective h : 0 <= h < 2 ^ 32 ->
  0 <= fmix32 h < 2 ^ 32 /\ unfmix32 (fmix32 h) = h.
Proof. intros Hh. split; [by apply fmix32_range|by apply unfmix32_ok]. Qed.
Lemma fmix32_bijective_witness : fmix32 1 = 1364076727 /\ unfmix32 1364076727 = 1.
Proof.
  assert (fmix32 1 = 1364076727) as E by (vm_compute; reflexivity). split; [exact E|].
  destruct (fmix32_bijective 1) as [_ H]; [lia|]. rewrite E in H. exact H.
Defined.

Lemma murmur_word mem :
  is_mem mem -> MurmurHash3_x86_32 mem 4
  = fmix32 (Z.lxor (u32 (rotl32 (Z.lxor 0 (scramble (word32 mem 0 0))) 13 * 5 + 0xe6546b64)) 4).
Proof. reflexivity. Qed.

Lemma word32_bytes mem :
  is_mem mem -> let w := word32 mem 0 0 in
  0 <= w < 2 ^ 32 /\ mem 0 = w mod 256 /\ mem 1 = w / 2 ^ 8 mod 256 /\ mem 2 = w / 2 ^ 16 mod 256
  /\ mem 3 = w / 2 ^ 24 mod 256.
Proof.
  intros Hm. pose proof (Hm 0). pose proof (Hm 1). pose proof (Hm 2). pose proof (Hm 3). unfold is_byte in *.
  unfold word32. literals. rewrite !shiftl_mul by lia.
  change (2 ^ 8) with 256. change (2 ^ 16) with 65536. change (2 ^ 24) with 16777216.
  split; [lia|]. Z.to_euclidean_division_equations. lia.
Qed.

(** C30: murmur3 has no collision among the keys of four bytes: equal hashes mean
    equal keys. *)
Theorem murmur_4byte_injective mem mem' :
  is_mem mem -> is_mem mem' -> MurmurHash3_x86_32 mem 4 = MurmurHash3_x86_32 mem' 4 ->
  forall i, 0 <= i < 4 -> mem i = mem' i.
Proof.
  intros Hm Hm'. rewrite !murmur_word by done.
  destruct (word32_bytes mem Hm) as (Hw & B0 & B1 & B2 & B3).
  destruct (word32_bytes mem' Hm') as (Hw' & B0' & B1' & B2' & B3').
  set (w := word32 mem 0 0) in *. set (w' := word32 mem' 0 0) in *. rewrite !Z.lxor_0_l.
  set (s := rotl32 (scramble w) 13). set (s' := rotl32 (scramble w') 13).
  assert (0 <= s < 2 ^ 32) as Hs by (apply rotl32_range; [lia|apply scramble_range]).
  assert (0 <= s' < 2 ^ 32) as Hs' by (apply rotl32_range; [lia|apply scramble_range]).
  intros E. apply (f_equal unfmix32) in E.
  rewrite !unfmix32_ok in E by (apply lxor_range; [lia|apply u32_range|lia]).
  apply (f_equal (fun x => Z.lxor x 4)) in E. rewrite !Z.lxor_assoc, Z.lxor_nilpotent, !Z.lxor_0_r in E.
  apply (f_equal (fun x => u32 (x - 0xe6546b64))) in E. rewrite !u32_sub_l, !Z.add_simpl_r in E.
  apply (f_equal (fun x => u32 (x * 0xcccccccd))) in E. rewrite !mul_back in E by done.
  apply (f_equal (fun x => rotl32 x 19)) in E. unfold s, s' in E. change 19 with (32 - 13) in E.
  rewrite !rotl32_back in E by (lia || apply scramble_range).
  apply (f_equal unscramble) in E. rewrite !unscramble_ok in E by done.
  intros i Hi. assert (i = 0 \/ i = 1 \/ i = 2 \/ i = 3) as [->|[->|[->| ->]]] by lia; congruence.
Qed.
Lemma murmur_4byte_injective_witness :
  MurmurHash3_x86_32 (key_mem (str "abcd")) 4 = 1139631978
  /\ forall i, 0 <= i < 4 -> key_mem (str "abcd") i = key_mem (str "abcd" ++ [1; 2]) i.
Proof.
  assert (forall k, bytes k -> is_mem (key_mem k)) as Hb.
  { intros k Hk i. unfold key_mem, zget. case_decide; [|done]. destruct (k !! Z.to_nat i) eqn:E; [|done].
    by apply (Forall_lookup_1 _ _ _ _ Hk E). }
  split; [vm_compute; reflexivity|].
  apply murmur_4byte_injective; [apply Hb, bytes_str| |vm_compute; reflexivity].
  apply Hb. apply Forall_app. split; [apply bytes_str|]. repeat constructor; done.
Defined.

Definition murmur3 : HashFunction.
Proof.
  refine {| hash k := MurmurHash3_x86_32 (key_mem k) (zlen k) |}.
  intros k. unfold MurmurHash3_x86_32. apply fmix32_range. apply lxor_range; [lia| |apply u32_range].
  set (n := Z.to_nat _). set (base := _ * 4).
  assert (forall m n h, 0 <= h < 2 ^ 32 -> 0 <= body_loop m base n h < 2 ^ 32) as Hb.
  { intros m n'. induction n' as [|n' IH]; intros h Hh; [done|]. cbn [body_loop]. apply IH, u32_range. }
  unfold tail_part. destruct (1 <=? _); [|apply Hb; lia].
  apply lxor_range; [lia|apply Hb; lia|apply scramble_range].
Defined.
