(* ===== verification/Util.v ===== *)
(** * util.c

    A C string is the list of its bytes before the NUL; reading the byte behind
    it gives 0.  The number parsers are [strtoull] and its relatives of the C
    library in the "C" locale with the checks of util.c around them. *)

From S2P Require Import Prelude Itoa.

Definition head (s : list Z) : Z := match s with c :: _ => c | [] => 0 end.

Definition isspace (c : Z) : bool := (c =? 32) || ((9 <=? c) && (c <=? 13)).
Definition isdigit (c : Z) : bool := (48 <=? c) && (c <=? 57).
Definition isalnum (c : Z) : bool :=
  isdigit c || ((65 <=? c) && (c <=? 90)) || ((97 <=? c) && (c <=? 122)).

(** ** strtol and relatives *)

Definition digit_of (base c : Z) : option Z :=
  let d := if isdigit c then c - 48
           else if (97 <=? c) && (c <=? 122) then c - 87
           else if (65 <=? c) && (c <=? 90) then c - 55 else 99 in
  if d <? base then Some d else None.

(** The digits from [s] on: their value, whether there is any, and the rest. *)
Fixpoint read_digits (base acc : Z) (some : bool) (s : list Z) : Z * bool * list Z :=
  match s with
  | c :: s' =>
      match digit_of base c with
      | Some d => read_digits base (acc * base + d) true s'
      | None => (acc, some, s)
      end
  | [] => (acc, some, s)
  end.

Fixpoint skip_space (s : list Z) : list Z :=
  match s with c :: s' => if isspace c then skip_space s' else s | [] => [] end.

(** Base 16 allows a prefix [0x] when a digit follows it. *)
Definition skip_0x (base : Z) (s : list Z) : list Z :=
  match s with
  | 48 :: x :: d :: _ =>
      if (base =? 16) && ((x =? 120) || (x =? 88))
         && match digit_of 16 d with Some _ => true | None => false end
      then drop 2 s else s
  | _ => s
  end.

(** The sign, the magnitude and the rest; [None] when there is no number and
    [endptr] stays at the start. *)
Definition strto (base : Z) (s : list Z) : option (bool * Z * list Z) :=
  let s := skip_space s in
  let '(neg, s) := match s with 45 :: s' => (true, s') | 43 :: s' => (false, s') | _ => (false, s) end in
  let '(v, some, rest) := read_digits base 0 false (skip_0x base s) in
  if some then Some (neg, v, rest) else None.

(** Each returns the value, the [ERANGE] flag and the rest. *)
Definition strtoull (base : Z) (s : list Z) : option (Z * bool * list Z) :=
  '(neg, v, rest) ← strto base s;
  Some (if 2 ^ 64 <=? v then (2 ^ 64 - 1, true, rest)
        else (if neg : bool then u64 (- v) else v, false, rest)).
Definition strtoll (base : Z) (s : list Z) : option (Z * bool * list Z) :=
  '(neg, v, rest) ← strto base s;
  let z := if neg : bool then - v else v in
  Some (if z <? - 2 ^ 63 then (- 2 ^ 63, true, rest)
        else if 2 ^ 63 - 1 <? z then (2 ^ 63 - 1, true, rest) else (z, false, rest)).

(** ** The checked parsers: the result and [*out] *)

Definition ends_ok (rest : list Z) : bool := isspace (head rest) || (head rest =? 0).

Definition safe_unsigned (base : Z) (str : list Z) : bool * Z :=
  match strtoull base str with
  | None => (false, 0)
  | Some (ull, erange, rest) =>
      if erange : bool then (false, 0)
      else if ends_ok rest then
        if s64 ull <? 0 then
          if bool_decide (45 ∈ str) then (false, 0) else (true, ull)
        else (true, ull)
      else (false, 0)
  end.

Definition safe_strtoull (str : list Z) : bool * Z := safe_unsigned 10 str.
Definition safe_strtoull_hex (str : list Z) : bool * Z := safe_unsigned 16 str.

Definition safe_strtoll (str : list Z) : bool * Z :=
  match strtoll 10 str with
  | None => (false, 0)
  | Some (ll, erange, rest) =>
      if erange : bool then (false, 0) else if ends_ok rest then (true, ll) else (false, 0)
  end.

(** [unsigned long] has 64 bits; [*out] is a [uint32_t]. *)
Definition safe_strtoul (str : list Z) : bool * Z :=
  match strtoull 10 str with
  | None => (false, 0)
  | Some (l, erange, rest) =>
      if erange : bool then (false, 0)
      else if ends_ok rest then
        if s64 l <? 0 then
          if bool_decide (45 ∈ str) then (false, 0) else (true, u32 l)
        else (true, u32 l)
      else (false, 0)
  end.

(** [long] has 64 bits; [*out] is an [int32_t]. *)
Definition safe_strtol (str : list Z) : bool * Z :=
  match strtoll 10 str with
  | None => (false, 0)
  | Some (l, erange, rest) =>
      if erange : bool then (false, 0) else if ends_ok rest then (true, s32 l) else (false, 0)
  end.

(** ** uriencode *)

Definition hex_digit (d : Z) : Z := if d <? 10 then 48 + d else 55 + d.
(** What [uriencode_init] stores for a byte; [None] for NULL. *)
Definition uriencode_map (x : Z) : option (list Z) :=
  if isalnum x || (x =? 45) || (x =? 46) || (x =? 95) || (x =? 126) then None
  else Some [37; hex_digit (x / 16); hex_digit (x mod 16)].

(** All stores are behind one another from [dst[0]] on, so [dst] is the list of the
    bytes stored so far; the functions return what was stored, whether they succeed
    or not, and the result.  Nothing checks the place of the final NUL. *)
Fixpoint uriencode_loop (src dst : list Z) (dstlen : Z) : list Z * bool :=
  match src with
  | [] => (dst ++ [0], true)
  | c :: src' =>
      if dstlen <? zlen dst + 4 then (dst, false)
      else match uriencode_map c with
           | Some e => uriencode_loop src' (dst ++ e) dstlen
           | None => uriencode_loop src' (dst ++ [c]) dstlen
           end
  end.
Definition uriencode (src : list Z) (dstlen : Z) : list Z * bool := uriencode_loop src [] dstlen.

(** ** safe_strcpy, safe_memcmp, mc_swap64 *)

(** The bytes stored and the result. *)
Fixpoint strcpy_loop (n : nat) (src dst : list Z) : list Z * list Z :=
  match n with
  | O => (dst, src)
  | S n => match src with
           | c :: src' => if c =? 0 then (dst, src) else strcpy_loop n src' (dst ++ [c])
           | [] => (dst, [])
           end
  end.
Definition safe_strcpy (src : list Z) (dstmax : Z) : list Z * bool :=
  let '(dst, rest) := strcpy_loop (Z.to_nat (u64 (dstmax - 1))) src [] in
  (dst ++ [0], head rest =? 0).

Fixpoint memcmp_loop (n : nat) (ua ub : Z -> Z) (x delta : Z) : Z :=
  match n with
  | O => delta
  | S n => memcmp_loop n ua ub (x + 1) (Z.lor delta (Z.lxor (ua x) (ub x)))
  end.
Definition safe_memcmp (ua ub : Z -> Z) (len : Z) : bool := memcmp_loop (Z.to_nat len) ua ub 0 0 =? 0.

Fixpoint swap_loop (n : nat) (rv inp : Z) : Z :=
  match n with
  | O => rv
  | S n => swap_loop n (u64 (Z.lor (Z.shiftl rv 8) (Z.land inp 0xff))) (Z.shiftr inp 8)
  end.
Definition mc_swap64 (inp : Z) : Z := swap_loop 8 0 inp.
Definition ntohll (val : Z) : Z := mc_swap64 val.
Definition htonll (val : Z) : Z := mc_swap64 val.

(** ** Reading back what was printed *)

Lemma digit_of_10 c : is_digit c -> digit_of 10 c = Some (c - 48).
Proof.
  unfold is_digit, digit_of, isdigit. intros Hc.
  rewrite (proj2 (Z.leb_le 48 c)), (proj2 (Z.leb_le c 57)) by lia. cbn [andb].
  by rewrite (proj2 (Z.ltb_lt (c - 48) 10)) by lia.
Qed.

Definition stops (rest : list Z) : Prop := head rest = 0 \/ isspace (head rest) = true.

Lemma stops_digit rest : stops rest -> match rest with [] => True | c :: _ => digit_of 10 c = None end.
Proof.
  destruct rest as [|c rest]; [done|]. unfold stops. cbn [head]. unfold isspace, digit_of, isdigit.
  intros Hc. assert (c <= 32) by (destruct Hc as [->|Hc]; [lia|];
    rewrite orb_true_iff, andb_true_iff, Z.eqb_eq, !Z.leb_le in Hc; lia).
  rewrite (proj2 (Z.leb_gt 48 c)), (proj2 (Z.leb_gt 97 c)), (proj2 (Z.leb_gt 65 c)) by lia. done.
Qed.

Lemma read_digits_numeral ds acc some rest :
  Forall is_digit ds -> stops rest ->
  read_digits 10 acc some (ds ++ rest)
  = (fold_left (fun a c => 10 * a + (c - 48)) ds acc, some || negb (bool_decide (ds = [])), rest).
Proof.
  intros Hd Hr. revert acc some. induction Hd as [|c ds Hc Hd IH]; intros acc some; cbn [app fold_left].
  - rewrite bool_decide_eq_true_2, orb_false_r by done. apply stops_digit in Hr.
    destruct rest as [|c rest]; [done|]. cbn [read_digits]. by rewrite Hr.
  - cbn [read_digits]. rewrite (digit_of_10 c Hc), IH. rewrite (bool_decide_eq_false_2 (c :: ds = [])) by done.
    rewrite orb_true_r. cbn [orb]. do 3 f_equal. lia.
Qed.

(** A numeral, [ds], is read whole, with or without a minus sign in front. *)
Lemma read_numeral n ds rest : numeral n ds -> stops rest -> read_digits 10 0 false (skip_0x 10 (ds ++ rest)) = (n, true, rest).
Proof.
  intros (Hd & Hv & Hne & _) Hr.
  assert (skip_0x 10 (ds ++ rest) = ds ++ rest) as ->.
  { unfold skip_0x. cbn [Z.eqb Pos.eqb andb]. by repeat (case_match; try done). }
  rewrite read_digits_numeral by done. rewrite (bool_decide_eq_false_2 (ds = [])) by done. cbn [orb negb].
  unfold dec_value in Hv. by rewrite Hv.
Qed.
Lemma strto_numeral n ds rest : numeral n ds -> stops rest -> strto 10 (ds ++ rest) = Some (false, n, rest).
Proof.
  intros Hn Hr. pose proof (read_numeral n ds rest Hn Hr) as E. destruct Hn as (Hd & _ & Hne & _). destruct ds as [|c ds]; [done|].
  apply Forall_cons in Hd as [Hc _]. unfold is_digit in Hc.
  unfold strto. cbn [app skip_space] in *. unfold isspace.
  rewrite (proj2 (Z.eqb_neq c 32)), (proj2 (Z.leb_gt c 13)) by lia. rewrite andb_false_r. cbn [orb].
  assert ((match c with 45 => (true, ds ++ rest) | 43 => (false, ds ++ rest) | _ => (false, c :: ds ++ rest) end)
    = (false, c :: ds ++ rest)) as ->; [|by rewrite E].
  assert (c = 48 \/ c = 49 \/ c = 50 \/ c = 51 \/ c = 52 \/ c = 53 \/ c = 54 \/ c = 55 \/ c = 56 \/ c = 57) as Hor by lia.
  repeat destruct Hor as [->|Hor]; try done. by subst.
Qed.
Lemma strto_minus n ds rest : numeral n ds -> stops rest -> strto 10 (45 :: ds ++ rest) = Some (true, n, rest).
Proof. intros Hn Hr. unfold strto. change (skip_space (45 :: ds ++ rest)) with (45 :: ds ++ rest). cbv iota beta. by rewrite (read_numeral n). Qed.

Lemma ends_stop rest : stops rest -> ends_ok rest = true.
Proof. unfold stops, ends_ok. intros [->| ->]; [by rewrite orb_true_r|done]. Qed.

Lemma no_minus ds rest : Forall is_digit ds -> 45 ∉ rest -> 45 ∉ ds ++ rest.
Proof.
  intros Hd Hr [Hin|Hin]%elem_of_app; [|done]. rewrite Forall_forall in Hd. specialize (Hd 45 Hin).
  unfold is_digit in Hd. lia.
Qed.

Lemma safe_strtoull_numeral n ds rest :
  0 <= n < 2 ^ 64 -> numeral n ds -> stops rest -> n < 2 ^ 63 \/ 45 ∉ rest -> safe_strtoull (ds ++ rest) = (true, n).
Proof.
  intros Hn Hd Hr Hm. unfold safe_strtoull, safe_unsigned, strtoull. rewrite (strto_numeral n) by done. cbn [mbind option_bind].
  rewrite (proj2 (Z.leb_gt (2 ^ 64) n)) by lia. rewrite ends_stop by done. destruct Hm as [Hm|Hm].
  - rewrite s64_id by lia. by rewrite (proj2 (Z.ltb_ge _ _)) by lia.
  - rewrite bool_decide_eq_false_2 by (apply no_minus; [apply Hd|done]). by destruct (_ <? 0).
Qed.

Lemma digit_of_nonneg base c d : digit_of base c = Some d -> 0 <= d.
Proof.
  unfold digit_of, isdigit. cbv zeta.
  match goal with |- (if ?v <? _ then _ else _) = _ -> _ => destruct (v <? base); [|done] end. intros [= <-].
  repeat case_match; try lia;
    repeat match goal with H : _ && _ = true |- _ => apply andb_true_iff in H as [? ?] end; lia.
Qed.
Lemma read_digits_nonneg base acc some s : 0 <= base -> 0 <= acc -> 0 <= fst (fst (read_digits base acc some s)).
Proof.
  intros Hb. revert acc some. induction s as [|c s IH]; intros acc some Ha; cbn [read_digits]; [done|].
  destruct (digit_of base c) as [d|] eqn:E; [|done]. apply IH. pose proof (digit_of_nonneg _ _ _ E). nia.
Qed.
Lemma strto_nonneg base s neg v rest : 0 <= base -> strto base s = Some (neg, v, rest) -> 0 <= v.
Proof.
  intros Hb. unfold strto. cbv zeta.
  match goal with |- context [let '(a, b) := ?m in _] => destruct m as [ng s'] end.
  pose proof (read_digits_nonneg base 0 false (skip_0x base s') Hb ltac:(lia)) as Hn.
  destruct (read_digits base 0 false (skip_0x base s')) as [[v' some] rest'].
  destruct some; [|done]. intros [= <- <- <-]. exact Hn.
Qed.
Lemma safe_strtoull_range s : 0 <= snd (safe_strtoull s) < 2 ^ 64.
Proof.
  unfold safe_strtoull, safe_unsigned, strtoull.
  destruct (strto 10 s) as [[[neg v] rest]|] eqn:E; cbn [mbind option_bind]; [|done].
  apply strto_nonneg in E; [|lia]. destruct (Z.leb_spec (2 ^ 64) v); [done|].
  assert (0 <= (if neg then u64 (- v) else v) < 2 ^ 64) as Hu by (destruct neg; [apply u64_range|lia]).
  repeat case_match; try done; exact Hu.
Qed.

(** C19: what [itoa_u64] prints, [safe_strtoull] reads back: the round trip an [incr]
    value takes through an item.  The number has to be followed by white space or
    the end of the string.  From 2^63 up no minus sign may come anywhere behind it
    either, since the check for one looks at the whole string; below 2^63 anything
    may follow the white space. *)
Theorem print_parse_u64 n rest :
  0 <= n < 2 ^ 64 -> stops rest -> n < 2 ^ 63 \/ 45 ∉ rest ->
  exists ds, itoa_u64 n [] = Some ds /\ safe_strtoull (ds ++ rest) = (true, n).
Proof.
  intros Hn Hr Hm. destruct (itoa_u64_digits n [] Hn) as (ds & E & Hd). exists ds. split; [done|].
  by apply safe_strtoull_numeral.
Qed.
Lemma print_parse_u64_witness :
  safe_strtoull (str "18446744073709551615 ") = (true, 18446744073709551615)
  /\ exists ds, itoa_u64 18446744073709551615 [] = Some ds
       /\ safe_strtoull (ds ++ str " ") = (true, 18446744073709551615).
Proof.
  split; [vm_compute; reflexivity|]. apply print_parse_u64; [lia|by right|right].
  intros Hin. vm_compute in Hin. inversion Hin as [|? ? ? Hin']; inversion Hin'.
Defined.

(** C31: [safe_strtol] has no range check for its 32-bit result: every number below
    2^63 is accepted and stored modulo 2^32; 4294967297 comes out as 1. *)
Theorem safe_strtol_truncates n ds :
  0 <= n < 2 ^ 63 -> numeral n ds -> safe_strtol ds = (true, s32 n).
Proof.
  intros Hn Hd. unfold safe_strtol, strtoll. rewrite <- (app_nil_r ds), (strto_numeral n) by (done || by left).
  cbn [mbind option_bind].
  rewrite (proj2 (Z.ltb_ge n (- 2 ^ 63))), (proj2 (Z.ltb_ge (2 ^ 63 - 1) n)) by lia. done.
Qed.
Lemma safe_strtol_truncates_witness :
  safe_strtol (str "4294967297") = (true, 1) /\ s32 4294967297 = 1.
Proof.
  split; [|vm_compute; reflexivity]. apply (safe_strtol_truncates 4294967297); [lia|].
  apply (bool_decide_unpack _). vm_compute. exact I.
Defined.

(** C32: a minus sign is only refused when the converted value looks negative as a
    signed 64-bit number.  So a minus sign in front of a numeral is refused for the
    numbers from 1 to 2^63 and, as out of range, from 2^64 up, but accepted in
    between, where the result is 2^64 minus the number: -18446744073709551615 is
    accepted as 1. *)
Theorem safe_strtoull_accepts_negative n ds rest :
  0 <= n -> numeral n ds -> stops rest ->
  safe_strtoull (45 :: ds ++ rest)
  = if (n =? 0) || ((2 ^ 63 <? n) && (n <? 2 ^ 64)) then (true, (2 ^ 64 - n) mod 2 ^ 64) else (false, 0).
Proof.
  intros Hn Hd Hr. unfold safe_strtoull, safe_unsigned, strtoull. rewrite (strto_minus n) by done. cbn [mbind option_bind].
  destruct (Z.leb_spec (2 ^ 64) n).
  - rewrite (proj2 (Z.eqb_neq n 0)), (proj2 (Z.ltb_ge n (2 ^ 64))), andb_false_r by lia. done.
  - rewrite ends_stop, (proj2 (Z.ltb_lt n (2 ^ 64))), andb_true_r by done.
    assert (u64 (- n) = (2 ^ 64 - n) mod 2 ^ 64) as ->.
    { unfold u64. rewrite <- (Z_mod_plus_full (- n) 1). f_equal. lia. }
    rewrite bool_decide_eq_true_2 by apply list_elem_of_here.
    destruct (Z.eqb_spec n 0) as [->|Hn0]; [done|]. rewrite Z.mod_small by lia. cbn [orb].
    destruct (Z.ltb_spec (2 ^ 63) n).
    + rewrite s64_id by lia. by rewrite (proj2 (Z.ltb_ge _ _)) by lia.
    + assert (s64 (2 ^ 64 - n) = - n) as ->; [|by rewrite (proj2 (Z.ltb_lt _ _)) by lia].
      unfold s64. rewrite <- (Z_mod_plus_full _ (- 1)), Z.mod_small; lia.
Qed.
Lemma safe_strtoull_accepts_negative_witness :
  safe_strtoull (str "-18446744073709551615") = (true, 1) /\ safe_strtoull (str "-9223372036854775808") = (false, 0).
Proof.
  split.
  - apply (safe_strtoull_accepts_negative 18446744073709551615 (str "18446744073709551615") []);
      [lia|apply (bool_decide_unpack _); vm_compute; exact I|by left].
  - apply (safe_strtoull_accepts_negative 9223372036854775808 (str "9223372036854775808") []);
      [lia|apply (bool_decide_unpack _); vm_compute; exact I|by left].
Defined.

(** ** uriencode *)

(** The reader of the escaped text. *)
Definition hex_value (c : Z) : Z := if c <? 58 then c - 48 else c - 55.
Fixpoint uridecode (s : list Z) : list Z :=
  match s with
  | 37 :: a :: b :: s' => hex_value a * 16 + hex_value b :: uridecode s'
  | c :: s' => c :: uridecode s'
  | [] => []
  end.
Definition uri_text (src : list Z) : list Z := mbind (fun c => default [c] (uriencode_map c)) src.

Lemma byte_cases (P : Z -> bool) c : is_byte c -> forallb P (seqZ 0 256) = true -> P c = true.
Proof.
  intros Hc Hf. rewrite forallb_forall in Hf. apply Hf, list_elem_of_In, elem_of_seqZ. unfold is_byte in Hc. lia.
Qed.

Lemma uriencode_map_escape c e s :
  is_byte c -> uriencode_map c = Some e -> zlen e = 3 /\ uridecode (e ++ s) = c :: uridecode s.
Proof.
  intros Hc. unfold uriencode_map. case_match; [done|]. intros [= <-]. split; [done|]. cbn [app uridecode]. f_equal.
  apply Z.eqb_eq. apply (byte_cases (fun c => hex_value (hex_digit (c / 16)) * 16 + hex_value (hex_digit (c mod 16)) =? c));
    [done|vm_compute; reflexivity].
Qed.
Lemma uriencode_map_plain c s : uriencode_map c = None -> uridecode (c :: s) = c :: uridecode s.
Proof.
  unfold uriencode_map. case_match eqn:E; [|done]. intros _. destruct (Z.eqb_spec c 37) as [->|Hne]; [done|].
  cbn [uridecode]. by repeat (case_match; try done).
Qed.

Lemma uridecode_text src : bytes src -> uridecode (uri_text src) = src.
Proof.
  unfold uri_text. induction 1 as [|c src Hc Hs IH]; [done|]. rewrite bind_cons.
  destruct (uriencode_map c) as [e|] eqn:E; cbn [default from_option id].
  - destruct (uriencode_map_escape c e (mbind (fun c => default [c] (uriencode_map c)) src) Hc E) as [_ ->]. by rewrite IH.
  - cbn [app]. by rewrite uriencode_map_plain, IH.
Qed.

Lemma uri_text_cons c src : uri_text (c :: src) = default [c] (uriencode_map c) ++ uri_text src.
Proof. done. Qed.
Lemma uri_piece_length c : is_byte c -> 1 <= zlen (default [c] (uriencode_map c)) <= 3.
Proof.
  intros Hc. destruct (uriencode_map c) as [e|] eqn:E; cbn [default from_option id]; [|by autorewrite with zlist].
  destruct (uriencode_map_escape c e [] Hc E) as [-> _]. lia.
Qed.
Lemma uriencode_loop_step c src dst dstlen :
  uriencode_loop (c :: src) dst dstlen
  = if dstlen <? zlen dst + 4 then (dst, false) else uriencode_loop src (dst ++ default [c] (uriencode_map c)) dstlen.
Proof. cbn [uriencode_loop]. by destruct (uriencode_map c). Qed.

(** The stores are within [dstlen] when the place behind what is stored is. *)
Lemma uriencode_loop_ok src dst dstlen :
  bytes src -> zlen dst + 1 <= dstlen ->
  let '(out, ok) := uriencode_loop src dst dstlen in
  zlen out <= dstlen
  /\ (if ok then out = dst ++ uri_text src ++ [0] else exists rest, out ++ rest = dst ++ uri_text src)
  /\ (zlen dst + 3 * zlen src + 1 <= dstlen -> ok = true).
Proof.
  intros Hb. revert dst. induction Hb as [|c src Hc Hb IH]; intros dst Hl.
  - cbn [uriencode_loop]. split; [autorewrite with zlist; lia|done].
  - rewrite uriencode_loop_step, uri_text_cons, zlen_cons. pose proof (zlen_nonneg src). pose proof (uri_piece_length c Hc).
    destruct (Z.ltb_spec dstlen (zlen dst + 4)) as [Hlt|Hge].
    + split; [lia|]. split; [by eexists|]. intros. lia.
    + specialize (IH (dst ++ default [c] (uriencode_map c))). rewrite zlen_app, <- !app_assoc in IH. specialize (IH ltac:(lia)).
      destruct (uriencode_loop _ _ _) as [out ok]. destruct IH as (I1 & I2 & I3). rewrite <- !app_assoc.
      split; [done|]. split; [done|]. intros. apply I3. lia.
Qed.

(** C33: [uriencode] stores nothing past [dstlen], whether it succeeds or gives up on
    the way, with one exception: for an empty key the NUL goes to [dst[0]] even when
    [dstlen] is 0.  When it succeeds it has stored a text and a NUL, and the text
    decodes to the key again, so no two keys get the same text; when it fails it has
    stored a beginning of that text.  With three bytes for each byte of the key and
    one for the NUL, the room its callers give it, it succeeds. *)
Theorem uriencode_correct src dstlen :
  bytes src -> 0 <= dstlen ->
  let '(out, ok) := uriencode src dstlen in
  (zlen out <= dstlen \/ src = [] /\ dstlen = 0 /\ out = [0])
  /\ (if ok then exists text, out = text ++ [0] /\ uridecode text = src
      else exists rest, uridecode (out ++ rest) = src)
  /\ (3 * zlen src + 1 <= dstlen -> ok = true).
Proof.
  intros Hb Hl. unfold uriencode. destruct (decide (1 <= dstlen)) as [H1|H1].
  - pose proof (uriencode_loop_ok src [] dstlen Hb) as Hu. specialize (Hu ltac:(unfold zlen; simpl; lia)).
    destruct (uriencode_loop _ _ _) as [out ok]. destruct Hu as (U1 & U2 & U3). split; [by left|]. split; [|exact U3].
    destruct ok.
    + exists (uri_text src). split; [exact U2|by apply uridecode_text].
    + destruct U2 as [rest U2]. exists rest. rewrite U2. by apply uridecode_text.
  - assert (dstlen = 0) as -> by lia. destruct src as [|c src].
    + cbn. split; [by right|]. split; [by exists []|lia].
    + rewrite uriencode_loop_step, (proj2 (Z.ltb_lt _ _)) by (unfold zlen; simpl; lia). split; [by left|]. split.
      * exists (uri_text (c :: src)). by apply uridecode_text.
      * rewrite zlen_cons. pose proof (zlen_nonneg src). lia.
Qed.
Lemma uriencode_correct_witness :
  uriencode (str "a b%") 16 = (str "a%20b%25" ++ [0], true)
  /\ (exists text, str "a%20b%25" ++ [0] = text ++ [0] /\ uridecode text = str "a b%")
  /\ uriencode (str "a b%") 6 = (str "a%20", false) /\ zlen (str "a%20") <= 6.
Proof.
  assert (uriencode (str "a b%") 16 = (str "a%20b%25" ++ [0], true)) as E by (vm_compute; reflexivity).
  assert (uriencode (str "a b%") 6 = (str "a%20", false)) as E2 by (vm_compute; reflexivity).
  pose proof (uriencode_correct (str "a b%") 16 (bytes_str _) ltac:(lia)) as H. rewrite E in H.
  pose proof (uriencode_correct (str "a b%") 6 (bytes_str _) ltac:(lia)) as H2. rewrite E2 in H2.
  split; [exact E|]. split; [apply H|]. split; [exact E2|]. destruct H2 as ([H2|(H2 & _)] & _); [exact H2|discriminate].
Defined.

(** ** safe_memcmp, safe_strcpy, mc_swap64 *)

Lemma lor_0 a b : Z.lor a b = 0 <-> a = 0 /\ b = 0.
Proof. apply Z.lor_eq_0_iff. Qed.

Lemma memcmp_loop_0 n ua ub x delta :
  memcmp_loop n ua ub x delta = 0 <-> delta = 0 /\ forall i, x <= i < x + Z.of_nat n -> ua i = ub i.
Proof.
  revert x delta. induction n as [|n IH]; intros x delta; cbn [memcmp_loop].
  - split; [|tauto]. intros ->. split; [done|]. lia.
  - rewrite IH, lor_0, Z.lxor_eq_0_iff. split.
    + intros [[-> Hx] Hr]. split; [done|]. intros i Hi. destruct (decide (i = x)) as [->|]; [done|]. apply Hr. lia.
    + intros [-> Hr]. split; [split; [done|apply Hr; lia]|]. intros i Hi. apply Hr. lia.
Qed.

(** C34: [safe_memcmp] is true exactly when all [len] bytes agree; it looks at all
    of them whatever it finds. *)
Theorem safe_memcmp_correct ua ub len :
  0 <= len -> safe_memcmp ua ub len = true <-> forall i, 0 <= i < len -> ua i = ub i.
Proof.
  intros Hl. unfold safe_memcmp. rewrite Z.eqb_eq, memcmp_loop_0, Z2Nat.id by done. cbn [Z.add].
  split; [by intros [_ ?]|by intros ?; split].
Qed.
Lemma safe_memcmp_correct_witness :
  safe_memcmp (fun i => i) (fun i => Z.land i 3) 4 = true /\ safe_memcmp (fun i => i) (fun i => Z.land i 3) 5 = false.
Proof.
  split; [|vm_compute; reflexivity]. apply (safe_memcmp_correct (fun i => i) (fun i => Z.land i 3) 4); [lia|].
  intros i Hi. assert (i = 0 \/ i = 1 \/ i = 2 \/ i = 3) as [->|[->|[->| ->]]] by lia; reflexivity.
Defined.

Lemma swap_step n rv b r :
  is_byte b -> 0 <= r -> 0 <= rv < 2 ^ 56 -> swap_loop (S n) rv (b + 256 * r) = swap_loop n (rv * 256 + b) r.
Proof.
  unfold is_byte. intros Hb Hr Hv. cbn [swap_loop]. change 0xff with (2 ^ 8 - 1).
  rewrite land_ones_mod, shiftl_mul, shiftr_div by lia. change (2 ^ 8) with 256.
  replace ((b + 256 * r) mod 256) with b by (Z.to_euclidean_division_equations; lia).
  replace ((b + 256 * r) / 256) with r by (Z.to_euclidean_division_equations; lia).
  change (rv * 256) with (rv * 2 ^ 8). rewrite lor_add by lia. f_equal. rewrite u64_id by lia. done.
Qed.

Fixpoint le (l : list Z) : Z := match l with [] => 0 | b :: l => b + 256 * le l end.
Lemma le_range l : bytes l -> 0 <= le l < 256 ^ zlen l.
Proof.
  induction 1 as [|b l Hb Hl IH]; [done|]. cbn [le]. rewrite zlen_cons, Z.pow_add_r by (try lia; apply zlen_nonneg).
  unfold is_byte in Hb. change (256 ^ 1) with 256. lia.
Qed.
Lemma le_app l k : le (l ++ k) = le l + 256 ^ zlen l * le k.
Proof.
  induction l as [|b l IH]; [cbn [app le]; unfold zlen; simpl; lia|]. cbn [app le].
  rewrite IH, zlen_cons, Z.pow_add_r by (try lia; apply zlen_nonneg). change (256 ^ 1) with 256. ring.
Qed.

Lemma swap_loop_le l p :
  bytes l -> bytes p -> (length l + length p <= 8)%nat ->
  swap_loop (length l) (le p) (le l) = le (reverse l ++ p).
Proof.
  intros Hl. revert p. induction Hl as [|b l Hb Hl IH]; intros p Hp Hn; [done|]. cbn [length le].
  pose proof (le_range l Hl) as Rl. pose proof (le_range p Hp) as Rp. cbn [length] in Hn.
  assert (le p < 2 ^ 56).
  { apply Z.lt_le_trans with (256 ^ zlen p); [lia|]. change (2 ^ 56) with (256 ^ 7).
    apply Z.pow_le_mono_r; [lia|]. unfold zlen. lia. }
  rewrite swap_step by (done || lia). replace (le p * 256 + b) with (le (b :: p)) by (cbn [le]; lia).
  rewrite IH; [|by apply Forall_cons|cbn [length]; lia]. by rewrite reverse_cons, <- app_assoc.
Qed.

Fixpoint le_list (n : nat) (x : Z) : list Z := match n with O => [] | S n => x mod 256 :: le_list n (x / 256) end.
Lemma le_list_ok n x : 0 <= x < 256 ^ Z.of_nat n -> le (le_list n x) = x /\ bytes (le_list n x) /\ length (le_list n x) = n.
Proof.
  revert x. induction n as [|n IH]; intros x Hx; [cbn in *; split; [lia|split; [constructor|done]]|]. cbn [le_list le length].
  rewrite Nat2Z.inj_succ, Z.pow_succ_r in Hx by lia.
  destruct (IH (x / 256)) as (E1 & E2 & E3).
  { split; [apply Z.div_pos; lia|]. apply Z.div_lt_upper_bound; lia. }
  rewrite E1, E3. split; [pose proof (Z.div_mod x 256); lia|]. split; [|done].
  apply Forall_cons. split; [apply (Z.mod_pos_bound x 256); lia|done].
Qed.

(** C0: [mc_swap64] reverses the eight bytes, so [ntohll] undoes [htonll] on every
    64-bit value. *)
Theorem swap64_involutive x : 0 <= x < 2 ^ 64 -> ntohll (htonll x) = x /\ 0 <= htonll x < 2 ^ 64.
Proof.
  intros Hx. change (2 ^ 64) with (256 ^ Z.of_nat 8) in *.
  destruct (le_list_ok 8 x Hx) as (E1 & E2 & E3). unfold ntohll, htonll, mc_swap64.
  set (l := le_list 8 x) in *. clearbody l. subst x.
  assert (forall k, bytes k -> length k = 8%nat -> swap_loop 8 0 (le k) = le (reverse k)) as Hs.
  { intros k Hk Hn. rewrite <- Hn at 1. change 0 with (le []). rewrite swap_loop_le; [by rewrite app_nil_r|done|constructor|simpl; lia]. }
  assert (bytes (reverse l)) as Hr by (by apply Forall_reverse).
  rewrite (Hs l) by done. rewrite (Hs (reverse l)) by (done || by rewrite length_reverse).
  rewrite reverse_involutive. split; [done|]. pose proof (le_range _ Hr) as Hz. unfold zlen in Hz.
  by rewrite length_reverse, E3 in Hz.
Qed.
Lemma swap64_involutive_witness : htonll 1 = 72057594037927936 /\ ntohll (htonll 0x0102030405060708) = 0x0102030405060708.
Proof. split; [vm_compute; reflexivity|]. apply (swap64_involutive 0x0102030405060708). lia. Defined.
