(* ===== verification/Store.v ===== *)
(** * Storing, arithmetic and the item API (memcached.c, thread.c)

    The operations the protocol handlers are made of: expiry times, fetches with
    the reference limit, the store commands and incr/decr.  The item lock the
    wrappers of thread.c take is held for the whole of each operation, so every
    operation is one step of the state. *)

From S2P Require Import Prelude Memory Itoa Util Assoc Slabs Items.

(** [NREAD_ADD], ..., [NREAD_CAS] *)
Inductive nread := NREAD_ADD | NREAD_SET | NREAD_REPLACE | NREAD_APPEND | NREAD_PREPEND | NREAD_CAS.
Inductive store_item_type := NOT_STORED | STORED | EXISTS | NOT_FOUND | TOO_LARGE | NO_MEMORY.
Inductive delta_result_type := OK | NON_NUMERIC | EOM | DELTA_ITEM_NOT_FOUND | DELTA_ITEM_CAS_MISMATCH.
Inductive cas_result := CAS_NONE | CAS_MATCH | CAS_BADVAL | CAS_STALE | CAS_MISS.
#[export] Instance nread_eq_dec : EqDecision nread.
Proof. solve_decision. Defined.
#[export] Instance store_item_type_eq_dec : EqDecision store_item_type.
Proof. solve_decision. Defined.
#[export] Instance cas_result_eq_dec : EqDecision cas_result.
Proof. solve_decision. Defined.

(** ** Expiry times *)

Definition REALTIME_MAXDELTA := 60 * 60 * 24 * 30.
Definition EXPTIME_TO_POSITIVE_TIME (exptime : Z) : Z :=
  if exptime <? 0 then REALTIME_MAXDELTA + 1 else exptime.

(** [process_started] is the global of that name, [rel_time_t] an unsigned int. *)
Definition realtime (process_started exptime now : Z) : Z :=
  if exptime =? 0 then 0
  else if REALTIME_MAXDELTA <? exptime then
    if exptime <=? process_started then 1 else u32 (exptime - process_started)
  else u32 (exptime + now).

(** ** The value bytes

    [ITEM_data] and [item_chunk.data]: bytes nobody wrote read as 0. *)
Definition peek (off n : Z) (d : list Z) : list Z :=
  ztake n (zdrop off d ++ replicate (Z.to_nat n) 0).
Definition poke (off : Z) (src d : list Z) : list Z :=
  ztake off (d ++ replicate (Z.to_nat off) 0) ++ src ++ zdrop (off + zlen src) d.

Definition CRLF : list Z := [13; 10].

(** The value of an item that is not chunked. *)
Definition ITEM_data (it : item) : list Z := peek 0 (nbytes it) (it_data it).

(** [memcpy(ITEM_data(p) + off, src, zlen src)], inside the item. *)
Definition write_data (p : ptr) (off : Z) (src : list Z) : M mc unit :=
  i ← load p;
  massert ((0 <=? off) && (off + zlen src <=? nbytes i));;
  update_item p (fun i => i <| it_data ::= poke off src |>).

Section store.
Context `{HashFunction}.

(** ** Copying values for append and prepend *)

(** [item_chunk]: [size] is [time] of the cell, [used] is [exptime]. *)
Definition ch_size (c : item) : Z := time c.
Definition ch_used (c : item) : Z := exptime c.

Fixpoint find_space (fuel : nat) (dch : ptr) : M mc ptr :=
  match fuel with
  | O => ub
  | S fuel =>
      d ← load dch;
      if ch_size d =? ch_used d then
        if decide (next d = NULL) then mret dch else find_space fuel (next d)
      else mret dch
  end.

(** [memcpy(dch->data + dch->used, src, todo); dch->used += todo]. *)
Definition fill_chunk (dch : ptr) (src : list Z) : M mc unit :=
  update_item dch (fun d => d <| it_data ::= poke (ch_used d) src |> <| exptime := s32 (ch_used d + zlen src) |>).

(** A full chunk gets a successor for the [remain] bytes; NULL when there is no
    memory. *)
Definition next_chunk (dch : ptr) (remain : Z) (e : alloc_env) : M mc ptr :=
  d ← load dch;
  massert (ch_used d <=? ch_size d);;
  if ch_size d =? ch_used d then do_item_alloc_chunk dch remain e else mret dch.

(** From the chunks [sch], [copied] bytes of which are done.  The environments of
    the allocations are those from [k] on. *)
Fixpoint copy_from_chunks (fuel : nat) (k : nat) (es : nat -> alloc_env) (dch sch : ptr)
    (copied remain : Z) : M mc bool :=
  if bool_decide (sch = NULL) || (remain =? 0) then massert (remain =? 0);; mret true
  else match fuel with
  | O => ub
  | S fuel =>
      d ← load dch;
      s ← load sch;
      massert (ch_used d <=? ch_size d);;
      let todo := Z.min remain (Z.min (ch_size d - ch_used d) (ch_used s - copied)) in
      fill_chunk dch (peek copied todo (it_data s));;
      let copied := copied + todo in
      let remain := remain - todo in
      tch ← next_chunk dch remain (es k);
      if decide (tch = NULL) then mret false
      else
        s ← load sch;
        massert (copied <=? ch_used s);;
        if copied =? ch_used s then copy_from_chunks fuel (S k) es tch (next s) 0 remain
        else copy_from_chunks fuel (S k) es tch sch copied remain
  end.

(** From the value of a plain item. *)
Fixpoint copy_from_item (fuel : nat) (k : nat) (es : nat -> alloc_env) (dch s_it : ptr)
    (len dn : Z) : M mc bool :=
  if len <=? dn then massert (len =? dn);; mret true
  else match fuel with
  | O => ub
  | S fuel =>
      d ← load dch;
      s ← load s_it;
      let todo := Z.min (ch_size d - ch_used d) (len - dn) in
      fill_chunk dch (peek dn todo (it_data s));;
      let dn := dn + todo in
      tch ← next_chunk dch (len - dn) (es k);
      if decide (tch = NULL) then mret false else copy_from_item fuel (S k) es tch s_it len dn
  end.

(** [_store_item_copy_chunks]; false is the result -1.  A round of the loops moves
    a byte or leaves a chunk. *)
Definition store_item_copy_chunks (es : nat -> alloc_env) (d_it s_it : ptr) (len : Z) : M mc bool :=
  d ← load d_it;
  fuel ← gets (fun w => (2 * size (heap w) + 2 * Z.to_nat len + 2)%nat);
  dch ← find_space fuel (ITEM_schunk d_it d);
  s ← load s_it;
  if has_flag s ITEM_CHUNKED then copy_from_chunks fuel 0 es dch (ITEM_schunk s_it s) 0 len
  else copy_from_item fuel 0 es dch s_it len 0.

(** [_store_item_copy_data]: first [a] without its CRLF, then [b]. *)
Definition store_item_copy_data (comm : nread) (es : nat -> alloc_env) (old_it new_it add_it : ptr) : M mc bool :=
  let '(a, b) := if decide (comm = NREAD_APPEND) then (old_it, add_it) else (add_it, old_it) in
  n ← load new_it;
  ia ← load a;
  ib ← load b;
  if has_flag n ITEM_CHUNKED then
    ok ← store_item_copy_chunks (fun n => es (2 * n + 1)%nat) new_it a (nbytes ia - 2);
    if (ok : bool) then store_item_copy_chunks (fun n => es (2 * n + 2)%nat) new_it b (nbytes ib) else mret false
  else
    write_data new_it 0 (ITEM_data ia);;
    write_data new_it (nbytes ia - 2) (ITEM_data ib);;
    mret true.

(** ** do_store_item *)

(** The test of the CAS id against the stored item. *)
Definition cas_test (set_stale : bool) (it_cas old_cas : Z) : cas_result :=
  if it_cas =? 0 then CAS_NONE
  else if it_cas =? old_cas then CAS_MATCH
  else if set_stale && (it_cas <? old_cas) then CAS_STALE
  else CAS_BADVAL.

(** What the [switch] decides when the key is present: the item to store, if any,
    the answer so far and the allocated item. *)
Definition store_over (it : ptr) (comm : nread) (set_stale : bool) (es : nat -> alloc_env) (old_it : ptr)
    : M mc (option ptr * store_item_type * ptr) :=
  i ← load it;
  o ← load old_it;
  let cas_res := cas_test set_stale (ITEM_get_cas i) (ITEM_get_cas o) in
  match comm with
  | NREAD_ADD => do_item_update old_it;; mret (None, NOT_STORED, NULL)
  | NREAD_CAS =>
      match cas_res with
      | CAS_MATCH =>
          count (cas_hits (ITEM_clsid o));;
          mret (Some it, NOT_STORED, NULL)
      | CAS_STALE =>
          update_item it (fun i => i <| exptime := exptime o |>
            <| it_flags ::= fun f => Z.lor (Z.lor f ITEM_STALE)
                 (if has_flag o ITEM_TOKEN_SENT then ITEM_TOKEN_SENT else 0) |>);;
          count (cas_hits (ITEM_clsid o));;
          mret (Some it, NOT_STORED, NULL)
      | _ =>
          count (cas_badval (ITEM_clsid o));;
          mret (None, EXISTS, NULL)
      end
  | NREAD_APPEND | NREAD_PREPEND =>
      if negb (bool_decide (cas_res = CAS_NONE) || bool_decide (cas_res = CAS_MATCH)) then
        mret (None, EXISTS, NULL)
      else if has_flag o ITEM_HDR then mret (None, NOT_STORED, NULL)
      else
        new_it ← do_item_alloc (ITEM_key i) (FLAGS_CONV o) (exptime o) (s32 (nbytes i + nbytes o - 2)) (es 0%nat);
        if decide (new_it = NULL) then mret (None, NOT_STORED, NULL)
        else
          ok ← store_item_copy_data comm es old_it new_it it;
          mret (if ok : bool then Some new_it else None, NOT_STORED, new_it)
  | NREAD_REPLACE | NREAD_SET => mret (Some it, NOT_STORED, NULL)
  end.

(** When it is not: store or not, and the answer so far. *)
Definition store_missing (comm : nread) : M mc (bool * store_item_type) :=
  match comm with
  | NREAD_ADD | NREAD_SET => mret (true, NOT_STORED)
  | NREAD_CAS => count cas_misses;; mret (false, NOT_FOUND)
  | NREAD_REPLACE | NREAD_APPEND | NREAD_PREPEND => mret (false, NOT_STORED)
  end.

(** The result and, when something was stored, the value left in [c->cas]. *)
Definition do_store_item (it : ptr) (comm : nread) (set_stale : bool) (hv : Z) (es : nat -> alloc_env)
    : M mc (store_item_type * option Z) :=
  i ← load it;
  old_it ← do_item_get (ITEM_key i) hv false;
  r ← (if decide (old_it = NULL) then
         d ← store_missing comm;
         if fst d : bool then do_item_link it hv;; mret (STORED, it) else mret (snd d, it)
       else
         d ← store_over it comm set_stale es old_it;
         let '(todo, stored, new_it) := d in
         let it := default it todo in
         stored ← (match todo with
                   | Some it => STORAGE_delete old_it;; do_item_replace old_it it hv;; mret STORED
                   | None => mret stored
                   end);
         do_item_remove old_it;;
         when (bool_decide (new_it <> NULL)) (do_item_remove new_it);;
         mret (stored, it));
  let '(stored, it) := r in
  if decide (stored = STORED) then
    i ← load it; mret (STORED, Some (ITEM_get_cas i))
  else mret (stored, None).

(** ** do_add_delta *)

Definition delta_value (incr : bool) (value delta : Z) : Z :=
  if incr then u64 (value + delta) else if u64 delta >? value then 0 else u64 (value - delta).

(** The new text over the old one, or a new item when it does not fit or somebody
    else holds the item; [None] stands for the returns without one. *)
Definition delta_write (it : ptr) (buf : list Z) (hv : Z) (e : alloc_env) : M mc (option delta_result_type) :=
  i ← load it;
  st ← gets mc_settings;
  let res := zlen buf in
  if (res + 2 <=? nbytes i) && (refcount i =? 2) then
    item_stats_sizes_remove it;;
    cas ← (if use_cas st then get_cas_id else mret 0);
    update_item it (ITEM_set_cas cas);;
    item_stats_sizes_add it;;
    write_data it 0 buf;;
    write_data it res (replicate (Z.to_nat (nbytes i - res - 2)) 32);;
    do_item_update it;;
    mret None
  else if 1 <? refcount i then
    new_it ← do_item_alloc (ITEM_key i) (FLAGS_CONV i) (exptime i) (res + 2) e;
    if decide (new_it = NULL) then do_item_remove it;; mret (Some EOM)
    else
      write_data new_it 0 buf;;
      write_data new_it res CRLF;;
      do_item_replace it new_it hv;;
      n ← load new_it;
      update_item it (ITEM_set_cas (if use_cas st then ITEM_get_cas n else 0));;
      do_item_remove new_it;;
      mret None
  else
    when (refcount i =? 1) (do_item_remove it);;
    mret (Some DELTA_ITEM_NOT_FOUND).

(** [cas] is [*cas] when the pointer is not NULL, [keep] tells whether [it_ret] is
    given.  Returned are the result, the text left in [buf], [*cas] and the item
    for [*it_ret]. *)
Definition do_add_delta (key : list Z) (incr : bool) (delta : Z) (cas : option Z) (hv : Z) (keep : bool)
    (e : alloc_env) : M mc (delta_result_type * list Z * option Z * ptr) :=
  it ← do_item_get key hv false;
  if decide (it = NULL) then mret (DELTA_ITEM_NOT_FOUND, [], cas, NULL)
  else
    i ← load it;
    if (nbytes i <=? 2) || has_flag i ITEM_CHUNKED || has_flag i ITEM_HDR then
      do_item_remove it;; mret (NON_NUMERIC, [], cas, NULL)
    else if (match cas with Some c => negb (c =? 0) && negb (ITEM_get_cas i =? c) | None => false end) then
      do_item_remove it;; mret (DELTA_ITEM_CAS_MISMATCH, [], cas, NULL)
    else
      let '(ok, value) := safe_strtoull (ITEM_data i) in
      if negb ok then do_item_remove it;; mret (NON_NUMERIC, [], cas, NULL)
      else
        let value := delta_value incr value delta in
        count (if incr then incr_hits (ITEM_clsid i) else decr_hits (ITEM_clsid i));;
        buf ← lift (itoa_u64 value []);
        r ← delta_write it buf hv e;
        match r with
        | Some r => mret (r, buf, cas, NULL)
        | None =>
            i ← load it;
            let cas := option_map (fun _ => ITEM_get_cas i) cas in
            if keep then mret (OK, buf, cas, it)
            else do_item_remove it;; mret (OK, buf, cas, NULL)
        end.

(** ** Item access (thread.c) *)

Definition item_alloc (key : list Z) (flags exptime nbytes : Z) (e : alloc_env) : M mc ptr :=
  do_item_alloc key flags exptime nbytes e.
Definition item_get (key : list Z) (do_update : bool) : M mc ptr := do_item_get key (hash key) do_update.
(** The hash value comes back for the unlock. *)
Definition item_get_locked (key : list Z) (do_update : bool) : M mc (ptr * Z) :=
  it ← do_item_get key (hash key) do_update; mret (it, hash key).
Definition item_touch (key : list Z) (exptime : Z) : M mc ptr := do_item_touch key exptime (hash key).
Definition item_link (it : ptr) : M mc Z := i ← load it; do_item_link it (hash (ITEM_key i)).
Definition item_remove (it : ptr) : M mc unit := load it;; do_item_remove it.
Definition item_replace (old_it new_it : ptr) (hv : Z) : M mc Z := do_item_replace old_it new_it hv.
Definition item_unlink (it : ptr) : M mc unit := i ← load it; do_item_unlink it (hash (ITEM_key i)).
Definition add_delta (key : list Z) (incr : bool) (delta : Z) (cas : option Z) (e : alloc_env)
    : M mc (delta_result_type * list Z * option Z) :=
  r ← do_add_delta key incr delta cas (hash key) false e; mret (fst r).
Definition store_item (it : ptr) (comm : nread) (set_stale : bool) (es : nat -> alloc_env)
    : M mc (store_item_type * option Z) :=
  i ← load it; do_store_item it comm set_stale (hash (ITEM_key i)) es.

(** ** Fetches with the reference limit *)

Definition IT_REFCOUNT_LIMIT := 60000.

(** The item and [*overflow]. *)
Definition limited_get (key : list Z) (exptime : Z) (should_touch do_update : bool) : M mc (ptr * bool) :=
  it ← (if should_touch then item_touch key exptime else item_get key do_update);
  if decide (it = NULL) then mret (NULL, false)
  else
    i ← load it;
    if IT_REFCOUNT_LIMIT <? refcount i then item_remove it;; mret (NULL, true) else mret (it, false).

(** The item, the hash value and [*overflow]; on overflow the lock is released. *)
Definition limited_get_locked (key : list Z) (do_update : bool) : M mc (ptr * Z * bool) :=
  r ← item_get_locked key do_update;
  let '(it, hv) := r in
  if decide (it = NULL) then mret (NULL, hv, false)
  else
    i ← load it;
    if IT_REFCOUNT_LIMIT <? refcount i then do_item_remove it;; mret (NULL, hv, true) else mret (it, hv, false).
End store.

(** ** Expiry *)

(** The item expires by server time [t] (see [item_expired_le]). *)
Definition expired_at (x t : Z) : Prop := x <> 0 /\ x <= t.

(** C22: what an expiry time of a command means, for a server whose clock started
    later than 1970-01-31: 0 never expires, a negative time at once, a time of up
    to 30 days that many seconds from now, and a larger one when the wall clock
    [process_started + t] reaches it. *)
Theorem realtime_correct process_started now e t :
  REALTIME_MAXDELTA < process_started -> 1 <= now <= t -> t < 2 ^ 31 -> - 2 ^ 31 <= e < 2 ^ 31 ->
  (expired_at (realtime process_started (EXPTIME_TO_POSITIVE_TIME e) now) t
   <-> e < 0 \/ (0 < e <= REALTIME_MAXDELTA /\ now + e <= t) \/ (REALTIME_MAXDELTA < e /\ e <= process_started + t)).
Proof.
  unfold expired_at, realtime, EXPTIME_TO_POSITIVE_TIME. change REALTIME_MAXDELTA with 2592000. intros Hp Hn Ht He.
  destruct (Z.ltb_spec e 0).
  - change (2592000 + 1 =? 0) with false. change (2592000 <? 2592000 + 1) with true. cbv iota.
    rewrite (proj2 (Z.leb_le (2592000 + 1) process_started)) by lia. lia.
  - destruct (Z.eqb_spec e 0) as [->|]; [lia|]. destruct (Z.ltb_spec 2592000 e).
    + destruct (Z.leb_spec e process_started); [lia|]. rewrite u32_id by lia. lia.
    + rewrite u32_id by lia. lia.
Qed.
Lemma realtime_correct_witness :
  expired_at (realtime 1700000000 (EXPTIME_TO_POSITIVE_TIME (-5)) 100) 100
  /\ realtime 1700000000 60 100 = 160.
Proof.
  split; [|vm_compute; reflexivity]. apply (realtime_correct 1700000000 100 (-5) 100); [reflexivity|lia|lia|lia|left; lia].
Defined.
