(* ===== verification/SlabMove.v ===== *)
(** * Moving a page between slab classes (slabs.c)

    The thread that takes a page away from one class and gives it to another: it
    walks over the chunks of the page, cuts free ones off the free list, copies
    live items to other chunks of their class or drops them, and hands the page
    over when everything in it is cleared.  A chunk is cleared when its flags are
    exactly [ITEM_SLABBED|ITEM_FETCHED].

    [slabs_lock] and the item lock are held or retaken around every access, so one
    call of [slab_rebalance_move] is one step here; [locked hv] tells whether
    [item_trylock] fails. *)

From S2P Require Import Prelude BipBuffer Memory Assoc Slabs Items Store.

Definition ITEM_CLEARED := Z.lor ITEM_SLABBED ITEM_FETCHED.
Definition clear_chunk (p : ptr) : M mc unit :=
  update_item p (fun i => i <| refcount := 0 |> <| it_flags := ITEM_CLEARED |>).

(** ** Start *)

Definition slab_rebalance_start : M mc Z :=
  r ← gets slab_rebal;
  largest ← gets (fun w => power_largest (mc_slabs w));
  let no_go := if (s_clsid r <? SLAB_GLOBAL_PAGE_POOL) || (largest <? s_clsid r)
                  || (d_clsid r <? SLAB_GLOBAL_PAGE_POOL) || (largest <? d_clsid r)
                  || (s_clsid r =? d_clsid r) then -2 else 0 in
  grown ← grow_slab_list (d_clsid r);
  let no_go := if grown =? 0 then -1 else no_go in
  s_cls ← get_class (s_clsid r);
  let no_go := if cl_slabs s_cls <? 2 then -3 else no_go in
  if negb (no_go =? 0) then mret no_go
  else
    page ← lift (zget 0 (slab_list s_cls));
    on_rebal (fun r => r <| slab_start := page |>
      <| slab_end := page + u32 (cl_size s_cls * perslab s_cls) |>
      <| slab_pos := page |>
      <| done := if s_clsid r =? SLAB_GLOBAL_PAGE_POOL then 1 else 0 |>);;
    ok ← alloc_succeeds;
    (* the result of [calloc] is not tested: without memory there is no cell *)
    on_rebal (fun r => r <| completed := if (ok : bool) then replicate (Z.to_nat (perslab s_cls)) 0 else [] |>
                         <| slab_rebalance_signal := 2 |>);;
    on_stats (fun s => s <| slab_reassign_running := true |>);;
    mret 0.

(** ** Memory for what is moved *)

Definition in_moved_page (r : slab_rebalance) (p : ptr) : bool := (slab_start r <=? p) && (p <? slab_end r).

(** Chunks of the page itself that come off the free list are cleared here. *)
Fixpoint rebalance_alloc_loop (n : nat) (size id : Z) : M mc ptr :=
  match n with
  | O => mret NULL
  | S n =>
      new_it ← do_slabs_alloc size id SLABS_ALLOC_NO_NEWPAGE;
      if decide (new_it = NULL) then mret NULL
      else
        r ← gets slab_rebal;
        if in_moved_page r new_it then
          clear_chunk new_it;;
          on_rebal (fun r => r <| inline_reclaim := u32 (inline_reclaim r + 1) |>);;
          rebalance_alloc_loop n size id
        else mret new_it
  end.
Definition slab_rebalance_alloc (size id : Z) : M mc ptr :=
  r ← gets slab_rebal;
  s_cls ← get_class (s_clsid r);
  rebalance_alloc_loop (Z.to_nat (perslab s_cls)) size id.

(** Out of the middle of a free list. *)
Definition slab_rebalance_cut_free (id : Z) (it : ptr) : M mc unit :=
  i ← load it;
  massert (it_flags i =? ITEM_SLABBED);;
  s_cls ← get_class id;
  when (bool_decide (slots s_cls = it)) (update_class id (fun p => p <| slots := next i |>));;
  when (bool_decide (next i <> NULL)) (update_item (next i) (fun n => n <| prev := prev i |>));;
  i ← load it;
  when (bool_decide (prev i <> NULL)) (update_item (prev i) (fun n => n <| next := next i |>));;
  update_class id (fun p => p <| sl_curr := u32 (sl_curr p - 1) |>).

(** ** One chunk *)

Inductive move_status := MOVE_PASS | MOVE_FROM_SLAB | MOVE_FROM_LRU | MOVE_BUSY | MOVE_LOCKED.
Definition SLAB_MOVE_MAX_LOOPS := 1000.

Section move.
Context `{HashFunction}.

(** The item a chunk belongs to, and the chunk when it is not the first one. *)
Definition moved_item (pos : ptr) : M mc (ptr * ptr) :=
  c ← load pos;
  if has_flag c ITEM_CHUNK then
    i ← load (h_next c);
    massert (has_flag i ITEM_CHUNKED);;
    mret (h_next c, pos)
  else mret (pos, NULL).

(** A linked item whose lock we hold. *)
Definition move_linked (it : ptr) (hv : Z) : M mc move_status :=
  i ← load it;
  let is_linked := has_flag i ITEM_LINKED in
  refcount ← refcount_incr it;
  r ← gets slab_rebal;
  status ← (
    if refcount =? 2 then mret (if is_linked then MOVE_FROM_LRU else MOVE_BUSY)
    else if (2 <? refcount) && is_linked then
      when (SLAB_MOVE_MAX_LOOPS <? busy_loops r)
        (on_rebal (fun r => r <| busy_deletes := u32 (busy_deletes r + 1) |>);;
         STORAGE_delete it;;
         do_item_unlink it hv);;
      mret MOVE_BUSY
    else mret MOVE_BUSY);
  match status with
  | MOVE_BUSY => refcount_decr it;; mret status
  | _ => mret status
  end.

(** The status and the hash value when the lock was taken. *)
Definition move_classify (locked : Z -> bool) (it ch : ptr) : M mc (move_status * Z) :=
  i ← load it;
  if it_flags i =? ITEM_CLEARED then mret (MOVE_PASS, 0)
  else if has_flag i ITEM_SLABBED then
    massert (bool_decide (ch = NULL));;
    r ← gets slab_rebal;
    slab_rebalance_cut_free (s_clsid r) it;;
    mret (MOVE_FROM_SLAB, 0)
  else if has_flag i ITEM_LINKED then
    let hv := hash (ITEM_key i) in
    if locked hv then mret (MOVE_LOCKED, hv)
    else status ← move_linked it hv; mret (status, hv)
  else mret (MOVE_BUSY, 0).

(** The bytes a first chunk takes: for an item on flash the pointer into it, for
    a chunked item the whole chunk. *)
Definition moved_ntotal (s_cls : slabclass_t) (ch : ptr) (i : item) : Z :=
  if bool_decide (ch = NULL) && has_flag i ITEM_CHUNKED then cl_size s_cls
  else if has_flag i ITEM_HDR then u64 (u64 (ITEM_ntotal i - nbytes i) + sizeof_item_hdr)
  else ITEM_ntotal i.

(** NULL when the item is not worth saving or there is no memory. *)
Definition moved_memory (s_cls : slabclass_t) (it ch : ptr) : M mc ptr :=
  i ← load it;
  r ← gets slab_rebal;
  gone ← gets (fun w => item_expired_lt i w || item_is_flushed i w);
  if (gone : bool) then mret NULL
  else
    new_it ← slab_rebalance_alloc
      (if decide (ch = NULL) then moved_ntotal s_cls ch i else cl_size s_cls) (s_clsid r);
    when (bool_decide (new_it = NULL))
      (on_rebal (fun r => r <| evictions_nomem := u32 (evictions_nomem r + 1) |>));;
    mret new_it.

(** [while (fch)]: the chunks of a large item point to its new place. *)
Fixpoint repoint_heads (fuel : nat) (fch new_it : ptr) : M mc unit :=
  if decide (fch = NULL) then mret tt
  else match fuel with
       | O => ub
       | S fuel =>
           update_item fch (fun c => c <| h_next := new_it |>);;
           c ← load fch;
           repoint_heads fuel (next c) new_it
       end.

(** [memcpy(new_it, it, ntotal)]: the cell and, inside a large item, the chunk
    header, which has a cell of its own. *)
Definition copy_item (new_it it : ptr) : M mc unit :=
  i ← load it;
  update_item new_it (fun _ => i);;
  when (has_flag i ITEM_CHUNKED)
    (c ← load (ITEM_schunk it i);
     modify (fun w => w <| heap ::= <[ITEM_schunk new_it i := c]> |>)).

Definition rescue_item (it new_it : ptr) (hv : Z) : M mc unit :=
  n ← load new_it;
  massert (negb (has_flag n ITEM_CHUNKED));;
  copy_item new_it it;;
  update_item new_it (fun i => clear_flag ITEM_LINKED (i <| prev := NULL |> <| next := NULL |> <| h_next := NULL |>)
                                 <| refcount := 0 |>);;
  do_item_replace it new_it hv;;
  n ← load new_it;
  when (has_flag n ITEM_CHUNKED)
    (let fch := ITEM_schunk new_it n in
     c ← load fch;
     update_item (next c) (fun d => d <| prev := fch |>);;
     fuel ← gets (fun w => S (size (heap w)));
     repoint_heads fuel fch new_it);;
  clear_chunk it;;
  on_rebal (fun r => r <| rescues := u32 (rescues r + 1) |>).

(** [memcpy(nch, ch, ch->used + sizeof(item_chunk))] keeps what is behind the
    used bytes of [nch]. *)
Definition rescue_chunk (it ch nch : ptr) : M mc unit :=
  c ← load ch;
  update_item (prev c) (fun p => p <| next := nch |>);;
  when (bool_decide (next c <> NULL)) (update_item (next c) (fun n => n <| prev := nch |>));;
  c ← load ch;
  update_item nch (fun n => c <| it_data := poke 0 (peek 0 (ch_used c) (it_data c)) (it_data n) |>);;
  clear_chunk ch;;
  on_rebal (fun r => r <| chunk_rescues := u32 (chunk_rescues r + 1) |>);;
  refcount_decr it;;
  mret tt.

Definition set_completed (offset : Z) : M mc unit :=
  on_rebal (fun r => r <| completed ::= <[Z.to_nat offset := 1]> |>).

Definition item_busy : M mc Z :=
  on_rebal (fun r => r <| busy_items := u32 (busy_items r + 1) |>);; mret 1.

(** An item that is not saved: a large one only goes to the free list. *)
Definition drop_item (it ch : ptr) (hv offset : Z) : M mc Z :=
  STORAGE_delete it;;
  i ← load it;
  if bool_decide (ch = NULL) && negb (has_flag i ITEM_CHUNKED) then
    do_item_unlink it hv;;
    clear_chunk it;;
    set_completed offset;;
    mret 0
  else
    r ← gets slab_rebal;
    do_item_unlink it hv;;
    slabs_free it (ITEM_ntotal i) (s_clsid r);;
    item_busy.

(** What is done about the chunk; returns [was_busy]. *)
Definition move_chunk (locked : Z -> bool) (s_cls : slabclass_t) (offset : Z) : M mc Z :=
  r ← gets slab_rebal;
  x ← moved_item (slab_pos r);
  let '(it, ch) := (x : ptr * ptr) in
  y ← move_classify locked it ch;
  let '(status, hv) := (y : move_status * Z) in
  match status with
  | MOVE_FROM_LRU =>
      new_it ← moved_memory s_cls it ch;
      if decide (new_it = NULL) then drop_item it ch hv offset
      else
        (if decide (ch = NULL) then rescue_item it new_it hv else rescue_chunk it ch new_it);;
        set_completed offset;;
        mret 0
  | MOVE_FROM_SLAB => set_completed offset;; clear_chunk it;; mret 0
  | MOVE_BUSY | MOVE_LOCKED => item_busy
  | MOVE_PASS => mret 0
  end.

(** The next chunk; at the end of the page again from the top, if anything was
    busy. *)
Definition move_advance (s_cls : slabclass_t) : M mc unit :=
  on_rebal (fun r => r <| slab_pos := slab_pos r + cl_size s_cls |>);;
  r ← gets slab_rebal;
  if slab_end r <=? slab_pos r then
    if negb (busy_items r =? 0) then
      on_stats (fun s => s <| slab_reassign_busy_items ::= fun n => u64 (n + busy_items r) |>);;
      on_rebal (fun r => r <| slab_pos := slab_start r |> <| busy_items := 0 |>
                           <| busy_loops := u32 (busy_loops r + 1) |>)
    else on_rebal (fun r => r <| done := u8 (done r + 1) |>)
  else mret tt.

Definition slab_rebalance_move (locked : Z -> bool) : M mc Z :=
  r ← gets slab_rebal;
  s_cls ← get_class (s_clsid r);
  massert (negb (cl_size s_cls =? 0));;
  let offset := s32 ((slab_pos r - slab_start r) / cl_size s_cls) in
  completed ← lift (zget offset (completed r));
  was_busy ← (if completed =? 0 then move_chunk locked s_cls offset else mret 0);
  move_advance s_cls;;
  mret was_busy.
End move.

(** ** The end *)

(** [s_cls->slabs--] and the shift of the list. *)
Definition drop_first_page (id : Z) : M mc unit :=
  s_cls ← get_class id;
  let n := u32 (cl_slabs s_cls - 1) in
  massert ((n =? 0) || (n + 1 <=? zlen (slab_list s_cls)));;
  update_class id (fun p => p <| cl_slabs := n |>
    <| slab_list ::= fun l => ztake n (zdrop 1 l) ++ zdrop n l |>).

Definition slab_rebalance_finish : M mc unit :=
  r ← gets slab_rebal;
  st ← gets mc_settings;
  drop_first_page (s_clsid r);;
  add_page (d_clsid r) (slab_start r);;
  (if SLAB_GLOBAL_PAGE_POOL <? d_clsid r then
     memset_page (slab_start r) (slab_page_size st) (d_clsid r);;
     split_slab_page_into_freelist (slab_start r) (d_clsid r)
   else if d_clsid r =? SLAB_GLOBAL_PAGE_POOL then
     modify (fun w => w <| heap ::= <[slab_start r := item_zero]> |>);;
     on_slabs (fun s => s <| mem_limit_reached := false |>);;
     memory_release
   else mret tt);;
  on_rebal (fun r => r <| busy_loops := 0 |> <| done := 0 |> <| s_clsid := 0 |> <| d_clsid := 0 |>
    <| slab_start := NULL |> <| slab_end := NULL |> <| slab_pos := NULL |>
    <| evictions_nomem := 0 |> <| inline_reclaim := 0 |> <| rescues := 0 |> <| chunk_rescues := 0 |>
    <| busy_deletes := 0 |> <| slab_rebalance_signal := 0 |> <| completed := [] |>);;
  on_stats (fun s => s <| slabs_moved ::= fun n => u64 (n + 1) |>
    <| slab_reassign_rescues ::= fun n => u64 (n + rescues r) |>
    <| slab_reassign_evictions_nomem ::= fun n => u64 (n + evictions_nomem r) |>
    <| slab_reassign_inline_reclaim ::= fun n => u64 (n + inline_reclaim r) |>
    <| slab_reassign_chunk_rescues ::= fun n => u64 (n + chunk_rescues r) |>
    <| slab_reassign_busy_deletes ::= fun n => u64 (n + busy_deletes r) |>
    <| slab_reassign_running := false |>).

(** ** The thread *)

Section thread.
Context `{HashFunction}.

(** One turn of the loop, up to the wait for the condition; [was_busy] and
    [backoff_timer] are its local variables. *)
Definition slab_rebalance_turn (locked : Z -> bool) (was_busy backoff_timer : Z) : M mc (Z * Z) :=
  r ← gets slab_rebal;
  was_busy ← (
    if slab_rebalance_signal r =? 1 then
      ret ← slab_rebalance_start;
      when (ret <? 0) (on_rebal (fun r => r <| slab_rebalance_signal := 0 |>));;
      mret 0
    else if negb (slab_rebalance_signal r =? 0) && bool_decide (slab_start r <> NULL) then
      slab_rebalance_move locked
    else mret was_busy);
  r ← gets slab_rebal;
  if negb (done r =? 0) then slab_rebalance_finish;; mret (was_busy, backoff_timer)
  else if negb (was_busy =? 0) then mret (was_busy, Z.min (backoff_timer * 2) 1000)
  else mret (was_busy, backoff_timer).

(** [created]: whether the thread could be created. *)
Definition start_slab_maintenance_thread (created : bool) : M mc Z :=
  on_rebal (fun r => r <| slab_rebalance_signal := 0 |> <| slab_start := NULL |>);;
  mret (if created then 0 else -1).
End thread.
