(* ===== verification/CacheMove.v ===== *)
(** * Moving an item between queues

    The LRU operations that keep an item in the table: taking it out of its
    queue, changing its header and putting it at the head of another one. *)

From S2P Require Import Prelude Memory Dll Assoc AssocSpec Slabs SlabsSpec SlabPages SlabAlloc.
From S2P Require Import Items LruSpec Parts CacheSpec.

Lemma heap_insert_id w p i : heap w !! p = Some i -> w <| heap ::= <[p := id i]> |> = w.
Proof.
  intros Hi. apply (insert_id (heap w) p) in Hi. destruct w; cbv -[insert] in *. by rewrite Hi.
Qed.

Section move.
Context `{HashFunction}.
Implicit Types (w : mc) (A : gmap (list Z) ptr) (Q F U : Z -> list ptr).

(** Changing an item that is in no queue; its table links stay. *)
Lemma parts_dequeued w A Q F U p it f :
  parts w A Q F U -> heap w !! p = Some it -> ~ in_queues Q p -> same_link it (f it) ->
  it_flags it <> ITEM_SLABBED -> it_flags (f it) <> ITEM_SLABBED ->
  parts (w <| heap ::= alter f p |>) A Q F U.
Proof.
  intros [P1 P2 P3 P4] Hp HQ HL Hf Hf'.
  assert (forall a i, heap w !! a = Some i -> a <> p -> heap (w <| heap ::= alter f p |>) !! a = Some i) as Hl.
  { intros a i Ha Hne. upds. by rewrite lookup_alter_ne. }
  assert (heap (w <| heap ::= alter f p |>) !! p = Some (f it)) as Hp' by (upds; by rewrite lookup_alter_eq, Hp).
  assert (forall id a, a ∈ Q id -> a <> p) as HQp by (intros id a Ha ->; apply HQ; by exists id).
  split.
  - apply (assoc_rep_frame w); [done|done|]. intros k a i Ha Hi. destruct (decide (a = p)) as [->|Hne].
    + assert (i = it) as -> by congruence. by exists (f it).
    + exists i. split; [by apply Hl|by split_and!].
  - apply (lru_rep_frame w); [done|by split_and!|]. intros id a i Ha Hi. exists i.
    split; [|by split_and!]. by apply Hl, (HQp id).
  - apply (slab_inv_frame w); [done|done|done|..]; intros a i Hi Hfl.
    + exists i. split; [|by split_and!]. apply Hl; [done|]. intros ->. congruence.
    + destruct (decide (a = p)) as [->|Hne]; [by exists (f it)|]. exists i. split; [by apply Hl|done].
  - intros id a i Ha Hi. apply (P4 id a); [done|]. revert Hi. upds. rewrite lookup_alter_ne; [done|].
    intros <-. by apply (HQp id p).
Qed.

Lemma fset_queues Q id l p : (forall i, p ∈ Q i -> i = id) -> p ∉ l -> ~ in_queues (fset Q id l) p.
Proof. intros H1 H2 (i & Hi). unfold fset in Hi. case_decide; [done|]. naive_solver. Qed.

(** [f] does not look at the links. *)
Definition link_blind (f : item -> item) (it : item) : Prop :=
  forall a b, f (it <| prev := a |> <| next := b |>) = f it <| prev := a |> <| next := b |>.

(** The queues after a move of [p] from [l1 ++ p :: l2] to the head of [id]. *)
Definition moved_queues Q (id id' : Z) (l1 l2 : list ptr) (p : ptr) : Z -> list ptr :=
  let Q' := fset Q id (l1 ++ l2) in fset Q' id' (p :: Q' id').

Lemma moved_in Q id id' l1 l2 p q i :
  NoDup (Q id) -> Q id = l1 ++ p :: l2 -> q <> p -> q ∈ moved_queues Q id id' l1 l2 p i <-> q ∈ Q i.
Proof.
  intros Hnd HQ Hq. unfold moved_queues, fset. rewrite HQ in Hnd.
  assert (q ∈ l1 ++ l2 <-> q ∈ Q id) as E by (rewrite HQ; set_solver).
  repeat case_decide; subst; rewrite ?elem_of_cons, ?E; naive_solver.
Qed.
Lemma moved_in_self Q id id' l1 l2 p i :
  NoDup (Q id) -> Q id = l1 ++ p :: l2 -> (forall i, p ∈ Q i -> i = id) ->
  p ∈ moved_queues Q id id' l1 l2 p i <-> i = id'.
Proof.
  intros Hnd HQ Hu. rewrite HQ in Hnd. assert (p ∉ l1 ++ l2) as Hn.
  { apply NoDup_app in Hnd as (_ & ? & [? _]%NoDup_cons). set_solver. }
  unfold moved_queues, fset. destruct (decide (i = id')) as [->|Hi]; [split; [done|by left]|].
  split; [|done]. case_decide; [done|]. intros Hp. naive_solver.
Qed.

(** What the three steps of a move make of the queues. *)
Lemma requeue_parts w A Q F U p it f :
  parts w A Q F U -> p <> NULL -> heap w !! p = Some it -> in_queues Q p -> same_link it (f it) ->
  link_blind f it -> has_flag it ITEM_SLABBED = false -> has_flag (f it) ITEM_SLABBED = false ->
  exists w' l1 l2 it', (do_item_unlink_q p;; update_item p f;; do_item_link_q p) w = Some (tt, w')
    /\ Q (it_clsid it) = l1 ++ p :: l2
    /\ parts w' A (moved_queues Q (it_clsid it) (it_clsid (f it)) l1 l2 p) F U
    /\ heap w' !! p = Some it' /\ relinked (f it) it' /\ keeps_others p w w' /\ quiet w w'
    /\ mc_slabs w' = mc_slabs w /\ mc_stats w' = mc_stats w.
Proof.
  intros HP Hp Hit Hq Hl Hb Hs Hs'.
  destruct (queue_split _ _ _ _ _ p it HP Hit Hq) as (l1 & l2 & HQ).
  pose proof (dll_nodup _ _ (lr_dll _ _ (pt_lru _ _ _ _ _ HP) (it_clsid it))) as Hnd.
  assert (forall i, p ∈ Q i -> i = it_clsid it) as Hu.
  { intros i Hi. apply (queue_unique w Q i _ p (pt_lru _ _ _ _ _ HP)); [done|]. rewrite HQ. set_solver. }
  rewrite HQ in Hnd. assert (p ∉ l1 ++ l2) as Hn.
  { apply NoDup_app in Hnd as (_ & ? & [? _]%NoDup_cons). set_solver. }
  destruct (parts_unlink_q w A Q F U p it l1 l2 HP Hit HQ) as (w1 & E1 & Ew1 & P1).
  set (Q1 := fset Q (it_clsid it) (l1 ++ l2)) in *.
  assert (~ in_queues Q1 p) as HnQ by (by apply fset_queues).
  assert (relinked_heap (heap w) (heap w1)) as Hr1 by (rewrite Ew1; unfold unlinked_q; upds; apply relinked_cut).
  destruct (relinked_lookup _ _ _ _ Hr1 Hit) as (it1 & H1 & R1).
  assert (f it1 = f it <| prev := prev it1 |> <| next := next it1 |>) as Ef by (rewrite R1; apply Hb).
  assert (has_flag it1 ITEM_SLABBED = false) as S1 by (by rewrite R1).
  assert (has_flag (f it1) ITEM_SLABBED = false) as S2 by (by rewrite Ef).
  set (w2 := w1 <| heap ::= alter f p |>).
  assert (heap w2 !! p = Some (f it1)) as H2 by (unfold w2; upds; by rewrite lookup_alter_eq, H1).
  assert (parts w2 A Q1 F U) as P2.
  { apply (parts_dequeued w1 A Q1 F U p it1); [done|done|done| |by apply has_flag_slabbed..].
    rewrite Ef, R1. exact Hl. }
  destruct (parts_link_q w2 A Q1 F U p (f it1) P2 Hp H2) as (w3 & E3 & Ew3 & P3); [|done|].
  { intros i Hi. apply HnQ. by exists i. }
  assert (it_clsid (f it1) = it_clsid (f it)) as Ec by (by rewrite Ef).
  assert (relinked_heap (heap w2) (heap w3)) as Hr3 by (rewrite Ew3; unfold linked_q; upds; apply relinked_push).
  destruct (relinked_lookup _ _ _ _ Hr3 H2) as (it3 & H3 & R3).
  exists w3, l1, l2, it3. split; [|split; [done|split; [|split; [done|split; [|split; [|split; [|split]]]]]]].
  - run. rewrite E1. run. rewrite (update_item_alter p f it1) by done. run. exact E3.
  - unfold moved_queues. fold Q1. rewrite <- Ec. exact P3.
  - apply (relinked_trans _ (f it1)); [|done]. unfold relinked. rewrite Ef. by destruct (f it).
  - apply (keeps_others_trans _ _ w1); [by apply relinked_keeps|].
    apply (keeps_others_trans _ _ w2); [apply alter_keeps|by apply relinked_keeps].
  - rewrite Ew3. unfold linked_q, w2. rewrite Ew1. unfold unlinked_q. by split_and!.
  - rewrite Ew3. unfold linked_q, w2. by rewrite Ew1.
  - rewrite Ew3. unfold linked_q, w2. by rewrite Ew1.
Qed.

(** Moving an item of the map. *)
Lemma requeue_ok w A Q F U k p it f :
  cache_inv w A Q F U -> item_of_map w A Q U k p it -> same_link it (f it) -> link_blind f it ->
  ITEM_clsid (f it) = ITEM_clsid it -> stays_linked it (f it) ->
  exists w' Q' it', (do_item_unlink_q p;; update_item p f;; do_item_link_q p) w = Some (tt, w')
    /\ cache_inv w' A Q' F U /\ item_of_map w' A Q' U k p it' /\ relinked (f it) it'
    /\ keeps_others p w w' /\ quiet w w' /\ mc_stats w' = mc_stats w /\ mc_slabs w' = mc_slabs w.
Proof.
  intros HC [I1 I2 I3 (I4 & I5 & I6) I7 [I8 I9] I10] Hl Hb Hc (S1 & S2 & S3 & S4 & S5).
  pose proof (cb_parts _ _ _ _ _ _ _ HC) as HP.
  destruct (requeue_parts w A Q F U p it f HP I2 I1 I10 Hl Hb I5 S3)
    as (w' & l1 & l2 & it' & E & HQ & P' & Hp' & R & HK & HV & Es & Et).
  set (Q' := moved_queues _ _ _ _ _ _) in *.
  pose proof (dll_nodup _ _ (lr_dll _ _ (pt_lru _ _ _ _ _ HP) (it_clsid it))) as Hnd.
  assert (forall i, p ∈ Q i -> i = it_clsid it) as Hu.
  { intros i Hi. apply (queue_unique w Q i _ p (pt_lru _ _ _ _ _ HP)); [done|]. rewrite HQ. set_solver. }
  assert (forall i q, q <> p -> q ∈ Q' i <-> q ∈ Q i) as HQ'.
  { intros i q Hq. by apply moved_in. }
  assert (forall i, p ∈ Q' i <-> i = it_clsid (f it)) as Hp2 by (intros i; by apply moved_in_self).
  assert (in_queues Q' p) as Hin by (exists (it_clsid (f it)); by apply Hp2).
  assert (largest w' = largest w) as EL by apply HV.
  assert (it_flags it' = it_flags (f it) /\ it_clsid it' = it_clsid (f it) /\ refcount it' = refcount (f it)
    /\ ITEM_key it' = ITEM_key (f it)) as (F1 & F2 & F3 & F4) by (rewrite R; by split_and!).
  assert (forall g, has_flag it' g = has_flag (f it) g) as Hf by (intros g; unfold has_flag; by rewrite F1).
  assert (ITEM_clsid it' = ITEM_clsid it) as F5 by (unfold ITEM_clsid in *; by rewrite F2).
  exists w', Q', it'. split; [done|]. split; [|split; [|done]].
  - apply (cache_but_close p).
    + apply (cache_but_step p (size A) (size A) w w' A A Q Q'); try done.
      * by apply (cache_but_weaken (fun _ => False)).
      * intros q Hq. split; intros (i & Hi); exists i; by apply HQ'.
      * intros i q Hi. destruct (decide (q = p)) as [->|Hq]; [|by apply (cb_used _ _ _ _ _ _ _ HC), HQ'].
        apply Hp2 in Hi as ->. unfold clsid_of. unfold ITEM_clsid in Hc at 1. by rewrite Hc.
      * rewrite Et. apply (cb_curr _ _ _ _ _ _ _ HC).
    + split; [done|]. intros _. apply (cb_same _ _ _ _ _ _ _ HC p); [by intros []|done].
    + intros cls Hcl Hu'. unfold class_range in Hcl. rewrite EL in Hcl.
      assert (cls = ITEM_clsid it) as -> by (by apply (used_class_unique _ w F U _ _ p (pt_slab _ _ _ _ _ HP))).
      split. exists it'. rewrite !Hf, F3, F5. split; [done|]. split; [by left|]. split; [done|]. split; [done|].
      split; [lia|]. split; [done|lia].
  - split; [done|done|by rewrite F4, S1|by rewrite !Hf| | |done].
    + by rewrite F3.
    + unfold class_range. rewrite F5, EL. by split.
Qed.

(** ** do_item_update *)

(** The same value under the same key; only links, time, queue and [ITEM_ACTIVE]
    may differ. *)
Definition same_value (it it' : item) : Prop :=
  it' = it <| prev := prev it' |> <| next := next it' |> <| h_next := h_next it' |> <| time := time it' |>
           <| it_clsid := it_clsid it' |> <| it_flags := it_flags it' |>
  /\ ITEM_clsid it' = ITEM_clsid it
  /\ forall f, Z.land f ITEM_ACTIVE = 0 -> has_flag it' f = has_flag it f.

Lemma same_value_refl it : same_value it it.
Proof. split; [by destruct it|done]. Qed.
Lemma same_value_trans a b c : same_value a b -> same_value b c -> same_value a c.
Proof.
  intros (E1 & C1 & F1) (E2 & C2 & F2). split; [|split; [congruence|intros f Hf; by rewrite F2, F1]].
  rewrite E2 at 1. rewrite E1 at 1. reflexivity.
Qed.
Lemma same_value_relinked a b : relinked a b -> same_value a b.
Proof. intros R. split; [unfold relinked in R; destruct a, b; cbv in *; congruence|]. rewrite R. by split. Qed.
Lemma same_value_time it t : same_value it (it <| time := t |>).
Proof. split; [by destruct it|done]. Qed.

(** To the warm queue, no longer active. *)
Definition to_warm (i : item) : item :=
  clear_flag ITEM_ACTIVE (i <| it_clsid := ITEM_clsid i |> <| it_clsid ::= fun c => Z.lor c WARM_LRU |>).

Lemma ldiff_lor_warm c : Z.ldiff (Z.lor (Z.ldiff c (Z.shiftl 3 6)) WARM_LRU) (Z.shiftl 3 6) = Z.ldiff c (Z.shiftl 3 6).
Proof.
  change (Z.shiftl 3 6) with 192. unfold WARM_LRU. apply Z.bits_inj'. intros n Hn.
  rewrite !Z.ldiff_spec, Z.lor_spec, Z.ldiff_spec.
  destruct (decide (n = 6)) as [->|]; [by rewrite !andb_false_r|].
  assert (Z.testbit 64 n = false) as ->; [|rewrite orb_false_r; by destruct (Z.testbit c n), (Z.testbit 192 n)].
  change 64 with (2 ^ 6). by apply Z.pow2_bits_false.
Qed.
Lemma to_warm_value it : same_value it (to_warm it).
Proof.
  split; [by destruct it|]. split; [apply ldiff_lor_warm|].
  intros f Hf. unfold to_warm. rewrite has_flag_clear by (by rewrite Z.land_comm). done.
Qed.

Lemma same_value_linked it it' : same_value it it' -> has_flag it ITEM_LINKED = true ->
  has_flag it ITEM_SLABBED = false -> has_flag it ITEM_CHUNKED = false -> 1 <= refcount it < 2 ^ 16 ->
  stays_linked it it'.
Proof.
  intros (E & Ec & F) H1 H2 H3 H4. unfold stays_linked. rewrite !F by done.
  split; [by rewrite E|]. do 3 (split; [done|]). by rewrite E.
Qed.

Lemma set_time_ok w A Q F U k p it t :
  cache_inv w A Q F U -> item_of_map w A Q U k p it ->
  exists w', update_item p (fun i => i <| time := t |>) w = Some (tt, w')
    /\ w' = w <| heap ::= alter (fun i => i <| time := t |>) p |>
    /\ cache_inv w' A Q F U /\ item_of_map w' A Q U k p (it <| time := t |>) /\ keeps_others p w w'.
Proof.
  intros HC HI. apply (cache_alter w A Q F U k p it); [done|done|..]; destruct HI as [I1 I2 I3 (I4 & I5 & I6) I7 I8 I9].
  - unfold keeps. split; [by split_and!|]. split; [by split_and!|]. apply has_flag_slabbed in I5. done.
  - by apply same_value_linked; [apply same_value_time|..].
Qed.

(** The two moves of [do_item_update]. *)
Lemma move_warm_ok w A Q F U k p it :
  cache_inv w A Q F U -> item_of_map w A Q U k p it ->
  exists w' Q' it', (item_unlink_q p;; update_item p to_warm;; item_link_q_warm p) w = Some (tt, w')
    /\ cache_inv w' A Q' F U /\ item_of_map w' A Q' U k p it' /\ same_value it it'
    /\ keeps_others p w w' /\ quiet w w' /\ mc_stats w' = mc_stats w.
Proof.
  intros HC HI. pose proof HI as [I1 I2 I3 (I4 & I5 & I6) I7 I8 I9].
  destruct (requeue_ok w A Q F U k p it to_warm HC HI) as (w1 & Q' & it' & E & HC' & HI' & R & HK & HV & Es & Et).
  - by split_and!.
  - done.
  - apply to_warm_value.
  - apply same_value_linked; [apply to_warm_value|done..].
  - unfold item_unlink_q, item_link_q_warm. revert E. run.
    destruct (do_item_unlink_q p w) as [[[] u1]|]; [|done]. run.
    destruct (update_item p to_warm u1) as [[[] u2]|]; [|done]. run. intros ->. run.
    rewrite (load_ok p it') by (done || apply HI'). run.
    eexists _, Q', it'. split; [unfold on_istats; run; done|].
    split; [by apply (cache_other _ _ w1)|]. split; [by destruct HI'; split|].
    split; [by apply (same_value_trans _ (to_warm it)); [apply to_warm_value|apply same_value_relinked]|].
    split; [done|]. by split.
Qed.
Lemma move_front_ok w A Q F U k p it :
  cache_inv w A Q F U -> item_of_map w A Q U k p it ->
  exists w' Q' it', (item_unlink_q p;; item_link_q p) w = Some (tt, w')
    /\ cache_inv w' A Q' F U /\ item_of_map w' A Q' U k p it' /\ same_value it it'
    /\ keeps_others p w w' /\ quiet w w' /\ mc_stats w' = mc_stats w.
Proof.
  intros HC HI. pose proof HI as [I1 I2 I3 (I4 & I5 & I6) I7 I8 I9].
  destruct (requeue_ok w A Q F U k p it id HC HI) as (w' & Q' & it' & E & HC' & HI' & R & HK & HV & Es & Et).
  - by split_and!.
  - done.
  - done.
  - by apply same_value_linked; [apply same_value_refl|..].
  - exists w', Q', it'. split; [|split; [done|split; [done|split; [by apply same_value_relinked|done]]]].
    unfold item_unlink_q, item_link_q. revert E. run.
    destruct (do_item_unlink_q p w) as [[[] u1]|] eqn:Eu; [|done]. run. unfold update_item.
    rewrite decide_False by done. destruct (heap u1 !! p) as [i|] eqn:Ei; [|done]. cbv beta iota.
    by rewrite (heap_insert_id u1 p i).
Qed.

Lemma do_item_update_ok w A Q F U k p it :
  cache_inv w A Q F U -> item_of_map w A Q U k p it ->
  exists w' Q' it', do_item_update p w = Some (tt, w')
    /\ cache_inv w' A Q' F U /\ item_of_map w' A Q' U k p it' /\ same_value it it'
    /\ keeps_others p w w' /\ quiet w w' /\ mc_stats w' = mc_stats w.
Proof.
  intros HC HI. pose proof HI as [I1 I2 I3 (I4 & I5 & I6) I7 I8 I9].
  destruct (set_time_ok w A Q F U k p it (current_time w) HC HI) as (w1 & E1 & Ew1 & HC1 & HI1 & HK1).
  assert (quiet w w1 /\ mc_stats w1 = mc_stats w) as [V1 T1] by (rewrite Ew1; by split_and!).
  unfold do_item_update. run. rewrite (load_ok p it) by done. run.
  destruct (lru_segmented (mc_settings w)); rewrite ?I5; run; rewrite ?I4.
  - destruct ((ITEM_lruid it =? COLD_LRU) && has_flag it ITEM_ACTIVE); run; rewrite E1; run.
    + destruct (move_warm_ok w1 A Q F U k p _ HC1 HI1) as (w2 & Q' & it' & E & HC2 & HI2 & S & HK2 & V2 & T2).
      exists w2, Q', it'. split; [exact E|]. split; [done|]. split; [done|].
      split; [by apply (same_value_trans _ (it <| time := current_time w |>)); [apply same_value_time|]|].
      split; [by apply (keeps_others_trans _ _ w1)|]. split; [by apply (quiet_trans _ w1)|congruence].
    + exists w1, Q. eexists. split; [done|]. split; [done|]. split; [done|]. by split; [apply same_value_time|].
  - destruct (time it <? _); run.
    + rewrite E1. run.
      destruct (move_front_ok w1 A Q F U k p _ HC1 HI1) as (w2 & Q' & it' & E & HC2 & HI2 & S & HK2 & V2 & T2).
      exists w2, Q', it'. split; [exact E|]. split; [done|]. split; [done|].
      split; [by apply (same_value_trans _ (it <| time := current_time w |>)); [apply same_value_time|]|].
      split; [by apply (keeps_others_trans _ _ w1)|]. split; [by apply (quiet_trans _ w1)|congruence].
    + exists w, Q, it. split; [done|]. split; [done|]. split; [done|]. split; [apply same_value_refl|].
      split; [apply keeps_others_refl|]. by split_and!.
Qed.
End move.
