(* ===== verification/StoreSpec.v ===== *)
(** * The store commands against an abstract cache

    [spec_store] is what the memcached protocol promises of set, add, replace,
    append, prepend and cas on a finite map from keys to entries;
    [do_store_item] implements it on the shared state. *)

From S2P Require Import Prelude Memory Dll Assoc AssocSpec Slabs SlabsSpec SlabPages SlabAlloc.
From S2P Require Import Items LruSpec Parts CacheSpec CacheAlloc CacheProps CacheMove Store.

(** ** Abstract entries *)

Record entry := Entry {
  e_flags : Z; e_exptime : Z; e_data : list Z; e_cas : Z; e_stale : bool; e_token : bool
}.
#[export] Instance eta_entry : Eta entry := fun r =>
  Entry (e_flags r) (e_exptime r) (e_data r) (e_cas r) (e_stale r) (e_token r).
#[export] Instance upd_e_exptime : Upd e_exptime. Proof. solve_upd. Defined.
#[export] Instance upd_e_data : Upd e_data. Proof. solve_upd. Defined.
#[export] Instance upd_e_cas : Upd e_cas. Proof. solve_upd. Defined.
#[export] Instance upd_e_stale : Upd e_stale. Proof. solve_upd. Defined.
#[export] Instance upd_e_token : Upd e_token. Proof. solve_upd. Defined.

Definition entry_of (it : item) : entry :=
  Entry (FLAGS_CONV it) (exptime it) (ITEM_data it) (ITEM_get_cas it)
    (has_flag it ITEM_STALE) (has_flag it ITEM_TOKEN_SENT).

(** The contents of the cache. *)
Definition abs (w : mc) (A : gmap (list Z) ptr) : gmap (list Z) entry :=
  omap (fun p => entry_of <$> heap w !! p) A.

(** The value of an append or prepend: the first value without its CRLF, then the
    second. *)
Definition joined (a b : list Z) : list Z := ztake (zlen a - 2) a ++ b.

(** What the CAS id the client sent says about the present entry: none given, the
    entry's own, an older one where the client marks the entry stale, a wrong one. *)
Definition cas_verdict (set_stale : bool) (sent present : Z) : cas_result :=
  if decide (sent = 0) then CAS_NONE
  else if decide (sent = present) then CAS_MATCH
  else if decide (set_stale = true /\ sent < present) then CAS_STALE
  else CAS_BADVAL.
Lemma cas_test_verdict set_stale sent present :
  cas_test set_stale sent present = cas_verdict set_stale sent present.
Proof.
  unfold cas_test, cas_verdict.
  destruct (Z.eqb_spec sent 0), (Z.eqb_spec sent present); case_decide; try done; case_decide; try done.
  destruct set_stale, (Z.ltb_spec sent present); case_decide; (done || naive_solver lia).
Qed.

(** The answer and the new contents; [next] is the CAS id a stored entry gets. *)
Definition spec_store (comm : nread) (set_stale : bool) (key : list Z) (e : entry) (next : Z)
    (m : gmap (list Z) entry) : store_item_type * gmap (list Z) entry :=
  let put e := (STORED, <[key := e <| e_cas := next |>]> m) in
  match m !! key with
  | None =>
      match comm with
      | NREAD_ADD | NREAD_SET => put e
      | NREAD_CAS => (NOT_FOUND, m)
      | _ => (NOT_STORED, m)
      end
  | Some o =>
      let test := cas_verdict set_stale (e_cas e) (e_cas o) in
      match comm with
      | NREAD_ADD => (NOT_STORED, m)
      | NREAD_SET | NREAD_REPLACE => put e
      | NREAD_CAS =>
          match test with
          | CAS_MATCH => put e
          | CAS_STALE => put (e <| e_exptime := e_exptime o |> <| e_stale := true |>
                                <| e_token ::= orb (e_token o) |>)
          | _ => (EXISTS, m)
          end
      | NREAD_APPEND | NREAD_PREPEND =>
          match test with
          | CAS_NONE | CAS_MATCH =>
              put (o <| e_data := if decide (comm = NREAD_APPEND) then joined (e_data o) (e_data e)
                                  else joined (e_data e) (e_data o) |>
                     <| e_stale := false |> <| e_token := false |>)
          | _ => (EXISTS, m)
          end
      end
  end.

Section abs.
Implicit Types (w : mc) (A : gmap (list Z) ptr).

Lemma abs_lookup w A k : abs w A !! k = A !! k ≫= fun p => entry_of <$> heap w !! p.
Proof. unfold abs. apply lookup_omap. Qed.
Lemma abs_some w A k p it : A !! k = Some p -> heap w !! p = Some it -> abs w A !! k = Some (entry_of it).
Proof. intros Hk Hp. by rewrite abs_lookup, Hk; cbn; rewrite Hp. Qed.
Lemma abs_none w A k : A !! k = None -> abs w A !! k = None.
Proof. intros Hk. by rewrite abs_lookup, Hk. Qed.

(** Entries do not see links, queues, reference counts and times. *)
Definition same_entry (it it' : item) : Prop := entry_of it' = entry_of it.
Lemma content_entry it it' : content it it' -> same_entry it it'.
Proof. intros ->. reflexivity. Qed.
Lemma same_value_entry it it' : same_value it it' -> same_entry it it'.
Proof.
  intros (E & _ & F). unfold same_entry, entry_of, FLAGS_CONV, ITEM_get_cas. rewrite !F by done. by rewrite E.
Qed.

(** The table [A'] of [w'] shows the entries of [A] in [w] but at [k]. *)
Lemma abs_but w w' A A' k m :
  (forall k', k' <> k -> A' !! k' = A !! k') ->
  (forall k' p it, k' <> k -> A !! k' = Some p -> heap w !! p = Some it ->
     exists it', heap w' !! p = Some it' /\ same_entry it it') ->
  (forall k' p, k' <> k -> A !! k' = Some p -> is_Some (heap w !! p)) ->
  (forall k', k' <> k -> m !! k' = abs w A !! k') -> abs w' A' !! k = m !! k -> abs w' A' = m.
Proof.
  intros HA Hh Hs Hm Hk. apply map_eq. intros k'. destruct (decide (k' = k)) as [->|Hne]; [done|].
  rewrite Hm, !abs_lookup, HA by done. destruct (A !! k') as [p|] eqn:Ep; [|done]. cbn.
  destruct (Hs k' p Hne Ep) as [it Hit]. destruct (Hh k' p it Hne Ep Hit) as (it' & -> & E).
  rewrite Hit. cbn. by rewrite E.
Qed.
End abs.
