(* ===== verification/StoreProps.v ===== *)
(** * do_store_item implements the store commands *)

From S2P Require Import Prelude Memory Dll Assoc AssocSpec AssocIter Slabs SlabsSpec SlabPages SlabAlloc SlabProps.
From S2P Require Import Items LruSpec Parts CacheSpec CacheAlloc CacheProps CacheMove Store StoreSpec.

Section store.
Context `{HashFunction}.
Implicit Types (w : mc) (A : gmap (list Z) ptr) (Q F U : Z -> list ptr).

Lemma largest_slabs w w' : mc_slabs w' = mc_slabs w -> largest w' = largest w.
Proof. intros E. unfold largest. by rewrite E. Qed.

Lemma map_other w w' A Q U k p it :
  item_of_map w A Q U k p it -> heap w' = heap w -> mc_slabs w' = mc_slabs w -> item_of_map w' A Q U k p it.
Proof.
  intros [I1 I2 I3 I4 I5 I6 I7] E1 E2. split; [by rewrite E1|done|done|done|done| |done].
  unfold class_range. by rewrite (largest_slabs w w' E2).
Qed.

Lemma map_inj w A Q F U k k' p : cache_inv w A Q F U -> A !! k = Some p -> A !! k' = Some p -> k' = k.
Proof.
  intros HC Hk Hk'. destruct (cache_item w A Q F U k p HC Hk) as (i & [I1 _ I3 _ _ _ _]).
  destruct (cache_item w A Q F U k' p HC Hk') as (j & [J1 _ J3 _ _ _ _]). congruence.
Qed.

(** The items of the other keys keep their contents from [w] to [w']. *)
Definition keeps_keys (k : list Z) w w' A : Prop :=
  forall k' a i, k' <> k -> A !! k' = Some a -> heap w !! a = Some i -> it_flags i <> ITEM_SLABBED ->
    exists i', heap w' !! a = Some i' /\ content i i'.

Lemma keeps_keys_trans k w1 w2 w3 A A' :
  (forall k', k' <> k -> A' !! k' = A !! k') -> keeps_keys k w1 w2 A -> keeps_keys k w2 w3 A' -> keeps_keys k w1 w3 A.
Proof.
  intros HA K1 K2 k' a i Hk Ha Hi Hf. destruct (K1 k' a i Hk Ha Hi Hf) as (i2 & H2 & C2).
  destruct (K2 k' a i2 Hk) as (i3 & H3 & C3); [by rewrite HA|done|by rewrite (content_flags _ _ C2)|].
  exists i3. split; [done|by apply (content_trans _ i2)].
Qed.
Lemma keeps_keys_old w w' A Q F U k p :
  cache_inv w A Q F U -> A !! k = Some p -> keeps_others p w w' -> keeps_keys k w w' A.
Proof.
  intros HC Hk HK k' a i Hne Ha. apply HK. intros ->. apply Hne. by apply (map_inj w A Q F U k k' p).
Qed.
Lemma keeps_keys_new k w w' A p : ~ in_map A p -> keeps_others p w w' -> keeps_keys k w w' A.
Proof. intros Hp HK k' a i Hne Ha. apply HK. intros ->. apply Hp. by exists k'. Qed.
Lemma keeps_keys_heap k w w' A : heap w' = heap w -> keeps_keys k w w' A.
Proof. intros E k' a i _ _ Hi _. exists i. rewrite E. split; [done|apply content_refl]. Qed.

Lemma abs_frame w w' A A' Q F U k m :
  cache_inv w A Q F U -> (forall k', k' <> k -> A' !! k' = A !! k') -> keeps_keys k w w' A ->
  (forall k', k' <> k -> m !! k' = abs w A !! k') -> abs w' A' !! k = m !! k -> abs w' A' = m.
Proof.
  intros HC HA HK Hm Hk.
  assert (forall k' p, A !! k' = Some p -> exists it, heap w !! p = Some it /\ it_flags it <> ITEM_SLABBED) as Hi.
  { intros k' p Hp. destruct (cache_item w A Q F U k' p HC Hp) as (it & [I1 _ _ (_ & I5 & _) _ _ _]).
    exists it. split; [done|by apply has_flag_slabbed]. }
  apply (abs_but w w' A A' k m); [done| | |done|done].
  - intros k' p it Hne Hp Hit. destruct (Hi k' p Hp) as (i & Hi' & Hf). assert (i = it) as -> by congruence.
    destruct (HK k' p it Hne Hp Hit Hf) as (it' & ? & ?). exists it'. split; [done|by apply content_entry].
  - intros k' p _ Hp. destruct (Hi k' p Hp) as (i & ? & _). by exists i.
Qed.

(** ** A replacement while the old item is held *)

(** What an item becomes when it is linked. *)
Definition stored_item w (it : item) : item :=
  linked_item (current_time w) (if use_cas (mc_settings w) then u64 (cas_id (mc_lru w) + 1) else 0) it
    <| refcount := refcount it + 1 |>.

Lemma stored_flags w it g : Z.land g ITEM_LINKED = 0 -> has_flag (stored_item w it) g = has_flag it g.
Proof.
  intros Hg. transitivity (has_flag (set_flag ITEM_LINKED it) g); [|apply has_flag_set; by rewrite Z.land_comm].
  unfold stored_item, linked_item, ITEM_set_cas.
  by destruct (has_flag (set_flag ITEM_LINKED it <| time := current_time w |>) ITEM_CAS).
Qed.
Lemma stored_fields w it :
  refcount (stored_item w it) = refcount it + 1 /\ it_clsid (stored_item w it) = it_clsid it
  /\ it_key (stored_item w it) = it_key it /\ nkey (stored_item w it) = nkey it.
Proof. unfold stored_item, linked_item, ITEM_set_cas. by destruct (has_flag _ _). Qed.

Lemma link_new w A Q F U p it :
  cache_inv w A Q F U -> held_item w A Q U p it -> nkey it = zlen (it_key it) ->
  A !! it_key it = None -> 0 <= refcount it < 2 ^ 16 - 1 ->
  exists w' Q' it', do_item_link p (hash (it_key it)) w = Some (1, w')
    /\ cache_inv w' (<[it_key it := p]> A) Q' F U /\ heap w' !! p = Some it'
    /\ content (stored_item w it) it' /\ keeps_others p w w' /\ same_env w w' /\ mc_slabs w' = mc_slabs w.
Proof.
  intros HC HI Hn HA Hr.
  destruct (link_ok (base.size A) w A Q F U p it) as (w' & Q' & it' & E & HR & Hp & Hc & HK & He); try done.
  { by apply (cache_but_weaken (fun _ => False)). }
  exists w', Q', (it' <| refcount := refcount it + 1 |>). split; [done|].
  split; [unfold cache_inv; by rewrite map_size_insert_None|]. split; [done|]. split; [|done].
  unfold stored_item. rewrite Hc. reflexivity.
Qed.

Lemma same_env_largest_held w w' A Q U p it :
  held_item w A Q U p it -> heap w' !! p = Some it -> largest w' = largest w -> held_item w' A Q U p it.
Proof. intros [I1 I2 I3 [I8 I9] I10] Hp HL. split; [done|done|done| |done]. unfold class_range. by rewrite HL. Qed.

Lemma replace_held w A Q F U k p it q new :
  cache_inv w A Q F U -> A !! k = Some p -> item_of_map w A Q U k p it -> 1 < refcount it ->
  held_item w A Q U q new -> it_key new = k -> nkey new = zlen k -> 0 <= refcount new < 2 ^ 16 - 1 ->
  exists w' Q' it' itp, do_item_replace p q (hash k) w = Some (1, w')
    /\ cache_inv w' (<[k := q]> A) Q' F U
    /\ heap w' !! q = Some it' /\ content (stored_item w new) it'
    /\ held_item w' (<[k := q]> A) Q' U p itp
    /\ content (clear_flag ITEM_LINKED it <| refcount := refcount it - 1 |>) itp
    /\ keeps_keys k w w' A
    /\ mc_slabs w' = mc_slabs w /\ same_env w w'
    /\ (forall a i, a <> p -> a <> q -> heap w !! a = Some i -> it_flags i <> ITEM_SLABBED ->
          exists i', heap w' !! a = Some i' /\ content i i').
Proof.
  intros HC Hk HI Hr1 HH Ek En Hr. pose proof HI as [I1 I2 I3 (I4 & I5 & I6) I7 [I8 I9] I10].
  pose proof HH as [J1 J2 (J4 & J5 & J6) [J8 J9] [O1 O2]].
  assert (q <> p) as Hqp by (intros ->; apply O2; by exists k).
  destruct (unlink_ok w A Q F U k p it HC Hk HI) as (w1 & Q1 & F1 & U1 & E & _ & HC1 & HK1 & HE1 & H1 & _ & HS1).
  destruct (H1 Hr1) as (-> & -> & itp & Hp1 & Cp & HHp). pose proof HE1 as ((Es & Et & _) & EL & Ec).
  destruct (HK1 q new Hqp J1) as (new1 & Hn1 & Hc1); [by apply has_flag_slabbed|].
  assert (it_key new1 = k /\ nkey new1 = zlen k /\ refcount new1 = refcount new
    /\ it_flags new1 = it_flags new /\ ITEM_clsid new1 = ITEM_clsid new) as (K1 & K2 & K3 & K4 & K5)
    by (rewrite Hc1; by split_and!).
  assert (held_item w1 (base.delete k A) Q1 U q new1) as HH1.
  { apply (held_of_unlinked _ _ _ F); try done; [unfold has_flag; by rewrite K4..| |by rewrite K5].
    rewrite K5. unfold class_range. by rewrite EL. }
  destruct (link_new w1 (base.delete k A) Q1 F U q new1 HC1 HH1) as (w2 & Q2 & it2 & E2 & HC2 & Hq2 & Hc2 & HK2 & HE2 & HS2).
  { by rewrite K1. }
  { rewrite K1. apply lookup_delete_eq. }
  { lia. }
  rewrite K1 in E2, HC2. rewrite insert_delete_eq in HC2.
  destruct (HK2 p itp) as (itp2 & Hp2 & Cp2); [done|done|by apply has_flag_slabbed, (hi_flags _ _ _ _ _ _ HHp)|].
  assert (it_flags itp2 = it_flags itp /\ it_clsid itp2 = it_clsid itp /\ refcount itp2 = refcount itp
    /\ ITEM_clsid itp2 = ITEM_clsid itp) as (L1 & L2 & L3 & L4) by (rewrite Cp2; by split_and!).
  exists w2, Q2, it2, itp2. split; [|split; [done|split; [done|split; [|split; [|split; [|split; [|split; [|split]]]]]]]].
  - unfold do_item_replace. run. rewrite (load_ok p it) by done. run. rewrite I5. run. rewrite E. run. exact E2.
  - apply (content_trans _ (stored_item w1 new1)); [|done].
    unfold stored_item. rewrite Es, Et, Ec, K3. pose proof (linked_item_content (current_time w)
      (if use_cas (mc_settings w) then u64 (cas_id (mc_lru w) + 1) else 0) new new1 Hc1) as Hl.
    rewrite Hl. reflexivity.
  - apply (held_of_unlinked _ _ _ F); [done|done|done| | | |].
    + unfold has_flag. rewrite L1. apply (hi_flags _ _ _ _ _ _ HHp).
    + unfold has_flag. rewrite L1. apply (hi_flags _ _ _ _ _ _ HHp).
    + rewrite L4. pose proof (hi_used _ _ _ _ _ _ HHp) as [Hu _].
      unfold class_range in *. by rewrite (largest_slabs w1 w2).
    + rewrite L4. apply (hi_used _ _ _ _ _ _ HHp).
  - by apply (content_trans _ itp).
  - apply (keeps_keys_trans k w w1 w2 A (base.delete k A)); [intros k' Hne; by rewrite lookup_delete_ne|..].
    + by apply (keeps_keys_old w w1 A Q F U k p).
    + apply (keeps_keys_new _ _ _ _ q); [|done]. apply (hi_out _ _ _ _ _ _ HH1).
  - by rewrite HS2, (HS1 Hr1).
  - apply (same_env_trans _ w1); [apply HE1|done].
  - intros a i Hap Haq Ha Hf. destruct (HK1 a i Hap Ha Hf) as (i1 & Ha1 & Hi1).
    destruct (HK2 a i1 Haq Ha1) as (i2 & Ha2 & Hi2); [by rewrite (content_flags _ _ Hi1)|].
    exists i2. split; [done|by apply (content_trans _ i1)].
Qed.

(** ** The fetch that starts a command *)

(** The item a fetch of [key] serves. *)
Definition visible w A (key : list Z) : option item :=
  match A !! key with
  | Some q => match heap w !! q with
              | Some i => if item_gone i w then None else Some i
              | None => None
              end
  | None => None
  end.

Lemma held_kept w w' A A' Q Q' F' U U' x p it :
  cache_inv w' A' Q' F' U' -> held_item w A Q U p it -> p <> x -> keeps_others x w w' -> calm w w' ->
  keeps_class x w U U' -> exists it', held_item w' A' Q' U' p it' /\ content it it'.
Proof.
  intros HC [I1 I2 (I4 & I5 & I6) [I8 I9] I10] Hx HK HV HL.
  destruct (HK p it Hx I1) as (it' & Hp & Cp); [by apply has_flag_slabbed|].
  exists it'. split; [|done].
  assert (it_flags it' = it_flags it /\ ITEM_clsid it' = ITEM_clsid it) as [E1 E2] by (rewrite Cp; by split).
  assert (class_range w' (ITEM_clsid it)) as Hr by (unfold class_range in *; by rewrite (proj1 (proj2 (proj2 HV)))).
  apply (held_of_unlinked _ _ _ F'); try done; rewrite ?E2; [unfold has_flag; by rewrite E1..|done|by apply HL].
Qed.

Inductive fetched w A Q F U (key : list Z) (p : ptr) (it : item) : ptr -> mc -> Prop :=
  | fetched_none w1 Q1 F1 U1 it1 :
      visible w A key = None ->
      cache_inv w1 (base.delete key A) Q1 F1 U1 -> held_item w1 (base.delete key A) Q1 U1 p it1 ->
      content it it1 -> calm w w1 -> keeps_keys key w w1 A -> fetched w A Q F U key p it NULL w1
  | fetched_some q i :
      visible w A key = Some i -> q <> NULL -> A !! key = Some q -> heap w !! q = Some i ->
      let w1 := w <| heap ::= alter (fun i' => i' <| refcount := refcount i + 1 |>) q |> in
      cache_inv w1 A Q F U -> item_of_map w1 A Q U key q (i <| refcount := refcount i + 1 |>) ->
      held_item w1 A Q U p it -> keeps_keys key w w1 A -> fetched w A Q F U key p it q w1.

Lemma fetch_ok w A Q F U key p it :
  cache_inv w A Q F U -> held_item w A Q U p it ->
  (forall q i, A !! key = Some q -> heap w !! q = Some i -> refcount i < 2 ^ 16 - 1) ->
  exists q w1, do_item_get key (hash key) false w = Some (q, w1) /\ fetched w A Q F U key p it q w1.
Proof.
  intros HC HH Hr. destruct (A !! key) as [q|] eqn:Hk.
  - destruct (cache_item w A Q F U key q HC Hk) as (i & HI). pose proof HI as [I1 I2 _ _ _ _ _].
    assert (p <> q) as Hpq by (intros ->; apply (hi_out _ _ _ _ _ _ HH); by exists key).
    assert (visible w A key = if item_gone i w then None else Some i) as Hv by (unfold visible; by rewrite Hk, I1).
    destruct (item_gone i w) eqn:Hg.
    + destruct (get_gone_ok w A Q F U key q i false HC Hk HI (Hr q i eq_refl I1) Hg)
        as (w1 & Q1 & F1 & U1 & E & HC1 & HK1 & HV1 & HL1 & _).
      destruct (held_kept w w1 A _ Q Q1 F1 U U1 q p it HC1 HH Hpq HK1 HV1 HL1) as (it1 & HH1 & C1).
      exists NULL, w1. split; [done|]. apply (fetched_none w A Q F U key p it w1 Q1 F1 U1 it1); try done.
      by apply (keeps_keys_old w w1 A Q F U key q).
    + destruct (get_found_ok w A Q F U key q i HC Hk HI (Hr q i eq_refl I1) Hg) as (w1 & E & HC1 & Ew & HI1 & HK1).
      exists q, w1. split; [done|]. subst w1. apply (fetched_some w A Q F U key p it q i); try done.
      * apply (same_env_largest_held w); [done| |done]. upds. rewrite lookup_alter_ne by done. apply HH.
      * by apply (keeps_keys_old w _ A Q F U key q).
  - exists NULL, w. split.
    { unfold do_item_get, do_item_get_found. run. rewrite (assoc_find_rep w A key) by apply HC. rewrite Hk. by run. }
    apply (fetched_none w A Q F U key p it w Q F U it).
    + unfold visible. by rewrite Hk.
    + by rewrite delete_id.
    + by rewrite delete_id.
    + apply content_refl.
    + by split_and!.
    + by apply keeps_keys_heap.
Qed.

(** ** Releasing and replacing *)

(** A reference to an item that stays in the map. *)
Lemma drop_linked w A Q F U k p it :
  cache_inv w A Q F U -> item_of_map w A Q U k p it -> 1 < refcount it ->
  exists w', do_item_remove p w = Some (tt, w')
    /\ w' = w <| heap ::= alter (fun i => i <| refcount := refcount it - 1 |>) p |>
    /\ cache_inv w' A Q F U /\ item_of_map w' A Q U k p (it <| refcount := refcount it - 1 |>)
    /\ keeps_others p w w'.
Proof.
  intros HC HI Hr. pose proof HI as [I1 I2 I3 (I4 & I5 & I6) I7 I8 I9].
  destruct (cache_alter w A Q F U k p it (fun i => i <| refcount := refcount it - 1 |>) HC HI)
    as (w' & _ & Ew & HC' & HI' & HK').
  - apply keeps_refcount. by apply has_flag_slabbed.
  - split; [done|]. do 3 (split; [done|]). upds. lia.
  - exists w'. split; [|done]. unfold do_item_remove, refcount_decr. run.
    rewrite (load_ok p it) by done. run. rewrite I5, (proj2 (Z.ltb_lt 0 (refcount it))) by lia. run.
    rewrite (update_refcount w p it (fun r => u16 (r - 1)) I2 I1). cbv beta. rewrite u16_id by lia. run.
    rewrite <- Ew. rewrite (load_ok p _ _ I2 (im_heap _ _ _ _ _ _ _ HI')). run.
    upds. by rewrite (proj2 (Z.eqb_neq (refcount it - 1) 0)) by lia.
Qed.

(** The tail of a store over a fetched item. *)
Lemma replace_fetched w A Q F U k p it q new :
  cache_inv w A Q F U -> A !! k = Some p -> item_of_map w A Q U k p it -> 1 < refcount it ->
  held_item w A Q U q new -> it_key new = k -> nkey new = zlen k -> 0 <= refcount new < 2 ^ 16 - 1 ->
  exists w' Q' F' U' it', (STORAGE_delete p;; do_item_replace p q (hash k);; do_item_remove p) w = Some (tt, w')
    /\ cache_inv w' (<[k := q]> A) Q' F' U' /\ heap w' !! q = Some it' /\ content (stored_item w new) it'
    /\ keeps_keys k w w' A.
Proof.
  intros HC Hk HI Hr1 HH Ek En Hr. pose proof HI as [I1 I2 I3 (I4 & I5 & I6) I7 [I8 I9] I10].
  assert (q <> p) as Hqp by (intros ->; apply (hi_out _ _ _ _ _ _ HH); by exists k).
  run. rewrite (STORAGE_delete_ok p it) by done. run. set (w1 := w <| storage_deleted := _ |>).
  destruct (replace_held w1 A Q F U k p it q new) as (w2 & Q2 & it2 & itp & E2 & HC2 & Hq2 & Cq & HHp & Rp & HK2 & _); try done.
  { by apply (cache_other _ _ w). }
  { by apply (held_other w). }
  rewrite E2. run. destruct (remove_ok w2 (<[k:=q]> A) Q2 F U p itp) as (w3 & F3 & U3 & E3 & HC3 & HK3 & _);
    [done|done|rewrite Rp; upds; lia|].
  destruct (HK3 q it2 Hqp Hq2) as (it3 & Hq3 & C3).
  { rewrite (content_flags _ _ Cq). apply has_flag_slabbed. rewrite stored_flags by done. apply (hi_flags _ _ _ _ _ _ HH). }
  exists w3, Q2, F3, U3, it3. split; [done|]. split; [done|]. split; [done|].
  split; [by apply (content_trans _ it2)|].
  apply (keeps_keys_trans k w w2 w3 A (<[k:=q]> A)); [intros k' Hne; by rewrite lookup_insert_ne|done|].
  intros k' a i Hne Ha. apply HK3. intros ->. apply (hi_out _ _ _ _ _ _ HHp). by exists k'.
Qed.

Lemma stored_entry w it :
  has_flag it ITEM_CAS = use_cas (mc_settings w) ->
  entry_of (stored_item w it)
  = entry_of it <| e_cas := if use_cas (mc_settings w) then u64 (cas_id (mc_lru w) + 1) else 0 |>.
Proof.
  intros Hf. unfold entry_of, FLAGS_CONV, ITEM_get_cas. rewrite !stored_flags by done. rewrite Hf.
  unfold stored_item, linked_item, ITEM_set_cas.
  change (has_flag (set_flag ITEM_LINKED it <| time := current_time w |>) ITEM_CAS) with (has_flag (set_flag ITEM_LINKED it) ITEM_CAS).
  rewrite has_flag_set, Hf by done. by destruct (use_cas (mc_settings w)).
Qed.

(** ** The two arms of do_store_item *)

(** The first reference is taken over; the caller's one remains. *)
Definition storable w A Q U (p : ptr) (it : item) (k : list Z) : Prop :=
  held_item w A Q U p it /\ it_key it = k /\ nkey it = zlen k /\ 0 <= refcount it < 2 ^ 16 - 1.

Lemma storable_key w A Q U p it k : storable w A Q U p it k -> ITEM_key it = k.
Proof. intros (_ & <- & Hn & _). unfold ITEM_key. by rewrite Hn, ztake_all. Qed.

Definition absent_arm (p : ptr) (comm : nread) (hv : Z) : M mc (store_item_type * ptr) :=
  d ← store_missing comm;
  if fst d : bool then do_item_link p hv;; mret (STORED, p) else mret (snd d, p).

(** What is stored for a missing key, and the answer. *)
Definition absent_choice (comm : nread) : bool * store_item_type :=
  match comm with
  | NREAD_ADD | NREAD_SET => (true, STORED)
  | NREAD_CAS => (false, NOT_FOUND)
  | _ => (false, NOT_STORED)
  end.

Lemma store_absent w A Q F U p it k comm :
  cache_inv w A Q F U -> storable w A Q U p it k -> A !! k = None ->
  exists w' A' Q', absent_arm p comm (hash k) w = Some ((snd (absent_choice comm), p), w')
    /\ cache_inv w' A' Q' F U /\ keeps_keys k w w' A
    /\ (if fst (absent_choice comm) then A' = <[k := p]> A /\ exists it', heap w' !! p = Some it' /\ content (stored_item w it) it'
        else A' = A).
Proof.
  intros HC (HH & Ek & En & Hr) Hk. unfold absent_arm.
  assert (forall a : store_item_type, exists w' A' Q', (mret (a, p) : M mc _) w = Some ((a, p), w')
    /\ cache_inv w' A' Q' F U /\ keeps_keys k w w' A /\ A' = A) as Hno.
  { intros a. exists w, A, Q. split; [done|]. split; [done|]. split; [by apply keeps_keys_heap|done]. }
  assert (exists w' A' Q', (do_item_link p (hash k);; mret (STORED, p)) w = Some ((STORED, p), w')
    /\ cache_inv w' A' Q' F U /\ keeps_keys k w w' A
    /\ A' = <[k := p]> A /\ exists it', heap w' !! p = Some it' /\ content (stored_item w it) it') as Hyes.
  { rewrite <- Ek in *. destruct (link_new w A Q F U p it) as (w' & Q' & it' & E & HC' & Hp & Hc & HK & _); try done.
    exists w', (<[it_key it := p]> A), Q'. split; [run; by rewrite E|]. split; [done|].
    split; [|by split; [|exists it']]. apply (keeps_keys_new _ _ _ _ p); [apply HH|done]. }
  destruct comm; unfold store_missing; run; cbn [absent_choice fst snd]; auto.
  exists (w <| thread_stats ::= fun s c' => if decide (c' = cas_misses) then u64 (s c' + 1) else s c' |>), A, Q.
  split; [done|]. split; [by apply (cache_other _ _ w)|]. split; [by apply keeps_keys_heap|done].
Qed.

(** What follows the [switch] when the key is present. *)
Definition arm_finish (p : ptr) (hv : Z) (old_it : ptr) (d : option ptr * store_item_type * ptr)
    : M mc (store_item_type * ptr) :=
  let '(todo, stored, new_it) := d in
  let it := default p todo in
  stored ← (match todo with
            | Some it => STORAGE_delete old_it;; do_item_replace old_it it hv;; mret STORED
            | None => mret stored
            end);
  do_item_remove old_it;;
  when (bool_decide (new_it <> NULL)) (do_item_remove new_it);;
  mret (stored, it).
Definition present_arm (p : ptr) (comm : nread) (set_stale : bool) (hv : Z) (es : nat -> alloc_env) (old_it : ptr)
    : M mc (store_item_type * ptr) :=
  d ← store_over p comm set_stale es old_it; arm_finish p hv old_it d.

Lemma finish_store p q hv a w :
  arm_finish p hv q (Some p, a, NULL) w
  = (STORAGE_delete q;; do_item_replace q p hv;; do_item_remove q;; mret (STORED, p)) w.
Proof.
  unfold arm_finish. change (bool_decide (NULL <> NULL)) with false. run.
  destruct (STORAGE_delete q w) as [[[] u1]|]; [|done]. run.
  destruct (do_item_replace q p hv u1) as [[? u2]|]; [|done]. run.
  by destruct (do_item_remove q u2) as [[[] u3]|]; run.
Qed.
Lemma finish_keep p q hv a w :
  arm_finish p hv q (None, a, NULL) w = (do_item_remove q;; mret (a, p)) w.
Proof.
  unfold arm_finish. change (bool_decide (NULL <> NULL)) with false. run.
  by destruct (do_item_remove q w) as [[[] u3]|]; run.
Qed.

(** A value stored with a stale CAS id keeps the old expiry and is marked. *)
Definition stale_item (it o : item) : item :=
  it <| exptime := exptime o |>
     <| it_flags ::= fun f => Z.lor (Z.lor f ITEM_STALE) (if has_flag o ITEM_TOKEN_SENT then ITEM_TOKEN_SENT else 0) |>.

Definition present_choice (comm : nread) (test : cas_result) (it o : item) : option item * store_item_type :=
  match comm with
  | NREAD_SET | NREAD_REPLACE => (Some it, STORED)
  | NREAD_CAS =>
      match test with
      | CAS_MATCH => (Some it, STORED)
      | CAS_STALE => (Some (stale_item it o), STORED)
      | _ => (None, EXISTS)
      end
  | _ => (None, NOT_STORED)
  end.

Lemma keep_old w A Q F U k p o (a : store_item_type * ptr) :
  cache_inv w A Q F U -> A !! k = Some p -> item_of_map w A Q U k p o -> 1 < refcount o ->
  exists w' Q' F' U', (do_item_remove p;; mret a) w = Some (a, w') /\ cache_inv w' A Q' F' U'
    /\ keeps_keys k w w' A /\ exists o', heap w' !! p = Some o' /\ same_entry o o'.
Proof.
  intros HC Hk HI Hr. destruct (drop_linked w A Q F U k p o HC HI Hr) as (w' & E & _ & HC' & HI' & HK').
  exists w', Q, F, U. split; [run; by rewrite E|]. split; [done|].
  split; [by apply (keeps_keys_old w w' A Q F U k p)|]. eexists. split; [apply HI'|done].
Qed.

Definition joins (comm : nread) : bool := match comm with NREAD_APPEND | NREAD_PREPEND => true | _ => false end.

(** The outcome of an arm that found [o] under [k] at [q]. *)
Definition present_post w A k (p q : ptr) (o : item) (c : option item * store_item_type)
    (r : option ((store_item_type * ptr) * mc)) : Prop :=
  exists w' A' Q' F' U', r = Some ((snd c, p), w') /\ cache_inv w' A' Q' F' U' /\ keeps_keys k w w' A
    /\ match fst c with
       | Some new => A' = <[k := p]> A /\ exists it', heap w' !! p = Some it' /\ content (stored_item w new) it'
       | None => A' = A /\ exists o', heap w' !! q = Some o' /\ same_entry o o'
       end.

(** Storing [new], which is in place of [p]. *)
Lemma present_store w A Q F U k p q o new :
  cache_inv w A Q F U -> A !! k = Some q -> item_of_map w A Q U k q o -> 1 < refcount o ->
  storable w A Q U p new k ->
  present_post w A k p q o (Some new, STORED)
    ((STORAGE_delete q;; do_item_replace q p (hash k);; do_item_remove q;; mret (STORED, p)) w).
Proof.
  intros HC Hk HI Hr (HH & Ek & En & Hr').
  destruct (replace_fetched w A Q F U k q o p new) as (w' & Q' & F' & U' & it' & E & HC' & Hp & Hc & HK); try done.
  exists w', (<[k := p]> A), Q', F', U'. split; [|split; [done|split; [done|by split; [|exists it']]]].
  revert E. run. destruct (STORAGE_delete q w) as [[[] u1]|]; [|done]. run.
  destruct (do_item_replace q p (hash k) u1) as [[? u2]|]; [|done]. run. intros ->. by run.
Qed.

Lemma stale_storable w A Q F U p it o k :
  cache_inv w A Q F U -> storable w A Q U p it k ->
  exists w', update_item p (fun i => stale_item i o) w = Some (tt, w') /\ w' = w <| heap ::= alter (fun i => stale_item i o) p |>
    /\ cache_inv w' A Q F U /\ storable w' A Q U p (stale_item it o) k.
Proof.
  intros HC (HH & Ek & En & Hr). pose proof HH as [I1 I2 (I4 & I5 & I6) _ _].
  assert (forall g, Z.land g ITEM_STALE = 0 -> Z.land g ITEM_TOKEN_SENT = 0 -> has_flag (stale_item it o) g = has_flag it g) as Hf.
  { intros g G1 G2. unfold has_flag, stale_item. upds. do 2 f_equal.
    rewrite !Z.land_lor_distr_l, (Z.land_comm ITEM_STALE), G1, Z.lor_0_r.
    assert (Z.land (if has_flag o ITEM_TOKEN_SENT then ITEM_TOKEN_SENT else 0) g = 0) as ->; [|by rewrite Z.lor_0_r].
    destruct (has_flag o ITEM_TOKEN_SENT); [by rewrite Z.land_comm|done]. }
  destruct (held_alter w A Q F U p it (fun i => stale_item i o) HC HH) as (w' & E & Ew & HC' & HH' & _).
  - by rewrite Hf.
  - by rewrite Hf.
  - by rewrite Hf.
  - done.
  - change (0 <= refcount it < 2 ^ 16). lia.
  - exists w'. by split_and!.
Qed.

Lemma storable_other w w' A Q U p it k :
  storable w A Q U p it k -> heap w' = heap w -> mc_slabs w' = mc_slabs w -> storable w' A Q U p it k.
Proof. intros (HH & H2) E1 E2. split; [by apply (held_other w)|done]. Qed.

Lemma present_other w w1 A k p q o c r :
  keeps_keys k w w1 A -> mc_lru w1 = mc_lru w -> mc_settings w1 = mc_settings w -> current_time w1 = current_time w ->
  present_post w1 A k p q o c r -> present_post w A k p q o c r.
Proof.
  intros E1 E2 E3 E4 (w' & A' & Q' & F' & U' & E & HC & HK & HR). exists w', A', Q', F', U'.
  split; [done|]. split; [done|]. split.
  - by apply (keeps_keys_trans k w w1 w' A A).
  - destruct (fst c) as [new|]; [|done]. destruct HR as (-> & it' & Hp & Hc). split; [done|]. exists it'.
    split; [done|]. unfold stored_item in *. by rewrite <- E2, <- E3, <- E4.
Qed.

Lemma present_keep w A Q F U k p q o a :
  cache_inv w A Q F U -> A !! k = Some q -> item_of_map w A Q U k q o -> 1 < refcount o ->
  present_post w A k p q o (None, a) ((do_item_remove q;; mret (a, p)) w).
Proof.
  intros HC Hk HI Hr. destruct (keep_old w A Q F U k q o (a, p) HC Hk HI Hr) as (w' & Q' & F' & U' & E & HC' & HK & Ho).
  by exists w', A, Q', F', U'.
Qed.

Lemma store_present w A Q F U k p q it o comm stale es :
  cache_inv w A Q F U -> A !! k = Some q -> item_of_map w A Q U k q o -> 1 < refcount o ->
  storable w A Q U p it k -> joins comm = false ->
  present_post w A k p q o (present_choice comm (cas_test stale (ITEM_get_cas it) (ITEM_get_cas o)) it o)
    (present_arm p comm stale (hash k) es q w).
Proof.
  intros HC Hk HI Hr HS Hj. pose proof HI as [I1 I2 _ _ _ _ _]. pose proof (proj1 HS) as [J1 J2 _ _ _].
  assert (forall c, exists w1, count c w = Some (tt, w1) /\ cache_inv w1 A Q F U /\ item_of_map w1 A Q U k q o
    /\ storable w1 A Q U p it k /\ forall ch r, present_post w1 A k p q o ch r -> present_post w A k p q o ch r) as Hcnt.
  { intros c. eexists. split; [reflexivity|]. split; [by apply (cache_other _ _ w)|]. split; [by apply (map_other w)|].
    split; [by apply (storable_other w)|]. intros ch r. by apply present_other; [apply keeps_keys_heap|..]. }
  unfold present_arm, store_over. rewrite !run_bind, (load_ok p it), run_bind, (load_ok q o) by done.
  cbv beta zeta. destruct comm; try done; cbn [present_choice].
  - destruct (do_item_update_ok w A Q F U k q o HC HI) as (w1 & Q1 & o1 & E1 & HC1 & HI1 & SV & HK1 & HV1 & _).
    assert (refcount o1 = refcount o) as Er by (destruct SV as (-> & _); done).
    rewrite run_bind, E1, run_ret, finish_keep.
    destruct (present_keep w1 A Q1 F U k p q o1 NOT_STORED HC1 Hk HI1 ltac:(lia))
      as (w2 & A2 & Q2 & F2 & U2 & E2 & HC2 & HK2 & -> & o2 & Ho & So).
    exists w2, A, Q2, F2, U2. split; [done|]. split; [done|]. split.
    + apply (keeps_keys_trans k w w1 w2 A A); [done| |done]. by apply (keeps_keys_old w w1 A Q F U k q).
    + split; [done|]. exists o2. split; [done|]. unfold same_entry in *. rewrite So. by apply same_value_entry.
  - rewrite run_ret, finish_store. by apply (present_store w A Q F U).
  - rewrite run_ret, finish_store. by apply (present_store w A Q F U).
  - destruct (cas_test _ _ _).
    + destruct (Hcnt (cas_badval (ITEM_clsid o))) as (w1 & E & HC1 & HI1 & HS1 & Hp).
      rewrite run_bind, E, run_ret, finish_keep. apply Hp. by apply (present_keep w1 A Q F U).
    + destruct (Hcnt (cas_hits (ITEM_clsid o))) as (w1 & E & HC1 & HI1 & HS1 & Hp).
      rewrite run_bind, E, run_ret, finish_store. apply Hp. by apply (present_store w1 A Q F U).
    + destruct (Hcnt (cas_badval (ITEM_clsid o))) as (w1 & E & HC1 & HI1 & HS1 & Hp).
      rewrite run_bind, E, run_ret, finish_keep. apply Hp. by apply (present_keep w1 A Q F U).
    + destruct (stale_storable w A Q F U p it o k HC HS) as (w1 & E & Ew & HC1 & HS1).
      assert (q <> p) as Hqp by (intros ->; apply (hi_out _ _ _ _ _ _ (proj1 HS)); by exists k).
      assert (item_of_map w1 A Q U k q o) as HI1.
      { destruct HI as [? ? ? ? ? ? ?]. split; try done; rewrite Ew; [upds; by rewrite lookup_alter_ne|done]. }
      set (w2 := w1 <| thread_stats ::= fun s c' => if decide (c' = cas_hits (ITEM_clsid o)) then u64 (s c' + 1) else s c' |>).
      change (update_item p _) with (update_item p (fun i => stale_item i o)).
      rewrite run_bind, E. change (count (cas_hits (ITEM_clsid o)) w1) with (Some (tt, w2)).
      rewrite run_bind. change (count (cas_hits (ITEM_clsid o)) w1) with (Some (tt, w2)). cbv beta iota.
      rewrite run_ret, finish_store.
      apply (present_other w w2); [|by unfold w2; rewrite Ew..|].
      * apply (keeps_keys_trans k w w1 w2 A A); [done| |by apply keeps_keys_heap].
        apply (keeps_keys_new _ _ _ _ p); [apply (proj1 HS)|]. rewrite Ew. apply alter_keeps.
      * apply (present_store w2 A Q F U); [by apply (cache_other _ _ w1)|done|by apply (map_other w1)|done|].
        by apply (storable_other w1).
    + destruct (Hcnt (cas_badval (ITEM_clsid o))) as (w1 & E & HC1 & HI1 & HS1 & Hp).
      rewrite run_bind, E, run_ret, finish_keep. apply Hp. by apply (present_keep w1 A Q F U).
Qed.

(** ** The refinement *)

(** The CAS id the next stored item gets. *)
Definition next_cas w : Z := if use_cas (mc_settings w) then u64 (cas_id (mc_lru w) + 1) else 0.

(** A fetch removes what is expired or flushed. *)
Definition swept w A (key : list Z) : gmap (list Z) entry :=
  match visible w A key with Some _ => abs w A | None => base.delete key (abs w A) end.

Definition answer (r : store_item_type * ptr) : M mc (store_item_type * option Z) :=
  let '(stored, it) := r in
  if decide (stored = STORED) then i ← load it; mret (STORED, Some (ITEM_get_cas i)) else mret (stored, None).

Lemma do_store_item_arms w p it key comm stale es q w1 :
  p <> NULL -> heap w !! p = Some it -> ITEM_key it = key -> do_item_get key (hash key) false w = Some (q, w1) ->
  do_store_item p comm stale (hash key) es w
  = ((if decide (q = NULL) then absent_arm p comm (hash key) else present_arm p comm stale (hash key) es q) ≫= answer) w1.
Proof.
  intros Hp Hit Hk E. unfold do_store_item. rewrite run_bind, (load_ok p it), run_bind, Hk, E by done. reflexivity.
Qed.

Lemma answer_stored w p it : p <> NULL -> heap w !! p = Some it -> answer (STORED, p) w = Some ((STORED, Some (ITEM_get_cas it)), w).
Proof. intros Hp Hit. unfold answer. rewrite decide_True by done. run. rewrite (load_ok p it) by done. by run. Qed.
Lemma answer_other w p a : a <> STORED -> answer (a, p) w = Some ((a, None), w).
Proof. intros Ha. unfold answer. by rewrite decide_False. Qed.

(** The entry of what was stored. *)
Lemma stored_entry_of w w1 it it1 it' :
  content (stored_item w1 it1) it' -> same_entry it it1 -> has_flag it1 ITEM_CAS = use_cas (mc_settings w) ->
  mc_settings w1 = mc_settings w -> cas_id (mc_lru w1) = cas_id (mc_lru w) ->
  entry_of it' = entry_of it <| e_cas := next_cas w |> /\ ITEM_get_cas it' = next_cas w.
Proof.
  intros Hc He Hf Es Ec. pose proof (content_entry _ _ Hc) as E. unfold same_entry in *.
  rewrite stored_entry, He, Es, Ec in E by (by rewrite Es). fold (next_cas w) in E.
  split; [done|]. by apply (f_equal e_cas) in E.
Qed.

Lemma insert_swept_other w A key e k' :
  k' <> key -> <[key := e]> (swept w A key) !! k' = abs w A !! k' /\ swept w A key !! k' = abs w A !! k'.
Proof.
  intros Hne. rewrite lookup_insert_ne by done. unfold swept.
  destruct (visible w A key); [done|]. by rewrite lookup_delete_ne.
Qed.

(** What a command stores and answers, on the abstract cache. *)
Definition implements w A (comm : nread) (stale : bool) (key : list Z) (e : entry) w' A'
    (r : store_item_type * option Z) : Prop :=
  spec_store comm stale key e (next_cas w) (swept w A key) = (fst r, abs w' A')
  /\ snd r = (if decide (fst r = STORED) then Some (next_cas w) else None).

Lemma absent_refines w A Q F U k p it q w1 comm stale :
  cache_inv w A Q F U -> storable w A Q U p it k -> has_flag it ITEM_CAS = use_cas (mc_settings w) ->
  fetched w A Q F U k p it q w1 -> q = NULL ->
  exists r w' A' Q' F' U', (absent_arm p comm (hash k) ≫= answer) w1 = Some (r, w') /\ cache_inv w' A' Q' F' U'
    /\ implements w A comm stale k (entry_of it) w' A' r.
Proof.
  intros HC (HH & Ek & En & Hr) Hcas Hf Hq. destruct Hf as [w1 Q1 F1 U1 it1 Hv HC1 HH1 Cc (V1 & V2 & V3 & V4) HK1|]; [|done].
  assert (storable w1 (base.delete k A) Q1 U1 p it1 k) as HS1 by (split; [done|]; rewrite Cc; done).
  destruct (store_absent w1 _ Q1 F1 U1 p it1 k comm HC1 HS1 (lookup_delete_eq _ _)) as (w2 & A2 & Q2 & E & HC2 & HK2 & HR).
  assert (keeps_keys k w w2 A) as HK by (apply (keeps_keys_trans k w w1 w2 A (base.delete k A)); [intros; by rewrite lookup_delete_ne|done|done]).
  assert (swept w A k = base.delete k (abs w A)) as Em by (unfold swept; by rewrite Hv).
  assert (swept w A k !! k = None) as Emk by (by rewrite Em, lookup_delete_eq).
  rewrite run_bind, E.
  assert (fst (absent_choice comm) = false -> abs w2 A2 = swept w A k) as Hno.
  { intros Ec. rewrite Ec in HR. subst A2. apply (abs_frame w w2 A _ Q F U k); [done|intros; by rewrite lookup_delete_ne|done|..].
    - intros k' Hne. by apply (insert_swept_other w A k (entry_of it)).
    - rewrite Emk. apply abs_none, lookup_delete_eq. }
  assert (fst (absent_choice comm) = true -> exists it2, heap w2 !! p = Some it2 /\ ITEM_get_cas it2 = next_cas w
    /\ abs w2 A2 = <[k := entry_of it <| e_cas := next_cas w |>]> (swept w A k)) as Hyes.
  { intros Ec. rewrite Ec in HR. destruct HR as (-> & it2 & Hp & Hc). exists it2. split; [done|].
    destruct (stored_entry_of w w1 it it1 it2 Hc (content_entry _ _ Cc)) as [Ee Eg]; [by rewrite Cc|done|done|].
    split; [done|]. apply (abs_frame w w2 A _ Q F U k); [done|intros; by rewrite lookup_insert_ne, lookup_delete_ne|done|..].
    - intros k' Hne. by apply insert_swept_other.
    - rewrite lookup_insert_eq, (abs_some w2 _ k p it2), Ee; [done|by rewrite lookup_insert_eq|done]. }
  unfold implements, spec_store. rewrite Emk.
  destruct comm; cbn [absent_choice fst snd] in *.
  1,2: destruct (Hyes eq_refl) as (it2 & Hp2 & Eg & Ea); rewrite (answer_stored w2 p it2) by (done || apply HH);
    eexists _, w2, A2, Q2, F1, U1; split; [done|]; split; [done|]; rewrite Ea, Eg; by split.
  all: rewrite answer_other by done; eexists _, w2, A2, Q2, F1, U1; split; [done|]; split; [done|];
    rewrite Hno by done; by split.
Qed.

Lemma lor_nonzero a b : negb (Z.lor a b =? 0) = negb (a =? 0) || negb (b =? 0).
Proof.
  destruct (Z.eqb_spec (Z.lor a b) 0) as [E|E]; [by apply Z.lor_eq_0_iff in E as [-> ->]|].
  destruct (Z.eqb_spec a 0), (Z.eqb_spec b 0); by subst.
Qed.
Lemma stale_has it o g :
  has_flag (stale_item it o) g = has_flag it g || negb (Z.land ITEM_STALE g =? 0)
    || has_flag o ITEM_TOKEN_SENT && negb (Z.land ITEM_TOKEN_SENT g =? 0).
Proof.
  unfold stale_item. destruct (has_flag o ITEM_TOKEN_SENT); unfold has_flag; upds.
  - by rewrite !Z.land_lor_distr_l, !lor_nonzero.
  - rewrite Z.lor_0_r. by rewrite Z.land_lor_distr_l, lor_nonzero, orb_false_r.
Qed.

(** The abstract reading of [present_choice]. *)
Lemma present_choice_spec comm stale key it o next m :
  m !! key = Some (entry_of o) -> joins comm = false ->
  spec_store comm stale key (entry_of it) next m
  = (snd (present_choice comm (cas_test stale (ITEM_get_cas it) (ITEM_get_cas o)) it o),
     match fst (present_choice comm (cas_test stale (ITEM_get_cas it) (ITEM_get_cas o)) it o) with
     | Some new => <[key := entry_of new <| e_cas := next |>]> m
     | None => m
     end).
Proof.
  intros Hm Hj. unfold spec_store. rewrite Hm. cbn [e_cas entry_of]. rewrite <- cas_test_verdict. destruct comm; try done.
  destruct (cas_test _ _ _); try done. cbn [present_choice fst snd]. do 3 f_equal.
  unfold entry_of, FLAGS_CONV, ITEM_get_cas. rewrite !stale_has.
  by destruct (has_flag it ITEM_CFLAGS), (has_flag it ITEM_CAS), (has_flag it ITEM_STALE),
    (has_flag it ITEM_TOKEN_SENT), (has_flag o ITEM_TOKEN_SENT).
Qed.

Lemma present_refines w A Q F U k p it q w1 comm stale es :
  cache_inv w A Q F U -> storable w A Q U p it k -> has_flag it ITEM_CAS = use_cas (mc_settings w) ->
  fetched w A Q F U k p it q w1 -> q <> NULL -> joins comm = false ->
  exists r w' A' Q' F' U', (present_arm p comm stale (hash k) es q ≫= answer) w1 = Some (r, w')
    /\ cache_inv w' A' Q' F' U' /\ implements w A comm stale k (entry_of it) w' A' r.
Proof.
  intros HC HS Hcas Hf Hq Hj. destruct Hf as [|q o Hv _ Hk Ho w1 HC1 HI1 HH1 HK1]; [done|].
  assert (storable w1 A Q U p it k) as HS1 by (split; [done|apply HS]).
  pose proof (im_refs _ _ _ _ _ _ _ HI1) as Hr1. set (o1 := o <| refcount := refcount o + 1 |>) in *.
  assert (1 < refcount o1) as Hr.
  { destruct (cache_item w A Q F U k q HC Hk) as (i & [Hi _ _ _ Hi' _ _]). assert (i = o) as -> by congruence.
    unfold o1. upds. lia. }
  assert (swept w A k = abs w A) as Em by (unfold swept; by rewrite Hv).
  assert (abs w A !! k = Some (entry_of o)) as Ea by (by apply (abs_some w A k q)).
  destruct (store_present w1 A Q F U k p q it o1 comm stale es HC1 Hk HI1 Hr HS1 Hj)
    as (w2 & A2 & Q2 & F2 & U2 & E & HC2 & HK2 & HR).
  assert (keeps_keys k w w2 A) as HK by (by apply (keeps_keys_trans k w w1 w2 A A)).
  pose proof (present_choice_spec comm stale k it o (next_cas w) (swept w A k)) as Hsp.
  rewrite Em in Hsp. specialize (Hsp Ea Hj).
  change (ITEM_get_cas o1) with (ITEM_get_cas o) in *.
  assert (present_choice comm (cas_test stale (ITEM_get_cas it) (ITEM_get_cas o)) it o1
    = present_choice comm (cas_test stale (ITEM_get_cas it) (ITEM_get_cas o)) it o) as Ech by done.
  rewrite Ech in *. set (c := present_choice _ _ _ _) in *.
  rewrite run_bind, E. unfold implements. rewrite Em, Hsp.
  assert (fst c = None /\ snd c <> STORED \/ exists new, c = (Some new, STORED)
    /\ has_flag new ITEM_CAS = has_flag it ITEM_CAS) as [[Ec Hs]|(new & Ec & Hn)].
  { unfold c. destruct comm; try (left; done); try (right; by exists it).
    destruct (cas_test _ _ _); try (left; done); [right; by exists it|].
    right. exists (stale_item it o). split; [done|]. rewrite stale_has. change (Z.land ITEM_STALE ITEM_CAS) with 0.
    change (Z.land ITEM_TOKEN_SENT ITEM_CAS) with 0. by rewrite orb_false_r, andb_false_r, orb_false_r. }
  - rewrite Ec in HR |- *. destruct HR as (-> & o' & Ho' & So). rewrite answer_other by done.
    eexists _, w2, A, Q2, F2, U2. split; [done|]. split; [done|]. cbn [fst snd]. rewrite decide_False by done.
    split; [|done]. f_equal. symmetry. apply (abs_frame w w2 A A Q F U k); [done|done|done|done|].
    rewrite Ea, (abs_some w2 A k q o') by done. by rewrite So.
  - rewrite Ec in HR |- *. destruct HR as (-> & it' & Hp & Hc).
    destruct (stored_entry_of w w1 new new it' Hc) as [Ee Eg]; [done|by rewrite Hn|done|done|].
    cbn [fst snd]. rewrite (answer_stored w2 p it') by (done || apply HS).
    eexists _, w2, _, Q2, F2, U2. split; [done|]. split; [done|]. cbn [fst snd]. rewrite decide_True, Eg by done.
    split; [|done]. f_equal. symmetry. apply (abs_frame w w2 A _ Q F U k); [done|intros; by rewrite lookup_insert_ne|done|..].
    + intros k' Hne. by rewrite lookup_insert_ne.
    + rewrite lookup_insert_eq, (abs_some w2 _ k p it'), Ee; [done|by rewrite lookup_insert_eq|done].
Qed.

(** C2: [do_store_item] implements the set, add, replace and cas commands (and the
    refusal of append and prepend on a missing key): on a well-formed cache and
    an item held by the connection, answer, returned CAS id and new contents of
    the whole cache are those of [spec_store] on the contents before, from which
    the item under the key is dropped when it is expired or flushed.  The cache
    stays well formed. *)
Theorem do_store_item_refines w A Q F U p it comm stale es :
  cache_inv w A Q F U -> held_item w A Q U p it -> nkey it = zlen (it_key it) -> 0 <= refcount it < 2 ^ 16 - 1 ->
  has_flag it ITEM_CAS = use_cas (mc_settings w) ->
  (forall q i, A !! it_key it = Some q -> heap w !! q = Some i -> refcount i < 2 ^ 16 - 1) ->
  (joins comm = true -> visible w A (it_key it) = None) ->
  exists r w' A' Q' F' U', do_store_item p comm stale (hash (it_key it)) es w = Some (r, w')
    /\ cache_inv w' A' Q' F' U' /\ implements w A comm stale (it_key it) (entry_of it) w' A' r.
Proof.
  intros HC HH Hn Hr Hcas Hold Hj. set (k := it_key it) in *.
  assert (storable w A Q U p it k) as HS by (split; [done|]; split; [done|by split]).
  destruct (fetch_ok w A Q F U k p it HC HH Hold) as (q & w1 & Eg & Hf).
  rewrite (do_store_item_arms w p it k comm stale es q w1); [|apply HH|apply HH|by apply (storable_key w A Q U p)|done].
  destruct (decide (q = NULL)) as [E|E].
  - by apply (absent_refines w A Q F U k p it q w1).
  - apply (present_refines w A Q F U k p it q w1); try done. destruct (joins comm) eqn:Ej; [|done].
    specialize (Hj eq_refl). inversion Hf; [done|congruence].
Qed.
End store.

(** ** A set over a stored value *)
Module StoreDemo.
Import Demo CacheDemo.

Lemma second_refs :
  option_map (fun x => match heap (snd x) !! fst (fst x) with Some i => refcount i <? 2 ^ 16 - 1 | None => true end)
    (second tiny_mc) = Some true.
Proof. vm_compute. reflexivity. Qed.

Lemma do_store_item_refines_witness :
  exists w w' p q r A' Q' F' U', second tiny_mc = Some ((p, q), w)
    /\ do_store_item q NREAD_SET false (hash key_a) (fun _ => env) w = Some (r, w')
    /\ cache_inv w' A' Q' F' U' /\ fst r = STORED
    /\ option_map e_flags (abs w' A' !! key_a) = Some 7.
Proof.
  destruct second_ok as (w & p & q & Q & F & U & it2 & E & Es & HC & Hr2 & now & HH).
  pose proof second_refs as Hrefs. rewrite E in Hrefs. cbn [option_map snd fst] in Hrefs.
  destruct (do_store_item_refines w _ Q F U q _ NREAD_SET false (fun _ => env) HC HH)
    as (r & w' & A' & Q' & F' & U' & E' & HC' & HI & _).
  - reflexivity.
  - change (0 <= refcount it2 < 2 ^ 16 - 1). rewrite Hr2. split; [discriminate|reflexivity].
  - rewrite Es. reflexivity.
  - intros a i Ha Hi. apply lookup_singleton_Some in Ha as [_ <-]. rewrite Hi in Hrefs.
    injection Hrefs as Hrefs. by apply Z.ltb_lt.
  - discriminate.
  - exists w, w', p, q, r, A', Q', F', U'. split; [exact E|]. split; [exact E'|]. split; [exact HC'|].
    change (it_key _) with key_a in HI. unfold spec_store in HI.
    destruct (swept w {[key_a := p]} key_a !! key_a); injection HI as H1 H2; rewrite <- H1, <- H2;
      (split; [reflexivity|]); rewrite lookup_insert_eq; reflexivity.
Defined.
End StoreDemo.
