(* ===== verification/SlabMoveSpec.v ===== *)
(** * The slab mover and the cache invariant

    What the steps of SlabMove.v do to the free lists and to [cache_inv]. *)

From S2P Require Import Prelude Memory Dll Assoc AssocSpec Slabs SlabsSpec SlabPages SlabAlloc.
From S2P Require Import Items LruSpec Parts CacheSpec CacheAlloc CacheProps Store StoreProps SlabMove.

(** ** Cutting a chunk out of a free list *)

Lemma on_class_id w id p f :
  class w id = Some p -> f p = p -> w <| mc_slabs ::= on_class id f |> = w.
Proof.
  unfold class, zget. intros Hp Hf. case_decide; [|done].
  assert (alter f (Z.to_nat id) (slabclass (mc_slabs w)) = slabclass (mc_slabs w)) as E.
  { apply list_eq. intros n. destruct (decide (n = Z.to_nat id)) as [->|].
    - rewrite list_lookup_alter_eq, Hp. cbn. by rewrite Hf.
    - by rewrite list_lookup_alter_ne. }
  destruct w as [? ? ? s]. destruct s. cbv -[alter] in *. by rewrite E.
Qed.

Definition cut_out (id : Z) (a : ptr) (l1 l2 : list ptr) (w : mc) : mc :=
  w <| mc_slabs ::= on_class id (fun p => p <| slots := hd0 (l1 ++ l2) |>) |>
    <| heap ::= cut_effect (last0 l1) (hd0 l2) |>
    <| mc_slabs ::= on_class id (fun p => p <| sl_curr := u32 (sl_curr p - 1) |>) |>.

Lemma class_cut w id a l1 l2 p i :
  class w id = Some p ->
  class (cut_out id a l1 l2 w) i
    = if decide (i = id) then Some (p <| slots := hd0 (l1 ++ l2) |> <| sl_curr := u32 (sl_curr p - 1) |>)
      else class w i.
Proof.
  unfold class, cut_out, on_class. intros Hp. upds.
  assert (zget id (slabclass (mc_slabs w)) <> None) as Hn by (by rewrite Hp).
  assert (forall f, zget id (alter f (Z.to_nat id) (slabclass (mc_slabs w))) <> None) as Hn'
    by (intros f; rewrite class_alter, decide_True, Hp by done; done).
  rewrite (class_alter _ _ _ _ (Hn' _)), !(class_alter _ _ _ _ Hn), Hp.
  by repeat case_decide.
Qed.

Lemma cut_geometry w id a l1 l2 p : class w id = Some p -> same_geometry w (cut_out id a l1 l2 w).
Proof.
  intros Hp. unfold cut_out. set (f := fun q : slabclass_t => q <| slots := hd0 (l1 ++ l2) |>).
  eapply same_geometry_trans; [apply (on_class_geometry w id p f Hp); by split_and!|].
  eapply same_geometry_trans; [apply heap_geometry|].
  apply (on_class_geometry _ id (f p)); [|by split_and!].
  pose proof (class_on_class w id f p id Hp) as Hc. by rewrite decide_True in Hc.
Qed.

Lemma hd0_app_cons l1 a l2 : hd0 (l1 ++ a :: l2) = hd0 (l1 ++ [a]).
Proof. by destruct l1. Qed.

Lemma cut_free_ok w id a l1 l2 :
  slots_rep w id (l1 ++ a :: l2) ->
  slab_rebalance_cut_free id a w = Some (tt, cut_out id a l1 l2 w).
Proof.
  intros HR. pose proof (sr_dll _ _ _ HR) as Hd. pose proof (dll_nodup _ _ Hd) as Hnd.
  destruct (sr_class _ _ _ HR) as (p & Hp & Hs & Hc).
  destruct (sr_item _ _ _ HR a) as (ia & Hia & Hf & _); [set_solver|].
  assert (a <> NULL) as Ha0 by (intros ->; apply (dll_nonnull _ _ Hd); set_solver).
  destruct (dll_link _ _ Hd l1 a l2 eq_refl) as (ia' & Hia' & Hpv & Hnx).
  assert (ia' = ia) as -> by congruence.
  assert (a ∉ l1 /\ a ∉ l2) as [Ha1 Ha2].
  { apply NoDup_app in Hnd as (_ & ? & [? _]%NoDup_cons). set_solver. }
  unfold slab_rebalance_cut_free. run. rewrite (load_ok _ _ _ Ha0 Hia). run. rewrite Hf, Z.eqb_refl. run.
  rewrite (get_class_ok _ _ _ Hp). run.
  assert (when (bool_decide (slots p = a)) (update_class id (fun p => p <| slots := next ia |>)) w
    = Some (tt, w <| mc_slabs ::= on_class id (fun p => p <| slots := hd0 (l1 ++ l2) |>) |>)) as ->.
  { destruct (decide (slots p = a)) as [E|E].
    - rewrite bool_decide_eq_true_2 by done. cbn [when]. rewrite (update_class_ok _ _ _ _ Hp), Hnx.
      destruct l1 as [|b l1]; [done|]. rewrite Hs in E. cbn in E. subst b. set_solver.
    - rewrite bool_decide_eq_false_2 by done. rewrite run_when_f. do 2 f_equal. symmetry.
      apply (on_class_id w id p); [done|]. destruct l1 as [|b l1]; [by rewrite Hs in E|].
      cbn in Hs |- *. rewrite <- Hs. by destruct p. }
  run. rewrite Hnx, Hpv. set (w1 := w <| mc_slabs ::= _ |>).
  rewrite (update_if_alter_nn (hd0 l2)).
  2: { intros Hn. destruct (dll_lookup _ _ (hd0 l2) Hd) as (_ & ih & Hh).
       { apply elem_of_app. right. right. by apply hd0_in. } exists ih. done. }
  run. set (w2 := w1 <| heap ::= _ |>).
  assert (heap w2 !! a = Some ia) as H2.
  { unfold w2. upds. rewrite lookup_alter_nn by done. rewrite decide_False; [done|].
    intros E. apply Ha2. rewrite <- E. apply hd0_in. by rewrite E. }
  rewrite (load_ok _ _ _ Ha0 H2). run. rewrite Hpv, Hnx.
  rewrite (update_if_alter_nn (last0 l1)).
  2: { intros Hn. destruct (dll_lookup _ _ (last0 l1) Hd) as (H0 & ih & Hh).
       { apply elem_of_app. left. by apply last0_in. }
       unfold w2. upds. rewrite lookup_alter_nn by done. case_decide as E; [|by exists ih].
       change (heap w1 !! last0 l1) with (heap w !! last0 l1). rewrite Hh. by eexists. }
  run. pose proof (class_on_class w id (fun p => p <| slots := hd0 (l1 ++ l2) |>) p id Hp) as Hcl.
  rewrite decide_True in Hcl by done. 
  rewrite (update_class_ok _ id (p <| slots := hd0 (l1 ++ l2) |>)); [done|exact Hcl].
Qed.

(** The links of a free chunk change when its neighbour leaves the list. *)
Lemma lookup_cut_effect pv nx h b it :
  h !! b = Some it -> exists it', cut_effect pv nx h !! b = Some it'
    /\ it' = it <| prev := prev it' |> <| next := next it' |>.
Proof.
  intros Hb. unfold cut_effect.
  assert (forall (f : item -> item) q h', (forall i, f i = i <| prev := prev (f i) |> <| next := next (f i) |>) ->
    (exists i, h' !! b = Some i /\ i = it <| prev := prev i |> <| next := next i |>) ->
    exists i, alter_nn f q h' !! b = Some i /\ i = it <| prev := prev i |> <| next := next i |>) as Hs.
  { intros f q h' Hf (i & Hi & E). unfold alter_nn. case_decide; [by exists i|].
    destruct (decide (b = q)) as [->|].
    - rewrite lookup_alter_eq, Hi. exists (f i). split; [done|]. rewrite Hf at 1. rewrite E at 1. done.
    - rewrite lookup_alter_ne by done. by exists i. }
  apply Hs; [by intros []|]. apply Hs; [by intros []|]. exists it. split; [done|by destruct it].
Qed.

Lemma slots_rep_cut w id a l1 l2 i li :
  slots_rep w id (l1 ++ a :: l2) -> zlen (l1 ++ a :: l2) < 2 ^ 32 ->
  slots_rep w i li -> (i = id -> li = l1 ++ a :: l2) ->
  slots_rep (cut_out id a l1 l2 w) i (if decide (i = id) then l1 ++ l2 else li).
Proof.
  intros HR Hlen HR' Hl. pose proof (sr_dll _ _ _ HR) as Hd.
  pose proof (sr_class _ _ _ HR) as (p & Hp & Hs & Hc).
  assert (forall b, slabbed_in w i b -> slabbed_in (cut_out id a l1 l2 w) i b) as Hkeep.
  { intros b (ib & Hb & Hf & Hcl). destruct (lookup_cut_effect (last0 l1) (hd0 l2) _ _ _ Hb) as (ib' & Hb' & E).
    exists ib'. split; [exact Hb'|]. rewrite E. by upds. }
  destruct (decide (i = id)) as [->|Hne].
  - split.
    + eexists. split_and!.
      * rewrite (class_cut _ _ _ _ _ _ _ Hp). by rewrite decide_True.
      * done.
      * upds. rewrite Hc. unfold zlen in *. rewrite !length_app in *. cbn [length] in *. rewrite u32_id by lia. lia.
    + unfold cut_out. upds. by apply (dll_cut _ l1 a l2).
    + intros b Hb. apply Hkeep, (sr_item _ _ _ HR). set_solver.
  - assert (forall b, b ∈ li -> b ∉ l1 ++ a :: l2) as Hdis.
    { intros b Hb Hb'. destruct (sr_item _ _ _ HR' _ Hb) as (ib & Hib & _ & Hcb).
      destruct (sr_item _ _ _ HR _ Hb') as (ib' & Hib' & _ & Hcb'). congruence. }
    destruct HR' as [(q & Hq & Hqs & Hqc) Hqd Hqi]. split.
    + exists q. rewrite (class_cut _ _ _ _ _ _ _ Hp). by rewrite decide_False.
    + unfold cut_out. upds. apply dll_cut_other; [..|done]; intros Hb;
        [assert (last0 l1 <> NULL) as Hn|assert (hd0 l2 <> NULL) as Hn];
        try (intros E; rewrite E in Hb; by apply (dll_nonnull _ _ Hqd)).
      * apply (Hdis _ Hb). apply elem_of_app. left. by apply last0_in.
      * apply (Hdis _ Hb). apply elem_of_app. right. right. by apply hd0_in.
    + intros b Hb. by apply Hkeep, Hqi.
Qed.

Section mover.
Context `{HashFunction}.
Implicit Types (w : mc) (A : gmap (list Z) ptr) (Q F U : Z -> list ptr).

(** ** Clearing a chunk *)

Definition wiped (i : item) : item := i <| refcount := 0 |> <| it_flags := ITEM_CLEARED |>.
Lemma wiped_flags i : cleared (wiped i) /\ has_flag (wiped i) ITEM_LINKED = false
  /\ has_flag (wiped i) ITEM_CHUNKED = false /\ has_flag (wiped i) ITEM_CHUNK = false.
Proof. by split_and!. Qed.

Lemma clear_held w A Q F U p it :
  cache_inv w A Q F U -> held_item w A Q U p it ->
  exists w', clear_chunk p w = Some (tt, w') /\ w' = w <| heap ::= alter wiped p |>
    /\ cache_inv w' A Q F U /\ heap w' !! p = Some (wiped it) /\ keeps_others p w w'.
Proof. intros HC HH. by apply (held_alter_used w A Q F U p it wiped HC HH); [right|..]. Qed.

(** A free chunk, cut off its list and cleared, is in use by nobody. *)
Lemma cut_geometry_wiped w id p l1 l2 sc :
  class w id = Some sc -> same_geometry w (cut_out id p l1 l2 w <| heap ::= alter wiped p |>).
Proof.
  intros Hsc. eapply same_geometry_trans; [by apply (cut_geometry w id p l1 l2 sc)|apply heap_geometry].
Qed.

Lemma cut_wiped_slab w F U id p l1 l2 :
  slab_inv w F U -> class_range w id -> F id = l1 ++ p :: l2 ->
  slab_rebalance_cut_free id p w = Some (tt, cut_out id p l1 l2 w)
  /\ (exists it, heap w !! p = Some it /\ it_clsid it = id
        /\ heap (cut_out id p l1 l2 w <| heap ::= alter wiped p |>) !! p = Some (wiped it))
  /\ slab_inv (cut_out id p l1 l2 w <| heap ::= alter wiped p |>) (fset F id (l1 ++ l2)) (fset U id (p :: U id))
  /\ slab_frame (fun b => b <> p) w (cut_out id p l1 l2 w <| heap ::= alter wiped p |>).
Proof.
  intros HI Hid EF. pose proof (si_free _ _ _ _ HI id Hid) as HR. rewrite EF in HR.
  destruct (sr_class _ _ _ HR) as (sc & Hsc & _). pose proof (dll_nodup _ _ (sr_dll _ _ _ HR)) as Hnd.
  assert (p ∉ l1 ++ l2) as Hpn by (apply NoDup_app in Hnd as (_ & ? & [? _]%NoDup_cons); set_solver).
  destruct (sr_item _ _ _ HR p) as (it & Hit & Hfl & Hcl); [set_solver|].
  assert (zlen (l1 ++ p :: l2) < 2 ^ 32) as Hlen.
  { rewrite <- EF. pose proof (zlen_free w F U [] id sc HI Hid Hsc). destruct (si_size _ _ _ _ HI id sc Hid Hsc). lia. }
  set (w1 := cut_out id p l1 l2 w). set (w2 := w1 <| heap ::= alter wiped p |>).
  assert (heap w1 !! p = Some it) as H1.
  { unfold w1, cut_out. upds. rewrite cut_effect_other; [done|..]; intros Hn ->; apply Hpn, elem_of_app;
      [left; by apply last0_in|right; by apply hd0_in]. }
  split; [by apply cut_free_ok|]. split.
  { exists it. split; [done|]. split; [done|]. unfold w2. upds. by rewrite lookup_alter_eq, H1. }
  assert (slab_frame (fun b => b <> p) w w2) as Fr.
  { split; [done|]. intros b ib Hb Hfb Hne. unfold w2, w1, cut_out. upds. rewrite lookup_alter_ne by done.
    rewrite cut_effect_other; [done|..]; intros Hn ->;
      apply (slabbed_not_free w id (l1 ++ p :: l2) _ ib HR Hb Hfb), elem_of_app;
      [left; by apply last0_in|right; right; by apply hd0_in]. }
  split; [|done]. apply (slab_inv_chunks [] w w2 F U).
  - done.
  - by apply (cut_geometry_wiped w id p l1 l2 sc).
  - intros i Hi. change (POWER_SMALLEST <= i <= largest w) in Hi.
    pose proof (slots_rep_cut w id p l1 l2 i (F i) HR Hlen (si_free _ _ _ _ HI i Hi)) as Hc.
    assert (slots_rep w1 i (fset F id (l1 ++ l2) i)) as Hc'.
    { unfold fset. case_decide; [subst i|]; apply Hc; by intros. }
    apply slots_rep_alter; [done|]. intros Hin. unfold fset in Hin. case_decide as Ei; [done|].
    apply Ei. destruct (sr_item _ _ _ Hc' p) as (i' & Hi' & _ & Hcl').
    { unfold fset. by rewrite decide_False. } congruence.
  - intros i Hi. unfold fset. case_decide; [subst i; rewrite EF|done].
    rewrite <- !app_assoc. apply Permutation_app_head. cbn [app]. by rewrite Permutation_middle.
  - intros i b Hi Hb. destruct (decide (b = p)) as [->|Hne].
    + exists (wiped it). split; [unfold w2; upds; by rewrite lookup_alter_eq, H1|done].
    + assert (b ∈ U i) as Hb'.
      { unfold fset in Hb. case_decide; [subst i; by apply elem_of_cons in Hb as [->|Hb]|done]. }
      destruct (si_used _ _ _ _ HI i b Hi Hb') as (ib & Hib & Hfb). exists ib.
      split; [by apply Fr|done].
Qed.

Lemma cut_wiped_ok w A Q F U id p l1 l2 :
  cache_inv w A Q F U -> class_range w id -> id < 64 -> F id = l1 ++ p :: l2 ->
  exists w', slab_rebalance_cut_free id p w = Some (tt, cut_out id p l1 l2 w)
    /\ w' = cut_out id p l1 l2 w <| heap ::= alter wiped p |>
    /\ cache_inv w' A Q (fset F id (l1 ++ l2)) (fset U id (p :: U id))
    /\ keeps_others p w w' /\ (exists it, heap w' !! p = Some (wiped it)).
Proof.
  intros HC Hid Hlt EF. pose proof (pt_slab _ _ _ _ _ (cb_parts _ _ _ _ _ _ _ HC)) as HI.
  destruct (cut_wiped_slab w F U id p l1 l2 HI Hid EF) as (E & (it & Hit & Hcl & Hp') & HS & Fr).
  set (w' := cut_out id p l1 l2 w <| heap ::= alter wiped p |>) in *.
  exists w'. split; [done|]. split; [done|].
  assert (forall i, class_range w i -> p ∉ U i) as Hun.
  { intros i Hi. apply (free_chunk_unused [] w F U id i p HI Hid Hi). rewrite EF. set_solver. }
  destruct (slab_step_cache p (size A) w w' A Q F _ U _ HC eq_refl HS) as [HC' _]; [|done|done|..].
  { destruct Fr as [R Fr]. split; [done|]. intros b ib Hb Hfb [_ Hne]. by apply Fr. }
  { intros i q Hi Hq. unfold fset. case_decide; [subst i|done]. rewrite elem_of_cons. naive_solver. }
  assert (~ in_queues Q p) as HQ.
  { intros (j & Hj). destruct (cb_used _ _ _ _ _ _ _ HC j p Hj) as [J1 J2]. by apply (Hun _ J1). }
  split; [|split; [by apply slab_keeps|by exists it]].
  apply (cache_but_close p); [done| |].
  - split; [|by intros]. intros HA. apply (cb_same _ _ _ _ _ _ _ HC); [by intros []|done].
  - intros cls Hc Hu. assert (cls = id) as ->.
    { apply (used_class_unique [] w' _ _ cls id p HS); [done|done|done|rewrite fset_eq; by left]. }
    destruct (wiped_flags it) as (W1 & W2 & W3 & _).
    split. exists (wiped it). rewrite W2, W3. split_and!; try done; [by right|].
    unfold ITEM_clsid. change (it_clsid (wiped it)) with (it_clsid it). rewrite Hcl. apply small_clsid.
    unfold class_range, POWER_SMALLEST in Hid. lia.
Qed.

(** ** Memory for what is moved *)

(** Every item in use stays exactly as it is. *)
Definition keeps_items w w' : Prop :=
  forall a it, heap w !! a = Some it -> it_flags it <> ITEM_SLABBED -> heap w' !! a = Some it.
(** The state but for the heap, the classes and [inline_reclaim]. *)
Definition alloc_rest w w' : Prop :=
  w' = w <| heap := heap w' |> <| mc_slabs := mc_slabs w' |>
         <| slab_rebal ::= fun r => r <| inline_reclaim := inline_reclaim (slab_rebal w') |> |>.

Lemma alloc_rest_trans w1 w2 w3 : alloc_rest w1 w2 -> alloc_rest w2 w3 -> alloc_rest w1 w3.
Proof. unfold alloc_rest. intros E1 E2. rewrite E2 at 1. rewrite E1 at 1. reflexivity. Qed.
Lemma alloc_rest_refl w : alloc_rest w w.
Proof. unfold alloc_rest. by destruct w as [? ? ? ? [] ? ? ? ? ? ? ?]. Qed.

Lemma keeps_items_others p w w' : keeps_items w w' -> keeps_others p w w'.
Proof. intros K a it _ Ha Hf. exists it. split; [by apply K|apply content_refl]. Qed.

(** A chunk off the free list, without cutting new pages. *)
Lemma take_free_ok w A Q F U size id sc :
  cache_inv w A Q F U -> class_range w id -> id < 64 -> class w id = Some sc -> size <= cl_size sc ->
  match F id with
  | [] => do_slabs_alloc size id SLABS_ALLOC_NO_NEWPAGE w = Some (NULL, w)
  | r :: l => exists w' it, do_slabs_alloc size id SLABS_ALLOC_NO_NEWPAGE w = Some (r, w')
      /\ w' = w <| heap := heap w' |> <| mc_slabs := mc_slabs w' |> /\ same_geometry w w' /\ keeps_items w w'
      /\ cache_inv w' A Q (fset F id l) (fset U id (r :: U id)) /\ (forall i, class_range w i -> r ∉ U i)
      /\ held_item w' A Q (fset U id (r :: U id)) r it /\ it_flags it = 0 /\ refcount it = 1
  end.
Proof.
  intros HC Hid Hlt Hsc Hsz. pose proof (pt_slab _ _ _ _ _ (cb_parts _ _ _ _ _ _ _ HC)) as HI.
  pose proof (si_free _ _ _ _ HI) as HF. destruct (si_size _ _ _ _ HI id sc Hid Hsc) as (_ & _ & _ & S4).
  rewrite (do_slabs_alloc_eq w F size id _ sc HF Hid Hsc Hsz). rewrite andb_false_r. run.
  destruct (F id) as [|r l] eqn:EF; [by apply (take_slot_empty w F)|].
  destruct (take_slot_ok w F U id r l sc HI Hid Hsc EF S4) as (E & HS & Fr & HA).
  pose proof (popped_geometry w id r l sc Hsc) as G.
  destruct (allocated_cache w _ A Q F _ U id r HC Hid Hlt HS HA (sg_largest _ _ G)) as (HC' & _ & it & HH & I1 & I2 & _).
  exists (popped id r l w), it. split; [done|]. split; [apply Fr|]. split; [done|]. split.
  { intros a ia Ha Hfa. apply Fr; [done|done|]. intros ->.
    apply (slabbed_not_free w id (r :: l) r ia); [|done|done|by left]. rewrite <- EF. by apply HF. }
  split; [done|]. split; [apply HA|done].
Qed.

(** What a search for memory ends with. *)
Record memory_found w w' A Q F F' U U' (id : Z) (n : nat) (r : ptr) : Prop := {
  mf_cache : cache_inv w' A Q F' U';
  mf_rest : alloc_rest w w';
  mf_geo : same_geometry w w';
  mf_items : keeps_items w w';
  mf_used : forall i q, class_range w i -> q ∈ U i -> q ∈ U' i;
  mf_none : r = NULL -> Forall (fun a => in_moved_page (slab_rebal w) a = true) (take n (F id));
  mf_some : r <> NULL -> in_moved_page (slab_rebal w) r = false
    /\ (forall i, class_range w i -> r ∉ U i)
    /\ (forall i, heap w !! r = Some i -> it_flags i = ITEM_SLABBED)
    /\ exists it, held_item w' A Q U' r it /\ it_flags it = 0 /\ refcount it = 1 /\ ITEM_clsid it = id
}.

Lemma in_page_reclaim r x p : in_moved_page (r <| inline_reclaim := x |>) p = in_moved_page r p.
Proof. done. Qed.

Lemma alloc_loop_ok n w A Q F U size id sc :
  cache_inv w A Q F U -> class_range w id -> id < 64 -> class w id = Some sc -> size <= cl_size sc ->
  exists r w' F' U', rebalance_alloc_loop n size id w = Some (r, w') /\ memory_found w w' A Q F F' U U' id n r.
Proof.
  revert w F U sc. induction n as [|n IH]; intros w F U sc HC Hid Hlt Hsc Hsz.
  { exists NULL, w, F, U. split; [done|]. split; [done|apply alloc_rest_refl|apply same_geometry_refl|by intros ?|by intros|done|done]. }
  cbn [rebalance_alloc_loop]. pose proof (take_free_ok w A Q F U size id sc HC Hid Hlt Hsc Hsz) as Ht.
  destruct (F id) as [|a l] eqn:EF.
  { run. rewrite Ht. run. rewrite decide_True by done. exists NULL, w, F, U. split; [done|].
    split; [done|apply alloc_rest_refl|apply same_geometry_refl|by intros ?|by intros|by rewrite EF|done]. }
  destruct Ht as (w1 & it & E & Ew & G & K & HC1 & Hun & HH & I1 & I2). run. rewrite E. run.
  set (V := fset U id (a :: U id)) in *. set (F1 := fset F id l) in *.
  rewrite decide_False by (exact (hi_null _ _ _ _ _ _ HH)). run.
  assert (slab_rebal w1 = slab_rebal w) as Er by (by rewrite Ew). rewrite Er.
  assert (forall i q, class_range w i -> q ∈ U i -> q ∈ V i) as HV.
  { intros i q Hi Hq. unfold V, fset. case_decide; [subst i; by right|done]. }
  destruct (in_moved_page (slab_rebal w) a) eqn:Ep.
  - destruct (clear_held w1 A Q F1 V a it HC1 HH) as (w2 & E2 & Ew2 & HC2 & H2 & K2). run. rewrite E2. run.
    set (w3 := w2 <| slab_rebal ::= _ |>).
    assert (cache_inv w3 A Q F1 V) as HC3 by (by apply (cache_other _ _ w2)).
    assert (same_geometry w w3) as G3.
    { apply (same_geometry_trans _ w1); [done|]. unfold w3. rewrite Ew2.
      apply (same_geometry_trans _ (w1 <| heap ::= alter wiped a |>)); [apply heap_geometry|].
      split; [done..| |done]. intros i q Hq. exists q. by split_and!. }
    assert (keeps_items w w3) as K3.
    { intros b ib Hb Hfb. change (heap w3) with (heap w2). rewrite Ew2. upds. rewrite lookup_alter_ne; [by apply K|].
      intros Eb. rewrite <- Eb in Hb.
      pose proof (si_free _ _ _ _ (pt_slab _ _ _ _ _ (cb_parts _ _ _ _ _ _ _ HC)) id Hid) as HR. rewrite EF in HR.
      apply (slabbed_not_free w id (a :: l) a ib HR Hb Hfb). by left. }
    destruct (sg_class _ _ G3 id sc Hsc) as (sc3 & Hsc3 & (D1 & _)).
    destruct (IH w3 F1 V sc3 HC3) as (r & w' & F' & U' & E' & [M1 M2 M3 M4 M5 M6 M7]);
      [unfold class_range; by rewrite (sg_largest _ _ G3)|done|done|by rewrite D1|].
    exists r, w', F', U'. split; [done|].
    assert (class_range w3 = class_range w) as Ecr by (unfold class_range; by rewrite (sg_largest _ _ G3)).
    assert (alloc_rest w w3) as R3.
    { unfold alloc_rest, w3. subst w2. upds. rewrite Ew at 1. by rewrite Er. }
    assert (forall b, in_moved_page (slab_rebal w3) b = in_moved_page (slab_rebal w) b) as Ei
      by (intros b; rewrite <- Er; subst w2; reflexivity).
    split; [done|by apply (alloc_rest_trans _ w3)|by apply (same_geometry_trans _ w3)| | | |].
    + intros b ib Hb Hfb. apply M4; [by apply K3|done].
    + intros i q Hi Hq. apply M5; [by rewrite Ecr|by apply HV].
    + intros Hr. rewrite EF. cbn [take]. constructor; [done|]. specialize (M6 Hr). unfold F1 in M6. rewrite fset_eq in M6.
      apply (Forall_impl _ _ _ M6). intros b. by rewrite Ei.
    + intros Hr. destruct (M7 Hr) as (N1 & N2 & N2' & N3). split; [|split; [|split; [|done]]].
      * by rewrite Ei in N1.
      * intros i Hi Hq. apply (N2 i); [by rewrite Ecr|by apply HV].
      * intros i Hi. destruct (decide (it_flags i = ITEM_SLABBED)) as [|Hf]; [done|].
        by apply N2', K3.
  - run. exists a, w1, F1, V. split; [done|]. split; [done| |done|done|done|..].
    + unfold alloc_rest. rewrite Ew at 1. rewrite Er. by destruct w as [? ? ? ? [] ? ? ? ? ? ? ?].
    + intros ->. by destruct (hi_null _ _ _ _ _ _ HH).
    + intros _. split; [done|]. split; [done|]. split.
      { intros i Hi. destruct (sr_item _ _ _ (si_free _ _ _ _ (pt_slab _ _ _ _ _ (cb_parts _ _ _ _ _ _ _ HC)) id Hid) a)
          as (j & Hj & Hf & _); [rewrite EF; by left|]. congruence. }
      exists it. split; [done|]. split; [done|]. split; [done|].
      destruct (hi_used _ _ _ _ _ _ HH) as [Hr Hu].
      apply (used_class_unique [] w1 F1 V _ id a (pt_slab _ _ _ _ _ (cb_parts _ _ _ _ _ _ _ HC1))); try done.
      * unfold class_range. by rewrite (sg_largest _ _ G).
      * unfold V. rewrite fset_eq. by left.
Qed.
End mover.
