(* ===== verification/StoreJoin.v ===== *)
(** * append and prepend

    While the class of the joined value has memory, [do_store_item] replaces the
    entry by one with the joined value and the old flags and expiry. *)

From S2P Require Import Prelude Memory Dll Assoc AssocSpec AssocIter Slabs SlabsSpec SlabPages SlabAlloc SlabProps.
From S2P Require Import Items LruSpec Parts CacheSpec CacheAlloc CacheProps CacheMove Store StoreSpec StoreProps.

(** ** Value bytes *)

Lemma poke_0 src d : poke 0 src d = src ++ zdrop (zlen src) d.
Proof. unfold poke. by rewrite Z.add_0_l. Qed.

Lemma peek_0_app n a b : zlen a = n -> peek 0 n (a ++ b) = a.
Proof.
  intros Hn. unfold peek, ztake, zdrop, zlen in *.
  change (Z.to_nat 0) with 0%nat. rewrite drop_0, <- app_assoc. rewrite take_app_le by lia. by rewrite take_ge by lia.
Qed.

(** Writing [a] and then, two bytes before its end, [b]. *)
Lemma peek_joined a b d :
  2 <= zlen a -> peek 0 (zlen a - 2 + zlen b) (poke (zlen a - 2) b (poke 0 a d)) = joined a b.
Proof.
  intros Ha. unfold poke at 1. rewrite poke_0. unfold joined.
  assert (ztake (zlen a - 2) ((a ++ zdrop (zlen a) d) ++ replicate (Z.to_nat (zlen a - 2)) 0) = ztake (zlen a - 2) a) as ->.
  { unfold ztake, zlen in *. rewrite <- app_assoc, take_app_le by lia. done. }
  rewrite app_assoc. apply peek_0_app. rewrite zlen_app.
  assert (zlen (ztake (zlen a - 2) a) = zlen a - 2) as ->; [|done].
  unfold ztake, zlen in *. rewrite length_take. lia.
Qed.

Lemma ITEM_data_length it : 0 <= nbytes it -> zlen (ITEM_data it) = nbytes it.
Proof.
  intros Hn. unfold ITEM_data, peek, ztake, zlen. rewrite length_take, length_app, length_replicate. lia.
Qed.

Section join.
Context `{HashFunction}.
Implicit Types (w : mc) (A : gmap (list Z) ptr) (Q F U : Z -> list ptr).

(** [write_data] into an item somebody holds. *)
Lemma write_data_held w A Q F U p it off src :
  cache_inv w A Q F U -> held_item w A Q U p it -> 0 <= off -> off + zlen src <= nbytes it ->
  exists w', write_data p off src w = Some (tt, w')
    /\ w' = w <| heap ::= alter (fun i => i <| it_data ::= poke off src |>) p |>
    /\ cache_inv w' A Q F U /\ held_item w' A Q U p (it <| it_data ::= poke off src |>).
Proof.
  intros HC HH Ho Hn. pose proof HH as [I1 I2 (I4 & I5 & I6) [I8 I9] _].
  destruct (held_alter w A Q F U p it (fun i => i <| it_data ::= poke off src |>) HC HH) as (w' & E & Ew & HC' & HH' & _);
    try done.
  { destruct (cb_item _ _ _ _ _ _ _ HC _ p I8 I9) as [(i & Hi & _ & _ & _ & Hr & _)]; [by intros []|].
    by assert (i = it) as -> by congruence. }
  exists w'. split; [|done]. unfold write_data. run. rewrite (load_ok p it) by done. run.
  rewrite (proj2 (Z.leb_le 0 off)), (proj2 (Z.leb_le (off + zlen src) (nbytes it))) by done. run. exact E.
Qed.

(** The values, in the order they are written. *)
Definition parts_of (comm : nread) (o it : item) : item * item :=
  if decide (comm = NREAD_APPEND) then (o, it) else (it, o).
Definition joined_data (comm : nread) (o it : item) : list Z :=
  let '(a, b) := parts_of comm o it in joined (ITEM_data a) (ITEM_data b).

Lemma copy_data_ok w A Q F U comm es q p r o it new :
  cache_inv w A Q F U -> held_item w A Q U r new -> q <> NULL -> p <> NULL -> q <> r -> p <> r ->
  heap w !! q = Some o -> heap w !! p = Some it -> 2 <= nbytes o -> 2 <= nbytes it ->
  nbytes new = nbytes it + nbytes o - 2 ->
  exists w' d, store_item_copy_data comm es q r p w = Some (true, w')
    /\ w' = w <| heap := heap w' |> /\ (forall a, a <> r -> heap w' !! a = heap w !! a)
    /\ cache_inv w' A Q F U /\ held_item w' A Q U r (new <| it_data := d |>)
    /\ peek 0 (nbytes new) d = joined_data comm o it.
Proof.
  intros HC HH Hq Hp Hqr Hpr Ho Hi No Ni Nn. pose proof HH as [J1 J2 (J4 & J5 & J6) _ _].
  unfold store_item_copy_data, joined_data, parts_of.
  assert (forall a b ia ib, a <> NULL -> b <> NULL -> a <> r -> b <> r -> heap w !! a = Some ia -> heap w !! b = Some ib ->
    2 <= nbytes ia -> 2 <= nbytes ib -> nbytes new = nbytes ia - 2 + nbytes ib ->
    exists w' d, (n ← load r; ia ← load a; ib ← load b;
      if has_flag n ITEM_CHUNKED then
        ok ← store_item_copy_chunks (fun n => es (2 * n + 1)%nat) r a (nbytes ia - 2);
        if (ok : bool) then store_item_copy_chunks (fun n => es (2 * n + 2)%nat) r b (nbytes ib) else mret false
      else write_data r 0 (ITEM_data ia);; write_data r (nbytes ia - 2) (ITEM_data ib);; mret true) w = Some (true, w')
    /\ w' = w <| heap := heap w' |> /\ (forall a, a <> r -> heap w' !! a = heap w !! a)
    /\ cache_inv w' A Q F U /\ held_item w' A Q U r (new <| it_data := d |>)
    /\ peek 0 (nbytes new) d = joined (ITEM_data ia) (ITEM_data ib)) as Hw.
  { intros a b ia ib Ha Hb Har Hbr Hia Hib Na Nb En.
    pose proof (ITEM_data_length ia ltac:(lia)) as La. pose proof (ITEM_data_length ib ltac:(lia)) as Lb.
    rewrite run_bind, (load_ok r new), run_bind, (load_ok a ia), run_bind, (load_ok b ib), J6 by done.
    destruct (write_data_held w A Q F U r new 0 (ITEM_data ia) HC HH) as (w1 & E1 & Ew1 & HC1 & HH1); [lia|lia|].
    destruct (write_data_held w1 A Q F U r _ (nbytes ia - 2) (ITEM_data ib) HC1 HH1) as (w2 & E2 & Ew2 & HC2 & HH2);
      [lia|upds; lia|].
    exists w2, (poke (nbytes ia - 2) (ITEM_data ib) (poke 0 (ITEM_data ia) (it_data new))).
    rewrite run_bind, E1, run_bind, E2. split; [done|]. split; [by rewrite Ew2, Ew1|]. split.
    { intros x Hx. rewrite Ew2, Ew1. upds. by rewrite !lookup_alter_ne. }
    split; [done|]. split; [exact HH2|]. rewrite En, <- La, <- Lb. by apply peek_joined; lia. }
  destruct (decide (comm = NREAD_APPEND)); apply Hw; try done; lia.
Qed.

(** What an allocation asks of the state: a class for the size, with memory. *)
Record can_alloc w (key : list Z) (flags nbytes : Z) : Prop := {
  ca_class : exists id sc, slabs_clsid (alloc_total (mc_settings w) key flags nbytes) w = Some (id, w)
    /\ class_range w id /\ id < 64 /\ class w id = Some sc
    /\ alloc_total (mc_settings w) key flags nbytes <= cl_size sc /\ room w id
    /\ forall w1, slabs_alloc (alloc_total (mc_settings w) key flags nbytes) id 0 w <> Some (NULL, w1);
  ca_max : alloc_total (mc_settings w) key flags nbytes <= slab_chunk_size_max (mc_settings w)
}.

Lemma alloc_ok w A Q F U key flags exptime nbytes e :
  cache_inv w A Q F U -> lru_segmented (mc_settings w) = true -> 2 <= nbytes -> can_alloc w key flags nbytes ->
  exists r w' F' U' id it, do_item_alloc key flags exptime nbytes e w = Some (r, w')
    /\ (forall i, class_range w i -> r ∉ U i) /\ cache_inv w' A Q F' U' /\ keeps_used w w' U /\ same_env w w'
    /\ held_item w' A Q U' r (new_item (mc_settings w) (current_time w) key flags exptime nbytes id it)
    /\ refcount it = 1 /\ mc_lru w' = mc_lru w /\ largest w' = largest w.
Proof.
  intros HC Hs Hn [(id & sc & H1 & H2 & H3 & H4 & H5 & H6 & H7) Hm].
  destruct (do_item_alloc_ok w A Q F U key flags exptime nbytes e id sc HC Hs Hn H1 Hm H2 H3 H4 H5 H6 H7)
    as (r & w' & F' & it & E & _ & Hr & HC' & HK & He & HH & Hr1 & El & _ & HL).
  by exists r, w', F', (fset U id (r :: U id)), id, it.
Qed.

(** The new item's header. *)
Lemma new_item_flags st now key flags exptime nbytes id it g :
  Z.land ITEM_CAS g = 0 -> Z.land ITEM_CFLAGS g = 0 ->
  has_flag (new_item st now key flags exptime nbytes id it) g = false.
Proof.
  intros G1 G2. unfold has_flag, new_item. upds. rewrite Z.land_lor_distr_l.
  by destruct (use_cas st), (flags =? 0); rewrite ?G1, ?G2.
Qed.
Lemma new_item_cas st now key flags exptime nbytes id it :
  has_flag (new_item st now key flags exptime nbytes id it) ITEM_CAS = use_cas st
  /\ FLAGS_CONV (new_item st now key flags exptime nbytes id it) = flags.
Proof.
  unfold FLAGS_CONV, has_flag, new_item. upds.
  by destruct (use_cas st), (Z.eqb_spec flags 0) as [->|]; split.
Qed.

(** The last release after an append: the table's reference remains. *)
Lemma finish_join p r q k a w A Q F U o new :
  cache_inv w A Q F U -> A !! k = Some q -> item_of_map w A Q U k q o -> 1 < refcount o ->
  storable w A Q U r new k -> refcount new = 1 ->
  exists w' Q' F' U' it', arm_finish p (hash k) q (Some r, a, r) w = Some ((STORED, r), w')
    /\ cache_inv w' (<[k := r]> A) Q' F' U' /\ heap w' !! r = Some it' /\ same_entry (stored_item w new) it'
    /\ keeps_keys k w w' A.
Proof.
  intros HC Hk HI Hr (HH & Ek & En & Hr') Hn.
  destruct (replace_fetched w A Q F U k q o r new) as (w1 & Q1 & F1 & U1 & it1 & E & HC1 & Hp1 & Hc & HK); try done.
  destruct (cache_item w1 _ Q1 F1 U1 k r HC1 (lookup_insert_eq _ _ _)) as (i & HI1).
  assert (i = it1) as -> by (pose proof (im_heap _ _ _ _ _ _ _ HI1); congruence).
  assert (refcount it1 = 2) as R1 by (rewrite Hc; change (refcount (stored_item w new) = 2); rewrite (proj1 (stored_fields w new)), Hn; done).
  destruct (drop_linked w1 _ Q1 F1 U1 k r it1 HC1 HI1 ltac:(lia)) as (w2 & E2 & _ & HC2 & HI2 & HK2).
  exists w2, Q1, F1, U1. eexists. split; [|split; [done|split; [apply HI2|split]]].
  - unfold arm_finish. rewrite bool_decide_eq_true_2 by apply (hi_null _ _ _ _ _ _ HH). revert E. run. cbn [default].
    destruct (STORAGE_delete q w) as [[[] u1]|]; [|done]. run.
    destruct (do_item_replace q r (hash k) u1) as [[? u2]|]; [|done]. run. intros ->. run. rewrite E2. by run.
  - change (entry_of it1 = entry_of (stored_item w new)). by rewrite (content_entry _ _ Hc).
  - apply (keeps_keys_trans k w w1 w2 A (<[k:=r]> A)); [intros; by rewrite lookup_insert_ne|done|].
    intros k' a' i Hne Ha. apply HK2. intros ->. apply Hne.
    by apply (map_inj w1 _ Q1 F1 U1 k k' r HC1 (lookup_insert_eq _ _ _)).
Qed.

(** The state after the fetch of [o] at [q]. *)
Definition bumped w (q : ptr) (o : item) : mc :=
  w <| heap ::= alter (fun i => i <| refcount := refcount o + 1 |>) q |>.

Definition cas_accepts (test : cas_result) : bool := match test with CAS_NONE | CAS_MATCH => true | _ => false end.

Lemma store_over_join w it o p q comm stale es :
  p <> NULL -> q <> NULL -> heap w !! p = Some it -> heap w !! q = Some o -> joins comm = true ->
  cas_accepts (cas_test stale (ITEM_get_cas it) (ITEM_get_cas o)) = true -> has_flag o ITEM_HDR = false ->
  2 <= nbytes it -> 2 <= nbytes o -> nbytes it + nbytes o < 2 ^ 31 ->
  store_over p comm stale es q w
  = (new_it ← do_item_alloc (ITEM_key it) (FLAGS_CONV o) (exptime o) (nbytes it + nbytes o - 2) (es 0%nat);
     if decide (new_it = NULL) then mret (None, NOT_STORED, NULL)
     else ok ← store_item_copy_data comm es q new_it p;
          mret (if ok : bool then Some new_it else None, NOT_STORED, new_it)) w.
Proof.
  intros Hp Hq Hi Ho Hj Ha Hf Ni No Hs. unfold store_over.
  rewrite run_bind, (load_ok p it), run_bind, (load_ok q o) by done. cbv beta zeta.
  rewrite Hf. rewrite s32_id by lia.
  destruct comm; try done; destruct (cas_test _ _ _); done.
Qed.

Lemma join_arm w A Q F U k p q it o comm stale es :
  cache_inv w A Q F U -> A !! k = Some q -> item_of_map w A Q U k q o -> 1 < refcount o ->
  storable w A Q U p it k -> joins comm = true -> zlen k < 256 ->
  cas_accepts (cas_test stale (ITEM_get_cas it) (ITEM_get_cas o)) = true -> has_flag o ITEM_HDR = false ->
  2 <= nbytes it -> 2 <= nbytes o -> nbytes it + nbytes o < 2 ^ 31 ->
  lru_segmented (mc_settings w) = true -> can_alloc w k (FLAGS_CONV o) (nbytes it + nbytes o - 2) ->
  exists r w' Q' F' U' it', present_arm p comm stale (hash k) es q w = Some ((STORED, r), w')
    /\ cache_inv w' (<[k := r]> A) Q' F' U' /\ r <> NULL /\ heap w' !! r = Some it' /\ keeps_keys k w w' A
    /\ entry_of it' = Entry (FLAGS_CONV o) (exptime o) (joined_data comm o it)
         (if use_cas (mc_settings w) then u64 (cas_id (mc_lru w) + 1) else 0) false false.
Proof.
  intros HC Hk HI Hr HS Hj Hlen Ha Hf Ni No Hsum Hseg Hal. pose proof HI as [I1 I2 _ _ _ [I8 I9] _].
  pose proof (proj1 HS) as [J1 J2 (J4 & J5 & J6) [J8 J9] [O1 O2]].
  assert (q <> p) as Hqp by (intros ->; apply O2; by exists k).
  unfold present_arm. rewrite run_bind, (store_over_join w it o) by done.
  rewrite (storable_key w A Q U p it k HS).
  destruct (alloc_ok w A Q F U k (FLAGS_CONV o) (exptime o) (nbytes it + nbytes o - 2) (es 0%nat) HC Hseg ltac:(lia) Hal)
    as (r & w1 & F1 & U1 & id & i0 & E1 & Hfr & HC1 & HK1 & He1 & HH1 & Hr1 & El1 & HL1).
  set (new := new_item _ _ _ _ _ _ _ _) in *.
  assert (heap w1 !! q = Some o) as Ho1 by (apply (HK1 (ITEM_clsid o)); [done|done|done|by apply has_flag_slabbed, HI]).
  assert (heap w1 !! p = Some it) as Hi1 by (apply (HK1 (ITEM_clsid it)); [done|done|done|by apply has_flag_slabbed]).
  pose proof (hi_null _ _ _ _ _ _ HH1) as Hrn.
  assert (q <> r /\ p <> r) as [Hqr Hpr] by (split; intros <-; [by apply (Hfr (ITEM_clsid o))|by apply (Hfr (ITEM_clsid it))]).
  destruct (copy_data_ok w1 A Q F1 U1 comm es q p r o it new HC1 HH1) as (w2 & d & E2 & Ew2 & Hw2 & HC2 & HH2 & Ed); try done.
  rewrite run_bind, E1. rewrite decide_False by done. rewrite run_bind, E2, run_ret.
  set (new2 := new <| it_data := d |>) in *.
  destruct (new_item_cas (mc_settings w) (current_time w) k (FLAGS_CONV o) (exptime o) (nbytes it + nbytes o - 2) id i0) as [G1 G2].
  fold new in G1, G2.
  assert (storable w2 A Q U1 r new2 k) as HS2.
  { split; [done|]. split; [done|]. unfold new2, new, new_item. upds. split; [|rewrite Hr1; lia].
    apply u8_id. pose proof (zlen_nonneg k). lia. }
  destruct (cache_item w2 A Q F1 U1 k q HC2 Hk) as (o2 & HI2).
  assert (o2 = o) as -> by (pose proof (im_heap _ _ _ _ _ _ _ HI2); rewrite Hw2 in * by done; congruence).
  destruct (finish_join p r q k NOT_STORED w2 A Q F1 U1 o new2 HC2 Hk HI2 Hr HS2 Hr1)
    as (w3 & Q3 & F3 & U3 & it3 & E3 & HC3 & Hp3 & He3 & HK3).
  exists r, w3, Q3, F3, U3, it3. split; [done|]. split; [done|]. split; [done|]. split; [done|]. split.
  - apply (keeps_keys_trans k w w2 w3 A A); [done| |done]. intros k' a i Hne Hka Hi Hfl. exists i.
    split; [|apply content_refl].
    assert (in_queues Q a) as (j & Hj') by (apply (cb_same _ _ _ _ _ _ _ HC a); [by intros []|by exists k']).
    destruct (cb_used _ _ _ _ _ _ _ HC j a Hj') as [Hc Hu].
    rewrite Hw2 by (intros ->; by apply (Hfr (clsid_of j))). by apply (HK1 (clsid_of j)).
  - unfold same_entry in He3. rewrite He3, stored_entry.
    2: { change (has_flag new ITEM_CAS = use_cas (mc_settings w2)). rewrite G1, Ew2. by rewrite <- (proj1 He1). }
    rewrite Ew2. upds. rewrite (proj1 He1), El1. unfold entry_of.
    change (FLAGS_CONV new2) with (FLAGS_CONV new). change (has_flag new2) with (has_flag new).
    change (ITEM_data new2) with (peek 0 (nbytes new) d). rewrite G2, Ed.
    unfold new. rewrite !new_item_flags by done. reflexivity.
Qed.

Lemma spec_join comm stale key it o next m :
  m !! key = Some (entry_of o) -> joins comm = true ->
  spec_store comm stale key (entry_of it) next m
  = if cas_accepts (cas_test stale (ITEM_get_cas it) (ITEM_get_cas o))
    then (STORED, <[key := Entry (FLAGS_CONV o) (exptime o) (joined_data comm o it) next false false]> m)
    else (EXISTS, m).
Proof.
  intros Hm Hj. unfold spec_store, joined_data, parts_of. rewrite Hm. cbn [e_cas entry_of].
  rewrite <- cas_test_verdict. destruct comm; try done; by destruct (cas_test _ _ _).
Qed.

(** Refused: the CAS id does not match. *)
Lemma join_refused w A Q F U k p q it o comm stale es :
  cache_inv w A Q F U -> A !! k = Some q -> item_of_map w A Q U k q o -> 1 < refcount o ->
  heap w !! p = Some it -> p <> NULL -> joins comm = true ->
  cas_accepts (cas_test stale (ITEM_get_cas it) (ITEM_get_cas o)) = false ->
  present_post w A k p q o (None, EXISTS) (present_arm p comm stale (hash k) es q w).
Proof.
  intros HC Hk HI Hr Hp Hp0 Hj Ha. pose proof HI as [I1 I2 _ _ _ _ _]. unfold present_arm, store_over.
  rewrite !run_bind, (load_ok p it), run_bind, (load_ok q o) by done. cbv beta zeta.
  assert (present_post w A k p q o (None, EXISTS) (arm_finish p (hash k) q (None, EXISTS, NULL) w)) as Hpost
    by (rewrite finish_keep; by apply (present_keep w A Q F U)).
  destruct comm; try done; destruct (cas_test _ _ _); done.
Qed.

Lemma cas_accepted stale sent present :
  cas_accepts (cas_test stale sent present) = true -> sent = 0 \/ sent = present.
Proof.
  unfold cas_test. destruct (Z.eqb_spec sent 0), (Z.eqb_spec sent present); auto.
  by destruct (stale && _).
Qed.

(** C4: append and prepend on a present key: when the CAS id the client sent is
    absent or matches, the value of the stored entry becomes the old value with
    the new one behind (or before) it, without the inner CRLF, flags and expiry
    stay, and the entry gets a fresh CAS id; otherwise the answer is EXISTS and
    nothing changes.  Every other entry stays, and the cache stays well formed. *)
Theorem do_store_item_joins w A Q F U p it q o comm stale es :
  cache_inv w A Q F U -> held_item w A Q U p it -> nkey it = zlen (it_key it) -> zlen (it_key it) < 256 ->
  0 <= refcount it < 2 ^ 16 - 1 -> has_flag it ITEM_CAS = use_cas (mc_settings w) ->
  A !! it_key it = Some q -> visible w A (it_key it) = Some o -> refcount o < 2 ^ 16 - 1 -> has_flag o ITEM_HDR = false ->
  joins comm = true -> 2 <= nbytes it -> 2 <= nbytes o -> nbytes it + nbytes o < 2 ^ 31 ->
  lru_segmented (mc_settings w) = true ->
  (ITEM_get_cas it = 0 \/ ITEM_get_cas it = ITEM_get_cas o ->
     can_alloc (bumped w q o) (it_key it) (FLAGS_CONV o) (nbytes it + nbytes o - 2)) ->
  exists r w' A' Q' F' U', do_store_item p comm stale (hash (it_key it)) es w = Some (r, w')
    /\ cache_inv w' A' Q' F' U' /\ implements w A comm stale (it_key it) (entry_of it) w' A' r.
Proof.
  intros HC HH Hn Hl Hr Hcas Hk Hv Hro Hhdr Hj Ni No Hsum Hseg Hal. set (k := it_key it) in *.
  assert (storable w A Q U p it k) as HS by (split; [done|]; split; [done|by split]).
  assert (heap w !! q = Some o) as Ho.
  { unfold visible in Hv. rewrite Hk in Hv. destruct (heap w !! q) as [i|]; [|done]. destruct (item_gone i w); congruence. }
  destruct (fetch_ok w A Q F U k p it HC HH) as (q' & w1 & Eg & Hf).
  { intros q' i Hq' Hi'. assert (q' = q) as -> by congruence. by assert (i = o) as -> by congruence. }
  destruct Hf as [|q' o' Hv' Hq0 Hk' Ho' w1 HC1 HI1 HH1 HK1]; [congruence|].
  assert (o' = o) as -> by congruence. assert (q' = q) as -> by congruence.
  rewrite (do_store_item_arms w p it k comm stale es q w1); [|apply HH|apply HH|by apply (storable_key w A Q U p)|done].
  rewrite decide_False, run_bind by done.
  assert (storable w1 A Q U p it k) as HS1 by (split; [done|apply HS]).
  set (o1 := o <| refcount := refcount o + 1 |>) in *.
  assert (1 < refcount o1) as Hr1.
  { destruct (cache_item w A Q F U k q HC Hk) as (i & [Hi _ _ _ Hi' _ _]). assert (i = o) as -> by congruence.
    unfold o1. upds. lia. }
  assert (abs w A !! k = Some (entry_of o)) as Ea by (by apply (abs_some w A k q)).
  pose proof (spec_join comm stale k it o (next_cas w) (abs w A) Ea Hj) as Hsp.
  unfold implements, swept. rewrite Hv, Hsp.
  destruct (cas_accepts (cas_test stale (ITEM_get_cas it) (ITEM_get_cas o))) eqn:Ha.
  - destruct (join_arm w1 A Q F U k p q it o1 comm stale es HC1 Hk HI1 Hr1 HS1 Hj Hl Ha Hhdr Ni No Hsum Hseg (Hal (cas_accepted _ _ _ Ha)))
      as (r & w2 & Q2 & F2 & U2 & it2 & E2 & HC2 & Hrn & Hp2 & HK2 & Ee).
    rewrite E2, (answer_stored w2 r it2) by done. eexists _, w2, _, Q2, F2, U2. split; [done|]. split; [done|].
    cbn [fst snd]. rewrite decide_True by done.
    assert (ITEM_get_cas it2 = next_cas w) as -> by (by apply (f_equal e_cas) in Ee). split; [|done].
    f_equal. symmetry. apply (abs_frame w w2 A _ Q F U k); [done|intros; by rewrite lookup_insert_ne| |..].
    + by apply (keeps_keys_trans k w w1 w2 A A).
    + intros k' Hne. by rewrite lookup_insert_ne.
    + rewrite lookup_insert_eq, (abs_some w2 _ k r it2), Ee by (done || apply lookup_insert_eq).
      assert (joined_data comm o1 it = joined_data comm o it) as -> by (unfold joined_data, parts_of; by case_decide).
      done.
  - destruct (join_refused w1 A Q F U k p q it o1 comm stale es HC1 Hk HI1 Hr1) as (w2 & A2 & Q2 & F2 & U2 & E2 & HC2 & HK2 & -> & o2 & Ho2 & So);
      [apply (proj1 HS1)|apply (proj1 HS1)|done|done|].
    rewrite E2, answer_other by done. eexists _, w2, A, Q2, F2, U2. split; [done|]. split; [done|].
    cbn [fst snd]. rewrite decide_False by done. split; [|done]. f_equal. symmetry.
    apply (abs_frame w w2 A A Q F U k); [done|done| |done|].
    + by apply (keeps_keys_trans k w w1 w2 A A).
    + rewrite Ea, (abs_some w2 A k q o2) by done. by rewrite So.
Qed.
End join.

(** ** An append to a stored value *)
Module JoinDemo.
Import Demo CacheDemo.

Definition facts (o : item) (w : mc) : Z * Z * bool * bool * Z :=
  (refcount o, nbytes o, has_flag o ITEM_HDR, item_gone o w, FLAGS_CONV o).
Lemma second_facts :
  option_map (fun x => option_map (fun o => facts o (snd x)) (heap (snd x) !! fst (fst x))) (second tiny_mc)
  = Some (Some (2, 2, false, false, 0)).
Proof. vm_compute. reflexivity. Qed.
Lemma second_cas :
  option_map (fun x => option_map ITEM_get_cas (heap (snd x) !! snd (fst x))) (second tiny_mc) = Some (Some 0).
Proof. vm_compute. reflexivity. Qed.
Definition fetched_state : M mc Z := x ← second; refcount_incr (fst x).
Lemma fetched_ready : option_map (fun r => ready_check 0 2 (snd r)) (fetched_state tiny_mc) = Some true.
Proof. vm_compute. reflexivity. Qed.

Lemma do_store_item_joins_witness :
  exists w w' p q r A' Q' F' U', second tiny_mc = Some ((p, q), w)
    /\ do_store_item q NREAD_APPEND false (hash key_a) (fun _ => env) w = Some (r, w')
    /\ cache_inv w' A' Q' F' U' /\ fst r = STORED.
Proof.
  destruct second_ok as (w & p & q & Q & F & U & it2 & E & Es & HC & Hr2 & now & HH).
  pose proof second_facts as Hf. rewrite E in Hf. cbn [option_map snd fst] in Hf.
  destruct (cache_item w _ Q F U key_a p HC (lookup_singleton_eq _ _)) as (o & HI).
  pose proof (im_heap _ _ _ _ _ _ _ HI) as Ho. rewrite Ho in Hf. cbn [option_map] in Hf.
  unfold facts in Hf. injection Hf as F1 F2 F3 F4 F5.
  assert (visible w {[key_a := p]} key_a = Some o) as Hv.
  { unfold visible. rewrite lookup_singleton_eq, Ho, F4. reflexivity. }
  assert (refcount o < 2 ^ 16 - 1) as Hro by (rewrite F1; reflexivity).
  assert (can_alloc (bumped w p o) key_a (FLAGS_CONV o) (2 + nbytes o - 2)) as Hal.
  { destruct (refcount_incr_ok w _ Q F U key_a p o HC HI Hro) as (w1 & E1 & Ew1 & HC1 & _).
    change (bumped w p o) with (w <| heap ::= alter (fun i => i <| refcount := refcount o + 1 |>) p |>).
    rewrite <- Ew1, F5, F2.
    assert (mc_settings w1 = tiny_settings) as Es1 by (rewrite Ew1; exact Es).
    assert (alloc_ready w1 0 2) as (R1 & R2 & R3 & R4 & (sc & R5 & R6) & R7 & R8).
    { apply (ready_ok w1 _ _ _ _ 0 2 HC1 Es1); [vm_compute; reflexivity|lia|].
      apply (ready_run fetched_state (refcount o + 1) w1 0 2); [|exact fetched_ready].
      unfold fetched_state. rewrite run_bind, E. exact E1. }
    split; [|exact R3]. exists 1, sc. split; [exact R2|]. split; [exact R4|]. split; [lia|]. split; [exact R5|].
    split; [exact R6|]. split; [exact R7|exact R8]. }
  destruct (do_store_item_joins w _ Q F U q _ p o NREAD_APPEND false (fun _ => env) HC HH)
    as (r & w' & A' & Q' & F' & U' & E' & HC' & HI' & _).
  - reflexivity.
  - reflexivity.
  - change (0 <= refcount it2 < 2 ^ 16 - 1). rewrite Hr2. split; [discriminate|reflexivity].
  - rewrite Es. reflexivity.
  - exact (lookup_singleton_eq _ _).
  - exact Hv.
  - exact Hro.
  - exact F3.
  - reflexivity.
  - discriminate.
  - rewrite F2. discriminate.
  - rewrite F2. reflexivity.
  - rewrite Es. reflexivity.
  - intros _. exact Hal.
  - exists w, w', p, q, r, A', Q', F', U'. split; [exact E|]. split; [exact E'|]. split; [exact HC'|].
    change (it_key _) with key_a in HI'. rewrite (spec_join _ _ _ _ o) in HI'.
    + pose proof second_cas as Hc. rewrite E in Hc. cbn [option_map snd fst] in Hc.
      rewrite (hi_heap _ _ _ _ _ _ HH) in Hc. cbn [option_map] in Hc. injection Hc as Hc.
      rewrite Hc in HI'. injection HI' as H1 _. rewrite <- H1. reflexivity.
    + unfold swept. rewrite Hv. exact (abs_some w _ key_a p o (lookup_singleton_eq _ _) Ho).
    + reflexivity.
Defined.
End JoinDemo.
