(* ===== verification/DeltaProps.v ===== *)
(** * incr and decr

    [do_add_delta] against its specification on the abstract cache. *)

From S2P Require Import Prelude Memory Dll Assoc AssocSpec AssocIter Slabs SlabsSpec SlabPages SlabAlloc SlabProps.
From S2P Require Import Items LruSpec Parts CacheSpec CacheAlloc CacheProps CacheMove Store StoreSpec StoreProps StoreJoin.
From S2P Require Import Itoa Util.

(** ** The bytes *)





Section delta.
Context `{HashFunction}.
Implicit Types (w : mc) (A : gmap (list Z) ptr) (Q F U : Z -> list ptr).

(** ** Changing an item of the map in place *)






(** ** Storing the text in a new item *)



(** ** The fetch *)


(** ** The specification *)







(** ** The branches of do_add_delta *)






End delta.

(** ** Counting up a stored 5 *)
Module DeltaDemo.
Import Demo CacheDemo.





End DeltaDemo.
