(* ===== verification/Tokens.v ===== *)
(** * The tokenizer of the text protocol (proto_text.c)

    [tokenize_command] cuts a command line at its spaces.  A command is a C
    string, the list of its bytes before the NUL. *)

From S2P Require Import Prelude.

Definition MAX_TOKENS := 24.
Definition COMMAND_TOKEN := 0.
Definition SUBCOMMAND_TOKEN := 1.
Definition KEY_TOKEN := 1.
Definition SPACE := 32.

(** [token_t]: the C string at [value], [None] for NULL.  The space behind a token
    is overwritten by a NUL, so the string at a token is the token. *)
Record token := Token { tok_value : option (list Z); tok_length : Z }.
#[export] Instance token_eq_dec : EqDecision token.
Proof. solve_decision. Defined.

(** The scan: [rest] is the string from [e] on and [cur] the bytes from [s] to [e]. *)
Fixpoint token_loop (max_tokens : Z) (rest cur : list Z) (tokens : list token)
    : list token * list Z * list Z :=
  match rest with
  | [] => (tokens, cur, [])
  | c :: rest =>
      if c =? SPACE then
        if decide (cur <> []) then
          let tokens := tokens ++ [Token (Some cur) (zlen cur)] in
          if zlen tokens =? max_tokens - 1 then (tokens, [], rest)
          else token_loop max_tokens rest [] tokens
        else token_loop max_tokens rest [] tokens
      else token_loop max_tokens rest (cur ++ [c]) tokens
  end.

(** The tokens with the terminal one; their number is the result of the function. *)
Definition tokenize_command (command : list Z) (max_tokens : Z) : list token :=
  let '(tokens, cur, rest) := token_loop max_tokens command [] [] in
  let tokens := if decide (cur <> []) then tokens ++ [Token (Some cur) (zlen cur)] else tokens in
  tokens ++ [Token (if decide (rest = []) then None else Some rest) 0].

(** [tokens[i].value] and [tokens[i].length]; an entry behind the terminal token
    was never written and reading it is undefined. *)
Definition tok (tokens : list token) (i : Z) : option token := zget i tokens.

(** ** Words *)

(** The words of a string: its longest runs without spaces, [cur] being the one
    under construction. *)
Fixpoint words_from (cur s : list Z) : list (list Z) :=
  match s with
  | [] => if decide (cur = []) then [] else [cur]
  | c :: s =>
      if c =? SPACE then if decide (cur = []) then words_from [] s else cur :: words_from [] s
      else words_from (cur ++ [c]) s
  end.
Definition words : list Z -> list (list Z) := words_from [].
Definition word_token (w : list Z) : token := Token (Some w) (zlen w).

Definition is_word (w : list Z) : Prop := w <> [] /\ Forall (fun c => c <> SPACE) w.

(** A line of words with [n + 1] spaces between two of them. *)
Fixpoint unwords (n : nat) (ws : list (list Z)) : list Z :=
  match ws with
  | [] => []
  | [w] => w
  | w :: ws => w ++ replicate (S n) SPACE ++ unwords n ws
  end.

Lemma words_from_run cur w s :
  Forall (fun c => c <> SPACE) w -> words_from cur (w ++ s) = words_from (cur ++ w) s.
Proof.
  intros Hw. revert cur. induction Hw as [|c w Hc Hw IH]; intros cur; cbn; [by rewrite app_nil_r|].
  rewrite (proj2 (Z.eqb_neq _ _) Hc), IH. by rewrite <- app_assoc.
Qed.
Lemma words_from_spaces n s : words_from [] (replicate n SPACE ++ s) = words_from [] s.
Proof. by induction n. Qed.
Lemma words_unwords n ws : Forall is_word ws -> words (unwords n ws) = ws.
Proof.
  unfold words. induction 1 as [|w ws [Hne Hw] Hws IH]; [done|]. destruct ws as [|w' ws].
  - cbn [unwords]. rewrite <- (app_nil_r w) at 1. rewrite words_from_run by done. cbn. by rewrite decide_False.
  - change (unwords n (w :: w' :: ws)) with (w ++ replicate (S n) SPACE ++ unwords n (w' :: ws)).
    rewrite words_from_run, app_nil_l by done. cbn [replicate app words_from]. change (SPACE =? SPACE) with true. cbv iota.
    rewrite decide_False by done. f_equal. by rewrite words_from_spaces.
Qed.
Lemma words_are_words cur s :
  Forall (fun c => c <> SPACE) cur -> Forall is_word (words_from cur s).
Proof.
  revert cur. induction s as [|c s IH]; intros cur Hc; cbn [words_from].
  - case_decide; repeat constructor; done.
  - destruct (Z.eqb_spec c SPACE).
    + case_decide; [by apply IH|]. constructor; [done|by apply IH].
    + apply IH. apply Forall_app. by repeat constructor.
Qed.

(** ** The scan finds the words *)

Lemma zlen_word_tokens ws : zlen (word_token <$> ws) = zlen ws.
Proof. unfold zlen. by rewrite length_fmap. Qed.

Lemma token_loop_words max rest cur ws :
  zlen ws < max - 1 ->
  exists ws' cur' rest',
    token_loop max rest cur (word_token <$> ws) = (word_token <$> ws ++ ws', cur', rest')
    /\ ((rest' = [] /\ words_from cur rest = ws' ++ words_from cur' [] /\ zlen (ws ++ ws') < max - 1)
        \/ (cur' = [] /\ words_from cur rest = ws' ++ words rest' /\ zlen (ws ++ ws') = max - 1)).
Proof.
  revert cur ws. induction rest as [|c rest IH]; intros cur ws Hl; cbn [token_loop words_from].
  - exists [], cur, []. rewrite app_nil_r. split; [done|]. left. by split; [|split].
  - destruct (Z.eqb_spec c SPACE) as [_|_].
    + destruct (decide (cur = [])) as [->|Hc].
      * rewrite decide_False by naive_solver. by apply IH.
      * rewrite decide_True by done. change [Token (Some cur) (zlen cur)] with (word_token <$> [cur]).
        rewrite <- fmap_app, zlen_word_tokens.
        destruct (Z.eqb_spec (zlen (ws ++ [cur])) (max - 1)) as [E|E].
        -- exists [cur], [], rest. split; [done|]. by right.
        -- destruct (IH [] (ws ++ [cur])) as (ws' & cur' & rest' & -> & H);
             [rewrite zlen_app, zlen_cons, zlen_nil in *; lia|].
           exists (cur :: ws'), cur', rest'. rewrite <- app_assoc in *. split; [done|].
           destruct H as [(-> & -> & H)|(-> & -> & H)]; [left|right]; done.
    + by apply IH.
Qed.

Lemma tokenize_ok command max_tokens :
  1 < max_tokens ->
  exists rest, tokenize_command command max_tokens
      = (word_token <$> take (Z.to_nat (max_tokens - 1)) (words command)) ++ [Token rest 0]
    /\ words (default [] rest) = drop (Z.to_nat (max_tokens - 1)) (words command)
    /\ zlen (tokenize_command command max_tokens) <= max_tokens
    /\ (rest <> None -> zlen (words command) >= max_tokens - 1).
Proof.
  intros Hm. unfold tokenize_command, words.
  destruct (token_loop_words max_tokens command [] []) as (ws & cur & rest & E & H); [rewrite zlen_nil; lia|].
  cbn [fmap list_fmap] in E. rewrite E. cbn [app] in *. destruct H as [(-> & -> & Hl)|(-> & -> & Hl)].
  - exists None. rewrite (decide_True (P:=[] = [])) by done. cbn [words_from].
    assert (forall c : list Z, (if decide (c <> []) then (word_token <$> ws) ++ [Token (Some c) (zlen c)] else word_token <$> ws)
      = word_token <$> ws ++ (if decide (c = []) then [] else [c])) as ->.
    { intros c. destruct (decide (c = [])) as [->|Hc].
      - rewrite decide_False, app_nil_r by naive_solver. done.
      - rewrite decide_True, fmap_app by done. done. }
    assert (zlen (ws ++ (if decide (cur = []) then [] else [cur])) <= max_tokens - 1) as Hl'.
    { rewrite zlen_app. case_decide; autorewrite with zlist; lia. }
    unfold zlen in Hl'. rewrite take_ge, drop_ge by lia. split; [done|]. split; [done|].
    split; [|done]. rewrite zlen_app, zlen_word_tokens, zlen_cons, zlen_nil. unfold zlen. lia.
  - exists (if decide (rest = []) then None else Some rest). rewrite decide_False by naive_solver.
    assert (length ws = Z.to_nat (max_tokens - 1)) as El by (unfold zlen in Hl; lia).
    rewrite take_app_length', drop_app_length' by done. split; [done|]. split; [by case_decide; subst|].
    rewrite !zlen_app, zlen_word_tokens, zlen_cons, zlen_nil. pose proof (zlen_nonneg (words_from [] rest)).
    unfold words in *. lia.
Qed.

(** The unprocessed rest is shorter than the command. *)
Lemma token_loop_shorter max rest cur tokens tokens' cur' rest' :
  token_loop max rest cur tokens = (tokens', cur', rest') -> rest' = [] \/ (length rest' < length rest)%nat.
Proof.
  revert cur tokens. induction rest as [|c rest IH]; intros cur tokens; cbn [token_loop]; [intros [= _ _ <-]; by left|].
  assert (forall cur tokens, token_loop max rest cur tokens = (tokens', cur', rest') ->
    rest' = [] \/ (length rest' < length (c :: rest))%nat) as Hrec.
  { intros u ts E. destruct (IH u ts E); [by left|right; cbn; lia]. }
  destruct (c =? SPACE); [case_decide; [case_match|]|]; try apply Hrec. intros [= _ _ <-]. right. cbn. lia.
Qed.
Lemma tokenize_shorter command max_tokens ts rest :
  tokenize_command command max_tokens = ts ++ [Token (Some rest) 0] -> (length rest < length command)%nat.
Proof.
  unfold tokenize_command. destruct (token_loop max_tokens command [] []) as [[t c] r] eqn:E.
  apply token_loop_shorter in E. intros [_ [= Er]]%app_inj_tail. destruct (decide (r = [])); [done|]. injection Er as <-.
  by destruct E.
Qed.

(** C36: [tokenize_command] finds the words of a command line: its tokens are the
    first [max_tokens - 1] words, in order, with their lengths, and a terminal
    token, at most [max_tokens] entries in all.  The terminal token points to the
    unprocessed rest, whose words are the remaining ones, and is NULL only when
    no word is left; so tokenizing the rest again and again, as a multi-key get
    does, finds every word of the line. *)
Theorem tokenize_command_words command max_tokens :
  1 < max_tokens ->
  exists rest, tokenize_command command max_tokens
      = (word_token <$> take (Z.to_nat (max_tokens - 1)) (words command)) ++ [Token rest 0]
    /\ words (default [] rest) = drop (Z.to_nat (max_tokens - 1)) (words command)
    /\ zlen (tokenize_command command max_tokens) <= max_tokens
    /\ (rest <> None -> zlen (words command) >= max_tokens - 1).
Proof. apply tokenize_ok. Qed.
Lemma tokenize_command_words_witness :
  exists rest, tokenize_command (str "get  a bc d ") 3
      = (word_token <$> [str "get"; str "a"]) ++ [Token rest 0] /\ words (default [] rest) = [str "bc"; str "d"].
Proof.
  destruct (tokenize_command_words (str "get  a bc d ") 3 ltac:(lia)) as (rest & E & W & _).
  exists rest. split; [exact E|exact W].
Defined.
