(* ===== verification/Resp.v ===== *)
(** * Response objects (memcached.c)

    A worker thread takes its response objects out of bundles, read buffers cut
    into [MAX_RESP_PER_BUNDLE] objects; the bundles with a free object are on the
    list [open_bundle].  The operations are over the state of one worker. *)

From S2P Require Import Prelude.

Definition READ_BUFFER_SIZE := 16384.
Definition WRITE_BUFFER_SIZE := 1024.
(** x86-64: [sizeof(mc_resp_bundle)] is 24 and [sizeof(mc_resp)] 1184. *)
Definition MAX_RESP_PER_BUNDLE := (READ_BUFFER_SIZE - 24) / 1184.

(** [struct _mc_resp_bundle] up to its links: [r_free] is the field [free] of the
    objects. *)
Record bundle := Bundle { b_refcount : Z; next_check : Z; r_free : list bool }.
#[export] Instance eta_bundle : Eta bundle := fun r => Bundle (b_refcount r) (next_check r) (r_free r).
#[export] Instance upd_b_refcount : Upd b_refcount. Proof. solve_upd. Defined.
#[export] Instance upd_next_check : Upd next_check. Proof. solve_upd. Defined.
#[export] Instance upd_r_free : Upd r_free. Proof. solve_upd. Defined.

(** The part of [LIBEVENT_THREAD] about buffers.  [open_bundle] is the list from
    the pointer of that name along [next]; [prev] points the other way.
    [rbuf_cache_ok] tells for the coming calls whether [do_cache_alloc] of the
    read buffer cache succeeds (it does once the list is used up) and
    [next_buf] names the next buffer. *)
Record worker := Worker {
  bundles : gmap Z bundle; open_bundle : list Z;
  rbuf_cache_ok : list bool; next_buf : Z; rbuf_out : Z;
  response_obj_bytes : Z; response_obj_count : Z; response_obj_oom : Z; read_buf_oom : Z
}.
#[export] Instance eta_worker : Eta worker := fun r =>
  Worker (bundles r) (open_bundle r) (rbuf_cache_ok r) (next_buf r) (rbuf_out r)
    (response_obj_bytes r) (response_obj_count r) (response_obj_oom r) (read_buf_oom r).
#[export] Instance upd_bundles : Upd bundles. Proof. solve_upd. Defined.
#[export] Instance upd_open_bundle : Upd open_bundle. Proof. solve_upd. Defined.
#[export] Instance upd_rbuf_cache_ok : Upd rbuf_cache_ok. Proof. solve_upd. Defined.
#[export] Instance upd_next_buf : Upd next_buf. Proof. solve_upd. Defined.
#[export] Instance upd_rbuf_out : Upd rbuf_out. Proof. solve_upd. Defined.
#[export] Instance upd_resp_bytes : Upd response_obj_bytes. Proof. solve_upd. Defined.
#[export] Instance upd_resp_count : Upd response_obj_count. Proof. solve_upd. Defined.
#[export] Instance upd_resp_oom : Upd response_obj_oom. Proof. solve_upd. Defined.
#[export] Instance upd_read_buf_oom : Upd read_buf_oom. Proof. solve_upd. Defined.
Definition worker_init : worker := Worker ∅ [] [] 0 0 0 0 0 0.

(** [do_cache_alloc(th->rbuf_cache)] and [do_cache_free]; [rbuf_out] counts the
    buffers handed out. *)
Definition rbuf_cache_alloc : M worker (option Z) :=
  oks ← gets rbuf_cache_ok;
  modify (fun w => w <| rbuf_cache_ok ::= tail |>);;
  if default true (head oks) then
    b ← gets next_buf;
    modify (fun w => w <| next_buf ::= Z.succ |> <| rbuf_out ::= Z.succ |>);;
    mret (Some b)
  else mret None.
Definition rbuf_cache_free : M worker unit := modify (fun w => w <| rbuf_out ::= Z.pred |>).

Definition get_bundle (b : Z) : M worker bundle := bs ← gets bundles; lift (bs !! b).
Definition set_bundle (b : Z) (f : bundle -> bundle) : M worker unit :=
  modify (fun w => w <| bundles ::= alter f b |>).

(** The object the search of [resp_allocate] finds, [n] entries from the [i]-th. *)
Fixpoint find_free (n : nat) (i next_check : Z) (fr : list bool) : option Z :=
  match n with
  | O => None
  | S n =>
      let x := (i + next_check) mod MAX_RESP_PER_BUNDLE in
      if default false (zget x fr) then Some x else find_free n (i + 1) next_check fr
  end.

(** A response object is known by its bundle and its index. *)
Definition resp_allocate : M worker (option (Z * Z)) :=
  op ← gets open_bundle;
  found ← (match op with
           | [] => mret None
           | b :: op' =>
               bu ← get_bundle b;
               match find_free (Z.to_nat MAX_RESP_PER_BUNDLE) 0 (next_check bu) (r_free bu) with
               | None => mret None
               | Some x =>
                   set_bundle b (fun u => u <| next_check := u8 (x + 1) |> <| b_refcount ::= fun n => u8 (n + 1) |>
                                            <| r_free ::= <[Z.to_nat x := false]> |>);;
                   bu ← get_bundle b;
                   when (b_refcount bu =? MAX_RESP_PER_BUNDLE) (modify (fun w => w <| open_bundle := op' |>));;
                   mret (Some (b, x))
               end
           end);
  match found with
  | Some r => mret (Some r)
  | None =>
      massert (bool_decide (op = []));;
      b ← rbuf_cache_alloc;
      match b with
      | None => mret None
      | Some b =>
          modify (fun w => w <| response_obj_bytes ::= fun n => u64 (n + READ_BUFFER_SIZE) |>
            <| bundles ::= <[b := Bundle 1 1 (false :: replicate (Z.to_nat MAX_RESP_PER_BUNDLE - 1) true)]> |>
            <| open_bundle := [b] |>);;
          mret (Some (b, 0))
      end
  end.

Definition resp_free (r : Z * Z) : M worker unit :=
  let '(b, x) := r in
  bu ← get_bundle b;
  lift (zget x (r_free bu));;
  set_bundle b (fun u => u <| r_free ::= <[Z.to_nat x := true]> |> <| b_refcount ::= fun n => u8 (n - 1) |>);;
  bu ← get_bundle b;
  op ← gets open_bundle;
  if b_refcount bu =? 0 then
    if bool_decide (op = [b]) then set_bundle b (fun u => u <| next_check := 0 |>)
    else
      massert (bool_decide (b ∈ op));;
      modify (fun w => w <| open_bundle ::= filter (fun b' => b' <> b) |> <| bundles ::= delete b |>);;
      rbuf_cache_free;;
      modify (fun w => w <| response_obj_bytes ::= fun n => u64 (n - READ_BUFFER_SIZE) |>)
  else if bool_decide (b ∈ op) then mret tt
  else modify (fun w => w <| open_bundle ::= cons b |>).

(** ** The invariant of the bundles *)

Definition n_used (fr : list bool) : Z := zlen (filter (fun b => b = false) fr).
Definition bundle_ok (u : bundle) : Prop :=
  zlen (r_free u) = MAX_RESP_PER_BUNDLE /\ b_refcount u = n_used (r_free u).

(** The object [r] is in use. *)
Definition in_use (w : worker) (r : Z * Z) : Prop :=
  exists u, bundles w !! r.1 = Some u /\ zget r.2 (r_free u) = Some false.

Record resp_inv (w : worker) : Prop := {
  ri_ok : map_Forall (fun _ => bundle_ok) (bundles w);
  ri_nodup : NoDup (open_bundle w);
  ri_open b : b ∈ open_bundle w <-> exists u, bundles w !! b = Some u /\ b_refcount u < MAX_RESP_PER_BUNDLE;
  ri_new b u : bundles w !! b = Some u -> b < next_buf w;
  ri_empty b b' u u' : bundles w !! b = Some u -> b_refcount u = 0 ->
    bundles w !! b' = Some u' -> b_refcount u' = 0 -> b = b'
}.

Lemma zget_bound {A} i (l : list A) x : zget i l = Some x -> 0 <= i < zlen l.
Proof. unfold zget, zlen. case_decide; [|done]. intros E%lookup_lt_Some. lia. Qed.
Lemma zget_nat {A} i (l : list A) : 0 <= i -> zget i l = l !! Z.to_nat i.
Proof. intros. unfold zget. by rewrite decide_True. Qed.

Lemma n_used_insert fr x (a b : bool) :
  zget x fr = Some a -> n_used (<[Z.to_nat x := b]> fr) = n_used fr - (if a then 0 else 1) + (if b then 0 else 1).
Proof.
  intros E. pose proof (zget_bound _ _ _ E) as Hb. rewrite zget_nat in E by lia.
  rewrite <- (take_drop_middle _ _ _ E) at 2.
  rewrite insert_take_drop by (apply lookup_lt_is_Some; eauto). unfold n_used.
  rewrite !filter_app, !filter_cons. by destruct a, b; repeat case_decide; try done; rewrite !zlen_app, ?zlen_cons; lia.
Qed.
Lemma n_used_range fr : 0 <= n_used fr <= zlen fr.
Proof. unfold n_used, zlen. pose proof (length_filter (fun b => b = false) fr). lia. Qed.
(** A list with fewer [false] than entries has a [true]. *)
Lemma n_used_free fr : n_used fr < zlen fr -> exists x, zget x fr = Some true.
Proof.
  induction fr as [|[] fr IH]; intros H; [by cbv in H|by exists 0|].
  unfold n_used in *. rewrite filter_cons_True, !zlen_cons in H by done.
  destruct IH as [x E]; [lia|]. pose proof (zget_bound _ _ _ E). exists (x + 1). rewrite zget_nat in * by lia.
  replace (Z.to_nat (x + 1)) with (S (Z.to_nat x)) by lia. done.
Qed.
Lemma n_used_one fr x : n_used fr = 1 -> zget x fr = Some false -> n_used (<[Z.to_nat x := true]> fr) = 0.
Proof. intros H E. rewrite (n_used_insert _ _ _ _ E). lia. Qed.
Lemma n_used_pos fr x : zget x fr = Some false -> 0 < n_used fr.
Proof.
  intros E. pose proof (n_used_range (<[Z.to_nat x := true]> fr)). rewrite (n_used_insert _ _ _ _ E) in H. lia.
Qed.

(** The search visits every entry. *)
Lemma find_free_some n i c fr x : find_free n i c fr = Some x -> zget x fr = Some true.
Proof.
  revert i. induction n as [|n IH]; intros i; cbn; [done|].
  destruct (zget ((i + c) mod _) fr) as [[]|] eqn:E; cbn; [by intros [= <-]|apply IH|apply IH].
Qed.
Lemma find_free_none n i c fr j :
  find_free n i c fr = None -> i <= j < i + Z.of_nat n -> zget ((j + c) mod MAX_RESP_PER_BUNDLE) fr <> Some true.
Proof.
  revert i. induction n as [|n IH]; intros i E Hj; [lia|]. cbn in E.
  destruct (zget ((i + c) mod MAX_RESP_PER_BUNDLE) fr) as [[]|] eqn:Ei; cbn in E; try done;
    (destruct (decide (j = i)) as [->|]; [by rewrite Ei|apply (IH (i + 1)); [done|lia]]).
Qed.
Lemma find_free_total c fr :
  zlen fr = MAX_RESP_PER_BUNDLE -> n_used fr < MAX_RESP_PER_BUNDLE ->
  exists x, find_free (Z.to_nat MAX_RESP_PER_BUNDLE) 0 c fr = Some x.
Proof.
  intros Hl Hn. destruct (find_free _ _ _ _) as [x|] eqn:E; [by exists x|].
  destruct (n_used_free fr) as [x Hx]; [lia|]. pose proof (zget_bound _ _ _ Hx) as Hb. rewrite Hl in Hb.
  exfalso. apply (find_free_none _ _ _ _ ((x - c) mod MAX_RESP_PER_BUNDLE) E).
  - pose proof (Z.mod_pos_bound (x - c) MAX_RESP_PER_BUNDLE ltac:(done)). change MAX_RESP_PER_BUNDLE with 13 in *. lia.
  - by rewrite Zplus_mod_idemp_l, Z.sub_add, Z.mod_small.
Qed.

(** Setting the flag of one object and the count with it. *)
Lemma in_use_alter w w' b x u u' (a : bool) :
  bundles w !! b = Some u -> bundles w' = <[b := u']> (bundles w) ->
  r_free u' = <[Z.to_nat x := a]> (r_free u) -> 0 <= x < zlen (r_free u) ->
  forall r, in_use w' r <-> (if decide (r = (b, x)) then a = false else in_use w r).
Proof.
  intros Eu Eb Ef Hx [b' x']. unfold in_use. cbn [fst snd]. rewrite Eb.
  destruct (decide (b' = b)) as [->|Hne].
  - rewrite lookup_insert_eq. destruct (decide (x' = x)) as [->|Hx'].
    + rewrite decide_True by done. split.
      * intros (v & [= <-] & Hv). rewrite Ef, zget_nat, list_lookup_insert_eq in Hv by (unfold zlen in Hx; lia). naive_solver.
      * intros ->. exists u'. split; [done|]. rewrite Ef, zget_nat, list_lookup_insert_eq by (unfold zlen in Hx; lia). done.
    + rewrite decide_False by naive_solver. split; intros (v & Hv & Hg).
      * simplify_eq. exists u. split; [done|]. rewrite Ef in Hg. pose proof (zget_bound _ _ _ Hg).
        rewrite zget_nat, list_lookup_insert_ne in Hg by lia. by rewrite zget_nat by lia.
      * simplify_eq. exists u'. split; [done|]. rewrite Ef. pose proof (zget_bound _ _ _ Hg).
        rewrite zget_nat, list_lookup_insert_ne by lia. by rewrite zget_nat in Hg by lia.
  - rewrite lookup_insert_ne by done. by rewrite decide_False by naive_solver.
Qed.

Lemma alter_insert {K A} `{Countable K} (f : A -> A) (k : K) (m : gmap K A) x :
  m !! k = Some x -> alter f k m = <[k := f x]> m.
Proof.
  intros E. apply map_eq. intros k'. destruct (decide (k' = k)) as [->|].
  - by rewrite lookup_alter_eq, lookup_insert_eq, E.
  - by rewrite lookup_alter_ne, lookup_insert_ne.
Qed.

Lemma set_bundle_insert w b f u :
  bundles w !! b = Some u -> w <| bundles ::= alter f b |> = w <| bundles := <[b := f u]> (bundles w) |>.
Proof. intros E. destruct w. unfold upd, upd_bundles. cbn in *. by rewrite (alter_insert _ _ _ u E). Qed.

Lemma bundle_ok_range u : bundle_ok u -> 0 <= b_refcount u <= 13.
Proof. intros [Hl ->]. change 13 with MAX_RESP_PER_BUNDLE. rewrite <- Hl. apply n_used_range. Qed.

Lemma resp_allocate_reuse w b op :
  resp_inv w -> open_bundle w = b :: op ->
  exists x w', resp_allocate w = Some (Some (b, x), w') /\ resp_inv w' /\ ~ in_use w (b, x)
    /\ rbuf_cache_ok w' = rbuf_cache_ok w
    /\ forall r, in_use w' r <-> r = (b, x) \/ in_use w r.
Proof.
  intros Hi Eo. destruct (proj1 (ri_open _ Hi b)) as (u & Eu & Hu); [rewrite Eo; left|].
  pose proof (ri_ok _ Hi _ _ Eu) as Hok. pose proof (bundle_ok_range u Hok) as Hr. destruct Hok as [Hl Hc].
  destruct (find_free_total (next_check u) (r_free u)) as [x Ex]; [done|by rewrite <- Hc|].
  pose proof (find_free_some _ _ _ _ _ Ex) as Hx. pose proof (zget_bound _ _ _ Hx) as Hb.
  set (u' := u <| next_check := u8 (x + 1) |> <| b_refcount ::= fun n => u8 (n + 1) |>
               <| r_free ::= <[Z.to_nat x := false]> |>).
  assert (b_refcount u' = b_refcount u + 1) as Er by (unfold u'; upds; change MAX_RESP_PER_BUNDLE with 13 in Hu; rewrite u8_id; lia).
  assert (bundle_ok u') as Hok'.
  { split; [unfold u'; upds; unfold zlen; by rewrite length_insert|]. rewrite Er, Hc. unfold u'. upds.
    rewrite (n_used_insert _ _ _ _ Hx). lia. }
  set (w' := w <| bundles := <[b := u']> (bundles w) |>
    <| open_bundle := if b_refcount u' =? MAX_RESP_PER_BUNDLE then op else b :: op |>).
  exists x, w'.
  assert (resp_allocate w = Some (Some (b, x), w')) as Erun.
  { unfold resp_allocate, get_bundle, set_bundle. run. rewrite Eo. run. rewrite Eu. run. rewrite Ex. run. upds.
    rewrite lookup_alter_eq, Eu. run. fold u'. cbn [fmap option_fmap option_map]. rewrite run_lift_Some. run.
    rewrite (set_bundle_insert _ _ _ u Eu). fold u'. unfold w'. destruct (b_refcount u' =? _); cbn [when]; run; [done|].
    rewrite <- Eo. by destruct w. }
  assert (bundles w' = <[b := u']> (bundles w)) as Ebs by done.
  assert (forall r, in_use w' r <-> r = (b, x) \/ in_use w r) as Hin.
  { intros r. rewrite (in_use_alter w w' b x u u' false Eu Ebs eq_refl Hb). case_decide; naive_solver. }
  split; [done|]. split; [|split; [|split; [done|done]]].
  - pose proof (ri_nodup _ Hi) as Hnd. rewrite Eo in Hnd. apply NoDup_cons in Hnd as [Hnb Hnd].
    constructor.
    + rewrite Ebs. apply map_Forall_insert_2; [done|apply Hi].
    + unfold w'. upds. destruct (_ =? _); [done|by constructor].
    + intros b'. rewrite Ebs. unfold w'. upds. destruct (decide (b' = b)) as [->|Hne].
      * rewrite lookup_insert_eq. destruct (Z.eqb_spec (b_refcount u') MAX_RESP_PER_BUNDLE).
        -- split; [done|]. intros (v & [= <-] & Hv). lia.
        -- split; [|intros _; left]. intros _. exists u'. split; [done|]. rewrite Er in *. lia.
      * rewrite lookup_insert_ne, <- (ri_open _ Hi b'), Eo by done.
        destruct (_ =? _); [|done]. rewrite elem_of_cons. naive_solver.
    + intros b' v. rewrite Ebs. intros Hv. apply lookup_insert_Some in Hv as [[<- _]|[_ Hv]]; by eapply (ri_new _ Hi).
    + intros b1 b2 v1 v2. rewrite Ebs. intros H1 E1 H2 E2.
      apply lookup_insert_Some in H1 as [[<- <-]|[_ H1]]; [lia|]. apply lookup_insert_Some in H2 as [[<- <-]|[_ H2]]; [lia|].
      by apply (ri_empty _ Hi b1 b2 v1 v2).
  - intros (v & Ev & Hv). cbn in Ev, Hv. rewrite Eu in Ev. simplify_eq.
Qed.

(** No open bundle: a new one, if the cache has a buffer. *)
Lemma resp_allocate_new w :
  resp_inv w -> open_bundle w = [] -> default true (head (rbuf_cache_ok w)) = true ->
  exists r w', resp_allocate w = Some (Some r, w') /\ resp_inv w' /\ ~ in_use w r
    /\ rbuf_cache_ok w' = tail (rbuf_cache_ok w) /\ forall r', in_use w' r' <-> r' = r \/ in_use w r'.
Proof.
  intros Hi Eo Hok. set (b := next_buf w).
  set (u := Bundle 1 1 (false :: replicate (Z.to_nat MAX_RESP_PER_BUNDLE - 1) true)).
  assert (bundles w !! b = None) as Hb.
  { apply eq_None_not_Some. intros [v Hv]. pose proof (ri_new _ Hi _ _ Hv). unfold b in *. lia. }
  eexists (b, 0), _. split; [|split; [|split; [|split]]].
  - unfold resp_allocate, rbuf_cache_alloc. run. rewrite Eo. run. upds. rewrite Hok. run. reflexivity.
  - constructor; upds.
    + apply map_Forall_insert_2; [by split|apply Hi].
    + apply NoDup_singleton.
    + intros b'. rewrite list_elem_of_singleton. split.
      * intros ->. exists u. split; [apply lookup_insert_eq|done].
      * intros (v & Hv & Hlt). apply lookup_insert_Some in Hv as [[<- _]|[_ Hv]]; [done|].
        pose proof (proj2 (ri_open _ Hi b')) as Hin. rewrite Eo in Hin. exfalso.
        eapply not_elem_of_nil, Hin. eauto.
    + intros b' v Hv. apply lookup_insert_Some in Hv as [[<- _]|[_ Hv]]; unfold b; [lia|].
      pose proof (ri_new _ Hi _ _ Hv). lia.
    + intros b1 b2 v1 v2 H1 E1 H2 E2.
      apply lookup_insert_Some in H1 as [[<- <-]|[_ H1]]; [done|]. apply lookup_insert_Some in H2 as [[<- <-]|[_ H2]]; [done|].
      by apply (ri_empty _ Hi b1 b2 v1 v2).
  - intros (v & Hv & _). cbn in Hv. congruence.
  - upds. done.
  - intros [b' x]. unfold in_use. cbn [fst snd]. upds. destruct (decide (b' = b)) as [->|Hne].
    + rewrite lookup_insert_eq, Hb. split; [|naive_solver].
      intros (v & [= <-] & Hv). left. destruct (decide (x = 0)) as [->|]; [done|].
      pose proof (zget_bound _ _ _ Hv). rewrite zget_nat in Hv by lia. cbn [r_free] in Hv.
      apply lookup_cons_Some in Hv as [[E _]|[_ Hv]]; [lia|]. apply (lookup_replicate_1 12 true) in Hv. naive_solver.
    + rewrite lookup_insert_ne by done. naive_solver.
Qed.

(** Neither. *)
Lemma resp_allocate_none w :
  open_bundle w = [] -> default true (head (rbuf_cache_ok w)) = false ->
  resp_allocate w = Some (None, w <| rbuf_cache_ok ::= tail |>).
Proof. intros Eo Hok. unfold resp_allocate, rbuf_cache_alloc. run. rewrite Eo. run. upds. by rewrite Hok. Qed.

(** Releasing an object that is in use. *)
Lemma resp_free_ok w r :
  resp_inv w -> in_use w r ->
  exists w', resp_free r w = Some (tt, w') /\ resp_inv w' /\ rbuf_cache_ok w' = rbuf_cache_ok w
    /\ forall r', in_use w' r' <-> in_use w r' /\ r' <> r.
Proof.
  intros Hi (u & Eu & Hx). destruct r as [b x]. cbn [fst snd] in *.
  pose proof (ri_ok _ Hi _ _ Eu) as Hok. pose proof (bundle_ok_range u Hok) as Hr. destruct Hok as [Hl Hc].
  pose proof (zget_bound _ _ _ Hx) as Hb. pose proof (n_used_pos _ _ Hx) as Hpos.
  set (u' := u <| r_free ::= <[Z.to_nat x := true]> |> <| b_refcount ::= fun n => u8 (n - 1) |>).
  assert (b_refcount u' = b_refcount u - 1) as Er by (unfold u'; upds; rewrite u8_id; lia).
  assert (bundle_ok u') as Hok'.
  { split; [unfold u'; upds; unfold zlen; by rewrite length_insert|]. rewrite Er, Hc. unfold u'. upds.
    rewrite (n_used_insert _ _ _ _ Hx). lia. }
  set (w1 := w <| bundles := <[b := u']> (bundles w) |>).
  assert (forall r, in_use w1 r <-> in_use w r /\ r <> (b, x)) as Hin.
  { intros r. rewrite (in_use_alter w w1 b x u u' true Eu eq_refl eq_refl Hb). case_decide; naive_solver. }
  assert (resp_free (b, x) w = (op ← gets open_bundle;
     if b_refcount u' =? 0 then
       if bool_decide (op = [b]) then set_bundle b (fun u => u <| next_check := 0 |>)
       else massert (bool_decide (b ∈ op));;
         modify (fun w => w <| open_bundle ::= filter (fun b' => b' <> b) |> <| bundles ::= delete b |>);;
         rbuf_cache_free;; modify (fun w => w <| response_obj_bytes ::= fun n => u64 (n - READ_BUFFER_SIZE) |>)
     else if bool_decide (b ∈ op) then mret tt
     else modify (fun w => w <| open_bundle ::= cons b |>)) w1) as ->.
  { unfold resp_free, get_bundle, set_bundle. run. rewrite Eu. run. rewrite Hx. run.
    rewrite (set_bundle_insert _ _ _ u Eu). fold u'. fold w1. change (bundles w1) with (<[b := u']> (bundles w)).
    rewrite lookup_insert_eq. by run. }
  assert (forall b', b' <> b -> b' ∈ open_bundle w <-> exists v, <[b := u']> (bundles w) !! b' = Some v /\ b_refcount v < MAX_RESP_PER_BUNDLE) as Hop.
  { intros b' Hne. rewrite lookup_insert_ne by done. apply Hi. }
  assert (b_refcount u' < MAX_RESP_PER_BUNDLE) as Hlt by (rewrite Er; change MAX_RESP_PER_BUNDLE with 13; lia).
  rewrite run_bind, run_gets. change (open_bundle w1) with (open_bundle w).
  destruct (Z.eqb_spec (b_refcount u') 0) as [E0|E0]; [case_bool_decide as Ho|].
  - exists (w1 <| bundles := <[b := u' <| next_check := 0 |>]> (bundles w) |>). split; [|split; [|split; [done|]]].
    + unfold set_bundle. run. rewrite (set_bundle_insert _ _ _ u') by apply lookup_insert_eq. do 2 f_equal.
      unfold w1. upds. rewrite insert_insert_eq. by destruct w.
    + constructor; unfold w1; upds.
      * apply map_Forall_insert_2; [exact Hok'|apply Hi].
      * apply Hi.
      * intros b'. destruct (decide (b' = b)) as [->|Hne]; [|rewrite Hop by done; by rewrite !lookup_insert_ne].
        rewrite Ho, lookup_insert_eq, list_elem_of_singleton. split; [|done]. intros _. eexists. split; [done|]. done.
      * intros b' v Hv. apply lookup_insert_Some in Hv as [[<- _]|[_ Hv]]; by eapply (ri_new _ Hi).
      * assert (forall b' v, <[b := u' <| next_check := 0 |>]> (bundles w) !! b' = Some v -> b_refcount v = 0 -> b' = b) as Hone.
        { intros b' v Hv H0. apply lookup_insert_Some in Hv as [[<- _]|[_ Hv]]; [done|].
          assert (b' ∈ open_bundle w) as Hin' by (apply (ri_open _ Hi); exists v; by rewrite H0).
          rewrite Ho in Hin'. by apply list_elem_of_singleton in Hin'. }
        intros b1 b2 v1 v2 H1 E1 H2 E2. by rewrite (Hone _ _ H1 E1), (Hone _ _ H2 E2).
    + intros r'. rewrite <- Hin. unfold in_use, w1. upds. destruct r' as [b' x']. cbn [fst snd].
      destruct (decide (b' = b)) as [->|Hne]; [|by rewrite !lookup_insert_ne].
      rewrite !lookup_insert_eq. split; intros (v & [= <-] & Hv); eexists; (split; [done|exact Hv]).
  - assert (b_refcount u < MAX_RESP_PER_BUNDLE) as Hltu by (change MAX_RESP_PER_BUNDLE with 13; lia).
    assert (b ∈ open_bundle w) as Hbo by (apply (ri_open _ Hi); eauto).
    rewrite bool_decide_true by done. run. eexists. split; [reflexivity|]. unfold w1. upds.
    split; [|split; [done|]].
    + constructor; upds; rewrite ?delete_insert_eq.
      * apply map_Forall_delete, Hi.
      * apply NoDup_filter, Hi.
      * intros b'. rewrite list_elem_of_filter. destruct (decide (b' = b)) as [->|Hne].
        -- rewrite lookup_delete_eq. naive_solver.
        -- rewrite lookup_delete_ne, <- (ri_open _ Hi b') by done. naive_solver.
      * intros b' v [_ Hv]%lookup_delete_Some. by eapply (ri_new _ Hi).
      * intros b1 b2 v1 v2 [_ H1]%lookup_delete_Some E1 [_ H2]%lookup_delete_Some E2. by apply (ri_empty _ Hi b1 b2 v1 v2).
    + intros r'. rewrite <- Hin. unfold in_use, w1. upds. destruct r' as [b' x']. cbn [fst snd].
      destruct (decide (b' = b)) as [->|Hne]; [|by rewrite lookup_delete_ne, lookup_insert_ne].
      rewrite lookup_delete_eq, lookup_insert_eq. split; [naive_solver|]. intros (v & [= <-] & Hv).
      destruct Hok' as [_ E']. pose proof (n_used_pos _ _ Hv). lia.
  - destruct (bool_decide_reflect (b ∈ open_bundle w)) as [Hbo|Hbo].
    + exists w1. split; [done|]. split; [|done]. constructor; unfold w1; upds.
      * apply map_Forall_insert_2; [exact Hok'|apply Hi].
      * apply Hi.
      * intros b'. destruct (decide (b' = b)) as [->|Hne]; [|by apply Hop].
        rewrite lookup_insert_eq. split; [|done]. intros _. eauto.
      * intros b' v Hv. apply lookup_insert_Some in Hv as [[<- _]|[_ Hv]]; by eapply (ri_new _ Hi).
      * intros b1 b2 v1 v2 H1 E1 H2 E2.
        apply lookup_insert_Some in H1 as [[<- <-]|[_ H1]]; [done|]. apply lookup_insert_Some in H2 as [[<- <-]|[_ H2]]; [done|].
        by apply (ri_empty _ Hi b1 b2 v1 v2).
    + eexists. split; [reflexivity|]. split; [|split; [done|done]]. constructor; unfold w1; upds.
      * apply map_Forall_insert_2; [exact Hok'|apply Hi].
      * constructor; [done|apply Hi].
      * intros b'. rewrite elem_of_cons. destruct (decide (b' = b)) as [->|Hne]; [|rewrite Hop by done; naive_solver].
        rewrite lookup_insert_eq. split; [eauto|]. by left.
      * intros b' v Hv. apply lookup_insert_Some in Hv as [[<- _]|[_ Hv]]; by eapply (ri_new _ Hi).
      * intros b1 b2 v1 v2 H1 E1 H2 E2.
        apply lookup_insert_Some in H1 as [[<- <-]|[_ H1]]; [done|]. apply lookup_insert_Some in H2 as [[<- <-]|[_ H2]]; [done|].
        by apply (ri_empty _ Hi b1 b2 v1 v2).
Qed.

Lemma resp_inv_cache w l : resp_inv w -> resp_inv (w <| rbuf_cache_ok := l |>).
Proof. by intros []; constructor. Qed.
Lemma resp_inv_init : resp_inv worker_init.
Proof.
  split; cbn; [done|apply NoDup_nil_2| |done|done].
  intros b. split; [by intros ?%not_elem_of_nil|]. by intros (u & ? & _).
Qed.

(** What [resp_allocate] does: an object nobody uses, or nothing when the cache has
    no buffer and every bundle is full. *)
Inductive allocates (w : worker) : option (Z * Z) -> worker -> Prop :=
  | allocates_some r w' : ~ in_use w r -> (forall r', in_use w' r' <-> r' = r \/ in_use w r') ->
      allocates w (Some r) w'
  | allocates_none w' : default true (head (rbuf_cache_ok w)) = false ->
      (forall b u, bundles w !! b = Some u -> b_refcount u = MAX_RESP_PER_BUNDLE) ->
      (forall r, in_use w' r <-> in_use w r) -> allocates w None w'.

Lemma resp_allocate_ok w :
  resp_inv w -> exists o w', resp_allocate w = Some (o, w') /\ resp_inv w' /\ allocates w o w'
    /\ (rbuf_cache_ok w = [] -> rbuf_cache_ok w' = [] /\ is_Some o).
Proof.
  intros Hi. destruct (open_bundle w) as [|b op] eqn:Eo; [destruct (default true (head (rbuf_cache_ok w))) eqn:Ec|].
  - destruct (resp_allocate_new w Hi Eo Ec) as (r & w' & E & Hi' & Hn & Ht & Hu). exists (Some r), w'.
    split; [done|]. split; [done|]. split; [by constructor|]. intros E0. rewrite Ht, E0. split; [done|by eexists].
  - exists None, (w <| rbuf_cache_ok ::= tail |>). split; [by apply resp_allocate_none|]. split; [by apply resp_inv_cache|].
    split; [|by intros E0; rewrite E0 in Ec]. constructor; [done| |done]. intros b u Eu.
    pose proof (bundle_ok_range u (ri_ok _ Hi _ _ Eu)).
    destruct (decide (b_refcount u < MAX_RESP_PER_BUNDLE)); [|change MAX_RESP_PER_BUNDLE with 13 in *; lia].
    exfalso. pose proof (proj2 (ri_open _ Hi b)) as Hin. rewrite Eo in Hin. eapply not_elem_of_nil, Hin. eauto.
  - destruct (resp_allocate_reuse w b op Hi Eo) as (x & w' & E & Hi' & Hn & Ht & Hu). exists (Some (b, x)), w'.
    split; [done|]. split; [done|]. split; [by constructor|]. intros E0. rewrite Ht, E0. split; [done|by eexists].
Qed.

(** C35: the response objects of a worker: [resp_allocate] never fails an assertion
    and hands out an object that is not in use, or none when every bundle is full
    and the buffer cache refuses; [resp_free] gives back exactly the object freed.
    Both keep the bundles well formed: counts are the numbers of objects in use,
    the open list holds each bundle with a free object once and at most one bundle
    is empty. *)
Theorem resp_objects_correct w :
  resp_inv w ->
  (exists o w', resp_allocate w = Some (o, w') /\ resp_inv w' /\ allocates w o w')
  /\ (forall r, in_use w r -> exists w', resp_free r w = Some (tt, w') /\ resp_inv w'
        /\ forall r', in_use w' r' <-> in_use w r' /\ r' <> r).
Proof.
  intros Hi. split.
  - destruct (resp_allocate_ok w Hi) as (o & w' & E & Hi' & Ha & _). by exists o, w'.
  - intros r Hr. destruct (resp_free_ok w r Hi Hr) as (w' & E & Hi' & _ & Hu). by exists w'.
Qed.
Lemma resp_objects_correct_witness :
  exists o w', resp_allocate worker_init = Some (o, w') /\ resp_inv w' /\ allocates worker_init o w'.
Proof. apply (resp_objects_correct worker_init), resp_inv_init. Defined.
