(* ===== verification/Strtod.v ===== *)
(** * Decimal and hexadecimal numbers as doubles (util.c)

    [safe_strtod] over the C library's [strtod] in the "C" locale: the nearest
    double to the number the text denotes, ties to even. *)

From Stdlib Require Import SpecFloat.
From S2P Require Import Prelude Util Double.

(** ** strtod *)

(** The digits of a mantissa: their value without the point, the number of them
    behind the point, and the rest; [None] without a digit. *)
Definition mantissa (base : Z) (s : list Z) : option (Z * Z * list Z) :=
  let '(v, some, r) := read_digits base 0 false s in
  match r with
  | 46 :: r' =>
      let '(v', some', r'') := read_digits base v some r' in
      if some' : bool then Some (v', zlen r' - zlen r'', r'') else None
  | _ => if some : bool then Some (v, 0, r) else None
  end.

(** An exponent behind the letter [upper] or its lower-case form, 0 when the text
    has none. *)
Definition exponent (upper : Z) (s : list Z) : Z * list Z :=
  match s with
  | c :: r =>
      if (c =? upper) || (c =? upper + 32) then
        let '(neg, r') := match r with 45 :: r' => (true, r') | 43 :: r' => (false, r') | _ => (false, r) end in
        let '(v, some, r'') := read_digits 10 0 false r' in
        if some : bool then (if neg : bool then - v else v, r'') else (0, s)
      else (0, s)
  | [] => (0, s)
  end.

(** The double nearest to [n / d]. *)
Definition double_ratio (neg : bool) (n d : Z) : double :=
  match n, d with
  | Zpos n, Zpos d => SFdiv 53 1024 (S754_finite neg n 0) (S754_finite false d 0)
  | _, _ => S754_zero neg
  end.

(** [errno] is ERANGE: an overflow, or a result below the smallest normal number
    that is not exact. *)
Definition range_error (x : double) (n d : Z) : bool :=
  match x with
  | S754_infinity _ => true
  | S754_zero _ => 0 <? n
  | S754_finite _ m e => (Zpos m <? 2 ^ 52) && negb (Zpos m * d =? n * 2 ^ (- e))
  | S754_nan => false
  end.

(** [v * base^e] as a ratio. *)
Definition scaled (base v e : Z) : Z * Z := (v * base ^ Z.max 0 e, base ^ Z.max 0 (- e)).
Definition number (neg : bool) (base v e : Z) : double * bool :=
  let '(n, d) := scaled base v e in
  let x := double_ratio neg n d in (x, range_error x n d).

Definition lower (c : Z) : Z := if (65 <=? c) && (c <=? 90) then c + 32 else c.
(** The text behind the word [w], compared without case. *)
Definition after_word (w : string) (s : list Z) : option (list Z) :=
  if decide (map lower (take (length (str w)) s) = str w) then Some (drop (length (str w)) s) else None.

(** The [n-char-sequence] of a NaN: up to a closing parenthesis. *)
Fixpoint nan_chars (s : list Z) : option (list Z) :=
  match s with
  | c :: s => if c =? 41 then Some s else if isalnum c || (c =? 95) then nan_chars s else None
  | [] => None
  end.

(** The result, whether [errno] is ERANGE, and the rest; [None] when there is no
    number and [endptr] stays at the start. *)
Definition strtod (s : list Z) : option (double * bool * list Z) :=
  let s := skip_space s in
  let '(neg, s) := match s with 45 :: s' => (true, s') | 43 :: s' => (false, s') | _ => (false, s) end in
  match after_word "inf" s with
  | Some r => Some (S754_infinity neg, false, default r (after_word "inity" r))
  | None =>
      match after_word "nan" s with
      | Some r => Some (S754_nan, false, match r with 40 :: r' => default r (nan_chars r') | _ => r end)
      | None =>
          match after_word "0x" s ≫= mantissa 16 with
          | Some (v, k, r) => let '(e, r) := exponent 80 r in Some (number neg 2 v (e - 4 * k), r)
          | None =>
              '(v, k, r) ← mantissa 10 s; let '(e, r) := exponent 69 r in Some (number neg 10 v (e - k), r)
          end
      end
  end.

(** [safe_strtod]: the result and [*out]. *)
Definition safe_strtod (str : list Z) : bool * double :=
  match strtod str with
  | None => (false, S754_zero false)
  | Some (d, erange, rest) =>
      if erange : bool then (false, S754_zero false)
      else if ends_ok rest then (true, d) else (false, S754_zero false)
  end.

Example strtod_decimal : safe_strtod (str "0.8") = (true, double_lit 8 10).
Proof. vm_compute. reflexivity. Qed.
Example strtod_exponent : safe_strtod (str "-25e-1 x") = (true, double_div (double_of_Z (-5)) (double_of_Z 2)).
Proof. vm_compute. reflexivity. Qed.
Example strtod_hex : safe_strtod (str "0x1.8p3") = (true, double_of_Z 12).
Proof. vm_compute. reflexivity. Qed.
Example strtod_zero_x : safe_strtod (str "0x") = (false, S754_zero false).
Proof. vm_compute. reflexivity. Qed.
Example strtod_tiny : safe_strtod (str "1e-320") = (false, S754_zero false).
Proof. vm_compute. reflexivity. Qed.
Example strtod_min : fst (safe_strtod (str "0x1p-1074")) = true.
Proof. vm_compute. reflexivity. Qed.
Example strtod_nan : safe_strtod (str "NaN(1)") = (true, S754_nan).
Proof. vm_compute. reflexivity. Qed.
