(* ===== verification/AuthFile.v ===== *)
(** * Passwords for the text protocol (authfile.c)

    The file has lines [user:pass].  The entries point into the copy of the file
    that [authfile_load] keeps; a pointer is an offset into that copy. *)

From S2P Require Import Prelude Util.

Definition MAX_ENTRY_LEN := 256.
Definition MAX_ENTRIES := 8.

(** [auth_t]. *)
Record auth_entry := AuthEntry { user : Z; ulen : Z; pass : Z; plen : Z }.

(** The globals: the [entry_cnt] entries in use and the data they point into. *)
Record authfile := Authfile { main_auth_entries : list auth_entry; main_auth_data : option (list Z) }.
Definition authfile_none : authfile := Authfile [] None.

Inductive authfile_ret := AUTHFILE_OK | AUTHFILE_OOM | AUTHFILE_STATFAIL | AUTHFILE_OPENFAIL | AUTHFILE_MALFORMED.

(** [fgets(dst, n, file)]: the bytes read and the rest of the file; [None] for
    NULL. *)
Fixpoint take_line (n : nat) (file : list Z) : list Z * list Z :=
  match n, file with
  | S n, c :: file =>
      if c =? 10 then ([c], file) else let '(l, rest) := take_line n file in (c :: l, rest)
  | _, _ => ([], file)
  end.
Definition fgets (n : Z) (file : list Z) : option (list Z * list Z) :=
  if n <=? 0 then None
  else if n =? 1 then Some ([], file)
  else if decide (file = []) then None
  else Some (take_line (Z.to_nat (n - 1)) file).

(** The scan of the line at [cur], [n] bytes from the [x]-th on: the place where it
    stops and the colon that was found; reading outside the data is undefined. *)
Fixpoint scan_entry (n : nat) (data : list Z) (cur x : Z) (found : option Z) : option (Z * option Z) :=
  match n with
  | O => Some (x, found)
  | S n =>
      c ← zget (cur + x) data;
      match found with
      | None =>
          if c =? 0 then Some (x, None)
          else scan_entry n data cur (x + 1) (if c =? 58 then Some x else None)
      | Some _ =>
          if (c =? 10) || (c =? 13) || (c =? 0) then Some (x, found)
          else scan_entry n data cur (x + 1) found
      end
  end.

(** The lines from [cur] on; [inr] is the malformed file. *)
Fixpoint load_loop (fuel : nat) (data file : list Z) (cur : Z) (entries : list auth_entry)
    : option (list auth_entry * list Z + unit) :=
  match fuel with
  | O => None
  | S fuel =>
      let room := zlen data - 1 - cur in
      match fgets (if room <? MAX_ENTRY_LEN then room else MAX_ENTRY_LEN) file with
      | None => Some (inl (entries, data))
      | Some (line, file) =>
          data ← memcpy_at data cur (line ++ [0]);
          '(x, found) ← scan_entry (Z.to_nat MAX_ENTRY_LEN) data cur 0 None;
          match found with
          | None => Some (inr tt)
          | Some u =>
              let entries := entries ++ [AuthEntry cur u (cur + u + 1) (x - (u + 1))] in
              if zlen entries =? MAX_ENTRIES then Some (inl (entries, data))
              else
                c ← zget (cur + x) data;
                if c =? 0 then Some (inl (entries, data)) else load_loop fuel data file (cur + x) entries
          end
      end
  end.

(** [authfile_load]: the file is [None] when it cannot be opened; [calloc] must
    succeed, its result is not looked at. *)
Definition authfile_load (file : option (list Z)) (stat_ok calloc_ok : bool) (a : authfile)
    : option (authfile_ret * authfile) :=
  match file with
  | None => Some (AUTHFILE_OPENFAIL, a)
  | Some file =>
      if negb stat_ok then Some (AUTHFILE_STATFAIL, a)
      else if negb calloc_ok then None
      else
        r ← load_loop 9 (replicate (S (length file)) 0) file 0 [];
        Some (match r with
              | inl (entries, data) => (AUTHFILE_OK, Authfile entries (Some data))
              | inr tt => (AUTHFILE_MALFORMED, a)
              end)
  end.

(** [authfile_check]; the bytes behind a pointer are those of the data from there
    on.  The comparison never looks past the length of the entry. *)
Definition byte_at (d : list Z) (off i : Z) : Z := default 0 (zget (off + i) d).
Definition authfile_check (a : authfile) (u p : list Z) : bool :=
  let d := default [] (main_auth_data a) in
  existsb (fun e =>
    (zlen u =? ulen e) && (zlen p =? plen e)
    && safe_memcmp (byte_at u 0) (byte_at d (user e)) (ulen e)
    && safe_memcmp (byte_at p 0) (byte_at d (pass e)) (plen e)) (main_auth_entries a).
