(* ===== verification/StatsPrefix.v ===== *)
(** * Statistics per key prefix (stats_prefix.c)

    A table of counters, chained by the global hash of the prefix.  [perror] and
    the statistics lock are left out; whether [calloc] and [malloc] succeed is an
    argument. *)

From S2P Require Import Prelude Itoa Memory.

Definition PREFIX_HASH_SIZE := 256.

(** [PREFIX_STATS]; the chain of a bucket is a list. *)
Record PREFIX_STATS := PrefixStats {
  pf_prefix : list Z; num_gets : Z; num_sets : Z; num_deletes : Z; num_hits : Z
}.
#[export] Instance eta_prefix_stats : Eta PREFIX_STATS := fun r =>
  PrefixStats (pf_prefix r) (num_gets r) (num_sets r) (num_deletes r) (num_hits r).
#[export] Instance upd_num_gets : Upd num_gets. Proof. solve_upd. Defined.
#[export] Instance upd_num_sets : Upd num_sets. Proof. solve_upd. Defined.
#[export] Instance upd_num_deletes : Upd num_deletes. Proof. solve_upd. Defined.
#[export] Instance upd_num_hits : Upd num_hits. Proof. solve_upd. Defined.

(** The globals of the file: [prefix_stats] holds the [PREFIX_HASH_SIZE] chains. *)
Record prefixes := Prefixes {
  prefix_stats : list (list PREFIX_STATS); prefix_delimiter : Z; num_prefixes : Z; total_prefix_size : Z
}.
#[export] Instance eta_prefixes : Eta prefixes := fun r =>
  Prefixes (prefix_stats r) (prefix_delimiter r) (num_prefixes r) (total_prefix_size r).
#[export] Instance upd_prefix_stats : Upd prefix_stats. Proof. solve_upd. Defined.
#[export] Instance upd_prefix_delimiter : Upd prefix_delimiter. Proof. solve_upd. Defined.
#[export] Instance upd_num_prefixes : Upd num_prefixes. Proof. solve_upd. Defined.
#[export] Instance upd_total_prefix_size : Upd total_prefix_size. Proof. solve_upd. Defined.

Definition stats_prefix_init (delimiter : Z) (t : prefixes) : prefixes :=
  t <| prefix_delimiter := delimiter |> <| prefix_stats := replicate 256 [] |>.
Definition stats_prefix_clear (t : prefixes) : prefixes :=
  t <| prefix_stats := replicate 256 [] |> <| num_prefixes := 0 |> <| total_prefix_size := 0 |>.

(** The bytes before the delimiter; [None] when the key or its first NUL comes
    before one. *)
Fixpoint prefix_of (delimiter : Z) (key : list Z) : option (list Z) :=
  match key with
  | [] => None
  | c :: key =>
      if c =? 0 then None
      else if c =? delimiter then Some []
      else cons c <$> prefix_of delimiter key
  end.

Section prefix.
Context `{HashFunction}.

(** The chain of the key's prefix and the entry in it that the search stops at:
    [strncmp] looks at the first [length] bytes only. *)
Definition bucket_no (p : list Z) : nat := Z.to_nat (hash p mod PREFIX_HASH_SIZE).
Definition matches (p : list Z) (e : PREFIX_STATS) : Prop := ztake (zlen p) (pf_prefix e) = p.
#[export] Instance matches_dec p e : Decision (matches p e).
Proof. unfold matches. apply _. Defined.

(** Apply [f] to the entry [stats_prefix_find] returns, if any. *)
Definition with_prefix (key : list Z) (malloc_ok : bool) (f : PREFIX_STATS -> PREFIX_STATS) (t : prefixes) : prefixes :=
  match prefix_of (prefix_delimiter t) key with
  | None => t
  | Some p =>
      let b := bucket_no p in
      let chain := default [] (prefix_stats t !! b) in
      match list_find (matches p) chain with
      | Some (i, e) => t <| prefix_stats ::= <[b := <[i := f e]> chain]> |>
      | None =>
          if malloc_ok then
            t <| prefix_stats ::= <[b := f (PrefixStats p 0 0 0 0) :: chain]> |>
              <| num_prefixes ::= fun n => s32 (n + 1) |> <| total_prefix_size ::= fun n => s32 (n + zlen p) |>
          else t
      end
  end.

Definition stats_prefix_record_get (key : list Z) (is_hit malloc_ok : bool) : prefixes -> prefixes :=
  with_prefix key malloc_ok (fun e =>
    let e := e <| num_gets ::= fun n => u64 (n + 1) |> in
    if is_hit then e <| num_hits ::= fun n => u64 (n + 1) |> else e).
Definition stats_prefix_record_delete (key : list Z) (malloc_ok : bool) : prefixes -> prefixes :=
  with_prefix key malloc_ok (fun e => e <| num_deletes ::= fun n => u64 (n + 1) |>).
Definition stats_prefix_record_set (key : list Z) (malloc_ok : bool) : prefixes -> prefixes :=
  with_prefix key malloc_ok (fun e => e <| num_sets ::= fun n => u64 (n + 1) |>).

(** [%llu] *)
Definition llu (n : Z) : list Z := default [] (itoa_u64 n []).
Definition prefix_line (e : PREFIX_STATS) : list Z :=
  str "PREFIX " ++ pf_prefix e ++ str " get " ++ llu (num_gets e) ++ str " hit " ++ llu (num_hits e)
  ++ str " set " ++ llu (num_sets e) ++ str " del " ++ llu (num_deletes e) ++ [13; 10].

(** The size asked of [malloc]; 47 is [strlen(format)], 6 is [sizeof("END\r\n")]. *)
Definition dump_size (t : prefixes) : Z :=
  u64 (47 + total_prefix_size t + num_prefixes t * (47 - 2 + 4 * (20 - 4)) + 6).

(** The text, [None] when [malloc] fails; a text that does not fit is undefined. *)
Definition stats_prefix_dump (malloc_ok : bool) (t : prefixes) : option (option (list Z)) :=
  if malloc_ok then
    let text := concat (prefix_line <$> concat (prefix_stats t)) in
    if zlen text + 6 <=? dump_size t then Some (Some (text ++ str "END" ++ [13; 10])) else None
  else Some None.

(** ** The dump fits its buffer *)

Definition counters_ok (e : PREFIX_STATS) : Prop :=
  0 <= num_gets e < 2 ^ 64 /\ 0 <= num_sets e < 2 ^ 64 /\ 0 <= num_deletes e < 2 ^ 64 /\ 0 <= num_hits e < 2 ^ 64.
Definition total_length (l : list PREFIX_STATS) : Z := foldr (fun e n => zlen (pf_prefix e) + n) 0 l.

(** The table after at most [n] recorded commands. *)
Record prefixes_ok (n : Z) (t : prefixes) : Prop := {
  po_buckets : length (prefix_stats t) = 256%nat;
  po_counters : Forall counters_ok (concat (prefix_stats t));
  po_num : num_prefixes t = zlen (concat (prefix_stats t)) /\ num_prefixes t <= n;
  po_size : total_prefix_size t = total_length (concat (prefix_stats t)) /\ total_prefix_size t <= 250 * n
}.

Inductive prefix_op := OpGet (key : list Z) (is_hit ok : bool) | OpSet (key : list Z) (ok : bool) | OpDelete (key : list Z) (ok : bool).
Definition op_key (o : prefix_op) : list Z := match o with OpGet k _ _ => k | OpSet k _ => k | OpDelete k _ => k end.
Definition record_op (t : prefixes) (o : prefix_op) : prefixes :=
  match o with
  | OpGet k h ok => stats_prefix_record_get k h ok t
  | OpSet k ok => stats_prefix_record_set k ok t
  | OpDelete k ok => stats_prefix_record_delete k ok t
  end.

Lemma prefix_of_length d key p : prefix_of d key = Some p -> zlen p <= zlen key.
Proof.
  revert p. induction key as [|c key IH]; intros p; cbn [prefix_of]; [done|]. rewrite zlen_cons.
  pose proof (zlen_nonneg key). destruct (c =? 0); [done|].
  destruct (c =? d); [intros [= <-]; rewrite zlen_nil; lia|].
  destruct (prefix_of d key) as [q|]; [|done]. intros [= <-]. specialize (IH q eq_refl). rewrite zlen_cons. lia.
Qed.

Lemma zlen_concat_insert (tt : list (list PREFIX_STATS)) b l l' :
  tt !! b = Some l -> exists h r, concat tt = h ++ l ++ r /\ concat (<[b := l']> tt) = h ++ l' ++ r.
Proof.
  intros E. exists (concat (take b tt)), (concat (drop (S b) tt)). split.
  - rewrite <- (take_drop_middle tt b l E) at 1. by rewrite concat_app.
  - rewrite insert_take_drop by (by eapply lookup_lt_Some). by rewrite concat_app.
Qed.
Lemma total_length_app l k : total_length (l ++ k) = total_length l + total_length k.
Proof. unfold total_length. induction l as [|e l IH]; cbn; lia. Qed.
Lemma total_length_nonneg l : 0 <= total_length l.
Proof. unfold total_length. induction l as [|e l IH]; cbn; [lia|]. pose proof (zlen_nonneg (pf_prefix e)). lia. Qed.

Lemma with_prefix_ok n key ok f t :
  prefixes_ok n t -> 0 <= n < 2 ^ 22 -> zlen key <= 250 ->
  (forall e, counters_ok e -> counters_ok (f e) /\ pf_prefix (f e) = pf_prefix e) ->
  prefixes_ok (n + 1) (with_prefix key ok f t).
Proof.
  intros [B1 B2 [B3 B3'] [B4 B4']] Hn Hkey Hf. unfold with_prefix.
  assert (prefixes_ok (n + 1) t) as Hsame by (split; [done|done|split; [done|lia]|split; [done|lia]]).
  destruct (prefix_of _ key) as [p|] eqn:Ep; [|done]. pose proof (prefix_of_length _ _ _ Ep) as Hp.
  assert (bucket_no p < 256)%nat as Hb.
  { unfold bucket_no. pose proof (Z.mod_pos_bound (hash p) PREFIX_HASH_SIZE ltac:(done)). unfold PREFIX_HASH_SIZE in *. lia. }
  destruct (lookup_lt_is_Some_2 (prefix_stats t) (bucket_no p)) as [chain Ec]; [lia|]. rewrite Ec. change (default [] (Some chain)) with chain.
  destruct (list_find (matches p) chain) as [[i e]|] eqn:El.
  - apply list_find_Some in El as (Hi & _ & _).
    destruct (zlen_concat_insert (prefix_stats t) _ chain (<[i := f e]> chain) Ec) as (h & r & E1 & E2).
    rewrite <- (take_drop_middle chain i e Hi) in E1.
    rewrite E1 in *. apply Forall_app in B2 as [F1 [[F2 [F3 F4]%Forall_cons]%Forall_app F5]%Forall_app].
    destruct (Hf e F3) as [G1 G2]. split; upds; [by rewrite length_insert| | |]; rewrite E2, (insert_take_drop chain i) by (by eapply lookup_lt_Some).
    + apply Forall_app. split; [done|]. apply Forall_app. split; [|done]. apply Forall_app. split; [done|by constructor].
    + rewrite !zlen_app, !zlen_cons in *. lia.
    + rewrite !total_length_app in *. unfold total_length in *. cbn in *. rewrite G2. lia.
  - destruct ok; [|done].
    destruct (zlen_concat_insert (prefix_stats t) _ chain (f (PrefixStats p 0 0 0 0) :: chain) Ec) as (h & r & E1 & E2).
    rewrite E1 in *. apply Forall_app in B2 as [F1 [F2 F5]%Forall_app].
    destruct (Hf (PrefixStats p 0 0 0 0)) as [G1 G2]; [by unfold counters_ok|].
    pose proof (zlen_nonneg (h ++ chain ++ r)). pose proof (total_length_nonneg (h ++ chain ++ r)). pose proof (zlen_nonneg p).
    split; upds; [by rewrite length_insert| | |]; rewrite E2.
    + apply Forall_app. split; [done|]. apply Forall_app. split; [by constructor|done].
    + rewrite B3 in *. rewrite (s32_id (_ + 1)) by lia. rewrite !zlen_app, !zlen_cons in *. lia.
    + rewrite B4 in *. rewrite (s32_id (_ + zlen p)) by lia.
      rewrite !total_length_app in *. unfold total_length in *. cbn in *. rewrite G2. cbn. lia.
Qed.

Lemma record_op_ok n t o :
  prefixes_ok n t -> 0 <= n < 2 ^ 22 -> zlen (op_key o) <= 250 -> prefixes_ok (n + 1) (record_op t o).
Proof.
  intros Ht Hn Hk. destruct o; cbn in *; apply with_prefix_ok; try done; intros e (C1 & C2 & C3 & C4);
    unfold counters_ok; repeat case_match; upds; (split; [|done]); auto using u64_range.
Qed.

Lemma llu_length n : 0 <= n < 2 ^ 64 -> zlen (llu n) <= 20.
Proof.
  intros Hn. destruct (itoa_u64_digits n [] Hn) as (ds & E & Hd). unfold llu. rewrite E. cbn.
  apply (numeral_length_le n ds 20 Hd); lia.
Qed.
Lemma dump_length l : Forall counters_ok l -> zlen (concat (prefix_line <$> l)) <= 109 * zlen l + total_length l.
Proof.
  induction 1 as [|e l (C1 & C2 & C3 & C4) _ IH]; [done|].
  rewrite fmap_cons, zlen_cons. cbn [concat]. unfold prefix_line at 1.
  change (total_length (e :: l)) with (zlen (pf_prefix e) + total_length l). rewrite !zlen_app.
  pose proof (llu_length _ C1). pose proof (llu_length _ C2). pose proof (llu_length _ C3). pose proof (llu_length _ C4).
  change (zlen (str "PREFIX ")) with 7. change (zlen (str " get ")) with 5. change (zlen (str " hit ")) with 5.
  change (zlen (str " set ")) with 5. change (zlen (str " del ")) with 5. change (zlen [13; 10]) with 2. lia.
Qed.

(** C37: [stats_prefix_dump] never writes past the buffer it allocates: after any
    sequence of recorded commands on keys of legal length, fewer than 2^22 of them,
    the text and its terminator fit the size the function computes. *)
Theorem stats_prefix_dump_fits delimiter ops :
  Forall (fun o => zlen (op_key o) <= 250) ops -> zlen ops < 2 ^ 22 ->
  let t := fold_left record_op ops (stats_prefix_init delimiter (Prefixes [] 0 0 0)) in
  exists text, stats_prefix_dump true t = Some (Some text) /\ zlen text + 1 <= dump_size t.
Proof.
  intros Hk Hl t. assert (exists n, prefixes_ok n t /\ 0 <= n < 2 ^ 22) as (n & [B1 B2 [B3 B3'] [B4 B4']] & Hn).
  { unfold t. assert (prefixes_ok 0 (stats_prefix_init delimiter (Prefixes [] 0 0 0))) as H0 by (by split).
    revert H0. generalize (stats_prefix_init delimiter (Prefixes [] 0 0 0)). clear t.
    assert (forall m t0, prefixes_ok m t0 -> 0 <= m -> m + zlen ops < 2 ^ 22 ->
      exists n, prefixes_ok n (fold_left record_op ops t0) /\ 0 <= n < 2 ^ 22) as Hall.
    { clear Hl. induction Hk as [|o ops Ho Hk IH]; intros m t0 H0 Hm Hz; cbn [fold_left].
      - exists m. rewrite zlen_nil in Hz. split; [done|lia].
      - rewrite zlen_cons in Hz. pose proof (zlen_nonneg ops). apply (IH (m + 1)); [|lia|lia].
        apply record_op_ok; [done|lia|done]. }
    intros t0 H0. by apply (Hall 0). }
  pose proof (dump_length _ B2) as Hd. pose proof (zlen_nonneg (concat (prefix_stats t))) as H1.
  pose proof (total_length_nonneg (concat (prefix_stats t))) as H2.
  assert (dump_size t = 53 + total_prefix_size t + num_prefixes t * 109) as Es by (unfold dump_size; rewrite u64_id; lia).
  unfold stats_prefix_dump. rewrite (proj2 (Z.leb_le _ _)) by lia. eexists. split; [done|].
  rewrite !zlen_app, Es. change (zlen (str "END")) with 3. change (zlen [13; 10]) with 2. lia.
Qed.
End prefix.

Module PrefixDemo.
#[local] Instance flat_hash : HashFunction.
Proof. refine {| hash k := 7 |}. intros _. by split. Defined.

Lemma stats_prefix_dump_fits_witness :
  let t := fold_left record_op [OpGet (str "ab:1") true true; OpSet (str "cd:2") true]
             (stats_prefix_init 58 (Prefixes [] 0 0 0)) in
  exists text, stats_prefix_dump true t = Some (Some text) /\ zlen text + 1 <= dump_size t.
Proof.
  apply (stats_prefix_dump_fits 58 [OpGet (str "ab:1") true true; OpSet (str "cd:2") true]);
    [repeat constructor; vm_compute; discriminate|reflexivity].
Defined.

(** The search compares the length of the new prefix only: where the hashes of two
    prefixes fall into one bucket, commands on keys of the shorter are counted for
    the longer. *)
Example prefix_merges :
  let t := stats_prefix_record_get (str "abc:1") true true (stats_prefix_init 58 (Prefixes [] 0 0 0)) in
  let t := stats_prefix_record_get (str "ab:1") true true t in
  num_prefixes t = 1 /\ stats_prefix_dump true t
    = Some (Some (str "PREFIX abc get 2 hit 2 set 0 del 0" ++ [13; 10] ++ str "END" ++ [13; 10])).
Proof. vm_compute. by split. Qed.
End PrefixDemo.
