(* ===== verification/Conn.v ===== *)
(** * Connections and their responses (memcached.c)

    The state of one connection, the worker thread it runs on and the shared state
    behind it, with the operations the protocol handlers use to answer: response
    objects with their I/O vectors, the answers of one line and the statistics
    buffer. *)

From S2P Require Import Prelude Memory Double Store Resp AuthFile StatsPrefix.

(** ** Data *)

Inductive conn_states :=
  | conn_listening | conn_new_cmd | conn_waiting | conn_read | conn_parse_cmd | conn_write | conn_nread
  | conn_swallow | conn_closing | conn_mwrite | conn_closed | conn_watch | conn_io_queue | conn_max_state.
#[export] Instance conn_states_eq_dec : EqDecision conn_states.
Proof. solve_decision. Defined.
Inductive close_reasons := ERROR_CLOSE | NORMAL_CLOSE | IDLE_TIMEOUT_CLOSE | SHUTDOWN_CLOSE.
Inductive protocol := ascii_prot | binary_prot | negotiating_prot.
#[export] Instance protocol_eq_dec : EqDecision protocol.
Proof. solve_decision. Defined.
Inductive network_transport := local_transport | tcp_transport | udp_transport.
Definition IS_UDP (t : network_transport) : bool := match t with udp_transport => true | _ => false end.
(** The values of the pointer [try_read_command]. *)
Inductive command_reader := try_ascii | try_asciiauth | try_binary | try_negotiate | try_udp.

(** [iov_base]: into the object's own [wbuf], into the value of an item, the head
    of a chunked item, or other bytes (a constant or an allocated buffer). *)
Inductive iov_base := IWbuf (off : Z) | IItem (it : ptr) (off : Z) | IHead (it : ptr) | IBuf (b : list Z).
Record iovec := Iovec { base : iov_base; iov_len : Z }.
#[export] Instance eta_iovec : Eta iovec := fun r => Iovec (base r) (iov_len r).
#[export] Instance upd_base : Upd base. Proof. solve_upd. Defined.
#[export] Instance upd_iov_len : Upd iov_len. Proof. solve_upd. Defined.

Definition MC_RESP_IOVCOUNT := 4.

(** [mc_resp]; [loc] names the object in its bundle, [iov] holds the [iovcnt]
    vectors in use and [io_pending] is 0 for NULL. *)
Record mc_resp := McResp {
  loc : Z * Z; wbytes : Z; tosend : Z; r_write_and_free : option (list Z); io_pending : Z;
  r_item : ptr; iov : list iovec; chunked_total : Z; chunked_data_iov : Z; skip : bool;
  request_id : Z; udp_sequence : Z; udp_total : Z; wbuf : list Z
}.
#[export] Instance eta_mc_resp : Eta mc_resp := fun r =>
  McResp (loc r) (wbytes r) (tosend r) (r_write_and_free r) (io_pending r) (r_item r) (iov r)
    (chunked_total r) (chunked_data_iov r) (skip r) (request_id r) (udp_sequence r) (udp_total r) (wbuf r).
#[export] Instance upd_wbytes : Upd wbytes. Proof. solve_upd. Defined.
#[export] Instance upd_tosend : Upd tosend. Proof. solve_upd. Defined.
#[export] Instance upd_r_write_and_free : Upd r_write_and_free. Proof. solve_upd. Defined.
#[export] Instance upd_io_pending : Upd io_pending. Proof. solve_upd. Defined.
#[export] Instance upd_r_item : Upd r_item. Proof. solve_upd. Defined.
#[export] Instance upd_iov : Upd iov. Proof. solve_upd. Defined.
#[export] Instance upd_chunked_total : Upd chunked_total. Proof. solve_upd. Defined.
#[export] Instance upd_chunked_data_iov : Upd chunked_data_iov. Proof. solve_upd. Defined.
#[export] Instance upd_skip : Upd skip. Proof. solve_upd. Defined.
#[export] Instance upd_request_id : Upd request_id. Proof. solve_upd. Defined.
#[export] Instance upd_udp_sequence : Upd udp_sequence. Proof. solve_upd. Defined.
#[export] Instance upd_udp_total : Upd udp_total. Proof. solve_upd. Defined.
#[export] Instance upd_wbuf : Upd wbuf. Proof. solve_upd. Defined.
Definition resp_zero (l : Z * Z) : mc_resp :=
  McResp l 0 0 None 0 NULL [] 0 0 false 0 0 0 (replicate (Z.to_nat WRITE_BUFFER_SIZE) 0).

(** The request header of the binary protocol in host order, and its substates. *)
Record binary_request_header := BinaryRequestHeader {
  bh_magic : Z; bh_opcode : Z; bh_keylen : Z; bh_extlen : Z; bh_bodylen : Z; bh_opaque : Z; bh_cas : Z
}.
Inductive bin_substates := bin_no_state | bin_read_set_value | bin_reading_sasl_auth_data.

(** The codes of [NREAD_ADD], ... in [c->cmd]. *)
Definition nread_code (comm : nread) : Z :=
  match comm with
  | NREAD_ADD => 1 | NREAD_SET => 2 | NREAD_REPLACE => 3 | NREAD_APPEND => 4 | NREAD_PREPEND => 5 | NREAD_CAS => 6
  end.
Definition nread_of (code : Z) : option nread :=
  match code with
  | 1 => Some NREAD_ADD | 2 => Some NREAD_SET | 3 => Some NREAD_REPLACE | 4 => Some NREAD_APPEND
  | 5 => Some NREAD_PREPEND | 6 => Some NREAD_CAS | _ => None
  end.

(** [struct conn]: [resps] is the stack from [resp_head] to [resp]; [rcurr] are the
    [rbytes] unparsed bytes, [rbuf] tells whether there is a read buffer and [rbuf0]
    is its first byte; [ritem] is
    the item or chunk and the offset; [st_buffer] and [st_size] are the statistics buffer, its length the [offset]. *)
Record conn := Conn {
  state : conn_states; noreply : bool; set_stale : bool; mset_res : bool; close_after_write : bool;
  close_reason : close_reasons; authenticated : bool; sasl_started : bool; cmd : Z; c_cas : Z;
  c_item : ptr; item_malloced : bool; ritem : ptr * Z; rlbytes : Z; sbytes : Z; resps : list mc_resp;
  rbuf : bool; rbuf0 : Z; rcurr : list Z; rsize : Z; rbuf_malloced : bool; try_read_command : command_reader;
  prot : protocol; transport : network_transport; last_cmd_time : Z; c_request_id : Z;
  st_buffer : option (list Z); st_size : Z; io_stack : list Z; io_queues_submitted : Z;
  substate : bin_substates; binary_header : binary_request_header; opaque : Z; keylen : Z
}.
#[export] Instance eta_conn : Eta conn := fun r =>
  Conn (state r) (noreply r) (set_stale r) (mset_res r) (close_after_write r) (close_reason r)
    (authenticated r) (sasl_started r) (cmd r) (c_cas r) (c_item r) (item_malloced r) (ritem r) (rlbytes r)
    (sbytes r) (resps r) (rbuf r) (rbuf0 r) (rcurr r) (rsize r) (rbuf_malloced r) (try_read_command r) (prot r)
    (transport r) (last_cmd_time r) (c_request_id r) (st_buffer r) (st_size r) (io_stack r) (io_queues_submitted r)
    (substate r) (binary_header r) (opaque r) (keylen r).
#[export] Instance upd_state : Upd state. Proof. solve_upd. Defined.
#[export] Instance upd_noreply : Upd noreply. Proof. solve_upd. Defined.
#[export] Instance upd_set_stale : Upd set_stale. Proof. solve_upd. Defined.
#[export] Instance upd_mset_res : Upd mset_res. Proof. solve_upd. Defined.
#[export] Instance upd_close_after_write : Upd close_after_write. Proof. solve_upd. Defined.
#[export] Instance upd_close_reason : Upd close_reason. Proof. solve_upd. Defined.
#[export] Instance upd_authenticated : Upd authenticated. Proof. solve_upd. Defined.
#[export] Instance upd_sasl_started : Upd sasl_started. Proof. solve_upd. Defined.
#[export] Instance upd_cmd : Upd cmd. Proof. solve_upd. Defined.
#[export] Instance upd_c_cas : Upd c_cas. Proof. solve_upd. Defined.
#[export] Instance upd_c_item : Upd c_item. Proof. solve_upd. Defined.
#[export] Instance upd_item_malloced : Upd item_malloced. Proof. solve_upd. Defined.
#[export] Instance upd_ritem : Upd ritem. Proof. solve_upd. Defined.
#[export] Instance upd_rlbytes : Upd rlbytes. Proof. solve_upd. Defined.
#[export] Instance upd_sbytes : Upd sbytes. Proof. solve_upd. Defined.
#[export] Instance upd_resps : Upd resps. Proof. solve_upd. Defined.
#[export] Instance upd_rbuf : Upd rbuf. Proof. solve_upd. Defined.
#[export] Instance upd_rbuf0 : Upd rbuf0. Proof. solve_upd. Defined.
#[export] Instance upd_rcurr : Upd rcurr. Proof. solve_upd. Defined.
#[export] Instance upd_rsize : Upd rsize. Proof. solve_upd. Defined.
#[export] Instance upd_rbuf_malloced : Upd rbuf_malloced. Proof. solve_upd. Defined.
#[export] Instance upd_try_read_command : Upd try_read_command. Proof. solve_upd. Defined.
#[export] Instance upd_prot : Upd prot. Proof. solve_upd. Defined.
#[export] Instance upd_last_cmd_time : Upd last_cmd_time. Proof. solve_upd. Defined.
#[export] Instance upd_c_request_id : Upd c_request_id. Proof. solve_upd. Defined.
#[export] Instance upd_st_buffer : Upd st_buffer. Proof. solve_upd. Defined.
#[export] Instance upd_st_size : Upd st_size. Proof. solve_upd. Defined.
#[export] Instance upd_io_stack : Upd io_stack. Proof. solve_upd. Defined.
#[export] Instance upd_io_submitted : Upd io_queues_submitted. Proof. solve_upd. Defined.
#[export] Instance upd_substate : Upd substate. Proof. solve_upd. Defined.
#[export] Instance upd_binary_header : Upd binary_header. Proof. solve_upd. Defined.
#[export] Instance upd_opaque : Upd opaque. Proof. solve_upd. Defined.
#[export] Instance upd_keylen : Upd keylen. Proof. solve_upd. Defined.
(** Reading [rbytes] is taking the length. *)
Definition rbytes (c : conn) : Z := zlen (rcurr c).

(** Settings only the protocol layer uses, and [process_started]. *)
Record options := Options {
  meta_response_old : bool; detail_enabled : bool; flush_enabled : bool; dump_enabled : bool;
  watch_enabled : bool; shutdown_command : bool; verbose : Z; slab_automove_ratio : double;
  hot_max_factor : double; warm_max_factor : double; lru_crawler : bool; lru_crawler_tocrawl : Z;
  lru_crawler_sleep : Z; lru_maintainer_thread : bool; ext_free_memchunks : gmap Z Z; ext_item_size : Z;
  ext_item_age : Z; ext_low_ttl : Z; ext_recache_rate : Z; ext_compact_under : Z; ext_drop_under : Z;
  ext_max_frag : double; ext_drop_unread : bool; process_started : Z
}.
#[export] Instance eta_options : Eta options := fun r =>
  Options (meta_response_old r) (detail_enabled r) (flush_enabled r) (dump_enabled r) (watch_enabled r)
    (shutdown_command r) (verbose r) (slab_automove_ratio r) (hot_max_factor r) (warm_max_factor r)
    (lru_crawler r) (lru_crawler_tocrawl r) (lru_crawler_sleep r) (lru_maintainer_thread r)
    (ext_free_memchunks r) (ext_item_size r) (ext_item_age r) (ext_low_ttl r) (ext_recache_rate r)
    (ext_compact_under r) (ext_drop_under r) (ext_max_frag r) (ext_drop_unread r) (process_started r).
#[export] Instance upd_detail_enabled : Upd detail_enabled. Proof. solve_upd. Defined.
#[export] Instance upd_verbose : Upd verbose. Proof. solve_upd. Defined.
#[export] Instance upd_automove_ratio : Upd slab_automove_ratio. Proof. solve_upd. Defined.
#[export] Instance upd_hot_max_factor : Upd hot_max_factor. Proof. solve_upd. Defined.
#[export] Instance upd_warm_max_factor : Upd warm_max_factor. Proof. solve_upd. Defined.
#[export] Instance upd_tocrawl : Upd lru_crawler_tocrawl. Proof. solve_upd. Defined.
#[export] Instance upd_crawler_sleep : Upd lru_crawler_sleep. Proof. solve_upd. Defined.
#[export] Instance upd_memchunks : Upd ext_free_memchunks. Proof. solve_upd. Defined.
#[export] Instance upd_ext_item_size : Upd ext_item_size. Proof. solve_upd. Defined.
#[export] Instance upd_ext_item_age : Upd ext_item_age. Proof. solve_upd. Defined.
#[export] Instance upd_ext_low_ttl : Upd ext_low_ttl. Proof. solve_upd. Defined.
#[export] Instance upd_ext_recache : Upd ext_recache_rate. Proof. solve_upd. Defined.
#[export] Instance upd_ext_compact : Upd ext_compact_under. Proof. solve_upd. Defined.
#[export] Instance upd_ext_drop : Upd ext_drop_under. Proof. solve_upd. Defined.
#[export] Instance upd_ext_max_frag : Upd ext_max_frag. Proof. solve_upd. Defined.
#[export] Instance upd_ext_drop_unread : Upd ext_drop_unread. Proof. solve_upd. Defined.

(** [settings_init] and, for the external storage, the globals before
    [storage_init_config]. *)
Definition options_init (started : Z) : options :=
  Options false false true true true false 0 (double_lit 8 10) (double_lit 2 10) (double_of_Z 2)
    false 0 100 false ∅ 0 0 0 0 0 0 (double_of_Z 0) false started.

(** [conn_new] of a fresh connection structure in state [init_state]; [auth_file]
    tells whether the setting of that name is given.  A UDP connection gets its
    static read buffer of [read_buffer_size] bytes here. *)
Definition conn_new (init_state : conn_states) (read_buffer_size : Z) (t : network_transport) (p : protocol)
    (auth_file : bool) (now : Z) : conn :=
  Conn init_state false false false false ERROR_CLOSE
    (match t, p with udp_transport, _ => false | _, ascii_prot => negb auth_file | _, _ => false end)
    false (-1) 0 NULL false (NULL, 0) 0 0 [] (negb (read_buffer_size =? 0)) 0 [] read_buffer_size false
    (match t, p with
     | udp_transport, _ => try_udp
     | _, ascii_prot => if auth_file then try_asciiauth else try_ascii
     | _, binary_prot => try_binary
     | _, negotiating_prot => try_negotiate
     end)
    p t now 0 None 0 [] 0 bin_no_state (BinaryRequestHeader 0 0 0 0 0 0 0) 0 0.

(** The shared state, the worker, the connection, the options, the signals raised
    so far, for the coming calls whether [malloc] and its relatives succeed in this
    layer (they do once the list is used up), the statistics per prefix, the
    passwords, what the network has for the connection and the bytes sent on it. *)
Inductive read_result := ReadBytes (l : list Z) | ReadEof | ReadError.
Inductive signal := SIGINT | SIGUSR1.
Record server := Server {
  s_mc : mc; s_worker : worker; s_conn : conn; s_options : options; s_signals : list signal;
  s_alloc_ok : list bool; s_prefixes : prefixes; s_auth : authfile;
  s_input : list read_result; s_sent : list Z
}.
#[export] Instance eta_server : Eta server := fun r =>
  Server (s_mc r) (s_worker r) (s_conn r) (s_options r) (s_signals r) (s_alloc_ok r) (s_prefixes r) (s_auth r)
    (s_input r) (s_sent r).
#[export] Instance upd_s_mc : Upd s_mc. Proof. solve_upd. Defined.
#[export] Instance upd_s_worker : Upd s_worker. Proof. solve_upd. Defined.
#[export] Instance upd_s_conn : Upd s_conn. Proof. solve_upd. Defined.
#[export] Instance upd_s_options : Upd s_options. Proof. solve_upd. Defined.
#[export] Instance upd_s_signals : Upd s_signals. Proof. solve_upd. Defined.
#[export] Instance upd_s_alloc_ok : Upd s_alloc_ok. Proof. solve_upd. Defined.
#[export] Instance upd_s_prefixes : Upd s_prefixes. Proof. solve_upd. Defined.
#[export] Instance upd_s_auth : Upd s_auth. Proof. solve_upd. Defined.
#[export] Instance upd_s_input : Upd s_input. Proof. solve_upd. Defined.
#[export] Instance upd_s_sent : Upd s_sent. Proof. solve_upd. Defined.

(** ** Reaching the parts of the state *)

Definition in_mc {A} (m : M mc A) : M server A := fun s =>
  match m (s_mc s) with Some (a, w) => Some (a, s <| s_mc := w |>) | None => None end.
Definition in_worker {A} (m : M worker A) : M server A := fun s =>
  match m (s_worker s) with Some (a, w) => Some (a, s <| s_worker := w |>) | None => None end.
Definition on_conn (f : conn -> conn) : M server unit := modify (fun s => s <| s_conn ::= f |>).
Definition on_options (f : options -> options) : M server unit := modify (fun s => s <| s_options ::= f |>).
Definition co {A} (f : conn -> A) : M server A := gets (fun s => f (s_conn s)).
Definition opt {A} (f : options -> A) : M server A := gets (fun s => f (s_options s)).
Definition setting {A} (f : settings -> A) : M server A := gets (fun s => f (mc_settings (s_mc s))).
Definition now : M server Z := gets (fun s => current_time (s_mc s)).
Definition conn_alloc_ok : M server bool :=
  oks ← gets s_alloc_ok; modify (fun s => s <| s_alloc_ok ::= tail |>);; mret (default true (head oks)).

Section reach.
Context {A : Type}.
Implicit Types (s : server).
Lemma run_in_mc (m : M mc A) s :
  in_mc m s = match m (s_mc s) with Some (a, w) => Some (a, s <| s_mc := w |>) | None => None end.
Proof. reflexivity. Qed.
Lemma run_in_worker (m : M worker A) s :
  in_worker m s = match m (s_worker s) with Some (a, w) => Some (a, s <| s_worker := w |>) | None => None end.
Proof. reflexivity. Qed.
Lemma run_co (f : conn -> A) s : co f s = Some (f (s_conn s), s).
Proof. reflexivity. Qed.
Lemma run_opt (f : options -> A) s : opt f s = Some (f (s_options s), s).
Proof. reflexivity. Qed.
Lemma run_setting (f : settings -> A) s : setting f s = Some (f (mc_settings (s_mc s)), s).
Proof. reflexivity. Qed.
Lemma run_now s : now s = Some (current_time (s_mc s), s).
Proof. reflexivity. Qed.
Lemma run_on_conn f s : on_conn f s = Some (tt, s <| s_conn ::= f |>).
Proof. reflexivity. Qed.
Lemma run_on_options f s : on_options f s = Some (tt, s <| s_options ::= f |>).
Proof. reflexivity. Qed.
End reach.
#[export] Hint Rewrite @run_in_mc @run_in_worker @run_co @run_opt @run_setting run_now run_on_conn run_on_options : run.

(** [c->resp], undefined for NULL, and an assignment through it. *)
Definition last_resp (c : conn) : option mc_resp := last (resps c).
Definition resp : M server mc_resp := c ← co id; lift (last_resp c).
Definition on_last (f : mc_resp -> mc_resp) (l : list mc_resp) : list mc_resp :=
  match last l with Some r => removelast l ++ [f r] | None => l end.
Definition on_resp (f : mc_resp -> mc_resp) : M server unit :=
  resp;; on_conn (fun c => c <| resps ::= on_last f |>).

(** ** What the connection layer uses of the external storage (storage.c) *)

(** [storage_get_item] queues a read for the tail response and answers false for
    -1; [finalize_cb] gives a pending read back; [submit_cb] and [complete_cb] hand
    the queued reads over and take them back. *)
Class ExtStorage := {
  storage_get_item : ptr -> M server bool;
  finalize_cb : Z -> M server unit;
  submit_cb : M server unit;
  complete_cb : M server unit
}.

Section conn.
Context `{HashFunction} `{ExtStorage}.

(** ** Response objects *)

Definition conn_set_state (st : conn_states) : M server unit :=
  massert (bool_decide (st <> conn_max_state));; on_conn (fun c => c <| state := st |>).

Definition resp_reset : M server unit :=
  r ← resp;
  when (bool_decide (r_item r <> NULL)) (in_mc (item_remove (r_item r));; on_resp (fun r => r <| r_item := NULL |>));;
  on_resp (fun r => r <| r_write_and_free := None |> <| wbytes := 0 |> <| tosend := 0 |> <| iov := [] |>
    <| chunked_data_iov := 0 |> <| chunked_total := 0 |> <| skip := false |>).

Definition resp_add_iov (b : iov_base) (len : Z) : M server unit :=
  let len := s32 len in
  r ← resp;
  massert (zlen (iov r) <? MC_RESP_IOVCOUNT);;
  on_resp (fun r => r <| iov ::= fun l => l ++ [Iovec b (u64 len)] |> <| tosend ::= fun n => s32 (n + len) |>).

Definition resp_add_chunked_iov (b : iov_base) (len : Z) : M server unit :=
  on_resp (fun r => r <| chunked_data_iov := zlen (iov r) |> <| chunked_total := len |>);; resp_add_iov b len.

(** [memcpy(resp->wbuf + off, bytes, zlen bytes)]. *)
Definition put_wbuf (off : Z) (bytes : list Z) : M server unit :=
  r ← resp; d ← lift (memcpy_at (wbuf r) off bytes); on_resp (fun r => r <| wbuf := d |>).

Definition resp_start : M server bool :=
  r ← in_worker resp_allocate;
  match r with
  | None => in_worker (modify (fun w => w <| response_obj_oom ::= fun n => u64 (n + 1) |>));; mret false
  | Some l =>
      in_worker (modify (fun w => w <| response_obj_count ::= fun n => u64 (n + 1) |>));;
      c ← co id;
      let r := if IS_UDP (transport c) then resp_zero l <| request_id := u16 (c_request_id c) |> else resp_zero l in
      on_conn (fun c => c <| resps ::= fun l => l ++ [r] |>);;
      mret true
  end.

(** [resp_finish(c, c->resp_head)]: no other object is ever finished. *)
Definition resp_finish : M server unit :=
  c ← co id;
  r ← lift (head (resps c));
  when (bool_decide (r_item r <> NULL)) (in_mc (item_remove (r_item r)));;
  when (negb (io_pending r =? 0)) (finalize_cb (io_pending r));;
  on_conn (fun c => c <| resps ::= tail |>);;
  in_worker (resp_free (loc r);; modify (fun w => w <| response_obj_count ::= fun n => u64 (n - 1) |>)).

Definition resp_has_stack : M server bool :=
  c ← co id;
  match resps c with [] => ub | [_] => mret false | _ => mret true end.

(** ** Answers of one line *)

Definition out_string (s : list Z) : M server unit :=
  resp_reset;;
  quiet ← co noreply;
  if (quiet : bool) then on_resp (fun r => r <| skip := true |>);; conn_set_state conn_new_cmd
  else
    let s := if WRITE_BUFFER_SIZE <? zlen s + 2 then str "SERVER_ERROR output line too long" else s in
    put_wbuf 0 (s ++ CRLF);;
    resp_add_iov (IWbuf 0) (zlen s + 2);;
    conn_set_state conn_new_cmd.

Definition out_errstring (s : list Z) : M server unit :=
  on_conn (fun c => c <| noreply := false |>);; out_string s.

(** The big-endian bytes of an integer of [n] bytes. *)
Definition be_bytes (n : nat) (z : Z) : list Z := map (fun i => (z / 256 ^ (Z.of_nat n - 1 - i)) mod 256) (seqZ 0 (Z.of_nat n)).

Definition PROTOCOL_BINARY_RES := 129.
Definition PROTOCOL_BINARY_RESPONSE_ENOMEM := 130.

(** The header bytes; [opaque] is echoed byte for byte. *)
Definition add_bin_header (err hdr_len key_len body_len : Z) : M server unit :=
  resp_reset;;
  c ← co id;
  put_wbuf 0 ([PROTOCOL_BINARY_RES; bh_opcode (binary_header c)] ++ be_bytes 2 key_len ++ [u8 hdr_len; 0]
    ++ be_bytes 2 err ++ be_bytes 4 body_len ++ be_bytes 4 (opaque c) ++ be_bytes 8 (c_cas c));;
  on_resp (fun r => r <| wbytes := 24 |>);;
  resp_add_iov (IWbuf 0) 24.

(** [write_bin_error] with a text. *)
Definition write_bin_error (err : Z) (errstr : list Z) (swallow : Z) : M server unit :=
  add_bin_header err 0 0 (zlen errstr);;
  when (0 <? zlen errstr) (resp_add_iov (IBuf errstr) (zlen errstr));;
  if 0 <? swallow then on_conn (fun c => c <| sbytes := swallow |>);; conn_set_state conn_swallow
  else conn_set_state conn_mwrite.

Definition is_prefix (p s : list Z) : bool := bool_decide (ztake (zlen p) s = p).

Definition out_of_memory (ascii_error : list Z) : M server unit :=
  p ← co prot;
  if decide (p = binary_prot) then
    let error_prefix := str "SERVER_ERROR " in
    write_bin_error PROTOCOL_BINARY_RESPONSE_ENOMEM
      (if is_prefix error_prefix ascii_error then zdrop (zlen error_prefix) ascii_error else ascii_error) 0
  else out_string ascii_error.

(** ** The statistics buffer *)

Fixpoint double_until (fuel : nat) (nsize offset needed : Z) : option Z :=
  if needed <=? nsize - offset then Some nsize
  else match fuel with O => None | S fuel => double_until fuel (u64 (2 * nsize)) offset needed end.

Definition grow_stats_buf (needed : Z) : M server bool :=
  c ← co id;
  let '(nsize, size, offset) := match st_buffer c with
    | None => (1024, 0, 0) | Some b => (st_size c, st_size c, zlen b) end in
  nsize' ← (if match st_buffer c with None => 0 | Some b => u64 (nsize - zlen b) end <? needed
            then lift (double_until 64 (u64 (2 * nsize)) offset needed) else mret nsize);
  if nsize' =? size then mret true
  else
    ok ← conn_alloc_ok;
    if ok : bool then
      on_conn (fun c => c <| st_buffer := Some (default [] (st_buffer c)) |> <| st_size := nsize' |>);; mret true
    else mret false.

(** The line [snprintf] leaves for [append_ascii_stats]; a line longer than the
    room is cut, which [grow_stats_buf] excludes. *)
Definition stat_line (key val : list Z) : list Z :=
  if (zlen key =? 0) && (zlen val =? 0) then str "END" ++ CRLF
  else if zlen val =? 0 then str "STAT " ++ key ++ CRLF
  else str "STAT " ++ key ++ [32] ++ val ++ CRLF.
Definition append_ascii_stats (key val : list Z) : M server unit :=
  c ← co id;
  b ← lift (st_buffer c);
  massert (zlen (stat_line key val) <? st_size c - zlen b - 1);;
  on_conn (fun c => c <| st_buffer := Some (b ++ stat_line key val) |>).

Definition append_bin_stats (key val : list Z) : M server unit :=
  c ← co id;
  b ← lift (st_buffer c);
  on_conn (fun c => c <| st_buffer := Some (b ++ [PROTOCOL_BINARY_RES; 16] ++ be_bytes 2 (zlen key) ++ [0; 0; 0; 0]
    ++ be_bytes 4 (zlen key + zlen val) ++ be_bytes 4 (opaque c) ++ be_bytes 8 0
    ++ if 0 <? zlen key then key ++ val else []) |>).

(** A buffer that cannot grow drops the line. *)
Definition append_stats (key val : list Z) : M server unit :=
  if (zlen key =? 0) && (0 <? zlen val) then mret tt
  else
    p ← co prot;
    ok ← grow_stats_buf (zlen val + zlen key + if decide (p = binary_prot) then 24 else 10);
    if negb ok then mret tt
    else
      (if decide (p = binary_prot) then append_bin_stats key val else append_ascii_stats key val);;
      c ← co id;
      massert (zlen (default [] (st_buffer c)) <=? st_size c).

Definition write_and_free (buf : option (list Z)) : M server unit :=
  match buf with
  | Some b =>
      on_resp (fun r => r <| r_write_and_free := Some b |>);; resp_add_iov (IBuf b) (zlen b);;
      conn_set_state conn_new_cmd
  | None => out_of_memory (str "SERVER_ERROR out of memory writing stats")
  end.

(** ** Releasing what a connection holds *)

Fixpoint finish_all (n : nat) : M server unit :=
  c ← co id;
  match resps c, n with
  | [], _ => mret tt
  | _, O => ub
  | _, S n => resp_finish;; finish_all n
  end.

(** [c->item] of a half-read command. *)
Definition drop_item : M server unit :=
  c ← co id;
  if decide (c_item c = NULL) then mret tt
  else
    (if item_malloced c then on_conn (fun c => c <| item_malloced := false |>) else in_mc (item_remove (c_item c)));;
    on_conn (fun c => c <| c_item := NULL |>).

Definition conn_release_items : M server unit :=
  drop_item;;
  c ← co id;
  if decide (resps c = []) then mret tt
  else finish_all (length (resps c));; on_conn (fun c => c <| io_stack := [] |>).

Definition rbuf_release : M server unit :=
  c ← co id;
  when (rbuf c && (rbytes c =? 0) && negb (IS_UDP (transport c)))
    ((if rbuf_malloced c then on_conn (fun c => c <| rbuf_malloced := false |>) else in_worker rbuf_cache_free);;
     on_conn (fun c => c <| rsize := 0 |> <| rbuf := false |> <| rcurr := [] |>)).

Definition rbuf_alloc : M server bool :=
  c ← co id;
  if rbuf c then mret true
  else
    b ← in_worker rbuf_cache_alloc;
    match b with
    | None => in_worker (modify (fun w => w <| read_buf_oom ::= fun n => u64 (n + 1) |>));; mret false
    | Some _ => on_conn (fun c => c <| rbuf := true |> <| rsize := READ_BUFFER_SIZE |> <| rcurr := [] |>);; mret true
    end.

(** [malloc_ok] is the success of the call of that name. *)
Definition rbuf_switch_to_malloc (malloc_ok : bool) : M server bool :=
  if negb malloc_ok then mret false
  else
    in_worker rbuf_cache_free;;
    on_conn (fun c => c <| rsize ::= fun n => s32 (2 * n) |> <| rbuf_malloced := true |>);; mret true.

Definition conn_cleanup : M server unit :=
  conn_release_items;;
  t ← co transport;
  when (IS_UDP t) (conn_set_state conn_read).

Definition conn_close : M server unit :=
  conn_cleanup;;
  on_conn (fun c => c <| rcurr := [] |>);;
  rbuf_release;;
  conn_set_state conn_closed;;
  on_conn (fun c => c <| close_reason := ERROR_CLOSE |>).

Definition reset_cmd_handler : M server unit :=
  on_conn (fun c => c <| cmd := -1 |> <| substate := bin_no_state |>);;
  drop_item;;
  c ← co id;
  conn_set_state (if 0 <? rbytes c then conn_parse_cmd
                  else if bool_decide (resps c <> []) then conn_mwrite else conn_waiting).
End conn.
