(* ===== verification/Transmit.v ===== *)
(** * Sending responses (memcached.c)

    [_transmit_pre] gathers the I/O vectors of the queued responses,
    [_transmit_post] accounts for what the socket took.  The answer of [sendmsg] is
    an argument. *)

From S2P Require Import Prelude Memory Slabs Items Store Resp Conn.

Definition IOV_MAX := 1024.

(** What a read or a write on the socket answered: the count, [EAGAIN] or another
    error. *)
Inductive io_result := IoBytes (n : Z) | IoAgain | IoError.
Inductive transmit_result := TRANSMIT_COMPLETE | TRANSMIT_INCOMPLETE | TRANSMIT_SOFT_ERROR | TRANSMIT_HARD_ERROR.
#[export] Instance transmit_result_eq_dec : EqDecision transmit_result.
Proof. solve_decision. Defined.

Section transmit.
Context `{HashFunction} `{ExtStorage}.

(** The bytes a vector points to. *)
Definition iov_bytes (r : mc_resp) (v : iovec) : M mc (list Z) :=
  match base v with
  | IWbuf off => mret (slice off (off + iov_len v) (wbuf r))
  | IItem it off => i ← load it; mret (peek off (iov_len v) (it_data i))
  | IHead it => i ← load it; mret (peek 0 (iov_len v) (it_data i))
  | IBuf b => mret (ztake (iov_len v) b)
  end.

(** The vectors of a chunked value from chunk [ch] on: [done] bytes are sent,
    [todo] are left. *)
Fixpoint chunk_iovs (fuel : nat) (ch : ptr) (done todo : Z) (iovs : list (list Z)) : M mc (list (list Z)) :=
  if bool_decide (ch = NULL) || (todo <=? 0) || (IOV_MAX - 1 <=? zlen iovs) then mret iovs
  else match fuel with
  | O => ub
  | S fuel =>
      c ← load ch;
      if ch_used c =? 0 then chunk_iovs fuel (next c) done todo iovs
      else if ch_used c <=? done then chunk_iovs fuel (next c) (done - ch_used c) todo iovs
      else
        let len := if todo <? ch_used c - done then todo else ch_used c - done in
        chunk_iovs fuel (next c) 0 (todo - (ch_used c - done)) (iovs ++ [peek done len (it_data c)])
  end.

(** The vectors of a response with a chunked value, from index [x]. *)
Fixpoint resp_iovs (r : mc_resp) (x : Z) (l : list iovec) (iovs : list (list Z)) : M mc (list (list Z)) :=
  match l with
  | [] => mret iovs
  | v :: l =>
      iovs ← (if x =? chunked_data_iov r then
                match base v with
                | IHead it =>
                    i ← load it;
                    fuel ← gets (fun w => S (size (heap w)));
                    chunk_iovs fuel (ITEM_schunk it i) (chunked_total r - iov_len v) (iov_len v) iovs
                | _ => ub
                end
              else b ← iov_bytes r v; mret (iovs ++ [b]));
      if IOV_MAX - 1 <=? zlen iovs then mret iovs else resp_iovs r (x + 1) l iovs
  end.

Fixpoint all_iovs (r : mc_resp) (l : list iovec) (iovs : list (list Z)) : M mc (list (list Z)) :=
  match l with
  | [] => mret iovs
  | v :: l => b ← iov_bytes r v; all_iovs r l (iovs ++ [b])
  end.

Fixpoint transmit_pre (one_resp : bool) (rs : list mc_resp) (iovs : list (list Z)) : M mc (list (list Z)) :=
  match rs with
  | [] => mret iovs
  | r :: rs =>
      if IOV_MAX - 1 <=? zlen iovs + zlen (iov r) then mret iovs
      else if skip r then transmit_pre one_resp rs iovs
      else
        iovs ← (if negb (chunked_data_iov r =? 0) then resp_iovs r 0 (iov r) iovs else all_iovs r (iov r) iovs);
        if one_resp then mret iovs else transmit_pre one_resp rs iovs
  end.

(** [iov_base + n]. *)
Definition advance (n : Z) (b : iov_base) : iov_base :=
  match b with
  | IWbuf off => IWbuf (off + n)
  | IItem it off => IItem it (off + n)
  | IHead it => IHead it
  | IBuf b => IBuf (zdrop n b)
  end.

(** The loop over the vectors of one response: the vectors and the [tosend] left
    after [res] bytes, and the rest of [res]. *)
Fixpoint post_iovs (cdi x : Z) (l : list iovec) (res tosend : Z) : list iovec * Z * Z :=
  match l with
  | [] => ([], tosend, res)
  | v :: l =>
      if iov_len v <=? res then
        let '(l, t, res) := post_iovs cdi (x + 1) l (res - iov_len v) (tosend - iov_len v) in
        (v <| iov_len := 0 |> :: l, t, res)
      else
        let v := if (cdi =? 0) || negb (x =? cdi) then v <| base ::= advance res |> else v in
        (v <| iov_len ::= fun n => n - res |> :: l, tosend - res, 0)
  end.

Fixpoint transmit_post (fuel : nat) (res : Z) : M server unit :=
  c ← co id;
  match resps c, fuel with
  | [], _ => mret tt
  | _, O => ub
  | r :: rs, S fuel =>
      if skip r then resp_finish;; transmit_post fuel res
      else if tosend r <=? res then resp_finish;; transmit_post fuel (res - tosend r)
      else
        let '(l, t, res) := post_iovs (chunked_data_iov r) 0 (iov r) res (tosend r) in
        on_conn (fun c => c <| resps := r <| iov := l |> <| tosend := t |> :: rs |>);;
        if t =? 0 then resp_finish;; transmit_post fuel res else mret tt
  end.

(** [res] is the answer of [sendmsg] and [event_ok] that of [update_event]; the
    bytes sent come back with the result. *)
Definition transmit (res : io_result) (event_ok : bool) : M server (transmit_result * list Z) :=
  c ← co id;
  iovs ← in_mc (transmit_pre false (resps c) []);
  if zlen iovs =? 0 then transmit_post (length (resps c)) 0;; mret (TRANSMIT_COMPLETE, [])
  else
    match res with
    | IoBytes n =>
        massert ((0 <=? n) && (n <=? zlen (concat iovs)));;
        in_mc (count_by n bytes_written);;
        transmit_post (length (resps c)) n;;
        c ← co id;
        mret (if decide (resps c = []) then TRANSMIT_COMPLETE else TRANSMIT_INCOMPLETE, ztake n (concat iovs))
    | IoAgain =>
        if event_ok then mret (TRANSMIT_SOFT_ERROR, [])
        else conn_set_state conn_closing;; mret (TRANSMIT_HARD_ERROR, [])
    | IoError => conn_set_state conn_closing;; mret (TRANSMIT_HARD_ERROR, [])
    end.

(** ** UDP *)

Definition UDP_MAX_PAYLOAD_SIZE := 1400.
Definition UDP_HEADER_SIZE := 8.
Definition UDP_DATA_SIZE := 1392.
Definition USHRT_MAX := 65535.

Definition udp_packets (tosend : Z) : Z :=
  let total := tosend / UDP_DATA_SIZE + if tosend mod UDP_DATA_SIZE =? 0 then 0 else 1 in
  if USHRT_MAX <? total then USHRT_MAX else total.
(** The header of the next packet and the response after it. *)
Definition build_udp_header (r : mc_resp) : list Z * mc_resp :=
  let r := if udp_total r =? 0 then r <| udp_total := udp_packets (tosend r) |> else r in
  ([u8 (request_id r / 256); request_id r mod 256; u8 (udp_sequence r / 256); udp_sequence r mod 256;
    u8 (udp_total r / 256); udp_total r mod 256; 0; 0],
   r <| udp_sequence ::= fun n => u16 (n + 1) |>).

(** The vectors clipped to one packet, [len] bytes being used. *)
Fixpoint clip_iovs (len : Z) (iovs : list (list Z)) : list (list Z) :=
  match iovs with
  | [] => []
  | b :: iovs =>
      if UDP_MAX_PAYLOAD_SIZE <=? len + zlen b then [ztake (UDP_MAX_PAYLOAD_SIZE - len) b]
      else b :: clip_iovs (len + zlen b) iovs
  end.

Definition transmit_udp (res : io_result) (event_ok : bool) : M server (transmit_result * list Z) :=
  c ← co id;
  match resps c with
  | [] => mret (TRANSMIT_COMPLETE, [])
  | r :: rs =>
      if skip r then resp_finish;; mret (TRANSMIT_INCOMPLETE, [])
      else
        let '(udp_hdr, r) := build_udp_header r in
        on_conn (fun c => c <| resps := r :: rs |>);;
        iovs ← in_mc (transmit_pre true (r :: rs) [udp_hdr]);
        let iovs := clip_iovs 0 iovs in
        match res with
        | IoBytes n =>
            massert ((UDP_HEADER_SIZE <=? n) && (n <=? zlen (concat iovs)));;
            in_mc (count_by n bytes_written);;
            transmit_post (length (r :: rs)) (n - UDP_HEADER_SIZE);;
            c ← co id;
            mret (if decide (resps c = []) then TRANSMIT_COMPLETE else TRANSMIT_INCOMPLETE, ztake n (concat iovs))
        | IoAgain =>
            if event_ok then mret (TRANSMIT_SOFT_ERROR, [])
            else conn_set_state conn_closing;; mret (TRANSMIT_HARD_ERROR, [])
        | IoError => conn_set_state conn_read;; mret (TRANSMIT_HARD_ERROR, [])
        end
  end.
End transmit.
