(* ===== verification/TransmitProps.v ===== *)
(** * Sending responses, proved

    However the socket cuts the writes, the bytes that leave are those of the
    queued responses, in order, each once; and every item a response held is
    released. *)

From S2P Require Import Prelude Memory Dll Assoc AssocSpec AssocIter Slabs SlabsSpec SlabPages SlabAlloc SlabProps.
From S2P Require Import Items LruSpec Parts CacheSpec CacheAlloc CacheProps CacheMove Store StoreSpec StoreProps.
From S2P Require Import Resp AuthFile StatsPrefix Conn Transmit.

Section transmit.
Context `{HashFunction} `{ExtStorage}.
Implicit Types (w : mc) (A : gmap (list Z) ptr) (Q F U : Z -> list ptr) (r : mc_resp) (s : server).

(** ** Items held by responses *)

(** [n] references to [p], whose value is [d], are held outside the table. *)
Definition kept w A Q U (p : ptr) (n : Z) (d : list Z) : Prop :=
  exists it, heap w !! p = Some it /\ p <> NULL /\ it_data it = d /\ n <= refcount it < 2 ^ 16
    /\ ((exists k, A !! k = Some p /\ n < refcount it) \/ held_item w A Q U p it).

Lemma kept_other w w' A Q F F' U U' x p n d :
  cache_inv w A Q F U -> cache_inv w' A Q F' U' -> kept w A Q U p n d -> p <> x ->
  keeps_others x w w' -> calm w w' -> keeps_class x w U U' -> kept w' A Q U' p n d.
Proof.
  intros HC HC' (it & Hp & Hn & Hd & Hr & Hk) Hx HK HV HL.
  assert (forall it', heap w' !! p = Some it' -> content it it' ->
    it_data it' = d /\ refcount it' = refcount it) as Hcon by (intros it' _ ->; by split).
  destruct Hk as [(k & Hk & Hlt)|HH].
  - destruct (cache_item w A Q F U k p HC Hk) as (i & [I1 _ _ (_ & I5 & _) _ _ _]). simplify_eq.
    destruct (HK p it Hx Hp) as (it' & Hp' & Cp); [by apply has_flag_slabbed|].
    destruct (Hcon it' Hp' Cp) as [E1 E2]. exists it'. rewrite E2. split_and!; try done; try lia. left. by exists k.
  - destruct (held_kept w w' A A Q Q F' U U' x p it HC' HH Hx HK HV HL) as (it' & HH' & Cp).
    pose proof (hi_heap _ _ _ _ _ _ HH') as Hp'. destruct (Hcon it' Hp' Cp) as [E1 E2].
    exists it'. rewrite E2. split_and!; try done; try lia. by right.
Qed.

(** Releasing one of [n] references. *)
Lemma release_kept w A Q F U p n d :
  cache_inv w A Q F U -> kept w A Q U p n d -> 1 <= n ->
  exists w' F' U', item_remove p w = Some (tt, w') /\ cache_inv w' A Q F' U'
    /\ keeps_others p w w' /\ calm w w' /\ keeps_class p w U U'
    /\ (1 < n -> kept w' A Q U' p (n - 1) d).
Proof.
  intros HC (it & Hp & Hn & Hd & Hr & Hk) H1. unfold item_remove. run. rewrite (load_ok p it) by done. run.
  destruct Hk as [(k & Hk & Hlt)|HH].
  - destruct (cache_item w A Q F U k p HC Hk) as (i & HI). pose proof HI as [I1 _ _ _ _ _ _]. simplify_eq.
    destruct (drop_linked w A Q F U k p it HC HI) as (w' & -> & Ew & HC' & HI' & HK); [lia|].
    exists w', F, U. split; [done|]. split; [done|]. split; [done|]. split; [by rewrite Ew|]. split; [apply keeps_class_refl|].
    intros _. eexists. split; [apply HI'|]. split; [done|]. split; [done|]. split; [upds; lia|]. left. exists k. upds. split; [done|lia].
  - pose proof HC as HC0. apply (cache_but_weaken _ (fun q => q = p)) in HC; [|done].
    destruct (decide (refcount it = 1)) as [E|E].
    + destruct (drop_ref_free _ _ _ _ _ _ _ _ HC HH E) as (w' & us & -> & HU & HC' & HK & HV).
      exists w', (fset F (ITEM_clsid it) (p :: F (ITEM_clsid it))), (fset U (ITEM_clsid it) us).
      split; [done|]. split; [done|]. split; [done|]. split; [by apply quiet_calm|].
      split; [by apply keeps_class_free|lia].
    + destruct (drop_ref_dec _ _ _ _ _ _ _ _ HC HH) as (w' & -> & HC' & HK & HV & Es & Hp'); [lia|].
      exists w', F, U. split; [done|]. split; [done|]. split; [done|]. split; [by apply quiet_calm|].
      split; [apply keeps_class_refl|]. intros _. eexists. split; [exact Hp'|]. upds.
      split; [done|]. split; [done|]. split; [lia|]. right. destruct HH as [G1 G2 G3 G4 G5].
      split; [done|done|done| |done]. unfold class_range. rewrite (largest_slabs w w' Es). done.
Qed.

Definition holders (rs : list mc_resp) (p : ptr) : Z := zlen (filter (fun r => r_item r = p) rs).
Lemma holders_cons r rs p : holders (r :: rs) p = (if decide (r_item r = p) then 1 else 0) + holders rs p.
Proof. unfold holders. rewrite filter_cons. case_decide; [by rewrite zlen_cons|done]. Qed.
Lemma holders_in rs r : r ∈ rs -> 1 <= holders rs (r_item r).
Proof.
  induction rs as [|x rs IH]; [by intros ?%not_elem_of_nil|]. pose proof (zlen_nonneg (filter (fun x => r_item x = r_item r) rs)) as Hz.
  rewrite holders_cons. intros [->|Hr]%elem_of_cons; [rewrite decide_True by done; unfold holders; lia|].
  specialize (IH Hr). case_decide; lia.
Qed.

(** ** Well-formed responses *)

Definition iov_ok r (v : iovec) : Prop :=
  0 <= iov_len v /\
  match base v with
  | IWbuf off => 0 <= off /\ off + iov_len v <= zlen (wbuf r)
  | IItem it off => it = r_item r /\ it <> NULL /\ 0 <= off
  | IHead _ => False
  | IBuf b => iov_len v <= zlen b
  end.
Definition iov_total (l : list iovec) : Z := foldr (fun v n => iov_len v + n) 0 l.
(** A response without a chunked value and without a pending read. *)
Record resp_ok r : Prop := {
  rk_plain : chunked_data_iov r = 0 /\ io_pending r = 0;
  rk_iov : Forall (iov_ok r) (iov r);
  rk_count : zlen (iov r) <= MC_RESP_IOVCOUNT;
  rk_tosend : tosend r = iov_total (iov r)
}.

Record sending s A Q F U : Prop := {
  sd_cache : cache_inv (s_mc s) A Q F U;
  sd_worker : resp_inv (s_worker s);
  sd_locs : NoDup (loc <$> resps (s_conn s));
  sd_used r : r ∈ resps (s_conn s) -> in_use (s_worker s) (loc r);
  sd_ok : Forall resp_ok (resps (s_conn s));
  sd_items p : p <> NULL -> 1 <= holders (resps (s_conn s)) p ->
    exists d, kept (s_mc s) A Q U p (holders (resps (s_conn s)) p) d
}.

(** A response with vectors has bytes to send. *)
Definition resp_filled r : Prop := iov r <> [] -> 0 < tosend r.
Definition filled s : Prop := Forall resp_filled (resps (s_conn s)).

(** What is neither the cache, the response objects nor the connection. *)
Definition outside s := (s_options s, s_input s, s_sent s).

(** ** The bytes of a response *)

Definition data_at (h : gmap ptr item) (p : ptr) : list Z :=
  match h !! p with Some i => it_data i | None => [] end.
Definition iov_text (h : gmap ptr item) r (v : iovec) : list Z :=
  match base v with
  | IWbuf off => slice off (off + iov_len v) (wbuf r)
  | IItem it off => peek off (iov_len v) (data_at h it)
  | IHead it => peek 0 (iov_len v) (data_at h it)
  | IBuf b => ztake (iov_len v) b
  end.
Definition resp_text (h : gmap ptr item) r : list Z :=
  if skip r then [] else concat (iov_text h r <$> iov r).
(** What is left to be sent. *)
Definition pending s : list Z := concat (resp_text (heap (s_mc s)) <$> resps (s_conn s)).

Lemma zlen_peek off n d : 0 <= n -> zlen (peek off n d) = n.
Proof. intros. unfold peek, zlen, ztake. rewrite length_take, length_app, length_replicate. lia. Qed.
Lemma zlen_ztake {X} n (l : list X) : 0 <= n <= zlen l -> zlen (ztake n l) = n.
Proof. unfold zlen, ztake. intros. rewrite length_take. lia. Qed.
Lemma iov_text_len h r v : iov_ok r v -> zlen (iov_text h r v) = iov_len v.
Proof.
  intros [Hl Hv]. unfold iov_text. destruct (base v); [|by apply zlen_peek|by apply zlen_peek|by apply zlen_ztake].
  rewrite zlen_slice; cbn in Hv; lia.
Qed.
Lemma iov_total_nonneg r l : Forall (iov_ok r) l -> 0 <= iov_total l.
Proof. unfold iov_total. induction 1 as [|v l [Hv _] _ IH]; cbn; lia. Qed.
Lemma iov_texts_len h r l : Forall (iov_ok r) l -> zlen (concat (iov_text h r <$> l)) = iov_total l.
Proof. unfold iov_total. induction 1 as [|v l Hv _ IH]; cbn; [done|]. by rewrite zlen_app, IH, iov_text_len. Qed.
Lemma resp_text_len h r : resp_ok r -> skip r = false -> zlen (resp_text h r) = tosend r.
Proof. intros [_ Hi _ ->] Hs. unfold resp_text. rewrite Hs. by apply iov_texts_len. Qed.

(** Texts depend on the values of the items held. *)
Lemma resp_text_eq h h' r :
  resp_ok r -> (r_item r <> NULL -> data_at h' (r_item r) = data_at h (r_item r)) -> resp_text h' r = resp_text h r.
Proof.
  intros [_ Hi _ _] Hd. unfold resp_text. destruct (skip r); [done|]. f_equal. apply list_fmap_ext.
  intros i v Hv. rewrite Forall_forall in Hi. destruct (Hi v) as [_ Hb]; [by eapply list_elem_of_lookup_2|].
  unfold iov_text. destruct (base v); [done| |done|done]. destruct Hb as (-> & Hn & _). by rewrite Hd.
Qed.
Lemma kept_data w A Q U p n d : kept w A Q U p n d -> data_at (heap w) p = d.
Proof. intros (it & Hp & _ & Hd & _). unfold data_at. by rewrite Hp. Qed.
Lemma kept_weaken w A Q U p n m d : kept w A Q U p n d -> m <= n -> kept w A Q U p m d.
Proof.
  intros (it & Hp & Hn & Hd & Hr & Hk) Hm. exists it. split; [done|]. split; [done|]. split; [done|]. split; [lia|].
  destruct Hk as [(k & Hk & Hlt)|HH]; [left; exists k; split; [done|lia]|by right].
Qed.

(** The items of [rs] stay held when the item of a response before them is released. *)
Lemma release_head w A Q F U r rs :
  cache_inv w A Q F U -> Forall resp_ok rs ->
  (forall p, p <> NULL -> 1 <= holders (r :: rs) p -> exists d, kept w A Q U p (holders (r :: rs) p) d) ->
  exists w' F' U', when (bool_decide (r_item r <> NULL)) (item_remove (r_item r)) w = Some (tt, w')
    /\ cache_inv w' A Q F' U'
    /\ (forall p, p <> NULL -> 1 <= holders rs p -> exists d, kept w' A Q U' p (holders rs p) d)
    /\ resp_text (heap w') <$> rs = resp_text (heap w) <$> rs.
Proof.
  intros HC Hok HK. assert (forall p, holders rs p <= holders (r :: rs) p) as Hle
    by (intros p; rewrite holders_cons; case_decide; lia).
  destruct (bool_decide_reflect (r_item r <> NULL)) as [Hn|Hn]; cbn [when].
  - destruct (HK (r_item r) Hn) as [d Hd]; [apply holders_in; left|].
    assert (holders (r :: rs) (r_item r) = 1 + holders rs (r_item r)) as E1 by (by rewrite holders_cons, decide_True).
    pose proof (zlen_nonneg (filter (fun x => r_item x = r_item r) rs)) as Hz. fold (holders rs (r_item r)) in Hz.
    destruct (release_kept w A Q F U _ _ d HC Hd) as (w' & F' & U' & -> & HC' & HO & HV & HL & Hk'); [lia|].
    assert (forall p, p <> NULL -> 1 <= holders rs p -> exists d, kept w A Q U p (holders rs p) d /\ kept w' A Q U' p (holders rs p) d) as Hboth.
    { intros p Hp H1. destruct (decide (p = r_item r)) as [->|Hne].
      - exists d. split; [apply (kept_weaken _ _ _ _ _ _ _ _ Hd); lia|].
        apply (kept_weaken _ _ _ _ _ _ _ _ (Hk' ltac:(lia))). lia.
      - destruct (HK p Hp) as [e He]; [specialize (Hle p); lia|]. apply (kept_weaken _ _ _ _ _ _ (holders rs p)) in He; [|done].
        exists e. split; [done|]. by apply (kept_other w w' A Q F F' U U' (r_item r)). }
    exists w', F', U'. split; [done|]. split; [done|]. split.
    + intros p Hp H1. destruct (Hboth p Hp H1) as (e & _ & He). by exists e.
    + apply list_fmap_ext. intros i x Hx%list_elem_of_lookup_2. rewrite Forall_forall in Hok.
      apply resp_text_eq; [by apply Hok|]. intros Hxn. destruct (Hboth (r_item x) Hxn) as (e & K1 & K2); [by apply holders_in|].
      by rewrite (kept_data _ _ _ _ _ _ _ K1), (kept_data _ _ _ _ _ _ _ K2).
  - exists w, F, U. split; [done|]. split; [done|]. split; [|done]. intros p Hp H1.
    destruct (HK p Hp) as [e He]; [specialize (Hle p); lia|]. exists e. by apply (kept_weaken _ _ _ _ _ _ _ _ He).
Qed.

Lemma resp_finish_ok s A Q F U r rs :
  sending s A Q F U -> resps (s_conn s) = r :: rs ->
  exists s' F' U', resp_finish s = Some (tt, s') /\ sending s' A Q F' U'
    /\ s_conn s' = s_conn s <| resps := rs |>
    /\ pending s' = concat (resp_text (heap (s_mc s)) <$> rs) /\ outside s' = outside s.
Proof.
  intros [HC HW HL HU HO HI] Er. rewrite Er in *. apply Forall_cons in HO as [Hr HO]. apply NoDup_cons in HL as [Hn HL].
  destruct (release_head _ _ _ _ _ r rs HC HO HI) as (w' & F' & U' & Ew & HC' & HI' & Et).
  destruct (resp_free_ok (s_worker s) (loc r) HW) as (k' & Ek & HW' & _ & Hu); [apply HU; left|].
  set (k'' := k' <| response_obj_count ::= fun n => u64 (n - 1) |>).
  assert (in_use k'' = in_use k') as Eu by done.
  exists (s <| s_mc := w' |> <| s_conn ::= fun c => c <| resps := rs |> |> <| s_worker := k'' |>), F', U'.
  split; [|split; [|split; [done|split; [unfold pending; upds; by rewrite Et|done]]]].
  - unfold resp_finish. run. unfold id. rewrite Er. change (head (r :: rs)) with (Some r). run.
    destruct (rk_plain _ Hr) as [_ ->]. change (negb (0 =? 0)) with false.
    destruct (bool_decide (r_item r <> NULL)); cbn [when] in *; run; [rewrite Ew; run|injection Ew as <-]; upds; rewrite ?Ek; run;
      do 2 f_equal; destruct s as [m k c o g l]; destruct c; cbn in *; subst; done.
  - split; upds; [done| |done| |done|done].
    + destruct HW'. by split.
    + intros x Hx. rewrite Eu. apply Hu. split; [apply HU; by right|]. intros E. apply Hn. rewrite <- E.
      by apply list_elem_of_fmap_2.
Qed.

(** ** Gathering *)

Lemma all_iovs_ok r l iovs w :
  Forall (iov_ok r) l -> (r_item r <> NULL -> is_Some (heap w !! r_item r)) ->
  all_iovs r l iovs w = Some (iovs ++ (iov_text (heap w) r <$> l), w).
Proof.
  intros Hl Hi. revert iovs. induction Hl as [|v l [_ Hv] Hl IH]; intros iovs; cbn [all_iovs fmap list_fmap].
  - by rewrite app_nil_r.
  - assert (iov_bytes r v w = Some (iov_text (heap w) r v, w)) as E.
    { unfold iov_bytes, iov_text. destruct (base v); run; [done| |done|done]. destruct Hv as (-> & Hn & _).
      destruct (Hi Hn) as [i Ei]. rewrite (load_ok _ i) by done. run. unfold data_at. by rewrite Ei. }
    rewrite run_bind, E, IH. by rewrite <- app_assoc.
Qed.

Lemma transmit_pre_ok rs iovs w :
  Forall resp_ok rs -> (forall r, r ∈ rs -> r_item r <> NULL -> is_Some (heap w !! r_item r)) ->
  exists out rest, transmit_pre false rs iovs w = Some (iovs ++ out, w)
    /\ concat out ++ rest = concat (resp_text (heap w) <$> rs)
    /\ (zlen iovs + MC_RESP_IOVCOUNT < IOV_MAX - 1 -> out = [] -> Forall (fun r => skip r = true \/ tosend r = 0) rs)
    /\ (Forall resp_filled rs -> out <> [] -> concat out <> []).
Proof.
  intros Hok. revert iovs. induction Hok as [|r rs Hr Hok IH]; intros iovs Hi; cbn [transmit_pre].
  { exists [], []. rewrite app_nil_r. by split_and!. }
  assert (forall x, x ∈ rs -> r_item x <> NULL -> is_Some (heap w !! r_item x)) as Hi' by (intros; apply Hi; [by right|done]).
  destruct (Z.leb_spec (IOV_MAX - 1) (zlen iovs + zlen (iov r))) as [Hg|Hg].
  { exists [], (concat (resp_text (heap w) <$> r :: rs)). rewrite app_nil_r. split; [done|]. split; [done|]. split; [|done].
    pose proof (rk_count _ Hr). lia. }
  destruct (skip r) eqn:Es.
  - destruct (IH iovs Hi') as (out & rest & E & Ec & Hz & Hne). exists out, rest. split; [done|].
    split; [cbn; unfold resp_text at 1; by rewrite Es|]. split; [|by intros [_ Hf]%Forall_cons; apply Hne].
    intros H1 H2. constructor; [by left|by apply Hz].
  - destruct (rk_plain _ Hr) as [-> _]. change (negb (0 =? 0)) with false. cbv iota.
    rewrite run_bind, all_iovs_ok; [|apply Hr|intros; apply Hi; [left|done]].
    destruct (IH (iovs ++ (iov_text (heap w) r <$> iov r)) Hi') as (out & rest & E & Ec & Hz & Hne).
    exists ((iov_text (heap w) r <$> iov r) ++ out), rest. rewrite app_assoc. split; [done|].
    split; [cbn; unfold resp_text at 1; rewrite Es, concat_app, <- app_assoc; by rewrite Ec|].
    split; [intros H1 [E1 E2]%app_nil; apply fmap_nil_inv in E1; constructor; [right|]|].
    + rewrite (rk_tosend _ Hr), E1. done.
    + apply Hz; [|done]. rewrite E1. cbn. by rewrite app_nil_r.
    + intros [Hf Hfs]%Forall_cons. specialize (Hne Hfs). unfold resp_filled in Hf.
      destruct (iov r) as [|v l] eqn:Ev; [exact Hne|]. intros _ Hc. rewrite concat_app in Hc. apply app_nil in Hc as [Hc _].
      specialize (Hf ltac:(done)).
      rewrite (rk_tosend _ Hr), <- (iov_texts_len (heap w) r (iov r)) in Hf by apply Hr. rewrite Ev, Hc in Hf. done.
Qed.

(** ** Accounting *)

Lemma peek_lookup off n d i :
  0 <= off -> peek off n d !! i
  = if decide (i < Z.to_nat n)%nat then Some (default 0 (d !! (Z.to_nat off + i)%nat)) else None.
Proof.
  intros Hoff. unfold peek, ztake, zdrop. case_decide as Hi; [|apply lookup_ge_None; rewrite length_take; lia].
  rewrite lookup_take_lt by done. destruct (decide (i < length (drop (Z.to_nat off) d))%nat) as [Hl|Hl].
  - rewrite lookup_app_l, lookup_drop by done. rewrite length_drop in Hl.
    destruct (lookup_lt_is_Some_2 d (Z.to_nat off + i)) as [x Hx]; [lia|]. by rewrite Hx.
  - rewrite lookup_app_r by lia. rewrite length_drop in *. rewrite lookup_replicate_2 by lia.
    rewrite (lookup_ge_None_2 d) by lia. done.
Qed.
Lemma peek_zdrop off n d k : 0 <= off -> 0 <= k <= n -> peek (off + k) (n - k) d = zdrop k (peek off n d).
Proof.
  intros Hoff Hk. apply list_eq. intros i. unfold zdrop. rewrite lookup_drop, !peek_lookup by lia.
  repeat case_decide; try lia; [|done]. do 2 f_equal. f_equal. lia.
Qed.
Lemma iov_text_advance h r v k :
  iov_ok r v -> 0 <= k <= iov_len v ->
  iov_text h r (v <| base ::= advance k |> <| iov_len ::= fun n => n - k |>) = zdrop k (iov_text h r v).
Proof.
  intros [Hl Hv] Hk. unfold iov_text. upds. destruct (base v); cbn [advance]; cbn in Hv.
  - rewrite slice_zdrop by lia. f_equal. lia.
  - apply peek_zdrop; lia.
  - done.
  - unfold ztake, zdrop. rewrite skipn_firstn_comm. f_equal. lia.
Qed.
Lemma iov_ok_advance r v k :
  iov_ok r v -> 0 <= k <= iov_len v -> iov_ok r (v <| base ::= advance k |> <| iov_len ::= fun n => n - k |>).
Proof.
  intros [Hl Hv] Hk. split; upds; [lia|]. destruct (base v); cbn [advance]; cbn in Hv; [lia| |done|].
  - destruct Hv as (-> & Hn & Ho). split; [done|]. split; [done|lia].
  - unfold zdrop, zlen in *. rewrite length_drop. lia.
Qed.
Lemma iov_cut h r v : iov_ok r v -> iov_ok r (v <| iov_len := 0 |>) /\ iov_text h r (v <| iov_len := 0 |>) = [].
Proof.
  intros [Hl Hv]. unfold iov_ok, iov_text, peek. upds. destruct (base v); cbn in Hv; split_and!; try done; try lia.
  rewrite Z.add_0_r. apply slice_empty.
Qed.

Lemma post_iovs_ok h r x l res t :
  Forall (iov_ok r) l -> 0 <= res < iov_total l ->
  exists l', post_iovs 0 x l res t = (l', t - res, 0) /\ Forall (iov_ok r) l' /\ zlen l' = zlen l
    /\ iov_total l' = iov_total l - res
    /\ concat (iov_text h r <$> l') = zdrop res (concat (iov_text h r <$> l)).
Proof.
  intros Hl. revert x res t. induction Hl as [|v l Hv Hl IH]; intros x res t Hr; [cbn in Hr; lia|].
  change (iov_total (v :: l)) with (iov_len v + iov_total l) in *. cbn [post_iovs]. change (0 =? 0) with true. cbn [orb].
  assert (zlen (iov_text h r v) = iov_len v) as Et by (by apply iov_text_len). destruct Hv as [Hv0 Hv1] eqn:Ev.
  pose proof (conj Hv0 Hv1 : iov_ok r v) as Hv'. clear Ev.
  destruct (Z.leb_spec (iov_len v) res) as [Hle|Hlt].
  - destruct (IH (x + 1) (res - iov_len v) (t - iov_len v)) as (l' & -> & Hl' & Hz & Ht & Hc); [lia|].
    destruct (iov_cut h r v Hv') as [K1 K2]. exists (v <| iov_len := 0 |> :: l').
    split; [do 2 f_equal; lia|]. split; [by constructor|]. split; [by rewrite !zlen_cons, Hz|].
    split; [unfold iov_total in *; cbn; upds; lia|].
    cbn [fmap list_fmap concat]. rewrite K2, Hc. cbn [app].
    unfold zdrop, zlen in *. rewrite drop_app_ge by lia. f_equal. lia.
  - eexists (_ :: l). split; [done|]. split; [constructor; [apply iov_ok_advance; [done|lia]|done]|].
    split; [by rewrite !zlen_cons|]. split; [unfold iov_total in *; cbn; upds; lia|].
    cbn [fmap list_fmap concat]. rewrite iov_text_advance by (done || lia).
    rewrite zdrop_app_l by lia. done.
Qed.

Lemma pending_cons s r rs :
  resps (s_conn s) = r :: rs ->
  pending s = resp_text (heap (s_mc s)) r ++ concat (resp_text (heap (s_mc s)) <$> rs).
Proof. intros E. unfold pending. by rewrite E. Qed.
Lemma zdrop_app_ge {X} n (l k : list X) : zlen l <= n -> zdrop n (l ++ k) = zdrop (n - zlen l) k.
Proof. unfold zdrop, zlen. intros. rewrite drop_app_ge by lia. f_equal. lia. Qed.

Lemma sending_update s A Q F U r r' rs :
  sending s A Q F U -> resps (s_conn s) = r :: rs -> resp_ok r' -> loc r' = loc r -> r_item r' = r_item r ->
  sending (s <| s_conn ::= fun c => c <| resps := r' :: rs |> |>) A Q F U.
Proof.
  intros [HC HW HL HU HO HI] Er Hok El Ei. rewrite Er in *. split; upds; [done|done| | | |].
  - cbn in *. by rewrite El.
  - intros x [->|Hx]%elem_of_cons; [rewrite El; apply HU; left|apply HU; by right].
  - apply Forall_cons in HO as [_ HO]. by constructor.
  - intros p. rewrite !holders_cons, Ei. specialize (HI p). rewrite holders_cons in HI. exact HI.
Qed.

(** What a run of the accounting achieves: [n] bytes less are pending, and nothing
    is queued when all of them are gone. *)
Definition posted s (n : Z) A Q (res : option (unit * server)) : Prop :=
  exists s' F' U' l, res = Some (tt, s') /\ sending s' A Q F' U' /\ (s_conn s' = s_conn s <| resps := l |> /\ outside s' = outside s
      /\ (filled s -> Forall resp_filled l))
    /\ pending s' = zdrop n (pending s) /\ (zlen (pending s) <= n -> l = []).

Lemma posted_finish s A Q F U r rs n fuel :
  sending s A Q F U -> resps (s_conn s) = r :: rs -> zlen (resp_text (heap (s_mc s)) r) <= n ->
  (forall s' F' U', sending s' A Q F' U' -> resps (s_conn s') = rs ->
     posted s' (n - zlen (resp_text (heap (s_mc s)) r)) A Q (transmit_post fuel (n - zlen (resp_text (heap (s_mc s)) r)) s')) ->
  posted s n A Q ((resp_finish;; transmit_post fuel (n - zlen (resp_text (heap (s_mc s)) r))) s).
Proof.
  intros HS Er Hn Hk. destruct (resp_finish_ok s A Q F U r rs HS Er) as (s1 & F1 & U1 & E1 & HS1 & Ec1 & Ep1 & Eo1).
  rewrite run_bind, E1. destruct (Hk s1 F1 U1 HS1) as (s2 & F2 & U2 & l & -> & HS2 & (Ec2 & Eo2 & Hf2) & Ep2 & Hl); [by rewrite Ec1|].
  exists s2, F2, U2, l. split; [done|]. split; [done|]. split; [split; [rewrite Ec2, Ec1; by destruct (s_conn s)|split; [congruence|]]|].
  { intros Hf. apply Hf2. unfold filled in *. rewrite Ec1. upds. rewrite Er in Hf. by apply Forall_cons in Hf as [_ ?]. }
  rewrite (pending_cons s r rs Er). split; [by rewrite zdrop_app_ge, Ep2, Ep1|].
  rewrite zlen_app. intros Hz. apply Hl. rewrite Ep1. lia.
Qed.

Lemma posted_nil s n A Q F U fuel :
  sending s A Q F U -> resps (s_conn s) = [] -> posted s n A Q (transmit_post fuel n s).
Proof.
  intros HS Er. exists s, F, U, []. unfold pending. rewrite Er. split.
  - destruct fuel; cbn [transmit_post]; run; unfold id; by rewrite Er.
  - split; [done|]. split; [split; [destruct (s_conn s); cbn in Er; by subst|split; [done|by constructor]]|]. split; [|done]. cbn. unfold zdrop. by rewrite drop_nil.
Qed.

Lemma transmit_post_ok n s A Q F U fuel :
  sending s A Q F U -> 0 <= n -> (length (resps (s_conn s)) <= fuel)%nat ->
  posted s n A Q (transmit_post fuel n s).
Proof.
  revert n s F U. induction fuel as [|fuel IH]; intros n s F U HS Hn Hf.
  { apply (posted_nil s n A Q F U); [done|]. by apply nil_length_inv, Nat.le_0_r. }
  destruct (resps (s_conn s)) as [|r rs] eqn:Er; cbn in Hf; [by apply (posted_nil s n A Q F U)|].
  assert (forall m s' F' U', 0 <= m -> sending s' A Q F' U' -> resps (s_conn s') = rs -> posted s' m A Q (transmit_post fuel m s')) as Hk.
  { intros m s' F' U' Hm HS' Er'. apply (IH m s' F' U'); [done|done|rewrite Er'; lia]. }
  pose proof (sd_ok _ _ _ _ _ HS) as HO. rewrite Er in HO. apply Forall_cons in HO as [Hr HO].
  cbn [transmit_post]. run. unfold id. rewrite Er.
  pose proof (iov_total_nonneg _ _ (rk_iov _ Hr)) as Ht0. rewrite <- (rk_tosend _ Hr) in Ht0.
  destruct (skip r) eqn:Es; [|destruct (Z.leb_spec (tosend r) n) as [Hle|Hlt]].
  - assert (resp_text (heap (s_mc s)) r = []) as Et by (unfold resp_text; by rewrite Es).
    pose proof (posted_finish s A Q F U r rs n fuel HS Er) as HP. rewrite Et, zlen_nil, Z.sub_0_r in HP.
    apply HP; [done|]. intros s' F' U' HS' Er'. by apply (Hk n s' F' U').
  - rewrite <- (resp_text_len (heap (s_mc s)) r Hr Es). rewrite <- (resp_text_len (heap (s_mc s)) r Hr Es) in Hle.
    apply (posted_finish s A Q F U r rs n fuel HS Er Hle). intros s' F' U' HS' Er'. apply (Hk _ s' F' U'); [lia|done|done].
  - destruct (rk_plain _ Hr) as [Ecd Eio]. rewrite Ecd.
    destruct (post_iovs_ok (heap (s_mc s)) r 0 (iov r) n (tosend r) (rk_iov _ Hr)) as (l' & -> & Hl' & Hz & Ht & Hc);
      [rewrite <- (rk_tosend _ Hr); lia|].
    run. rewrite (proj2 (Z.eqb_neq (tosend r - n) 0)) by lia. run.
    set (r' := r <| iov := l' |> <| tosend := tosend r - n |>).
    set (s' := s <| s_conn ::= fun c => c <| resps := r' :: rs |> |>).
    exists s', F, U, (r' :: rs). split; [done|]. split; [|split; [split; [done|split; [done|]]|]].
    + apply (sending_update s A Q F U r r' rs HS Er); [|done|done]. split; unfold r'; upds; [done|exact Hl'| |].
      * rewrite Hz. apply Hr.
      * by rewrite Ht, (rk_tosend _ Hr).
    + unfold filled. rewrite Er. intros [_ Hfs]%Forall_cons. apply Forall_cons. split; [|done].
      intros _. change (tosend r') with (tosend r - n). lia.
    + rewrite (pending_cons s r rs Er). split.
      * unfold pending, s'. upds. cbn [fmap list_fmap concat]. rewrite zdrop_app_l by (rewrite resp_text_len; [lia|done|done]).
        f_equal. unfold resp_text. change (skip r') with (skip r). rewrite Es. exact Hc.
      * rewrite zlen_app, resp_text_len by done. pose proof (zlen_nonneg (concat (resp_text (heap (s_mc s)) <$> rs))). lia.
Qed.

(** What a call of [transmit] achieves when the socket took [n] bytes. *)
Definition transmitted s A Q (n : Z) (x : (transmit_result * list Z) * server) : Prop :=
  exists s' F' U' (res : transmit_result), x = ((res, ztake n (pending s)), s') /\ sending s' A Q F' U'
    /\ pending s' = zdrop n (pending s) /\ (res = TRANSMIT_COMPLETE <-> resps (s_conn s') = [])
    /\ (res = TRANSMIT_COMPLETE \/ res = TRANSMIT_INCOMPLETE) /\ (exists l, s_conn s' = s_conn s <| resps := l |>) /\ outside s' = outside s /\ (filled s -> filled s') /\ (n = zlen (pending s) -> res = TRANSMIT_COMPLETE).

(** Counting the bytes concerns no invariant. *)
Definition counted (n : Z) (c : counter) s : server :=
  s <| s_mc ::= fun w => w <| thread_stats ::= fun t c' => if decide (c' = c) then u64 (t c' + n) else t c' |> |>.
Lemma run_count_by n c s :
  match count_by n c (s_mc s) with Some (a, w) => Some (a, s <| s_mc := w |>) | None => None end = Some (tt, counted n c s).
Proof. reflexivity. Qed.
Lemma sending_counted n c s A Q F U : sending s A Q F U -> sending (counted n c s) A Q F U.
Proof.
  intros [HC ? ? ? ? HI]. set (w' := s_mc (counted n c s)).
  assert (cache_inv w' A Q F U) as HC' by (by apply (cache_other _ _ (s_mc s) _ A Q F U HC)).
  split; try done. intros p Hp Hh. destruct (HI p Hp Hh) as [d Hd]. exists d.
  apply (kept_other (s_mc s) w' A Q F F U U NULL); try done; [exact (keeps_others_refl NULL (s_mc s))|apply keeps_class_refl].
Qed.

Lemma transmit_ok s A Q F U :
  sending s A Q F U ->
  exists offered rest, pending s = offered ++ rest
    /\ (exists iovs, transmit_pre false (resps (s_conn s)) [] (s_mc s) = Some (iovs, s_mc s) /\ offered = concat iovs)
    /\ (filled s -> pending s <> [] -> offered <> []) /\ forall n ev,
    match transmit (IoBytes n) ev s with
    | Some x => transmitted s A Q n x
    | None => ~ 0 <= n <= zlen offered
    end.
Proof.
  intros HS. destruct (transmit_pre_ok (resps (s_conn s)) [] (s_mc s)) as (out & rest & E & Ec & Hz & Hne).
  - apply HS.
  - intros r Hr Hn. destruct (sd_items _ _ _ _ _ HS (r_item r) Hn) as (d & i & Hi & _); [by apply holders_in|]. by eexists.
  - assert (out = [] -> pending s = []) as Hpn.
    { intros ->. specialize (Hz ltac:(done) eq_refl).
      unfold pending. pose proof (sd_ok _ _ _ _ _ HS) as HO. clear -HO Hz. induction Hz as [|r rs Hr Hz IH]; [done|].
      apply Forall_cons in HO as [Ho HO]. cbn. rewrite IH by done. rewrite app_nil_r. unfold resp_text.
      destruct (skip r) eqn:Es; [done|]. destruct Hr as [?|Ht]; [done|]. rewrite <- (resp_text_len (heap (s_mc s)) r Ho Es) in Ht.
      unfold resp_text in Ht. rewrite Es in Ht. by apply nil_length_inv, Nat2Z.inj. }
    exists (concat out), rest. split; [done|]. split; [by exists out|]. split; [intros Hf Hp; apply Hne; [done|]; intros Ho; by apply Hp, Hpn|]. intros n ev. unfold transmit. run. unfold id. rewrite E. cbn [app]. run.
    assert (forall m, 0 <= m -> posted s m A Q (transmit_post (length (resps (s_conn s))) m s)) as HP
      by (intros m Hm; by apply (transmit_post_ok m s A Q F U)).
    assert (forall m c, 0 <= m -> posted s m A Q (transmit_post (length (resps (s_conn s))) m (counted m c s))) as HC
      by (intros m c Hm; apply (transmit_post_ok m (counted m c s) A Q F U); [by apply sending_counted|done..]).
    assert (s <| s_mc := s_mc s |> = s) as Eid by (by destruct s). rewrite Eid.
    destruct (Z.eqb_spec (zlen out) 0) as [E0|E0].
    + assert (out = []) as -> by (destruct out; [done|rewrite zlen_cons in E0; pose proof (zlen_nonneg out); lia]).
      pose proof (Hpn eq_refl) as Ep.
      destruct (HP 0) as (s' & F' & U' & l & Et & HS' & (Ec' & Eo' & Hf') & Ep' & Hl); [done|]. rewrite run_bind, Et. run.
      assert (l = []) as -> by (apply Hl; by rewrite Ep).
      exists s', F', U', TRANSMIT_COMPLETE. rewrite Ep in *. unfold ztake, zdrop in *. rewrite take_nil, drop_nil in *.
      rewrite Ep', Ec'. split_and!; try done; [by left|by exists []|]. unfold filled. rewrite Ec'. exact Hf'.
    + destruct (Z.leb_spec 0 n) as [H1|H1]; [|cbn [andb massert]; run; cbn; lia].
      destruct (Z.leb_spec n (zlen (concat out))) as [H2|H2]; [|cbn [andb massert]; run; cbn; lia].
      cbn [andb]. run. rewrite run_count_by.
      destruct (HC n bytes_written) as (s' & F' & U' & l & Er & HS' & (Ec' & Eo' & Hf') & Ep' & Hl); [lia|]. rewrite ?run_bind, Er. run.
      assert (resps (s_conn s') = l) as El by (by rewrite Ec'). rewrite El.
      assert (ztake n (concat out) = ztake n (pending s)) as Et by (unfold pending; rewrite <- Ec; symmetry; apply ztake_app_l; lia).
      rewrite Et. eexists s', F', U', _. split; [done|]. split; [done|]. split; [done|].
      split; [rewrite El; destruct (decide (l = [])); split; congruence|].
      split; [destruct (decide (l = [])); auto|]. split; [by exists l|]. split; [done|].
      split; [unfold filled; rewrite El; exact Hf'|]. intros ->. rewrite decide_True; [done|]. apply Hl. lia.
Qed.

(** Calls of [transmit] until the connection has to wait or is done: the socket
    takes some bytes, or none for now. *)
Inductive sends : server -> list Z -> server -> Prop :=
  | sends_done s : sends s [] s
  | sends_some s n ev res sent s1 out s2 :
      transmit (IoBytes n) ev s = Some ((res, sent), s1) -> sends s1 out s2 -> sends s (sent ++ out) s2
  | sends_wait s res sent s1 out s2 :
      transmit IoAgain true s = Some ((res, sent), s1) -> sends s1 out s2 -> sends s (sent ++ out) s2.

Lemma transmit_wait s A Q F U res sent s1 :
  sending s A Q F U -> transmit IoAgain true s = Some ((res, sent), s1) ->
  exists F1 U1, sending s1 A Q F1 U1 /\ sent ++ pending s1 = pending s.
Proof.
  intros HS Ht. destruct (transmit_ok s A Q F U HS) as (off & rest & Ep & _ & _ & Hn). specialize (Hn 0 true).
  revert Ht Hn. unfold transmit. run.
  destruct (transmit_pre false (id (s_conn s)).(resps) [] (s_mc s)) as [[iovs w]|] eqn:E; [|done]. run.
  destruct (transmit_pre_ok (resps (s_conn s)) [] (s_mc s)) as (out & rest' & E' & _).
  { apply HS. }
  { intros r Hr Hr0. destruct (sd_items _ _ _ _ _ HS (r_item r) Hr0) as (d & i & Hi & _); [by apply holders_in|]. by eexists. }
  unfold id in E. rewrite E' in E. injection E as <- <-. assert (s <| s_mc := s_mc s |> = s) as -> by (by destruct s).
  destruct (_ =? 0).
  - run. destruct (transmit_post _ 0 s) as [[[] s']|]; [|done]. run. intros [= <- <- <-] Hx.
    destruct Hx as (s2 & F2 & U2 & r2 & Ex & HS2 & Ep2 & _); assert (s2 = s') as -> by congruence. exists F2, U2. split; [done|]. by rewrite Ep2.
  - intros [= <- <- <-] _. by exists F, U.
Qed.

Lemma pending_nil s : resps (s_conn s) = [] -> pending s = [].
Proof. unfold pending. by intros ->. Qed.

Lemma sends_ok s out s' A Q F U :
  sends s out s' -> sending s A Q F U ->
  exists F' U', sending s' A Q F' U' /\ out ++ pending s' = pending s.
Proof.
  intros Hs. revert F U. induction Hs as [s|s n ev res sent s1 out s2 Ht Hs IH|s res sent s1 out s2 Ht Hs IH]; intros F U HS.
  - by exists F, U.
  - destruct (transmit_ok s A Q F U HS) as (off & rest & _ & _ & _ & Hn). specialize (Hn n ev). rewrite Ht in Hn.
    destruct Hn as (s1' & F1 & U1 & res' & Ex & HS1 & Ep1 & _). simplify_eq.
    destruct (IH F1 U1 HS1) as (F2 & U2 & HS2 & Ep2). exists F2, U2. split; [done|].
    rewrite <- app_assoc, Ep2, Ep1. unfold ztake, zdrop. apply take_drop.
  - destruct (transmit_wait s A Q F U res sent s1 HS Ht) as (F1 & U1 & HS1 & Ep1).
    destruct (IH F1 U1 HS1) as (F2 & U2 & HS2 & Ep2). exists F2, U2. split; [done|]. by rewrite <- app_assoc, Ep2.
Qed.

(** C5: responses are sent in order, each byte once: whatever the socket takes in
    each call of [transmit], the bytes sent so far followed by the bytes still
    pending are the bytes of the queued responses, skipped responses contributing
    none; when the queue is empty everything was sent.  No call is undefined, the
    references the responses hold on items stay good until they are released, and
    a call in which the socket takes everything completes and empties the queue. *)
Theorem transmit_sends_in_order s A Q F U :
  sending s A Q F U ->
  (forall out s', sends s out s' -> exists F' U', sending s' A Q F' U' /\ out ++ pending s' = pending s
     /\ (resps (s_conn s') = [] -> out = pending s))
  /\ exists offered rest, pending s = offered ++ rest /\ forall n ev, 0 <= n <= zlen offered ->
       exists res s', transmit (IoBytes n) ev s = Some ((res, ztake n (pending s)), s')
         /\ (n = zlen (pending s) -> res = TRANSMIT_COMPLETE /\ resps (s_conn s') = []).
Proof.
  intros HS. split.
  - intros out s' Hs. destruct (sends_ok s out s' A Q F U Hs HS) as (F' & U' & HS' & E). exists F', U'.
    split; [done|]. split; [done|]. intros En. by rewrite <- E, (pending_nil s' En), app_nil_r.
  - destruct (transmit_ok s A Q F U HS) as (off & rest & Ep & _ & _ & Hn). exists off, rest. split; [done|].
    intros n ev Hr. specialize (Hn n ev). destruct (transmit (IoBytes n) ev s) as [x|]; [|done].
    destruct Hn as (s' & F' & U' & res & -> & _ & _ & Hc & _ & _ & _ & _ & Hd). exists res, s'. split; [done|].
    intros E. pose proof (Hd E). split; [done|]. by apply Hc.
Qed.
End transmit.

(** ** A value and its header, cut in two *)
Module TransmitDemo.
Import Demo CacheDemo.
#[local] Instance no_storage : ExtStorage := {| storage_get_item _ := mret false; finalize_cb _ := mret tt;
  submit_cb := mret tt; complete_cb := mret tt |}.

Definition line : list Z := str "VALUE a 7 0" ++ CRLF.
Definition reply (l : Z * Z) (q : ptr) : mc_resp :=
  resp_zero l <| iov := [Iovec (IBuf line) 13; Iovec (IItem q 0) 2; Iovec (IBuf (str "END" ++ CRLF)) 5] |>
    <| tosend := 20 |> <| r_item := q |>.
Definition sender (w : mc) (k : worker) (l : Z * Z) (q : ptr) : server :=
  Server w k (conn_new conn_mwrite 0 tcp_transport ascii_prot false 0 <| resps := [reply l q] |>) (options_init 0) [] [] (Prefixes [] 58 0 0) authfile_none [] [].

Lemma sender_ok : exists w p q k l Q F U, second tiny_mc = Some ((p, q), w)
  /\ sending (sender w k l q) {[key_a := p]} Q F U.
Proof.
  destruct second_ok as (w & p & q & Q & F & U & it2 & E & Es & HC & Hr2 & now & HH).
  destruct (resp_allocate_ok worker_init resp_inv_init) as (o & k & Ek & Hk & Ha & Hok).
  destruct (Hok eq_refl) as [_ [l ->]]. exists w, p, q, k, l, Q, F, U. split; [done|].
  assert (forall r, in_use k r <-> r = l \/ in_use worker_init r) as Hu by (inversion Ha; subst; auto).
  split; [exact HC|exact Hk| | | |].
  - apply NoDup_singleton.
  - intros r Hr. apply list_elem_of_singleton in Hr as ->. apply Hu. by left.
  - apply Forall_singleton. split; [by split| |by vm_compute|done].
    apply Forall_cons; split; [by split|]. apply Forall_cons; split; [|apply Forall_singleton; by split].
    split; [done|]. split; [done|]. split; [apply (hi_null _ _ _ _ _ _ HH)|done].
  - intros p' Hp'. change (resps (s_conn (sender w k l q))) with [reply l q]. rewrite holders_cons.
    change (r_item (reply l q)) with q. change (holders [] p') with 0. intros H1.
    case_decide as Eq; [subst p'|lia]. exists (it_data (new_item tiny_settings now key_a 7 0 2 1 it2)).
    exists (new_item tiny_settings now key_a 7 0 2 1 it2). split; [apply HH|]. split; [done|]. split; [done|].
    split; [change (refcount (new_item tiny_settings now key_a 7 0 2 1 it2)) with (refcount it2); rewrite Hr2; lia|].
    by right.
Qed.

Lemma transmit_sends_in_order_witness :
  exists s A Q F U, sending s A Q F U /\ exists offered rest, pending s = offered ++ rest
    /\ forall n ev, 0 <= n <= zlen offered -> exists res s', transmit (IoBytes n) ev s = Some ((res, ztake n (pending s)), s').
Proof.
  destruct sender_ok as (w & p & q & k & l & Q & F & U & _ & HS).
  exists (sender w k l q), {[key_a := p]}, Q, F, U. split; [exact HS|].
  destruct (transmit_sends_in_order _ _ _ _ _ HS) as (_ & off & rest & E & Hn). exists off, rest. split; [exact E|].
  intros n ev Hr. destruct (Hn n ev Hr) as (res & s' & Ht & _). exists res, s'. exact Ht.
Defined.
End TransmitDemo.
