(* ===== verification/FetchProps.v ===== *)
(** * Fetching for a get: the LRU bump and what it leaves alone

    A get fetches with [do_update] and keeps the item for its response.  The bump
    touches flags, time and reference count only; flushed and expired items leave
    the table, but stay intact for the responses that still hold them. *)

From S2P Require Import Prelude BipBuffer Memory Dll Assoc AssocSpec AssocIter Slabs SlabsSpec SlabPages SlabAlloc SlabProps.
From S2P Require Import Items LruSpec Parts CacheSpec CacheAlloc CacheProps CacheMove Store StoreSpec StoreProps.
From S2P Require Import Resp AuthFile StatsPrefix Conn Transmit TransmitProps.

Section fetch.
Context `{HashFunction}.
Implicit Types (w : mc) (A : gmap (list Z) ptr) (Q F U : Z -> list ptr).

(** The acting thread has a well-formed bump buffer. *)
Definition bumpable w : Prop := exists b, zget (cur_thread w) (bump_bufs w) = Some b /\ bip_inv (bump_bip b).

(** What a bump may change of an item. *)
Definition refreshed (now : Z) (it it' : item) : Prop :=
  it' = it <| time := time it' |> <| it_flags := it_flags it' |> <| refcount := refcount it' |>
  /\ (time it' = time it \/ time it' = now)
  /\ forall f, Z.land f (Z.lor ITEM_ACTIVE ITEM_FETCHED) = 0 -> has_flag it' f = has_flag it f.

Lemma refreshed_trans now a b c : refreshed now a b -> refreshed now b c -> refreshed now a c.
Proof.
  intros (E1 & T1 & F1) (E2 & T2 & F2). split; [rewrite E2 at 1; rewrite E1 at 1; reflexivity|].
  split; [destruct T2 as [->|]; auto|]. intros f Hf. by rewrite F2, F1.
Qed.
Lemma refreshed_count now it r : refreshed now it (it <| refcount := r |>).
Proof. split; [by destruct it|]. split; [by left|done]. Qed.
Lemma refreshed_time now it : refreshed now it (it <| time := now |>).
Proof. split; [by destruct it|]. split; [by right|done]. Qed.

Lemma land_sub f g m : Z.land g m = g -> Z.land f m = 0 -> Z.land g f = 0.
Proof. intros E Hf. by rewrite <- E, <- Z.land_assoc, (Z.land_comm m), Hf, Z.land_0_r. Qed.
Lemma refreshed_set now it g : Z.land g (Z.lor ITEM_ACTIVE ITEM_FETCHED) = g -> refreshed now it (set_flag g it).
Proof.
  intros Hg. split; [by destruct it|]. split; [by left|]. intros f Hf. apply has_flag_set. by apply (land_sub f g _ Hg).
Qed.
Lemma refreshed_clear now it g : Z.land g (Z.lor ITEM_ACTIVE ITEM_FETCHED) = g -> refreshed now it (clear_flag g it).
Proof.
  intros Hg. split; [by destruct it|]. split; [by left|]. intros f Hf. apply has_flag_clear. by apply (land_sub f g _ Hg).
Qed.

Lemma refreshed_keeps now it f : refreshed now it (f it) -> has_flag it ITEM_SLABBED = false -> keeps f it.
Proof.
  intros (E & _ & Hf) Hs. assert (has_flag (f it) ITEM_SLABBED = false) as Hs' by (by rewrite Hf).
  unfold keeps, lru_bytes, ITEM_ntotal. rewrite !Hf by done. rewrite E.
  split; [by split_and!|]. split; [by split_and!|]. split; [done|]. split; [done|].
  split; [by apply has_flag_slabbed|]. rewrite E in Hs'. by apply has_flag_slabbed.
Qed.

(** An item of the map is refreshed in place. *)
Lemma refresh_ok w A Q F U k p it f now :
  cache_inv w A Q F U -> item_of_map w A Q U k p it -> refreshed now it (f it) -> 1 <= refcount (f it) < 2 ^ 16 ->
  exists w', update_item p f w = Some (tt, w') /\ w' = w <| heap ::= alter f p |>
    /\ cache_inv w' A Q F U /\ item_of_map w' A Q U k p (f it) /\ keeps_others p w w'.
Proof.
  intros HC HI HR Hr. pose proof HI as [_ _ _ (I4 & I5 & I6) _ _ _].
  apply (cache_alter w A Q F U k p it f HC HI); [by apply (refreshed_keeps now)|].
  destruct HR as (E & _ & Hf). split; [by rewrite E|]. by rewrite !Hf.
Qed.

(** What a step of a fetch leaves alone besides the items. *)
Definition steady w w' : Prop :=
  calm w w' /\ cur_thread w' = cur_thread w /\ mc_slabs w' = mc_slabs w.
Lemma steady_refl w : steady w w.
Proof. by split_and!. Qed.
Lemma steady_trans w1 w2 w3 : steady w1 w2 -> steady w2 w3 -> steady w1 w3.
Proof. intros (A1 & A2 & A3) (B1 & B2 & B3). split; [by apply (calm_trans _ w2)|]. split; congruence. Qed.
Lemma steady_alter w p f : steady w (w <| heap ::= alter f p |>).
Proof. by split_and!. Qed.

(** A bump of the item [p]: it may gain one reference. *)
Definition bumps w A Q F U k p it (x : option (unit * mc)) : Prop :=
  exists w' it', x = Some (tt, w') /\ cache_inv w' A Q F U /\ item_of_map w' A Q U k p it'
    /\ refreshed (current_time w) it it' /\ refcount it <= refcount it' <= refcount it + 1
    /\ keeps_others p w w' /\ steady w w' /\ bumpable w'.

Lemma bumps_update w A Q F U k p it f :
  cache_inv w A Q F U -> item_of_map w A Q U k p it -> bumpable w ->
  refreshed (current_time w) it (f it) -> refcount (f it) = refcount it ->
  bumps w A Q F U k p it (update_item p f w).
Proof.
  intros HC HI HB HR Er. pose proof (im_refs _ _ _ _ _ _ _ HI).
  destruct (refresh_ok w A Q F U k p it f _ HC HI HR) as (w' & E & Ew & HC' & HI' & HK); [by rewrite Er|].
  exists w', (f it). split; [done|]. split; [done|]. split; [done|]. split; [done|]. split; [lia|]. split; [done|].
  rewrite Ew. split; [apply steady_alter|done].
Qed.

(** Writing fewer bytes than are pushed: the rest of the entry keeps what it was. *)
Lemma memcpy_at_pad {X} (d : list X) off src n :
  zlen src <= n -> 0 <= off -> off + n <= zlen d ->
  let src' := src ++ slice (off + zlen src) (off + n) d in zlen src' = n /\ memcpy_at d off src' = memcpy_at d off src.
Proof.
  intros Hn Ho Hd src'. pose proof (zlen_nonneg src).
  assert (zlen src' = n) as Ez by (unfold src'; rewrite zlen_app, zlen_slice; lia).
  split; [done|]. rewrite !memcpy_at_defined, Ez by lia. unfold src'. rewrite <- app_assoc. do 3 f_equal.
  unfold slice, ztake, zdrop. rewrite <- (take_drop (Z.to_nat (off + n - (off + zlen src))) (drop (Z.to_nat (off + zlen src)) d)) at 2.
  f_equal. rewrite drop_drop. f_equal. lia.
Qed.

(** Putting the bump in the queue. *)
Lemma bump_buffer_ok it hv b :
  bip_inv (bump_bip b) ->
  exists r, match bipbuf_request (bump_bip b) sizeof_lru_bump_entry with
    | None => r = (false, bump_bip b)
    | Some off => exists d, memcpy_at (bip_data (bump_bip b)) off (bump_entry it hv) = Some d
        /\ let '(q, n) := bipbuf_push (Bipbuf (bip_size (bump_bip b)) (a_start (bump_bip b)) (a_end (bump_bip b))
             (b_end (bump_bip b)) (b_inuse (bump_bip b)) d) sizeof_lru_bump_entry in r = (negb (n =? 0), q)
    end /\ bip_inv (snd r).
Proof.
  intros Hi. set (q := bump_bip b) in *.
  assert (zlen (bump_entry it hv) = 12) as Ez
    by (unfold zlen, bump_entry, le_bytes; rewrite length_app, !length_map, !length_seqZ; reflexivity).
  assert (forall data, exists x, request_write_push q data = Some x /\ bip_inv (fst x)) as Hall.
  { intros data. assert (exists x, request_write_push q data = Some x) as [[me r] Ex].
    { rewrite request_push_offer by done. destruct (decide (zlen data <= bipbuf_unused q)) as [Hf|Hf].
      - destruct (offer_fits q _ Hi Hf) as (m & -> & _). by eexists.
      - rewrite offer_full by lia. by eexists. }
    exists (me, r). split; [done|]. by apply (bip_step_preserves q _ _ me (step_request_push _ _ _ _ Ex)). }
  destruct (bipbuf_request q sizeof_lru_bump_entry) as [off|] eqn:Er; [|by exists (false, q)].
  assert (0 <= off /\ off + 16 <= zlen (bip_data q)) as [H1 H2].
  { destruct (Hall (replicate 16 0)) as (x & Ex & _). unfold request_write_push in Ex.
    change (zlen (replicate 16 0)) with sizeof_lru_bump_entry in Ex. rewrite Er in Ex.
    unfold memcpy_at in Ex. case_decide as Hd; [exact Hd|done]. }
  destruct (memcpy_at_pad (bip_data q) off (bump_entry it hv) 16) as [Es Em]; [lia..|].
  destruct (Hall (bump_entry it hv ++ slice (off + zlen (bump_entry it hv)) (off + 16) (bip_data q))) as ([me r] & Ew & Hme).
  unfold request_write_push in Ew. rewrite Es in Ew. change 16 with sizeof_lru_bump_entry in Ew at 1. rewrite Er, Em in Ew.
  destruct (memcpy_at (bip_data q) off (bump_entry it hv)) as [d|]; [|done]. cbn [mbind option_bind] in Ew. injection Ew as Ew.
  exists (negb (r =? 0), me). split; [|done]. exists d. split; [done|]. change sizeof_lru_bump_entry with 16. by rewrite Ew.
Qed.

Lemma refcount_decr_ok w A Q F U k p it :
  cache_inv w A Q F U -> item_of_map w A Q U k p it -> 1 < refcount it ->
  exists w', refcount_decr p w = Some (refcount it - 1, w')
    /\ w' = w <| heap ::= alter (fun i => i <| refcount := refcount it - 1 |>) p |>
    /\ cache_inv w' A Q F U /\ item_of_map w' A Q U k p (it <| refcount := refcount it - 1 |>)
    /\ keeps_others p w w'.
Proof.
  intros HC HI Hr. pose proof HI as [I1 I2 I3 _ I7 _ _].
  destruct (refresh_ok w A Q F U k p it (fun i => i <| refcount := refcount it - 1 |>) 0 HC HI) as (w' & _ & Ew & HC' & HI' & HK').
  - apply refreshed_count.
  - upds. lia.
  - exists w'. split; [|done]. unfold refcount_decr. run.
    rewrite (update_refcount w p it (fun r => u16 (r - 1)) I2 I1). cbv beta. rewrite u16_id by lia. run.
    rewrite <- Ew. rewrite (load_ok p _ _ I2 (im_heap _ _ _ _ _ _ _ HI')). by run.
Qed.

Lemma lru_bump_async_ok w A Q F U k p it hv :
  cache_inv w A Q F U -> item_of_map w A Q U k p it -> refcount it < 2 ^ 16 - 1 -> bumpable w ->
  exists (b : bool) w', lru_bump_async p hv w = Some (b, w') /\ cache_inv w' A Q F U
    /\ item_of_map w' A Q U k p (it <| refcount := refcount it + if b then 1 else 0 |>)
    /\ keeps_others p w w' /\ steady w w' /\ bumpable w'.
Proof.
  intros HC HI Hr (b & Hb & Hinv).
  destruct (refcount_incr_ok w A Q F U k p it HC HI Hr) as (w1 & E1 & Ew & HC1 & HI1 & HK1).
  pose proof (im_refs _ _ _ _ _ _ _ HI) as Hr1.
  assert (cur_thread w1 = cur_thread w /\ bump_bufs w1 = bump_bufs w) as [Et Eb] by (by rewrite Ew).
  destruct (bump_buffer_ok p hv b Hinv) as ([r q] & Hm & Hq). cbn [snd] in Hq.
  assert (forall n, let w2 := w1 <| bump_bufs ::= <[Z.to_nat (cur_thread w) := LruBumpBuf q n]> |> in
    cache_inv w2 A Q F U /\ item_of_map w2 A Q U k p (it <| refcount := refcount it + 1 |>)
    /\ keeps_others p w w2 /\ steady w w2 /\ bumpable w2) as H2.
  { intros n w2. split; [by apply (cache_other _ _ w1)|]. split; [by apply (map_other w1)|].
    split; [exact HK1|]. split; [unfold w2; rewrite Ew; by split_and!|]. exists (LruBumpBuf q n). split; [|exact Hq].
    unfold w2. upds. rewrite Et, Eb. pose proof (zget_bound _ _ _ Hb) as [Hz1 Hz2]. unfold zlen in Hz2.
    rewrite zget_nat by lia. rewrite list_lookup_insert_eq by lia. done. }
  assert (lru_bump_async p hv w = (set_bump_buf (cur_thread w) (LruBumpBuf q (if r then dropped b else u64 (dropped b + 1)));;
      when (negb r) (refcount_decr p;; mret tt);; mret r) w1) as ->.
  { unfold lru_bump_async. run. rewrite E1. run. rewrite Et, Eb, Hb. run.
    destruct (bipbuf_request _ _) as [off|]; [|injection Hm as -> ->; by run].
    destruct Hm as (d & -> & Hp). run. destruct (bipbuf_push _ _) as [q' n]. injection Hp as -> ->. by run. }
  unfold set_bump_buf. run. destruct (H2 (if r then dropped b else u64 (dropped b + 1))) as (HC2 & HI2 & HK2 & HS2 & HB2).
  set (w2 := w1 <| bump_bufs ::= _ |>) in *. destruct r; cbn [negb]; run.
  - by exists true, w2.
  - destruct (refcount_decr_ok w2 A Q F U k p _ HC2 HI2) as (w3 & -> & Ew3 & HC3 & HI3 & HK3); [upds; lia|]. run.
    exists false, w3. split; [done|]. split; [done|]. split; [|split; [by apply (keeps_others_trans _ _ w2)|]].
    + revert HI3. upds. by replace (refcount it + 1 - 1) with (refcount it + 0) by lia.
    + rewrite Ew3. split; [apply (steady_trans _ w2); [done|apply steady_alter]|exact HB2].
Qed.

Lemma do_item_bump_ok w A Q F U k p it hv :
  cache_inv w A Q F U -> item_of_map w A Q U k p it -> refcount it < 2 ^ 16 - 1 -> bumpable w ->
  lru_segmented (mc_settings w) = true -> bumps w A Q F U k p it (do_item_bump p hv w).
Proof.
  intros HC HI Hr HB Hs. pose proof HI as [I1 I2 _ _ I5 _ _].
  unfold do_item_bump. run. rewrite (load_ok p it) by done. run. rewrite Hs.
  destruct (has_flag it ITEM_ACTIVE); cbn [negb].
  { run. exists w, it. split; [done|]. split; [done|]. split; [done|].
    split; [split; [by destruct it|]; split; [by left|done]|]. split; [lia|].
    split; [apply keeps_others_refl|]. split; [apply steady_refl|done]. }
  destruct (has_flag it ITEM_FETCHED); cbn [negb]; [|by apply bumps_update; [| | |apply refreshed_set|]].
  destruct (refresh_ok w A Q F U k p it (set_flag ITEM_ACTIVE) (current_time w) HC HI) as (w1 & E1 & Ew & HC1 & HI1 & HK1);
    [by apply refreshed_set|done|].
  assert (bumpable w1 /\ steady w w1 /\ current_time w1 = current_time w) as (HB1 & HS1 & Et)
    by (rewrite Ew; split; [done|by split; [apply steady_alter|]]).
  run. rewrite E1. run. destruct (ITEM_lruid it =? COLD_LRU); cbn [negb]; run.
  - destruct (lru_bump_async_ok w1 A Q F U k p _ hv HC1 HI1 Hr HB1) as (r & w2 & E2 & HC2 & HI2 & HK2 & HS2 & HB2).
    rewrite E2. run. destruct r; cbn [negb]; run.
    + eexists w2, _. split; [done|]. split; [done|]. split; [exact HI2|].
      split; [apply (refreshed_trans _ _ (set_flag ITEM_ACTIVE it)); [by apply refreshed_set|apply refreshed_count]|].
      split; [upds; change (refcount (set_flag ITEM_ACTIVE it)) with (refcount it); lia|]. split; [by apply (keeps_others_trans _ _ w1)|]. split; [by apply (steady_trans _ w1)|done].
    + destruct (bumps_update w2 A Q F U k p _ (clear_flag ITEM_ACTIVE) HC2 HI2 HB2) as (w3 & it3 & -> & HC3 & HI3 & HR3 & Hr3 & HK3 & HS3 & HB3);
        [by apply refreshed_clear|done|].
      exists w3, it3. split; [done|]. split; [done|]. split; [done|]. assert (current_time w2 = current_time w) as Et2 by (rewrite <- Et; apply HS2).
      rewrite Et2 in HR3. split.
      { apply (refreshed_trans _ _ (set_flag ITEM_ACTIVE it)); [by apply refreshed_set|].
        refine (refreshed_trans _ _ _ _ (refreshed_count _ _ _) HR3). }
      split; [revert Hr3; upds; change (refcount (set_flag ITEM_ACTIVE it)) with (refcount it); lia|]. split; [by apply (keeps_others_trans _ _ w2), HK3; apply (keeps_others_trans _ _ w1)|].
      split; [by apply (steady_trans _ w2), HS3; apply (steady_trans _ w1)|done].
  - destruct (bumps_update w1 A Q F U k p _ (fun i => i <| time := current_time w |>) HC1 HI1 HB1) as (w2 & it2 & -> & HC2 & HI2 & HR2 & Hr2 & HK2 & HS2 & HB2);
      [rewrite Et; apply refreshed_time|done|].
    rewrite Et in HR2. exists w2, it2. split; [done|]. split; [done|]. split; [done|].
    split; [refine (refreshed_trans _ _ _ _ _ HR2); by apply refreshed_set|]. split; [exact Hr2|].
    split; [by apply (keeps_others_trans _ _ w1)|]. split; [by apply (steady_trans _ w1)|done].
Qed.

(** ** Items held by responses *)

Lemma kept_in_map w A Q F U k p it n d :
  cache_inv w A Q F U -> A !! k = Some p -> heap w !! p = Some it -> kept w A Q U p n d -> d = it_data it /\ n < refcount it.
Proof.
  intros HC Hk Hp (i & Hi & Hn & Hd & Hr & Hm). assert (i = it) as -> by congruence. split; [done|].
  destruct Hm as [(k' & _ & Hlt)|HH]; [done|]. exfalso. apply (proj2 (hi_out _ _ _ _ _ _ HH)). by exists k.
Qed.
Lemma map_kept w A Q U k p it n :
  A !! k = Some p -> item_of_map w A Q U k p it -> n < refcount it -> kept w A Q U p n (it_data it).
Proof.
  intros Hk [I1 I2 _ _ I5 _ _] Hn. exists it. split; [done|]. split; [done|]. split; [done|]. split; [lia|]. left. by exists k.
Qed.

(** The items other than [x] when the table loses at most [x]. *)
Lemma kept_others w w' A A' Q Q' F F' U U' x p n d :
  cache_inv w A Q F U -> cache_inv w' A' Q' F' U' -> kept w A Q U p n d -> p <> x ->
  (forall k, A !! k = Some p -> A' !! k = Some p) ->
  keeps_others x w w' -> calm w w' -> keeps_class x w U U' -> kept w' A' Q' U' p n d.
Proof.
  intros HC HC' (it & Hp & Hn & Hd & Hr & Hk) Hx HA HK HV HL.
  assert (forall it', heap w' !! p = Some it' -> content it it' ->
    it_data it' = d /\ refcount it' = refcount it) as Hcon by (intros it' _ ->; by split).
  destruct Hk as [(k & Hk & Hlt)|HH].
  - destruct (cache_item w A Q F U k p HC Hk) as (i & [I1 _ _ (_ & I5 & _) _ _ _]). simplify_eq.
    destruct (HK p it Hx Hp) as (it' & Hp' & Cp); [by apply has_flag_slabbed|].
    destruct (Hcon it' Hp' Cp) as [E1 E2]. exists it'. rewrite E2. split_and!; try done; try lia. left. exists k. by rewrite HA.
  - destruct (held_kept w w' A A' Q Q' F' U U' x p it HC' HH Hx HK HV HL) as (it' & HH' & Cp).
    pose proof (hi_heap _ _ _ _ _ _ HH') as Hp'. destruct (Hcon it' Hp' Cp) as [E1 E2].
    exists it'. rewrite E2. split_and!; try done; try lia. by right.
Qed.

(** [calm], and the bump buffers. *)
Definition still w w' : Prop := calm w w' /\ cur_thread w' = cur_thread w /\ bump_bufs w' = bump_bufs w.
Lemma still_trans w1 w2 w3 : still w1 w2 -> still w2 w3 -> still w1 w3.
Proof. intros (A1 & A2 & A3) (B1 & B2 & B3). split; [by apply (calm_trans _ w2)|]. split; congruence. Qed.
Lemma quiet_still w w' : quiet w w' -> still w w'.
Proof. intros HQ. split; [by apply quiet_calm|]. destruct HQ as ((_ & _ & _ & ? & ? & _) & _). by split. Qed.

(** A fetched item that is flushed or expired leaves the table; whoever held it still
    does. *)
Lemma drop_fetched_kept w A Q F U k p it :
  cache_inv w A Q F U -> A !! k = Some p -> item_of_map w A Q U k p it -> 1 < refcount it ->
  exists w' Q' F' U', (do_item_unlink p (hash k);; STORAGE_delete p;; do_item_remove p) w = Some (tt, w')
    /\ cache_inv w' (base.delete k A) Q' F' U' /\ keeps_others p w w' /\ still w w' /\ keeps_class p w U U'
    /\ (forall n, 1 <= n < refcount it - 1 -> kept w' (base.delete k A) Q' U' p n (it_data it)).
Proof.
  intros HC Hk HI Hr.
  destruct (unlink_ok w A Q F U k p it HC Hk HI) as (w1 & Q1 & F1 & U1 & E1 & _ & C1 & K1 & V1 & HD & _).
  destruct (HD Hr) as (-> & -> & it1 & H1 & Hc & HH). pose proof (hi_null _ _ _ _ _ _ HH) as Hp.
  assert (refcount it1 = refcount it - 1 /\ it_data it1 = it_data it) as [Er Ed] by (by rewrite Hc).
  pose proof (im_refs _ _ _ _ _ _ _ HI) as Hb. run. rewrite E1. run. rewrite (STORAGE_delete_ok p it1) by done. run.
  set (w2 := w1 <| storage_deleted := _ |>).
  assert (cache_inv w2 (base.delete k A) Q1 F U) as C2 by (by apply (cache_other _ _ w1)).
  assert (held_item w2 (base.delete k A) Q1 U p it1) as HH2 by (by apply (held_other w1)).
  assert (still w w2) as S2 by exact (quiet_still _ _ V1).
  assert (largest w2 = largest w) as EL by apply S2.
  apply (cache_but_weaken _ (fun q => q = p)) in C2; [|done].
  destruct (decide (refcount it1 = 1)) as [E|E].
  - destruct (drop_ref_free _ _ _ _ _ _ _ _ C2 HH2 E) as (w3 & us & -> & HU & C3 & K3 & V3).
    exists w3, Q1, (fset F (ITEM_clsid it1) (p :: F (ITEM_clsid it1))), (fset U (ITEM_clsid it1) us).
    split; [done|]. split; [done|]. split; [by apply (keeps_others_trans _ _ w1)|].
    split; [by apply (still_trans _ w2), quiet_still|].
    split; [|lia]. intros i q Hi Hq Hu. apply (keeps_class_free p w U _ us HU i q Hi Hq Hu).
  - destruct (drop_ref_dec _ _ _ _ _ _ _ _ C2 HH2) as (w3 & -> & C3 & K3 & V3 & Es & Hp3); [lia|].
    exists w3, Q1, F, U. split; [done|]. split; [done|]. split; [by apply (keeps_others_trans _ _ w1)|].
    split; [by apply (still_trans _ w2), quiet_still|]. split; [apply keeps_class_refl|].
    intros n Hn. eexists. split; [exact Hp3|]. upds. split; [done|]. split; [done|]. split; [lia|]. right.
    destruct HH2 as [G1 G2 G3 G4 G5]. split; [done|done|done| |done]. unfold class_range. by rewrite (largest_slabs w2 w3 Es).
Qed.

(** ** What a get sees *)

(** The entries a fetch serves. *)
Definition live w A : gmap (list Z) entry :=
  omap (fun p => i ← heap w !! p; if item_gone i w then None else Some (entry_of i)) A.
Lemma live_lookup w A k :
  live w A !! k = A !! k ≫= fun p => i ← heap w !! p; if item_gone i w then None else Some (entry_of i).
Proof. apply lookup_omap. Qed.

(** Items [n] more references can be taken of and whose header can be printed. *)
Record servable (n : Z) w (it : item) : Prop := {
  sv_refs : refcount it + n <= IT_REFCOUNT_LIMIT;
  sv_hdr : has_flag it ITEM_HDR = false;
  sv_time : time it <= current_time w;
  sv_flags : 0 <= FLAGS_CONV it < 2 ^ 32;
  sv_cas : 0 <= ITEM_get_cas it < 2 ^ 64;
  sv_size : 2 <= nbytes it < 2 ^ 30
}.
Definition all_servable (n : Z) w A : Prop :=
  forall k p it, A !! k = Some p -> heap w !! p = Some it -> servable n w it.

Lemma servable_weaken n m w it : servable n w it -> m <= n -> servable m w it.
Proof. intros [H1 H2 H3 H4 H5 H6] Hm. split; try done. lia. Qed.
Lemma servable_content n w w' it it' : servable n w it -> content it it' -> current_time w' = current_time w -> servable n w' it'.
Proof. intros [H1 H2 H3 H4 H5 H6] E Et. rewrite E. split; try done. by rewrite Et. Qed.
Lemma servable_refreshed n m w w' it it' :
  servable (n + m) w it -> refreshed (current_time w) it it' -> refcount it' <= refcount it + m ->
  current_time w' = current_time w -> servable n w' it'.
Proof.
  intros [H1 H2 H3 H4 H5 H6] (E & T & Hf) Hr Et. split.
  - lia.
  - by rewrite Hf.
  - rewrite Et. destruct T as [->| ->]; [done|lia].
  - unfold FLAGS_CONV in *. rewrite Hf by done. by rewrite E.
  - unfold ITEM_get_cas in *. rewrite Hf by done. by rewrite E.
  - by rewrite E.
Qed.

Lemma refreshed_entry now it it' : refreshed now it it' -> entry_of it' = entry_of it.
Proof.
  intros (E & _ & Hf). unfold entry_of, FLAGS_CONV, ITEM_get_cas. rewrite !Hf by done. by rewrite E.
Qed.
Lemma refreshed_not_gone w w' it it' :
  refreshed (current_time w) it it' -> time it <= current_time w -> item_gone it w = false -> calm w w' ->
  item_gone it' w' = false.
Proof.
  intros (E & T & Hf) Ht Hg (Es & Et & _). revert Hg. unfold item_gone, item_is_flushed, item_expired_le.
  assert (ITEM_get_cas it' = ITEM_get_cas it) as -> by (unfold ITEM_get_cas; rewrite Hf by done; by rewrite E).
  assert (exptime it' = exptime it) as -> by (by rewrite E). rewrite Es, Et.
  destruct (_ || (current_time w <? _)) eqn:E1; [done|]. apply orb_false_iff in E1 as [_ E2%Z.ltb_ge].
  destruct (Z.leb_spec (time it) (oldest_live (mc_settings w))) as [|Hlt]; [done|].
  rewrite (proj2 (Z.leb_gt (time it') (oldest_live (mc_settings w)))); [done|]. destruct T as [->| ->]; lia.
Qed.
Lemma content_gone w w' it it' : content it it' -> calm w w' -> item_gone it' w' = item_gone it w.
Proof.
  intros E (Es & Et & _). unfold item_gone, item_is_flushed, item_expired_le. rewrite Es, Et.
  assert (ITEM_get_cas it' = ITEM_get_cas it /\ exptime it' = exptime it /\ time it' = time it) as (-> & -> & ->); [|done].
  by rewrite E.
Qed.

(** What a fetch for a get leaves: what is served, what responses hold, and room for
    the next fetches. *)
Record fetch_frame (n : Z) w A Q U w' A' Q' U' : Prop := {
  ff_live : live w' A' = live w A;
  ff_kept p m d : 1 <= m -> kept w A Q U p m d -> kept w' A' Q' U' p m d;
  ff_room : all_servable n w' A';
  ff_env : mc_settings w' = mc_settings w /\ current_time w' = current_time w /\ bumpable w'
}.

(** One key changed from [w] to [w']. *)
Lemma frame_at n m w A A' Q Q' F F' U U' w' k p :
  cache_inv w A Q F U -> cache_inv w' A' Q' F' U' -> A !! k = Some p ->
  (forall k', k' <> k -> A' !! k' = A !! k') ->
  keeps_others p w w' -> calm w w' -> keeps_class p w U U' -> bumpable w' ->
  0 <= m -> all_servable (n + m) w A ->
  live w' A' !! k = live w A !! k ->
  (forall i d, 1 <= i -> kept w A Q U p i d -> kept w' A' Q' U' p i d) ->
  (forall it', A' !! k = Some p -> heap w' !! p = Some it' -> servable n w' it') ->
  A' !! k = Some p \/ A' !! k = None ->
  fetch_frame n w A Q U w' A' Q' U'.
Proof.
  intros HC HC' Hk HA HK HV HL HB Hm HS Hlive Hkept Hserv Hk'. pose proof HV as (Es & Et & _).
  assert (forall k' q, k' <> k -> A !! k' = Some q -> exists it it', heap w !! q = Some it /\ heap w' !! q = Some it' /\ content it it') as Hoth.
  { intros k' q Hne Hq. destruct (cache_item w A Q F U k' q HC Hq) as (it & [I1 _ _ (_ & I5 & _) _ _ _]).
    assert (q <> p) as Hqp by (intros ->; apply Hne; by apply (map_inj w A Q F U k k' p)).
    destruct (HK q it Hqp I1) as (it' & Hi' & Ci); [by apply has_flag_slabbed|]. by exists it, it'. }
  split.
  - apply map_eq. intros k'. destruct (decide (k' = k)) as [->|Hne]; [done|]. rewrite !live_lookup, HA by done.
    destruct (A !! k') as [q|] eqn:Eq; [|done]. destruct (Hoth k' q Hne Eq) as (it & it' & Hi & Hi' & Ci). cbn [mbind option_bind].
    rewrite Hi, Hi'. cbn. by rewrite (content_gone w w' it it' Ci HV), (content_entry _ _ Ci).
  - intros q i d Hi Hd. destruct (decide (q = p)) as [->|Hqp]; [by apply Hkept|].
    apply (kept_others w w' A A' Q Q' F F' U U' p q i d); try done.
    intros k' Hq. rewrite HA; [done|]. intros ->. congruence.
  - intros k' q it' Hq Hi'. destruct (decide (k' = k)) as [->|Hne].
    + destruct Hk' as [E|E]; [|congruence]. assert (q = p) as -> by congruence. by apply Hserv.
    + rewrite HA in Hq by done. destruct (Hoth k' q Hne Hq) as (it & it2 & Hi & Hi2 & Ci). simplify_eq.
      apply (servable_weaken (n + m)); [|lia]. apply (servable_content _ w w' it it'); [by apply (HS k' q)|done|done].
  - done.
Qed.

(** A key that is not served. *)
Lemma get_missed_ok n w A Q F U k p it u :
  cache_inv w A Q F U -> A !! k = Some p -> item_of_map w A Q U k p it -> item_gone it w = true ->
  0 <= n -> all_servable (n + 2) w A -> bumpable w ->
  exists w' Q' F' U', do_item_get k (hash k) u w = Some (NULL, w')
    /\ cache_inv w' (base.delete k A) Q' F' U' /\ fetch_frame n w A Q U w' (base.delete k A) Q' U'.
Proof.
  intros HC Hk HI Hg Hn HS HB. pose proof HI as [I1 I2 _ _ I5 _ _].
  pose proof (sv_refs _ _ _ (HS k p it Hk I1)) as Hr. unfold IT_REFCOUNT_LIMIT in Hr.
  destruct (refcount_incr_ok w A Q F U k p it HC HI) as (w1 & E & Ew & HC1 & HI1 & HK1); [lia|].
  destruct (drop_fetched_kept w1 A Q F U k p _ HC1 Hk HI1) as (w2 & Q' & F' & U' & E2 & HC2 & HK2 & V2 & L2 & K2); [upds; lia|].
  assert (still w w1) as V1 by (by rewrite Ew). pose proof (still_trans _ _ _ V1 V2) as V. pose proof V as (VC & Vt & Vb).
  assert (forall c, let w3 := w2 <| thread_stats ::= fun s c' => if decide (c' = c) then u64 (s c' + 1) else s c' |> in
    cache_inv w3 (base.delete k A) Q' F' U' /\ fetch_frame n w A Q U w3 (base.delete k A) Q' U') as Hfr.
  { intros c w3. assert (cache_inv w3 (base.delete k A) Q' F' U') as HC3 by (by apply (cache_other _ _ w2)). split; [done|].
    apply (frame_at n 2 w A _ Q Q' F F' U U' w3 k p HC HC3 Hk).
    - intros k' Hne. by apply lookup_delete_ne.
    - apply (keeps_others_trans _ _ w1); [done|exact HK2].
    - exact VC.
    - intros i q Hi Hq. apply L2; [|done]. unfold class_range in *. by rewrite (proj1 (proj2 (proj2 (proj1 V1)))).
    - destruct HB as (b & Hb & Hi). exists b. split; [|done]. change (zget (cur_thread w2) (bump_bufs w2) = Some b). by rewrite Vt, Vb.
    - lia.
    - done.
    - rewrite !live_lookup, lookup_delete_eq, Hk. cbn. rewrite I1. cbn. by rewrite Hg.
    - intros i d Hi Hd. destruct (kept_in_map w A Q F U k p it i d HC Hk I1 Hd) as [-> Hlt].
      assert (kept w2 (base.delete k A) Q' U' p i (it_data it)) as Hk2 by (apply K2; upds; lia).
      destruct Hk2 as (i2 & G1 & G2 & G3 & G4 & [G5|G5]); exists i2; (split; [exact G1|]; split; [done|]; split; [done|]; split; [done|]);
        [by left|right]. by apply (held_other w2).
    - intros it' Hd. by rewrite lookup_delete_eq in Hd.
    - right. apply lookup_delete_eq. }
  unfold do_item_get, do_item_get_found. run.
  rewrite (assoc_find_rep w A k) by apply HC. rewrite Hk. change (default NULL (Some p)) with p. run. rewrite decide_False by done. run.
  rewrite E. run. rewrite (load_ok p _ _ I2 (im_heap _ _ _ _ _ _ _ HI1)). run.
  assert (item_is_flushed (it <| refcount := refcount it + 1 |>) w1 = item_is_flushed it w
    /\ item_expired_le (it <| refcount := refcount it + 1 |>) w1 = item_expired_le it w) as [-> ->]
    by (rewrite Ew; apply gone_refcount).
  revert E2. run. destruct (do_item_unlink p (hash k) w1) as [[[] u1]|] eqn:E3; [|done]. run.
  destruct (STORAGE_delete p u1) as [[[] u2]|] eqn:E4; [|done]. run. intros E2.
  unfold item_gone in Hg. destruct (item_is_flushed it w).
  - run. rewrite E3. run. rewrite E4. run. rewrite E2. run. destruct (Hfr get_flushed) as [R1 R2]. by eexists _, Q', F', U'.
  - cbn [orb] in Hg. rewrite Hg. run. rewrite E3. run. rewrite E4. run. rewrite E2. run. destruct (Hfr get_expired) as [R1 R2]. by eexists _, Q', F', U'.
Qed.

(** A fetch with [do_update] of an item that may be served. *)
Lemma get_bumped_ok w A Q F U k p it :
  cache_inv w A Q F U -> A !! k = Some p -> item_of_map w A Q U k p it -> refcount it < 2 ^ 16 - 2 ->
  item_gone it w = false -> bumpable w -> lru_segmented (mc_settings w) = true ->
  exists w' it', do_item_get k (hash k) true w = Some (p, w') /\ cache_inv w' A Q F U
    /\ item_of_map w' A Q U k p it' /\ refreshed (current_time w) it it'
    /\ refcount it + 1 <= refcount it' <= refcount it + 2 /\ keeps_others p w w' /\ steady w w' /\ bumpable w'.
Proof.
  intros HC Hk HI Hr Hg HB Hseg. pose proof HI as [I1 I2 _ _ I5 _ _].
  destruct (refcount_incr_ok w A Q F U k p it HC HI) as (w1 & E & Ew & HC1 & HI1 & HK1); [lia|].
  assert (steady w w1 /\ bumpable w1) as [V1 HB1] by (rewrite Ew; by split; [apply steady_alter|]).
  destruct (do_item_bump_ok w1 A Q F U k p _ (hash k) HC1 HI1) as (w2 & it2 & E2 & HC2 & HI2 & HR2 & Hr2 & HK2 & V2 & HB2);
    [upds; lia|done|by rewrite (proj1 (proj1 V1))|].
  assert (current_time w1 = current_time w) as Et by apply V1. rewrite Et in HR2.
  exists w2, it2. split; [|split; [done|split; [done|split; [|split; [|split; [|split; [|done]]]]]]].
  - unfold do_item_get, do_item_get_found. run.
    rewrite (assoc_find_rep w A k) by apply HC. rewrite Hk. change (default NULL (Some p)) with p. run. rewrite decide_False by done. run.
    rewrite E. run. rewrite (load_ok p _ _ I2 (im_heap _ _ _ _ _ _ _ HI1)). run.
    assert (item_is_flushed (it <| refcount := refcount it + 1 |>) w1 = item_is_flushed it w
      /\ item_expired_le (it <| refcount := refcount it + 1 |>) w1 = item_expired_le it w) as [-> ->]
      by (rewrite Ew; apply gone_refcount).
    unfold item_gone in Hg. apply orb_false_iff in Hg as [-> ->]. run. rewrite E2. by run.
  - refine (refreshed_trans _ _ _ _ _ HR2). apply refreshed_count.
  - revert Hr2. upds. lia.
  - by apply (keeps_others_trans _ _ w1).
  - by apply (steady_trans _ w1).
Qed.

(** A key that is served: its item gains a reference, for the response. *)
Lemma get_served_ok n w A Q F U k p it :
  cache_inv w A Q F U -> A !! k = Some p -> item_of_map w A Q U k p it -> item_gone it w = false ->
  0 <= n -> all_servable (n + 2) w A -> bumpable w -> lru_segmented (mc_settings w) = true ->
  exists w' it', do_item_get k (hash k) true w = Some (p, w')
    /\ cache_inv w' A Q F U /\ item_of_map w' A Q U k p it' /\ entry_of it' = entry_of it
    /\ refcount it + 1 <= refcount it' <= refcount it + 2
    /\ fetch_frame n w A Q U w' A Q U /\ forall i d, kept w A Q U p i d -> kept w' A Q U p (i + 1) d.
Proof.
  intros HC Hk HI Hg Hn HS HB Hseg. pose proof HI as [I1 I2 _ _ I5 _ _].
  pose proof (HS k p it Hk I1) as HSi. pose proof (sv_refs _ _ _ HSi) as Hr. unfold IT_REFCOUNT_LIMIT in Hr.
  destruct (get_bumped_ok w A Q F U k p it HC Hk HI ltac:(lia) Hg HB Hseg) as (w2 & it2 & E & HC2 & HI2 & HR & Hr' & HK & V & HB2).
  pose proof (proj1 V) as VC.
  assert (it_data it2 = it_data it) as Ed by (by rewrite (proj1 HR)).
  assert (forall i d, kept w A Q U p i d -> kept w2 A Q U p (i + 1) d) as Hkept.
  { intros i d Hd. destruct (kept_in_map w A Q F U k p it i d HC Hk I1 Hd) as [-> Hlt]. rewrite <- Ed.
    apply (map_kept _ _ _ _ k); [done|done|lia]. }
  exists w2, it2. split; [done|split; [done|split; [done|split; [by apply (refreshed_entry (current_time w))|split; [done|split; [|done]]]]]].
  - apply (frame_at n 2 w A A Q Q F F U U w2 k p HC HC2 Hk); try done.
    + exact (keeps_class_refl p w U).
    + rewrite !live_lookup, Hk. cbn. rewrite I1, (im_heap _ _ _ _ _ _ _ HI2). cbn. rewrite Hg.
      rewrite (refreshed_not_gone w w2 it it2 HR (sv_time _ _ _ HSi) Hg VC). by rewrite (refreshed_entry _ _ _ HR).
    + intros i d Hi Hd. apply (kept_weaken _ _ _ _ _ (i + 1)); [by apply Hkept|lia].
    + intros it' _ Hp'. rewrite (im_heap _ _ _ _ _ _ _ HI2) in Hp'. injection Hp' as <-.
      apply (servable_refreshed n 2 w w2 it it2 HSi HR); [lia|apply VC].
    + by left.
Qed.

(** [limited_get] of a get command: exactly the live keys are answered, and nothing
    that is served changes. *)
Lemma limited_get_ok n w A Q F U k :
  cache_inv w A Q F U -> 0 <= n -> all_servable (n + 2) w A -> bumpable w -> lru_segmented (mc_settings w) = true ->
  exists q w' A' Q' F' U', limited_get k 0 false true w = Some ((q, false), w')
    /\ cache_inv w' A' Q' F' U' /\ fetch_frame n w A Q U w' A' Q' U'
    /\ match live w A !! k with
       | None => q = NULL
       | Some e => q <> NULL /\ exists it, item_of_map w' A' Q' U' k q it /\ entry_of it = e /\ servable n w' it
           /\ kept w' A' Q' U' q 1 (it_data it) /\ forall i d, kept w A Q U q i d -> kept w' A' Q' U' q (i + 1) d
       end.
Proof.
  intros HC Hn HS HB Hseg. rewrite live_lookup. destruct (A !! k) as [p|] eqn:Hk; cbn [mbind option_bind].
  - destruct (cache_item w A Q F U k p HC Hk) as (it & HI). rewrite (im_heap _ _ _ _ _ _ _ HI). cbn.
    destruct (item_gone it w) eqn:Hg.
    + destruct (get_missed_ok n w A Q F U k p it true HC Hk HI Hg Hn HS HB) as (w' & Q' & F' & U' & E & HC' & HF).
      exists NULL, w', (base.delete k A), Q', F', U'. split; [|done]. unfold limited_get, item_get. run. rewrite E. by run.
    + destruct (get_served_ok n w A Q F U k p it HC Hk HI Hg Hn HS HB Hseg) as (w' & it' & E & HC' & HI' & He & Hr & HF & Hkept).
      pose proof (im_null _ _ _ _ _ _ _ HI) as Hp.
      pose proof (ff_room _ _ _ _ _ _ _ _ _ HF k p it' Hk (im_heap _ _ _ _ _ _ _ HI')) as HSi.
      exists p, w', A, Q, F, U. split; [|split; [done|split; [done|]]].
      * unfold limited_get, item_get. run. rewrite E. run. rewrite decide_False by done. run.
        rewrite (load_ok p it') by (done || apply HI'). run.
        rewrite (proj2 (Z.ltb_ge _ _)); [by run|]. pose proof (sv_refs _ _ _ HSi). lia.
      * split; [done|]. exists it'. split; [done|]. split; [done|]. split; [done|]. split; [|done].
        apply (map_kept _ _ _ _ k); [done|done|]. pose proof (im_refs _ _ _ _ _ _ _ HI). lia.
  - exists NULL, w, A, Q, F, U. split; [|split; [done|split; [|done]]].
    + unfold limited_get, item_get, do_item_get, do_item_get_found. run.
      rewrite (assoc_find_rep w A k) by apply HC. rewrite Hk. by run.
    + split; [done|done| |done]. intros k' p it Hp Hi. apply (servable_weaken (n + 2)); [by apply (HS k' p)|lia].
Qed.

End fetch.

(** ** Fetching what was stored *)
Module FetchDemo.
Import Demo CacheDemo.


End FetchDemo.
