(* ===== verification/Text.v ===== *)
(** * The classic text commands (proto_text.c)

    One definition per handler.  A handler gets the token array and the
    environment [e] of its allocation (the locks other threads hold).  Messages on
    stderr, probes and the mutation log are left out. *)

From Stdlib Require Import SpecFloat.
From S2P Require Import Prelude Itoa Memory Util Double Strtod Assoc Slabs Items Store Tokens Resp StatsPrefix AuthFile Conn.

Definition KEY_MAX_LENGTH := 250.
Definition INT_MAX := 2147483647.
Definition MAX_VERBOSITY_LEVEL := 2.
Definition LRU_CRAWLER_CAP_REMAINING := -1.
Definition LOG_SYSEVENTS := 2.
Definition LOG_FETCHERS := 4.
Definition LOG_MUTATIONS := 8.
Definition LOG_CONNEVENTS := 32.
Definition LOG_EVICTIONS := 64.
Definition LOG_RAWCMDS := 512.

Inductive crawler_result_type := CRAWLER_OK | CRAWLER_RUNNING | CRAWLER_BADCLASS | CRAWLER_NOTSTARTED | CRAWLER_ERROR.
Inductive crawler_run_type := CRAWLER_EXPIRED | CRAWLER_METADUMP.
Inductive logger_add_watcher_ret := LOGGER_ADD_WATCHER_TOO_MANY | LOGGER_ADD_WATCHER_OK | LOGGER_ADD_WATCHER_FAILED.

(** What the administrative commands use of the statistics texts, of the crawler
    (crawler.c) and of the log watchers (logger.c). *)
Class Subsystems := {
  server_stats : M server unit;
  get_stats : option (list Z) -> M server bool;
  process_stat_settings : M server unit;
  process_stats_conns : M server unit;
  process_extstore_stats : M server unit;
  item_cachedump : Z -> Z -> M server (option (list Z));
  lru_crawler_crawl : list Z -> crawler_run_type -> Z -> M server crawler_result_type;
  start_item_crawler_thread : M server bool;
  stop_item_crawler_thread : M server bool;
  logger_add_watcher : Z -> M server logger_add_watcher_ret
}.

(** ** Tokens of the running command *)

(** [tokens[i].value], which the code dereferences, and [tokens[i].length]. *)
Definition value_of (tokens : list token) (i : Z) : M server (list Z) := lift (tok tokens i ≫= tok_value).
Definition length_of (tokens : list token) (i : Z) : M server Z := t ← lift (tok tokens i); mret (tok_length t).
(** [strcmp(tokens[i].value, w) == 0]. *)
Definition token_is (tokens : list token) (i : Z) (w : string) : M server bool :=
  v ← value_of tokens i; mret (bool_decide (v = str w)).

Definition on_settings (f : settings -> settings) : M server unit := in_mc (modify (fun w => w <| mc_settings ::= f |>)).
Definition counting (c : counter) : M server unit := in_mc (count c).
(** [realtime] of an expiry time given by a client. *)
Definition realtime_of (exptime : Z) : M server Z := st ← opt process_started; t ← now; mret (realtime st exptime t).

Definition BAD_FORMAT : list Z := str "CLIENT_ERROR bad command line format".

Section text.
Context `{HashFunction} `{ExtStorage} `{Subsystems}.

Definition set_noreply_maybe (tokens : list token) : M server bool :=
  t ← lift (tok tokens (zlen tokens - 2));
  when (bool_decide (tok_value t = Some (str "noreply"))) (on_conn (fun c => c <| noreply := true |>));;
  co noreply.

(** ** get, gets, gat and gats *)

(** The text without the NUL behind it; [p] is the buffer before the cursor. *)
Definition make_ascii_get_suffix (it : item) (return_cas : bool) (p : list Z) : option (list Z) :=
  let p := p ++ [32] in
  p ← (if has_flag it ITEM_CFLAGS then itoa_u32 (it_cflags it) p else Some (p ++ str "0"));
  p ← itoa_u32 (u32 (nbytes it - 2)) (p ++ [32]);
  p ← (if return_cas then itoa_u64 (ITEM_get_cas it) (p ++ [32]) else Some p);
  Some (p ++ CRLF).

(** The vectors of the value; false when the external storage fails. *)
Definition add_value (it : ptr) : M server bool :=
  i ← in_mc (load it);
  if has_flag i ITEM_HDR then storage_get_item it
  else
    (if has_flag i ITEM_CHUNKED then resp_add_chunked_iov (IHead it) (nbytes i)
     else resp_add_iov (IItem it 0) (nbytes i));;
    mret true.

(** One key; false is [goto stop]. *)
Definition get_one (key : list Z) (exptime : Z) (return_cas should_touch : bool) : M server bool :=
  r ← in_mc (limited_get key exptime should_touch true);
  let '(it, _) := r in
  detail ← opt detail_enabled;
  when detail (ok ← conn_alloc_ok;
               modify (fun s => s <| s_prefixes ::= stats_prefix_record_get key (bool_decide (it <> NULL)) ok |>));;
  if decide (it = NULL) then
    (if should_touch then counting touch_cmds;; counting touch_misses else counting get_misses;; counting get_cmds);;
    mret true
  else
    i ← in_mc (load it);
    p ← lift (make_ascii_get_suffix i return_cas (str "VALUE " ++ ITEM_key i));
    put_wbuf 0 (p ++ [0]);;
    resp_add_iov (IWbuf 0) (zlen p);;
    ok ← add_value it;
    if negb ok then counting get_oom_extstore;; in_mc (item_remove it);; mret false
    else
      i ← in_mc (load it);
      (if should_touch then counting touch_cmds;; counting (touch_hits (ITEM_clsid i))
       else counting (lru_hits (it_clsid i));; counting get_cmds);;
      when (negb (has_flag i ITEM_HDR)) (on_resp (fun r => r <| r_item := it |>));;
      mret true.

(** The outcome of the key loop: the value of the token it stopped at and
    [fail_length]. *)
Definition get_stop : Type := option (list Z) * bool.

(** The inner loop over the tokens from [ts] on, which ends with the terminal
    token; [inr] is its value. *)
Fixpoint get_tokens (ts : list token) (exptime : Z) (return_cas should_touch : bool)
    : M server (get_stop + option (list Z)) :=
  match ts with
  | [] => ub
  | t :: ts =>
      if tok_length t =? 0 then mret (inr (tok_value t))
      else if KEY_MAX_LENGTH <? tok_length t then mret (inl (tok_value t, true))
      else
        key ← lift (tok_value t);
        ok ← get_one key exptime return_cas should_touch;
        if negb ok then mret (inl (tok_value t, false))
        else
          t' ← lift (ts !! 0%nat);
          if tok_length t' =? 0 then get_tokens ts exptime return_cas should_touch
          else
            ok ← resp_start;
            if ok : bool then get_tokens ts exptime return_cas should_touch
            else mret (inl (tok_value t', false))
  end.

(** The outer loop: the rest of the command is tokenized again; each round has one
    byte less. *)
Fixpoint get_loop (fuel : nat) (ts : list token) (exptime : Z) (return_cas should_touch : bool) : M server get_stop :=
  match fuel with
  | O => ub
  | S fuel =>
      r ← get_tokens ts exptime return_cas should_touch;
      match r with
      | inl stop => mret stop
      | inr None => mret (None, false)
      | inr (Some rest) =>
          let ts := tokenize_command rest MAX_TOKENS in
          first ← lift (ts !! 0%nat);
          ok ← resp_start;
          if negb ok then mret (tok_value first, false)
          else match tok_value first with
               | None => mret (None, false)
               | Some _ => get_loop fuel ts exptime return_cas should_touch
               end
      end
  end.

Definition rest_length (tokens : list token) : nat :=
  match last tokens with Some t => length (default [] (tok_value t)) | None => 0 end.

Definition get_finish (stop : get_stop) : M server unit :=
  match stop with
  | (Some _, fail_length) =>
      conn_release_items;;
      ok ← resp_start;
      if negb ok then conn_set_state conn_closing
      else if fail_length : bool then out_string BAD_FORMAT
      else out_of_memory (str "SERVER_ERROR out of memory writing get response")
  | (None, _) => resp_add_iov (IBuf (str "END" ++ CRLF)) 5;; conn_set_state conn_mwrite
  end.

Definition process_get_command (tokens : list token) (return_cas should_touch : bool) : M server unit :=
  let run exptime skip :=
    stop ← get_loop (S (rest_length tokens)) (drop skip tokens) exptime return_cas should_touch; get_finish stop in
  if should_touch then
    v ← value_of tokens 1;
    match safe_strtol v with
    | (true, n) => exptime ← realtime_of (EXPTIME_TO_POSITIVE_TIME n); run exptime 2%nat
    | (false, _) => out_string (str "CLIENT_ERROR invalid exptime argument")
    end
  else run 0 1%nat.

(** ** set, add, replace, append, prepend and cas *)

(** Where the value of an item is read to. *)
Definition value_start (it : ptr) (i : item) : ptr * Z :=
  if has_flag i ITEM_CHUNKED then (ITEM_schunk it i, 0) else (it, 0).

(** The rest of the command goes into the item. *)
Definition read_value (it : ptr) (comm : nread) : M server unit :=
  i ← in_mc (load it);
  on_conn (fun c => c <| c_item := it |> <| ritem := value_start it i |> <| rlbytes := nbytes i |>
                      <| cmd := nread_code comm |>).

(** No memory for a set: the old value under the key must not stay. *)
Definition drop_stale (key : list Z) : M server unit :=
  it ← in_mc (item_get key false);
  when (bool_decide (it <> NULL)) (in_mc (item_unlink it;; STORAGE_delete it;; item_remove it)).

Definition update_item_alloc (key : list Z) (flags exptime vlen : Z) (comm : nread) (req_cas_id : Z) (e : alloc_env)
    : M server unit :=
  it ← in_mc (item_alloc key flags exptime vlen e);
  if decide (it = NULL) then
    ok ← in_mc (item_size_ok (zlen key) flags vlen);
    (if ok : bool then out_of_memory (str "SERVER_ERROR out of memory storing object")
     else out_string (str "SERVER_ERROR object too large for cache"));;
    conn_set_state conn_swallow;;
    on_conn (fun c => c <| sbytes := vlen |>);;
    when (bool_decide (comm = NREAD_SET)) (drop_stale key)
  else
    in_mc (update_item it (ITEM_set_cas req_cas_id));;
    read_value it comm;;
    conn_set_state conn_nread.

Definition process_update_command (tokens : list token) (comm : nread) (handle_cas : bool) (e : alloc_env) : M server unit :=
  set_noreply_maybe tokens;;
  nkey ← length_of tokens KEY_TOKEN;
  if KEY_MAX_LENGTH <? nkey then out_string BAD_FORMAT
  else
    key ← value_of tokens KEY_TOKEN;
    vflags ← value_of tokens 2; vexp ← value_of tokens 3; vlen ← value_of tokens 4;
    match safe_strtoul vflags, safe_strtol vexp, safe_strtol vlen with
    | (true, flags), (true, exptime_int), (true, vlen) =>
        exptime ← realtime_of (EXPTIME_TO_POSITIVE_TIME exptime_int);
        cas ← (if handle_cas then v ← value_of tokens 5; mret (safe_strtoull v) else mret (true, 0));
        let '(cas_ok, req_cas_id) := cas in
        if negb cas_ok then out_string BAD_FORMAT
        else if (vlen <? 0) || (INT_MAX - 2 <? vlen) then out_string BAD_FORMAT
        else
          detail ← opt detail_enabled;
          when detail (ok ← conn_alloc_ok; modify (fun s => s <| s_prefixes ::= stats_prefix_record_set key ok |>));;
          update_item_alloc key flags exptime (vlen + 2) comm req_cas_id e
    | _, _, _ => out_string BAD_FORMAT
    end.

(** ** touch, incr, decr and delete *)

Definition process_touch_command (tokens : list token) : M server unit :=
  set_noreply_maybe tokens;;
  nkey ← length_of tokens KEY_TOKEN;
  if KEY_MAX_LENGTH <? nkey then out_string BAD_FORMAT
  else
    key ← value_of tokens KEY_TOKEN;
    v ← value_of tokens 2;
    match safe_strtol v with
    | (false, _) => out_string (str "CLIENT_ERROR invalid exptime argument")
    | (true, exptime_int) =>
        exptime ← realtime_of (EXPTIME_TO_POSITIVE_TIME exptime_int);
        it ← in_mc (item_touch key exptime);
        if decide (it = NULL) then
          counting touch_cmds;; counting touch_misses;; out_string (str "NOT_FOUND")
        else
          i ← in_mc (load it);
          counting touch_cmds;; counting (touch_hits (ITEM_clsid i));;
          out_string (str "TOUCHED");;
          in_mc (item_remove it)
    end.

Definition process_arithmetic_command (tokens : list token) (incr : bool) (e : alloc_env) : M server unit :=
  set_noreply_maybe tokens;;
  nkey ← length_of tokens KEY_TOKEN;
  if KEY_MAX_LENGTH <? nkey then out_string BAD_FORMAT
  else
    key ← value_of tokens KEY_TOKEN;
    v ← value_of tokens 2;
    match safe_strtoull v with
    | (false, _) => out_string (str "CLIENT_ERROR invalid numeric delta argument")
    | (true, delta) =>
        r ← in_mc (add_delta key incr delta None e);
        let '(res, temp, _) := r in
        match res with
        | OK => out_string temp
        | NON_NUMERIC => out_string (str "CLIENT_ERROR cannot increment or decrement non-numeric value")
        | EOM => out_of_memory (str "SERVER_ERROR out of memory")
        | DELTA_ITEM_NOT_FOUND =>
            counting (if incr then incr_misses else decr_misses);; out_string (str "NOT_FOUND")
        | DELTA_ITEM_CAS_MISMATCH => mret tt
        end
    end.

(** What delete does with a key it found; the item's lock is held. *)
Definition delete_found (it : ptr) (hv : Z) : M server unit :=
  i ← in_mc (load it);
  counting (delete_hits (ITEM_clsid i));;
  in_mc (do_item_unlink it hv;; STORAGE_delete it).

Definition delete_key (tokens : list token) : M server unit :=
  key ← value_of tokens KEY_TOKEN;
  nkey ← length_of tokens KEY_TOKEN;
  if KEY_MAX_LENGTH <? nkey then out_string BAD_FORMAT
  else
    detail ← opt detail_enabled;
    when detail (ok ← conn_alloc_ok; modify (fun s => s <| s_prefixes ::= stats_prefix_record_delete key ok |>));;
    r ← in_mc (item_get_locked key false);
    let '(it, hv) := r in
    if decide (it = NULL) then counting delete_misses;; out_string (str "NOT_FOUND")
    else delete_found it hv;; in_mc (do_item_remove it);; out_string (str "DELETED").

Definition process_delete_command (tokens : list token) : M server unit :=
  let ntokens := zlen tokens in
  valid ← (if 3 <? ntokens then
             hold_is_zero ← token_is tokens (KEY_TOKEN + 1) "0";
             sets_noreply ← set_noreply_maybe tokens;
             mret (((ntokens =? 4) && (hold_is_zero || sets_noreply)) || ((ntokens =? 5) && hold_is_zero && sets_noreply))
           else mret true);
  if valid : bool then delete_key tokens
  else out_string (str "CLIENT_ERROR bad command line format.  Usage: delete <key> [noreply]").

(** ** Settings at run time *)

Definition process_verbosity_command (tokens : list token) : M server unit :=
  set_noreply_maybe tokens;;
  v ← value_of tokens 1;
  match safe_strtoul v with
  | (false, _) => out_string BAD_FORMAT
  | (true, level) =>
      on_options (fun o => o <| verbose := if MAX_VERBOSITY_LEVEL <? level then MAX_VERBOSITY_LEVEL else level |>);;
      out_string (str "OK")
  end.

Definition process_slabs_automove_command (tokens : list token) : M server unit :=
  set_noreply_maybe tokens;;
  ratio ← token_is tokens 2 "ratio";
  if ratio : bool then
    if zlen tokens <? 5 then out_string (str "ERROR")
    else
      v ← value_of tokens 3;
      match safe_strtod v with
      | (false, _) => out_string (str "ERROR")
      | (true, ratio) => on_options (fun o => o <| slab_automove_ratio := ratio |>);; out_string (str "OK")
      end
  else
    v ← value_of tokens 2;
    match safe_strtoul v with
    | (false, _) => out_string BAD_FORMAT
    | (true, level) =>
        if level <=? 2 then on_settings (fun st => st <| slab_automove := level |>);; out_string (str "OK")
        else out_string (str "ERROR")
    end.

Definition process_memlimit_command (tokens : list token) : M server unit :=
  set_noreply_maybe tokens;;
  v ← value_of tokens 1;
  match safe_strtoul v with
  | (false, _) => out_string (str "ERROR")
  | (true, memlimit) =>
      if memlimit <? 8 then out_string (str "MEMLIMIT_TOO_SMALL cannot set maxbytes to less than 8m")
      else if 1000000000 <? memlimit then
        out_string (str "MEMLIMIT_ADJUST_FAILED input value is megabytes not bytes")
      else
        ok ← in_mc (slabs_adjust_mem_limit (memlimit * 1024 * 1024));
        out_string (if ok : bool then str "OK" else str "MEMLIMIT_ADJUST_FAILED out of bounds or unable to adjust")
  end.

Definition lru_tune (tokens : list token) : M server unit :=
  v2 ← value_of tokens 2; v3 ← value_of tokens 3; v4 ← value_of tokens 4; v5 ← value_of tokens 5;
  match safe_strtoul v2, safe_strtoul v3, safe_strtod v4, safe_strtod v5 with
  | (true, pct_hot), (true, pct_warm), (true, hot_factor), (true, factor) =>
      if 80 <? u32 (pct_hot + pct_warm) then out_string (str "ERROR hot and warm pcts must not exceed 80")
      else if double_leb factor (double_of_Z 0) || double_leb hot_factor (double_of_Z 0) then
        out_string (str "ERROR hot/warm age factors must be greater than 0")
      else
        on_settings (fun st => st <| hot_lru_pct := s32 pct_hot |> <| warm_lru_pct := s32 pct_warm |>);;
        on_options (fun o => o <| hot_max_factor := hot_factor |> <| warm_max_factor := factor |>);;
        out_string (str "OK")
  | _, _, _, _ => out_string (str "ERROR")
  end.

Definition process_lru_command (tokens : list token) : M server unit :=
  set_noreply_maybe tokens;;
  let ntokens := zlen tokens in
  maintainer ← opt lru_maintainer_thread;
  tune ← token_is tokens 1 "tune"; mode ← token_is tokens 1 "mode"; temp_ttl ← token_is tokens 1 "temp_ttl";
  if tune && (7 <=? ntokens) then lru_tune tokens
  else if mode && (4 <=? ntokens) && maintainer then
    flat ← token_is tokens 2 "flat"; segmented ← token_is tokens 2 "segmented";
    if flat : bool then on_settings (fun st => st <| lru_segmented := false |>);; out_string (str "OK")
    else if segmented : bool then on_settings (fun st => st <| lru_segmented := true |>);; out_string (str "OK")
    else out_string (str "ERROR")
  else if temp_ttl && (4 <=? ntokens) && maintainer then
    v ← value_of tokens 2;
    match safe_strtol v with
    | (false, _) => out_string (str "ERROR")
    | (true, ttl) =>
        on_settings (fun st => if ttl <? 0 then st <| temp_lru := false |>
                               else st <| temp_lru := true |> <| temporary_ttl := ttl |>);;
        out_string (str "OK")
    end
  else out_string (str "ERROR").

(** [ok] and the new settings: a number that does not parse leaves 0 behind. *)
Definition extstore_option (tokens : list token) (o : options) : option (bool * options) :=
  let ntokens := zlen tokens in
  name ← tok tokens 1 ≫= tok_value;
  v ← tok tokens 2 ≫= tok_value;
  let number f := let '(ok, n) := safe_strtoul v in Some (ok, f n) in
  if bool_decide (name = str "free_memchunks") && (4 <? ntokens) then
    v3 ← tok tokens 3 ≫= tok_value;
    let '(ok1, clsid) := safe_strtoul v in
    let '(ok2, limit) := safe_strtoul v3 in
    Some (if ok1 && ok2 && (clsid <? MAX_NUMBER_OF_SLAB_CLASSES)
          then (true, o <| ext_free_memchunks ::= <[clsid := limit]> |>) else (false, o))
  else if decide (name = str "item_size") then number (fun n => o <| ext_item_size := n |>)
  else if decide (name = str "item_age") then number (fun n => o <| ext_item_age := n |>)
  else if decide (name = str "low_ttl") then number (fun n => o <| ext_low_ttl := n |>)
  else if decide (name = str "recache_rate") then number (fun n => o <| ext_recache_rate := n |>)
  else if decide (name = str "compact_under") then number (fun n => o <| ext_compact_under := n |>)
  else if decide (name = str "drop_under") then number (fun n => o <| ext_drop_under := n |>)
  else if decide (name = str "max_frag") then
    let '(ok, d) := safe_strtod v in Some (ok, o <| ext_max_frag := d |>)
  else if decide (name = str "drop_unread") then
    let '(ok, n) := safe_strtoul v in Some (ok, if ok : bool then o <| ext_drop_unread := negb (n =? 0) |> else o)
  else Some (false, o).

Definition process_extstore_command (tokens : list token) : M server unit :=
  set_noreply_maybe tokens;;
  o ← opt id;
  r ← (if zlen tokens <? 4 then mret (false, o) else lift (extstore_option tokens o));
  on_options (fun _ => snd r);;
  out_string (if fst r : bool then str "OK" else str "ERROR").

(** ** flush_all, version, quit and shutdown *)

(** What was stored before [new_oldest] is gone; with CAS ids, what was stored in
    the current second too. *)
Definition set_oldest_live (new_oldest : Z) : M server unit :=
  t ← now;
  cas ← setting use_cas;
  if cas : bool then
    on_settings (fun st => st <| oldest_live := u32 (new_oldest - 1) |>);;
    when (u32 (new_oldest - 1) <=? t)
      (id ← in_mc get_cas_id; on_settings (fun st => st <| oldest_cas := id |>))
  else on_settings (fun st => st <| oldest_live := new_oldest |>).

Definition process_flush_all_command (tokens : list token) : M server unit :=
  quiet ← set_noreply_maybe tokens;
  counting flush_cmds;;
  enabled ← opt flush_enabled;
  if negb enabled then out_string (str "CLIENT_ERROR flush_all not allowed")
  else
    arg ← (if zlen tokens =? (if quiet : bool then 3 else 2) then mret (true, 0)
           else v ← value_of tokens 1; mret (safe_strtol v));
    match arg with
    | (false, _) => out_string (str "CLIENT_ERROR invalid exptime argument")
    | (true, exptime) =>
        t ← now;
        new_oldest ← (if 0 <? exptime then realtime_of exptime else mret t);
        set_oldest_live new_oldest;;
        out_string (str "OK")
    end.

(** [VERSION] is set in version.m4. *)
Definition process_version_command : M server unit := out_string (str "VERSION 1.6.12").

Definition process_quit_command : M server unit :=
  conn_set_state conn_mwrite;;
  on_conn (fun c => c <| close_after_write := true |> <| close_reason := NORMAL_CLOSE |>).

Definition raise (sig : signal) : M server unit := modify (fun s => s <| s_signals ::= fun l => l ++ [sig] |>).
Definition process_shutdown_command (tokens : list token) : M server unit :=
  enabled ← opt shutdown_command;
  if negb enabled then out_string (str "ERROR: shutdown not enabled")
  else
    let stop sig :=
      on_conn (fun c => c <| close_reason := SHUTDOWN_CLOSE |>);; conn_set_state conn_closing;; raise sig in
    if zlen tokens =? 2 then stop SIGINT
    else
      graceful ← (if zlen tokens =? 3 then token_is tokens SUBCOMMAND_TOKEN "graceful" else mret false);
      if graceful : bool then stop SIGUSR1 else out_string (str "CLIENT_ERROR invalid shutdown mode").

(** ** slabs, lru_crawler and watch *)

Definition process_slabs_command (tokens : list token) (rebalance_free : bool) : M server unit :=
  let ntokens := zlen tokens in
  sub ← lift (tok tokens (COMMAND_TOKEN + 1));
  if (ntokens =? 5) && bool_decide (tok_value sub = Some (str "reassign")) then
    enabled ← setting slab_reassign;
    if negb enabled then out_string (str "CLIENT_ERROR slab reassignment disabled")
    else
      v2 ← value_of tokens 2; v3 ← value_of tokens 3;
      match safe_strtol v2, safe_strtol v3 with
      | (true, src), (true, dst) =>
          rv ← in_mc (slabs_reassign rebalance_free src dst);
          out_string (match rv with
            | REASSIGN_OK => str "OK"
            | REASSIGN_RUNNING => str "BUSY currently processing reassign request"
            | REASSIGN_BADCLASS => str "BADCLASS invalid src or dst class id"
            | REASSIGN_NOSPARE => str "NOSPARE source class has no spare pages"
            | REASSIGN_SRC_DST_SAME => str "SAME src and dst class are identical"
            end)
      | _, _ => out_string BAD_FORMAT
      end
  else if (4 <=? ntokens) && bool_decide (tok_value sub = Some (str "automove")) then process_slabs_automove_command tokens
  else out_string (str "ERROR").

Definition crawler_answer (rv : crawler_result_type) : list Z :=
  match rv with
  | CRAWLER_OK => str "OK"
  | CRAWLER_RUNNING => str "BUSY currently processing crawler request"
  | CRAWLER_BADCLASS => str "BADCLASS invalid class id"
  | CRAWLER_NOTSTARTED => str "NOTSTARTED no items to crawl"
  | CRAWLER_ERROR => str "ERROR an unknown error happened"
  end.

(** [crawl] and [metadump] with the class list [v]. *)
Definition crawler_crawl (v : list Z) : M server unit :=
  enabled ← opt lru_crawler;
  if negb enabled then out_string (str "CLIENT_ERROR lru crawler disabled")
  else n ← opt lru_crawler_tocrawl; rv ← lru_crawler_crawl v CRAWLER_EXPIRED n; out_string (crawler_answer rv).
Definition crawler_metadump (v : list Z) : M server unit :=
  enabled ← opt lru_crawler; dump ← opt dump_enabled;
  if negb enabled then out_string (str "CLIENT_ERROR lru crawler disabled")
  else if negb dump then out_string (str "ERROR metadump not allowed")
  else
    stack ← resp_has_stack;
    if stack : bool then out_string (str "ERROR cannot pipeline other commands before metadump")
    else
      rv ← lru_crawler_crawl v CRAWLER_METADUMP (u32 LRU_CRAWLER_CAP_REMAINING);
      match rv with CRAWLER_OK => conn_set_state conn_watch | _ => out_string (crawler_answer rv) end.
Definition crawler_number (v : list Z) (f : Z -> M server unit) : M server unit :=
  match safe_strtoul v with (true, n) => f n | (false, _) => out_string BAD_FORMAT end.

Definition process_lru_crawler_command (tokens : list token) : M server unit :=
  let ntokens := zlen tokens in
  if ntokens =? 4 then
    sub ← value_of tokens (COMMAND_TOKEN + 1);
    v ← value_of tokens 2;
    if decide (sub = str "crawl") then crawler_crawl v
    else if decide (sub = str "metadump") then crawler_metadump v
    else if decide (sub = str "tocrawl") then
      crawler_number v (fun n => on_options (fun o => o <| lru_crawler_tocrawl := n |>);; out_string (str "OK"))
    else if decide (sub = str "sleep") then
      crawler_number v (fun n =>
        if 1000000 <? n then out_string (str "CLIENT_ERROR sleep must be one second or less")
        else on_options (fun o => o <| lru_crawler_sleep := n |>);; out_string (str "OK"))
    else out_string (str "ERROR")
  else if ntokens =? 3 then
    sub ← value_of tokens (COMMAND_TOKEN + 1);
    if decide (sub = str "enable") then
      ok ← start_item_crawler_thread;
      out_string (if ok : bool then str "OK" else str "ERROR failed to start lru crawler thread")
    else if decide (sub = str "disable") then
      ok ← stop_item_crawler_thread;
      out_string (if ok : bool then str "OK" else str "ERROR failed to stop lru crawler thread")
    else out_string (str "ERROR")
  else out_string (str "ERROR").

(** The flags of the words, [None] for an unknown one. *)
Definition watch_flag (w : list Z) : option Z :=
  if decide (w = str "rawcmds") then Some LOG_RAWCMDS
  else if decide (w = str "evictions") then Some LOG_EVICTIONS
  else if decide (w = str "fetchers") then Some LOG_FETCHERS
  else if decide (w = str "mutations") then Some LOG_MUTATIONS
  else if decide (w = str "sysevents") then Some LOG_SYSEVENTS
  else if decide (w = str "connevents") then Some LOG_CONNEVENTS
  else None.
Fixpoint watch_flags (ts : list token) (f : Z) : option Z :=
  match ts with
  | [] | [_] => Some f
  | t :: ts => v ← tok_value t; g ← watch_flag v; watch_flags ts (Z.lor f g)
  end.

Definition process_watch_command (tokens : list token) : M server unit :=
  set_noreply_maybe tokens;;
  enabled ← opt watch_enabled;
  if negb enabled then out_string (str "CLIENT_ERROR watch commands not allowed")
  else
    stack ← resp_has_stack;
    if stack : bool then out_string (str "ERROR cannot pipeline other commands before watch")
    else
      match (if 2 <? zlen tokens then watch_flags (drop 1 tokens) 0 else Some LOG_FETCHERS) with
      | None => out_string (str "ERROR")
      | Some f =>
          rv ← logger_add_watcher f;
          match rv with
          | LOGGER_ADD_WATCHER_TOO_MANY => out_string (str "WATCHER_TOO_MANY log watcher limit reached")
          | LOGGER_ADD_WATCHER_FAILED => out_string (str "WATCHER_FAILED failed to add log watcher")
          | LOGGER_ADD_WATCHER_OK => conn_set_state conn_watch
          end
      end.

(** ** stats *)

(** [stats_reset]: [struct stats], the counters of the acting thread (the response
    object gauges are among them), the prefixes and the LRU counters. *)
Definition stats_reset : M server unit :=
  in_mc (on_stats (fun st => st <| total_items := 0 |> <| malloc_fails := 0 |> <| slabs_moved := 0 |>
    <| slab_reassign_rescues := 0 |> <| slab_reassign_evictions_nomem := 0 |> <| slab_reassign_inline_reclaim := 0 |>
    <| slab_reassign_chunk_rescues := 0 |> <| slab_reassign_busy_items := 0 |> <| slab_reassign_busy_deletes := 0 |>));;
  modify (fun s => s <| s_prefixes ::= stats_prefix_clear |>);;
  in_mc (modify (fun w => w <| thread_stats := fun _ => 0 |>));;
  in_worker (modify (fun w => w <| response_obj_oom := 0 |> <| response_obj_count := 0 |> <| response_obj_bytes := 0 |>
    <| read_buf_oom := 0 |>));;
  in_mc (on_lru (fun l => l <| itemstats := ∅ |>)).

Definition process_stats_detail (command : list Z) : M server unit :=
  if decide (command = str "on") then on_options (fun o => o <| detail_enabled := true |>);; out_string (str "OK")
  else if decide (command = str "off") then on_options (fun o => o <| detail_enabled := false |>);; out_string (str "OK")
  else if decide (command = str "dump") then
    ok ← conn_alloc_ok;
    t ← gets s_prefixes;
    text ← lift (stats_prefix_dump ok t);
    write_and_free text
  else out_string (str "CLIENT_ERROR usage: stats detail on|off|dump").

(** The collected lines are sent, the response takes the buffer over. *)
Definition stats_send : M server unit :=
  c ← co id;
  match st_buffer c with
  | None => out_of_memory (str "SERVER_ERROR out of memory writing stats")
  | Some b => write_and_free (Some b);; on_conn (fun c => c <| st_buffer := None |>)
  end.
Definition stats_finish : M server unit := append_stats [] [];; stats_send.

Definition stats_cachedump (tokens : list token) : M server unit :=
  enabled ← opt dump_enabled;
  if negb enabled then out_string (str "CLIENT_ERROR stats cachedump not allowed")
  else if zlen tokens <? 5 then out_string (str "CLIENT_ERROR bad command line")
  else
    v2 ← value_of tokens 2; v3 ← value_of tokens 3;
    match safe_strtoul v2, safe_strtoul v3 with
    | (true, id), (true, limit) =>
        if MAX_NUMBER_OF_SLAB_CLASSES <=? id then out_string (str "CLIENT_ERROR Illegal slab id")
        else buf ← item_cachedump id limit; write_and_free buf
    | _, _ => out_string BAD_FORMAT
    end.

Definition process_stat (tokens : list token) : M server unit :=
  let ntokens := zlen tokens in
  if ntokens <? 2 then out_string (str "CLIENT_ERROR bad command line")
  else if ntokens =? 2 then server_stats;; get_stats None;; stats_finish
  else
    sub ← value_of tokens SUBCOMMAND_TOKEN;
    if decide (sub = str "reset") then stats_reset;; out_string (str "RESET")
    else if decide (sub = str "detail") then
      if ntokens <? 4 then process_stats_detail [] else v ← value_of tokens 2; process_stats_detail v
    else if decide (sub = str "settings") then process_stat_settings;; stats_finish
    else if decide (sub = str "cachedump") then stats_cachedump tokens
    else if decide (sub = str "conns") then process_stats_conns;; stats_finish
    else if decide (sub = str "extstore") then process_extstore_stats;; stats_finish
    else ok ← get_stats (Some sub); if ok : bool then stats_send else out_string (str "ERROR").
End text.
