(* ===== verification/Meta.v ===== *)
(** * The meta commands (proto_text.c)

    Flags are parsed once ([_meta_flag_preparse]) and walked again to build the
    answer in the write buffer of the response; [p] is the part of the buffer
    before the cursor, which reaches the buffer when the handler is done with it. *)

From S2P Require Import Prelude Itoa Memory Util Base64 Assoc Slabs Items Store Tokens Resp StatsPrefix Conn Text.

Definition MFLAG_MAX_OPT_LENGTH := 20.
Definition MFLAG_MAX_OPAQUE_LENGTH := 32.

(** A character of the source. *)
Definition chr (s : string) : Z := Util.head (str s).

(** ** Pieces of an answer *)

Definition META_SPACE (p : list Z) : list Z := p ++ [32].
Definition META_CHAR (p : list Z) (c : string) : list Z := p ++ [32; chr c].
Definition META_KEY (p key : list Z) (bin : bool) : list Z :=
  let p := META_CHAR p "k" in
  if bin then let '(n, out) := base64_encode key false (WRITE_BUFFER_SIZE / 2) in META_CHAR (p ++ ztake n out) "b"
  else p ++ key.

Section pieces.
Context (now : Z).

(** The seconds an item has left, -1 for one that never expires. *)
Definition META_TTL (p : list Z) (it : item) : option (list Z) :=
  if exptime it =? 0 then Some (META_CHAR p "t" ++ str "-1")
  else itoa_u32 (u32 (exptime it - now)) (META_CHAR p "t").
Definition META_CAS (p : list Z) (it : item) : option (list Z) := itoa_u64 (ITEM_get_cas it) (META_CHAR p "c").
(** An opaque token is copied with its letter. *)
Definition META_OPAQUE (p v : list Z) : list Z := META_SPACE p ++ v.
End pieces.

(** The status of a success. *)
Definition ok_status (old : bool) : list Z := if old then str "OK" else str "HD".

(** ** Parsing the flags *)

Record meta_flags := MetaFlags {
  has_error : bool; no_update : bool; locked : bool; vivify : bool; mf_la : bool; mf_value : bool;
  mf_set_stale : bool; no_reply : bool; has_cas : bool; new_ttl : bool; key_binary : bool; mode : Z;
  mf_exptime : Z; autoviv_exptime : Z; recache_time : Z; client_flags : Z; req_cas_id : Z; delta : Z; initial : Z
}.
#[export] Instance eta_meta_flags : Eta meta_flags := fun r =>
  MetaFlags (has_error r) (no_update r) (locked r) (vivify r) (mf_la r) (mf_value r) (mf_set_stale r)
    (no_reply r) (has_cas r) (new_ttl r) (key_binary r) (mode r) (mf_exptime r) (autoviv_exptime r)
    (recache_time r) (client_flags r) (req_cas_id r) (delta r) (initial r).
#[export] Instance upd_has_error : Upd has_error. Proof. solve_upd. Defined.
#[export] Instance upd_no_update : Upd no_update. Proof. solve_upd. Defined.
#[export] Instance upd_locked : Upd locked. Proof. solve_upd. Defined.
#[export] Instance upd_vivify : Upd vivify. Proof. solve_upd. Defined.
#[export] Instance upd_mf_la : Upd mf_la. Proof. solve_upd. Defined.
#[export] Instance upd_mf_value : Upd mf_value. Proof. solve_upd. Defined.
#[export] Instance upd_mf_set_stale : Upd mf_set_stale. Proof. solve_upd. Defined.
#[export] Instance upd_no_reply : Upd no_reply. Proof. solve_upd. Defined.
#[export] Instance upd_has_cas : Upd has_cas. Proof. solve_upd. Defined.
#[export] Instance upd_new_ttl : Upd new_ttl. Proof. solve_upd. Defined.
#[export] Instance upd_key_binary : Upd key_binary. Proof. solve_upd. Defined.
#[export] Instance upd_mode : Upd mode. Proof. solve_upd. Defined.
#[export] Instance upd_mf_exptime : Upd mf_exptime. Proof. solve_upd. Defined.
#[export] Instance upd_autoviv : Upd autoviv_exptime. Proof. solve_upd. Defined.
#[export] Instance upd_recache_time : Upd recache_time. Proof. solve_upd. Defined.
#[export] Instance upd_client_flags : Upd client_flags. Proof. solve_upd. Defined.
#[export] Instance upd_req_cas_id : Upd req_cas_id. Proof. solve_upd. Defined.
#[export] Instance upd_delta : Upd delta. Proof. solve_upd. Defined.
#[export] Instance upd_initial : Upd initial. Proof. solve_upd. Defined.
Definition flags_zero : meta_flags :=
  MetaFlags false false false false false false false false false false false 0 0 0 0 0 0 0 0.

(** The key token (decoded in place by [b]), the flags and [errstr]. *)
Record preparse := Preparse { pp_key : list Z; pp_of : meta_flags; pp_err : list Z }.
#[export] Instance eta_preparse : Eta preparse := fun r => Preparse (pp_key r) (pp_of r) (pp_err r).
#[export] Instance upd_pp_key : Upd pp_key. Proof. solve_upd. Defined.
#[export] Instance upd_pp_of : Upd pp_of. Proof. solve_upd. Defined.
#[export] Instance upd_pp_err : Upd pp_err. Proof. solve_upd. Defined.

Definition BAD_TOKEN : list Z := str "CLIENT_ERROR bad token in command line format".
Definition set_error (e : list Z) (s : preparse) : preparse :=
  s <| pp_err := e |> <| pp_of ::= fun fl => fl <| has_error := true |> |>.
Definition on_of (f : meta_flags -> meta_flags) (s : preparse) : preparse := s <| pp_of ::= f |>.
(** A numeric argument: [f] stores it, a bad one is the error [e]. *)
Definition argument (r : bool * Z) (e : list Z) (f : Z -> meta_flags -> meta_flags) (s : preparse) : preparse :=
  match r with (true, n) => on_of (f n) s | (false, _) => set_error e s end.

(** One flag with letter [o] and argument [arg]; [rt] is [realtime] of an expiry
    time given by a client.  [None] is an unknown flag.  A bad [F] argument sets no
    message. *)
Definition preparse_flag (rt : Z -> Z) (o : Z) (arg : list Z) (s : preparse) : option preparse :=
  if o =? chr "b" then
    let '(n, out) := base64_decode (pp_key s) false (zlen (pp_key s)) in
    let s := if n =? 0 then set_error (str "CLIENT_ERROR error decoding key") s else s in
    Some (on_of (fun fl => fl <| key_binary := true |>) s <| pp_key := ztake n out |>)
  else if o =? chr "N" then
    Some (argument (safe_strtol arg) BAD_TOKEN (fun n fl => fl <| autoviv_exptime := rt n |>)
            (on_of (fun fl => fl <| locked := true |> <| vivify := true |>) s))
  else if o =? chr "T" then
    Some (argument (safe_strtol arg) BAD_TOKEN (fun n fl => fl <| mf_exptime := rt n |> <| new_ttl := true |>)
            (on_of (fun fl => fl <| locked := true |>) s))
  else if o =? chr "R" then
    Some (argument (safe_strtol arg) BAD_TOKEN (fun n fl => fl <| recache_time := rt n |>)
            (on_of (fun fl => fl <| locked := true |>) s))
  else if o =? chr "l" then Some (on_of (fun fl => fl <| mf_la := true |> <| locked := true |>) s)
  else if (o =? chr "O") || (o =? chr "k") || (o =? chr "s") || (o =? chr "t") || (o =? chr "c") || (o =? chr "f") then Some s
  else if o =? chr "v" then Some (on_of (fun fl => fl <| mf_value := true |>) s)
  else if o =? chr "h" then Some (on_of (fun fl => fl <| locked := true |>) s)
  else if o =? chr "u" then Some (on_of (fun fl => fl <| no_update := true |>) s)
  else if o =? chr "q" then Some (on_of (fun fl => fl <| no_reply := true |>) s)
  else if o =? chr "F" then Some (argument (safe_strtoul arg) (pp_err s) (fun n fl => fl <| client_flags := n |>) s)
  else if o =? chr "C" then
    Some (argument (safe_strtoull arg) BAD_TOKEN (fun n fl => fl <| req_cas_id := n |> <| has_cas := true |>) s)
  else if o =? chr "M" then
    Some (match arg with
          | [m] => on_of (fun fl => fl <| mode := m |>) s
          | _ => set_error (str "CLIENT_ERROR incorrect length for M token") s
          end)
  else if o =? chr "J" then
    Some (argument (safe_strtoull arg) (str "CLIENT_ERROR invalid numeric initial value") (fun n fl => fl <| initial := n |>) s)
  else if o =? chr "D" then
    Some (argument (safe_strtoull arg) (str "CLIENT_ERROR invalid numeric delta value") (fun n fl => fl <| delta := n |>) s)
  else if o =? chr "I" then Some (on_of (fun fl => fl <| mf_set_stale := true |>) s)
  else None.

(** The flags from [ts] on; the result is true for 0. *)
Fixpoint preparse_loop (rt : Z -> Z) (ts : list token) (seen : list Z) (s : preparse) : option (bool * preparse) :=
  match ts with
  | [] => None
  | t :: ts =>
      if tok_length t =? 0 then Some (negb (has_error (pp_of s)), s)
      else match tok_value t with
           | Some (o :: arg) =>
               if (127 <=? o) || bool_decide (o ∈ seen)
               then Some (false, s <| pp_err := str "CLIENT_ERROR duplicate flag" |>)
               else match preparse_flag rt o arg s with
                    | None => Some (false, s <| pp_err := str "CLIENT_ERROR invalid flag" |>)
                    | Some s => preparse_loop rt ts (o :: seen) s
                    end
           | _ => None
           end
  end.

Section meta.
Context `{HashFunction} `{ExtStorage}.

Definition meta_flag_preparse (tokens : list token) (start : Z) (fl : meta_flags) : M server (bool * preparse) :=
  key ← value_of tokens KEY_TOKEN;
  st ← opt process_started; t ← now;
  lift (preparse_loop (fun n => realtime st (EXPTIME_TO_POSITIVE_TIME n) t) (drop (Z.to_nat start) tokens) []
          (Preparse key fl BAD_FORMAT)).

(** The tokens the answer is built from: those behind the key but the last. *)
Definition flag_tokens (tokens : list token) : list (list Z) :=
  omap tok_value (take (Z.to_nat (zlen tokens - 1) - 2) (drop 2 tokens)).

(** ** me *)

Definition process_meta_command (tokens : list token) : M server unit :=
  klen ← length_of tokens KEY_TOKEN;
  if (zlen tokens <? 3) || (KEY_MAX_LENGTH <? klen) then out_string BAD_FORMAT
  else
    key ← value_of tokens KEY_TOKEN;
    flag ← lift (tok tokens 2);
    let binary := (4 <=? zlen tokens) && bool_decide (tok_value flag = Some (str "b")) in
    let '(n, out) := if binary then base64_decode key false klen else (klen, key) in
    if binary && (n =? 0) then out_string BAD_FORMAT
    else
      r ← in_mc (limited_get (ztake n out) 0 false false);
      let '(it, _) := r in
      (if decide (it = NULL) then out_string (str "EN")
       else
         i ← in_mc (load it);
         t ← now;
         let p := str "ME " ++ (if has_flag i ITEM_KEY_BINARY
                                then let '(n, out) := base64_encode (ITEM_key i) false (WRITE_BUFFER_SIZE - 3) in ztake n out
                                else ITEM_key i) ++ [32] in
         exp ← lift (itoa_32 (if exptime i =? 0 then -1 else s32 (t - exptime i)) []);
         let line := str "exp=" ++ exp ++ str " la=" ++ llu (u32 (t - time i)) ++ str " cas=" ++ llu (ITEM_get_cas i)
           ++ str " fetch=" ++ (if has_flag i ITEM_FETCHED then str "yes" else str "no")
           ++ str " cls=" ++ llu (ITEM_clsid i) ++ str " size=" ++ llu (ITEM_ntotal i) ++ CRLF in
         put_wbuf 0 (p ++ ztake (WRITE_BUFFER_SIZE - (nkey i + 12) - 1) line ++ [0]);;
         in_mc (item_remove it);;
         on_resp (fun r => r <| wbytes := zlen p + zlen line |>);;
         resp_add_iov (IWbuf 0) (zlen p + zlen line);;
         conn_set_state conn_new_cmd);;
      counting meta_cmds.

(** ** mg *)

(** What the flag loop of mg works on. *)
Record mget_state := MgetState { mg_p : list Z; won_token : bool; ttl_set : bool }.
#[local] Instance eta_mget_state : Eta mget_state := fun r => MgetState (mg_p r) (won_token r) (ttl_set r).
#[local] Instance upd_mg_p : Upd mg_p. Proof. solve_upd. Defined.
#[local] Instance upd_won_token : Upd won_token. Proof. solve_upd. Defined.
#[local] Instance upd_ttl_set : Upd ttl_set. Proof. solve_upd. Defined.

(** One flag token [v] of mg; [None] is [goto error], which only a long opaque does. *)
Definition mget_flag (it : ptr) (fl : meta_flags) (item_created : bool) (v : list Z) (s : mget_state)
    : M server (option mget_state) :=
  i ← in_mc (load it);
  t ← now;
  let o := Util.head v in
  let text (p : option (list Z)) : M server (option mget_state) := p ← lift p; mret (Some (s <| mg_p := p |>)) in
  if o =? chr "T" then
    in_mc (update_item it (fun i => i <| exptime := mf_exptime fl |>));; mret (Some (s <| ttl_set := true |>))
  else if o =? chr "N" then
    if item_created then
      in_mc (update_item it (fun i => i <| exptime := autoviv_exptime fl |>));; mret (Some (s <| won_token := true |>))
    else mret (Some s)
  else if o =? chr "R" then
    mret (Some (if negb (has_flag i ITEM_TOKEN_SENT) && negb item_created && negb (exptime i =? 0)
                   && (exptime i <? recache_time fl) then s <| won_token := true |> else s))
  else if o =? chr "s" then text (itoa_u32 (u32 (nbytes i - 2)) (META_CHAR (mg_p s) "s"))
  else if o =? chr "t" then text (META_TTL t (mg_p s) i)
  else if o =? chr "c" then text (META_CAS (mg_p s) i)
  else if o =? chr "f" then
    text (if has_flag i ITEM_CFLAGS then itoa_u32 (it_cflags i) (META_CHAR (mg_p s) "f")
          else Some (META_CHAR (mg_p s) "f" ++ str "0"))
  else if o =? chr "l" then text (itoa_u32 (u32 (t - time i)) (META_CHAR (mg_p s) "l"))
  else if o =? chr "h" then text (Some (META_CHAR (mg_p s) "h" ++ if has_flag i ITEM_FETCHED then str "1" else str "0"))
  else if o =? chr "O" then
    if MFLAG_MAX_OPAQUE_LENGTH <? zlen v then mret None else text (Some (META_OPAQUE (mg_p s) v))
  else if o =? chr "k" then text (Some (META_KEY (mg_p s) (ITEM_key i) (has_flag i ITEM_KEY_BINARY)))
  else mret (Some s).

(** The loop: [inl] are the bytes written when an error ends it. *)
Fixpoint mget_flags (it : ptr) (fl : meta_flags) (item_created : bool) (vs : list (list Z)) (s : mget_state)
    : M server (list Z + mget_state) :=
  match vs with
  | [] => mret (inr s)
  | v :: vs =>
      r ← mget_flag it fl item_created v s;
      match r with None => mret (inl (mg_p s)) | Some s => mget_flags it fl item_created vs s end
  end.

(** The marks behind the flags: a token was sent before, the item is stale, and
    this client wins. *)
Definition mget_marks (it : ptr) (s : mget_state) : M server (list Z) :=
  i ← in_mc (load it);
  let p := mg_p s in
  let p := if has_flag i ITEM_TOKEN_SENT then META_CHAR p "Z" else p in
  let p := if has_flag i ITEM_STALE then META_CHAR p "X" else p in
  let won := won_token s || (has_flag i ITEM_STALE && negb (has_flag i ITEM_TOKEN_SENT)) in
  when won (in_mc (update_item it (set_flag ITEM_TOKEN_SENT)));;
  mret (if won then META_CHAR p "W" else p).

(** The answer for an item; [inl] are the bytes written at [goto error], [inr]
    tells [failed] and [ttl_set]. *)
Definition mget_hit (it : ptr) (fl : meta_flags) (item_created : bool) (vs : list (list Z))
    : M server (list Z + (bool * bool)) :=
  i ← in_mc (load it);
  old ← opt meta_response_old;
  p ← (if mf_value fl then lift (itoa_u32 (u32 (nbytes i - 2)) (str "VA ")) else mret (ok_status old));
  r ← mget_flags it fl item_created vs (MgetState p false false);
  match r with
  | inl p => mret (inl p)
  | inr s =>
      p ← mget_marks it s;
      put_wbuf 0 (p ++ CRLF ++ [0]);;
      resp_add_iov (IWbuf 0) (zlen p + 2);;
      ok ← (if mf_value fl then add_value it else mret true);
      i ← in_mc (load it);
      (if ok : bool then on_resp (fun r => r <| r_item := if has_flag i ITEM_HDR && mf_value fl then NULL else it |>)
       else
         counting get_oom_extstore;;
         in_mc (if locked fl then do_item_remove it else item_remove it));;
      mret (inr (negb ok, ttl_set s))
  end.

(** The fetch with the autovivification: the item, its hash value, [item_created]
    and [overflow]. *)
Definition mget_fetch (key : list Z) (fl : meta_flags) (e : alloc_env) : M server (ptr * Z * bool * bool) :=
  r ← in_mc (if locked fl then limited_get_locked key false
             else r ← limited_get key 0 false (negb (no_update fl)); mret (fst r, 0, snd r));
  let '(it, hv, overflow) := r in
  if bool_decide (it = NULL) && vivify fl && negb overflow then
    it ← in_mc (item_alloc key 0 0 2 e);
    if decide (it = NULL) then mret (NULL, hv, false, false)
    else in_mc (write_data it 0 CRLF;; do_item_link it hv);; mret (it, hv, true, false)
  else mret (it, hv, false, overflow).

Definition mget_miss_counters (ttl : bool) : M server unit :=
  counting (if ttl then touch_cmds else get_misses);; counting (if ttl then touch_misses else get_cmds).

Definition process_mget_command (tokens : list token) (e : alloc_env) : M server unit :=
  let ntokens := zlen tokens in
  if ntokens <? 3 then out_string (str "ERROR")
  else
    klen ← length_of tokens KEY_TOKEN;
    if (KEY_MAX_LENGTH <? klen) || (ntokens =? 3) then out_errstring BAD_FORMAT
    else if MFLAG_MAX_OPT_LENGTH <? ntokens then out_errstring (str "CLIENT_ERROR options flags are too long")
    else
      pre ← meta_flag_preparse tokens 2 flags_zero;
      let '(ok, s) := pre in
      if negb ok then out_errstring (pp_err s)
      else
        let fl := pp_of s in
        on_conn (fun c => c <| noreply := no_reply fl |>);;
        f ← mget_fetch (pp_key s) fl e;
        let '(it, hv, item_created, overflow) := f in
        if overflow : bool then out_errstring (str "SERVER_ERROR refcount overflow during fetch")
        else
          r ← (if decide (it = NULL) then mret (inr (true, false)) else mget_hit it fl item_created (flag_tokens tokens));
          match r with
          | inl p =>
              put_wbuf 0 p;;
              in_mc (do_item_remove it);;
              out_errstring (str "CLIENT_ERROR opaque token too long")
          | inr (failed, ttl) =>
              when (locked fl && negb (no_update fl) && bool_decide (it <> NULL)) (in_mc (do_item_bump it hv));;
              if failed : bool then mget_miss_counters ttl;; out_string (str "EN")
              else
                i ← in_mc (load it);
                counting (if ttl : bool then touch_cmds else lru_hits (it_clsid i));;
                counting (if ttl : bool then touch_hits (ITEM_clsid i) else get_cmds);;
                conn_set_state conn_new_cmd
          end.

(** ** ms *)

(** What is stashed in front of the write buffer until the value is there:
    opaques in full, and the letters [k] and [c]. *)
Definition mset_flag (v : list Z) (p : list Z) : list Z * bool :=
  let o := Util.head v in
  if o =? chr "O" then
    if MFLAG_MAX_OPAQUE_LENGTH <? zlen v then (p, true) else (META_OPAQUE p v, false)
  else if o =? chr "k" then (META_CHAR p "k", false)
  else if o =? chr "c" then (META_CHAR p "c", false)
  else (p, false).
(** The stash and [has_error]. *)
Definition mset_stash (vs : list (list Z)) : list Z * bool :=
  foldl (fun '(p, bad) v => let '(p, bad') := mset_flag v p in (p, bad || bad')) ([], false) vs.

(** The command of the mode letter, [None] for an unknown one. *)
Definition mset_mode (fl : meta_flags) : option nread :=
  let m := mode fl in
  comm ← (if m =? 0 then Some NREAD_SET
          else if m =? chr "E" then Some NREAD_ADD
          else if m =? chr "A" then Some NREAD_APPEND
          else if m =? chr "P" then Some NREAD_PREPEND
          else if m =? chr "R" then Some NREAD_REPLACE
          else if m =? chr "S" then Some NREAD_SET
          else None);
  Some (match comm with
        | NREAD_SET | NREAD_REPLACE => if has_cas fl then NREAD_CAS else comm
        | _ => comm
        end).

(** [error]: the data line is swallowed. *)
Definition mset_error (vlen : Z) (errstr : list Z) : M server unit :=
  on_conn (fun c => c <| sbytes := vlen |>);; out_errstring errstr;; conn_set_state conn_swallow.

(** The allocation failed: the old value under the key must not stay. *)
Definition mset_alloc_failed (key : list Z) (fl : meta_flags) (vlen : Z) : M server unit :=
  ok ← in_mc (item_size_ok (zlen key) (client_flags fl) vlen);
  r ← in_mc (item_get_locked key false);
  let '(it, hv) := r in
  when (bool_decide (it <> NULL)) (in_mc (do_item_unlink it hv;; STORAGE_delete it;; do_item_remove it));;
  mset_error vlen (if ok : bool then str "SERVER_ERROR out of memory storing object"
                   else str "SERVER_ERROR object too large for cache").

Definition mset_start (key : list Z) (fl : meta_flags) (comm : nread) (vlen : Z) (p : list Z) (e : alloc_env) : M server unit :=
  it ← in_mc (item_alloc key (client_flags fl) (mf_exptime fl) vlen e);
  if decide (it = NULL) then put_wbuf 0 p;; mset_alloc_failed key fl vlen
  else
    in_mc (update_item it (ITEM_set_cas (req_cas_id fl)));;
    read_value it comm;;
    when (key_binary fl) (in_mc (update_item it (set_flag ITEM_KEY_BINARY)));;
    when (mf_set_stale fl && bool_decide (comm = NREAD_CAS)) (on_conn (fun c => c <| set_stale := true |>));;
    put_wbuf 0 p;;
    on_resp (fun r => r <| wbytes := zlen p |>);;
    on_conn (fun c => c <| mset_res := true |>);;
    conn_set_state conn_nread.

Definition process_mset_command (tokens : list token) (e : alloc_env) : M server unit :=
  let ntokens := zlen tokens in
  if ntokens <? 3 then out_string (str "ERROR")
  else
    klen ← length_of tokens KEY_TOKEN;
    if (KEY_MAX_LENGTH <? klen) || (ntokens =? 3) then out_errstring BAD_FORMAT
    else if MFLAG_MAX_OPT_LENGTH <? ntokens then out_errstring (str "CLIENT_ERROR options flags too long")
    else
      v ← value_of tokens (KEY_TOKEN + 1);
      match safe_strtol v with
      | (false, _) => out_errstring BAD_FORMAT
      | (true, vlen) =>
          if (vlen <? 0) || (INT_MAX - 2 <? vlen) then out_errstring BAD_FORMAT
          else
            let vlen := vlen + 2 in
            pre ← meta_flag_preparse tokens 3 flags_zero;
            let '(ok, s) := pre in
            if negb ok then mset_error vlen (pp_err s)
            else
              let fl := pp_of s in
              on_conn (fun c => c <| noreply := no_reply fl |>);;
              let '(p, bad) := mset_stash (flag_tokens tokens) in
              match mset_mode fl with
              | None => put_wbuf 0 p;; mset_error vlen (str "CLIENT_ERROR invalid mode for ms M token")
              | Some comm =>
                  if bad : bool then put_wbuf 0 p;; mset_error vlen (str "CLIENT_ERROR opaque token too long")
                  else mset_start (pp_key s) fl comm vlen p e
              end
      end.

(** The answer when the value was stored: the stash is read back.  An opaque runs to
    the next space. *)
Fixpoint until_space (s : list Z) : list Z * list Z :=
  match s with
  | [] => ([], [])
  | c :: s' => if c =? 32 then ([], s) else let '(w, rest) := until_space s' in (c :: w, rest)
  end.
Fixpoint finalize_loop (fuel : nat) (it : item) (stash p : list Z) : option (list Z) :=
  match stash, fuel with
  | [], _ => Some p
  | _, O => None
  | c :: stash', S fuel =>
      if c =? chr "O" then
        let '(w, rest) := until_space stash in finalize_loop fuel it (drop 1 rest) (META_SPACE p ++ w)
      else if c =? chr "k" then
        finalize_loop fuel it stash' (META_KEY p (ITEM_key it) (has_flag it ITEM_KEY_BINARY))
      else if c =? chr "c" then p ← META_CAS p it; finalize_loop fuel it stash' p
      else finalize_loop fuel it stash' p
  end.

Definition finalize_mset (ret : store_item_type) : M server unit :=
  conn_set_state conn_new_cmd;;
  c ← co id;
  i ← in_mc (load (c_item c));
  r ← resp;
  old ← opt meta_response_old;
  match (match ret with
         | STORED => Some (ok_status old)
         | EXISTS => Some (str "EX") | NOT_FOUND => Some (str "NF") | NOT_STORED => Some (str "NS")
         | _ => None
         end) with
  | None => on_conn (fun c => c <| noreply := false |>);; out_string (str "SERVER_ERROR Unhandled storage type.")
  | Some code =>
      when (bool_decide (ret = STORED) && noreply c) (on_resp (fun r => r <| skip := true |>));;
      let stash := ztake (wbytes r) (wbuf r) in
      p ← lift (finalize_loop (length stash) i stash code);
      put_wbuf (wbytes r) (p ++ CRLF);;
      on_resp (fun r => r <| wbytes ::= fun n => n + zlen p + 2 |>);;
      resp_add_iov (IWbuf (wbytes r)) (zlen p + 2)
  end.

(** ** md *)

(** The opaque and the key go behind the status; [None] is a long opaque. *)
Fixpoint echo_flags (vs : list (list Z)) (key : list Z) (bin : bool) (p : list Z) : list Z * bool :=
  match vs with
  | [] => (p, true)
  | v :: vs =>
      let o := Util.head v in
      if o =? chr "O" then
        if MFLAG_MAX_OPAQUE_LENGTH <? zlen v then (p, false) else echo_flags vs key bin (META_OPAQUE p v)
      else if o =? chr "k" then echo_flags vs key bin (META_KEY p key bin)
      else echo_flags vs key bin p
  end.

(** The item stays but turns stale. *)
Definition mark_stale (it : ptr) (fl : meta_flags) : M server unit :=
  when (new_ttl fl) (in_mc (update_item it (fun i => i <| exptime := mf_exptime fl |>)));;
  in_mc (update_item it (fun i => clear_flag ITEM_TOKEN_SENT (set_flag ITEM_STALE i)));;
  cas ← setting use_cas;
  id ← in_mc (if cas : bool then get_cas_id else mret 0);
  in_mc (update_item it (ITEM_set_cas id)).

(** The status; a CAS id of the client is compared with the local [req_cas_id],
    which stays 0. *)
Definition mdelete_found (it : ptr) (hv : Z) (fl : meta_flags) : M server (list Z) :=
  i ← in_mc (load it);
  let req_cas_id := 0 in
  if has_cas fl && negb (ITEM_get_cas i =? req_cas_id) then counting delete_misses;; mret (str "EX ")
  else
    (if mf_set_stale fl then mark_stale it fl else delete_found it hv);;
    quiet ← co noreply;
    when quiet (on_resp (fun r => r <| skip := true |>));;
    old ← opt meta_response_old;
    mret (ok_status old ++ [32]).

Definition process_mdelete_command (tokens : list token) : M server unit :=
  let ntokens := zlen tokens in
  if ntokens <? 3 then out_string (str "ERROR")
  else
    klen ← length_of tokens KEY_TOKEN;
    if KEY_MAX_LENGTH <? klen then out_string BAD_FORMAT
    else if MFLAG_MAX_OPT_LENGTH <? ntokens then out_string (str "CLIENT_ERROR options flags too long")
    else
      pre ← meta_flag_preparse tokens 2 flags_zero;
      let '(ok, s) := pre in
      if negb ok then out_errstring (str "CLIENT_ERROR invalid or duplicate flag")
      else
        let fl := pp_of s in
        on_conn (fun c => c <| noreply := no_reply fl |>);;
        let '(p, ok) := echo_flags (flag_tokens tokens) (pp_key s) (key_binary fl) [] in
        put_wbuf 3 p;;
        if negb ok then out_errstring (str "CLIENT_ERROR opaque token too long")
        else
          r ← in_mc (item_get_locked (pp_key s) false);
          let '(it, hv) := r in
          status ← (if decide (it = NULL) then counting delete_misses;; mret (str "NF ") else mdelete_found it hv fl);
          put_wbuf 0 status;;
          when (bool_decide (it <> NULL)) (in_mc (do_item_remove it));;
          put_wbuf (3 + zlen p) CRLF;;
          on_resp (fun r => r <| wbytes := 3 + zlen p + 2 |>);;
          resp_add_iov (IWbuf 0) (3 + zlen p + 2);;
          conn_set_state conn_new_cmd.

(** ** ma *)

(** One flag token of ma on an item; [None] is a long opaque. *)
Definition marith_flag (it : ptr) (fl : meta_flags) (item_created : bool) (key v p : list Z) : M server (option (list Z)) :=
  i ← in_mc (load it);
  t ← now;
  let o := Util.head v in
  if o =? chr "c" then p ← lift (META_CAS p i); mret (Some p)
  else if o =? chr "t" then p ← lift (META_TTL t p i); mret (Some p)
  else if o =? chr "T" then in_mc (update_item it (fun i => i <| exptime := mf_exptime fl |>));; mret (Some p)
  else if o =? chr "N" then
    when item_created (in_mc (update_item it (fun i => i <| exptime := autoviv_exptime fl |>)));; mret (Some p)
  else if o =? chr "O" then mret (if MFLAG_MAX_OPAQUE_LENGTH <? zlen v then None else Some (META_OPAQUE p v))
  else if o =? chr "k" then mret (Some (META_KEY p key (key_binary fl)))
  else mret (Some p).
Fixpoint marith_flags (it : ptr) (fl : meta_flags) (item_created : bool) (key : list Z) (vs : list (list Z)) (p : list Z)
    : M server (list Z * bool) :=
  match vs with
  | [] => mret (p, true)
  | v :: vs =>
      r ← marith_flag it fl item_created key v p;
      match r with None => mret (p, false) | Some p => marith_flags it fl item_created key vs p end
  end.

(** The key is missing and the client asked for a new item: the item, [NULL] when
    there is no memory, and [item_created]. *)
Definition marith_vivify (key : list Z) (fl : meta_flags) (hv : Z) (buf : list Z) (es : nat -> alloc_env)
    : M server (ptr * bool) :=
  it ← in_mc (item_alloc key 0 0 (zlen buf + 2) (es 1%nat));
  if decide (it = NULL) then mret (NULL, false)
  else
    in_mc (write_data it 0 (buf ++ CRLF));;
    stale ← co set_stale;
    r ← in_mc (do_store_item it NREAD_ADD stale hv (fun n => es (2 + n)%nat));
    when (bool_decide (fst r = STORED)) (on_conn (fun c => c <| c_cas := default 0 (snd r) |>));;
    mret (it, bool_decide (fst r <> NOT_STORED)).

(** The item with the new value: the answer is built and the reference released. *)
Definition marith_answer (it : ptr) (fl : meta_flags) (item_created : bool) (key buf : list Z) (vs : list (list Z))
    : M server (list Z * bool) :=
  old ← opt meta_response_old;
  p ← (if mf_value fl then lift (itoa_u32 (zlen buf) (str "VA ")) else mret (ok_status old));
  r ← marith_flags it fl item_created key vs p;
  in_mc (do_item_remove it);;
  mret (if snd r && mf_value fl then (fst r ++ CRLF ++ buf, true) else r).

(** The end of the handler with the text [p], or the error [goto error] gives. *)
Definition marith_finish (r : (list Z * bool) + list Z) : M server unit :=
  match r with
  | inr errstr => out_errstring errstr
  | inl (p, false) => put_wbuf 0 p;; out_errstring (str "CLIENT_ERROR opaque token too long")
  | inl (p, true) =>
      put_wbuf 0 (p ++ CRLF);;
      on_resp (fun r => r <| wbytes := zlen p + 2 |>);;
      resp_add_iov (IWbuf 0) (zlen p + 2);;
      conn_set_state conn_new_cmd
  end.

Definition marith_run (key : list Z) (fl : meta_flags) (incr : bool) (vs : list (list Z)) (es : nat -> alloc_env)
    : M server ((list Z * bool) + list Z) :=
  let hv := hash key in
  r ← in_mc (do_add_delta key incr (delta fl) (Some (req_cas_id fl)) hv true (es 0%nat));
  let '(res, tmpbuf, _, it) := r in
  let missing code := mret (inl (echo_flags vs key (key_binary fl) code)) in
  match res with
  | OK =>
      quiet ← co noreply;
      when quiet (on_resp (fun r => r <| skip := true |>));;
      r ← marith_answer it fl false key tmpbuf vs; mret (inl r)
  | NON_NUMERIC => mret (inr (str "CLIENT_ERROR cannot increment or decrement non-numeric value"))
  | EOM => mret (inr (str "SERVER_ERROR out of memory"))
  | DELTA_ITEM_CAS_MISMATCH => missing (str "EX ")
  | DELTA_ITEM_NOT_FOUND =>
      if vivify fl then
        let buf := llu (initial fl) in
        r ← marith_vivify key fl hv buf es;
        let '(it, item_created) := r in
        if decide (it = NULL) then mret (inr (str "SERVER_ERROR Out of memory allocating new item"))
        else r ← marith_answer it fl item_created key buf vs; mret (inl r)
      else counting (if incr then incr_misses else decr_misses);; missing (str "NF ")
  end.

Definition process_marithmetic_command (tokens : list token) (es : nat -> alloc_env) : M server unit :=
  let ntokens := zlen tokens in
  if ntokens <? 3 then out_string (str "ERROR")
  else
    klen ← length_of tokens KEY_TOKEN;
    if KEY_MAX_LENGTH <? klen then out_string BAD_FORMAT
    else if MFLAG_MAX_OPT_LENGTH <? ntokens then out_string (str "CLIENT_ERROR options flags too long")
    else
      pre ← meta_flag_preparse tokens 2 (flags_zero <| delta := 1 |>);
      let '(ok, s) := pre in
      if negb ok then out_errstring (str "CLIENT_ERROR invalid or duplicate flag")
      else
        let fl := pp_of s in
        on_conn (fun c => c <| noreply := no_reply fl |>);;
        let m := mode fl in
        let run incr := r ← marith_run (pp_key s) fl incr (flag_tokens tokens) es; marith_finish r in
        if (m =? 0) || (m =? chr "I") || (m =? chr "+") then run true
        else if (m =? chr "D") || (m =? chr "-") then run false
        else out_errstring (str "CLIENT_ERROR invalid mode for ma M token").
End meta.
