(* ===== verification/Commands.v ===== *)
(** * Reading and running text commands (proto_text.c)

    [process_command] tokenizes a line and picks the handler; [try_read_command_ascii]
    cuts the line off the read buffer; [complete_nread_ascii] stores the value that
    follows a set command.  Before a client is authenticated its lines go to
    [try_read_command_asciiauth]. *)

From S2P Require Import Prelude Memory Util Slabs Items Store Tokens Resp AuthFile Conn Text Meta.

(** What a command meets outside: the locks other threads hold at each of its
    allocations, whether [slabs_rebalance_lock] is free, and whether [malloc]
    of a bigger read buffer succeeds. *)
Record cmd_env := CmdEnv { ce_alloc : nat -> alloc_env; ce_rebalance : bool; ce_malloc : bool }.

Section commands.
Context `{HashFunction} `{ExtStorage} `{Subsystems}.

(** ** process_command *)

(** The [WANT_TOKENS] macros; -1 is no bound. *)
Definition WANT_TOKENS (ntokens lo hi : Z) (m : M server unit) : M server unit :=
  if (negb (lo =? -1) && (ntokens <? lo)) || (negb (hi =? -1) && (hi <? ntokens)) then out_string (str "ERROR") else m.
Definition WANT_TOKENS_OR (ntokens a b : Z) (m : M server unit) : M server unit :=
  if negb (ntokens =? a) && negb (ntokens =? b) then out_string (str "ERROR") else m.
Definition WANT_TOKENS_MIN (ntokens lo : Z) (m : M server unit) : M server unit :=
  if ntokens <? lo then out_string (str "ERROR") else m.

Definition process_meta (second : Z) (tokens : list token) (env : cmd_env) : M server unit :=
  if second =? chr "g" then process_mget_command tokens (ce_alloc env 0%nat)
  else if second =? chr "s" then process_mset_command tokens (ce_alloc env 0%nat)
  else if second =? chr "d" then process_mdelete_command tokens
  else if second =? chr "n" then out_string (str "MN");; conn_set_state conn_mwrite
  else if second =? chr "a" then process_marithmetic_command tokens (ce_alloc env)
  else if second =? chr "e" then process_meta_command tokens
  else out_string (str "ERROR").

(** The handler of the command word [w]. *)
Definition process_word (w : list Z) (tokens : list token) (env : cmd_env) : M server unit :=
  let n := zlen tokens in
  let named s := bool_decide (w = str s) in
  let update comm cas := process_update_command tokens comm cas (ce_alloc env 0%nat) in
  let first := Util.head w in
  if first =? chr "g" then
    WANT_TOKENS_MIN n 3
      (if named "get" then process_get_command tokens false false
       else if named "gets" then process_get_command tokens true false
       else if named "gat" then process_get_command tokens false true
       else if named "gats" then process_get_command tokens true true
       else out_string (str "ERROR"))
  else if first =? chr "s" then
    if named "set" then WANT_TOKENS_OR n 6 7 (update NREAD_SET false)
    else if named "stats" then process_stat tokens
    else if named "shutdown" then process_shutdown_command tokens
    else if named "slabs" then process_slabs_command tokens (ce_rebalance env)
    else out_string (str "ERROR")
  else if first =? chr "a" then
    if named "add" then WANT_TOKENS_OR n 6 7 (update NREAD_ADD false)
    else if named "append" then WANT_TOKENS_OR n 6 7 (update NREAD_APPEND false)
    else out_string (str "ERROR")
  else if first =? chr "c" then
    if named "cas" then WANT_TOKENS_OR n 7 8 (update NREAD_CAS true)
    else if named "cache_memlimit" then WANT_TOKENS_OR n 3 4 (process_memlimit_command tokens)
    else out_string (str "ERROR")
  else if first =? chr "i" then
    if named "incr" then WANT_TOKENS_OR n 4 5 (process_arithmetic_command tokens true (ce_alloc env 0%nat))
    else out_string (str "ERROR")
  else if first =? chr "d" then
    if named "delete" then WANT_TOKENS n 3 5 (process_delete_command tokens)
    else if named "decr" then WANT_TOKENS_OR n 4 5 (process_arithmetic_command tokens false (ce_alloc env 0%nat))
    else out_string (str "ERROR")
  else if first =? chr "t" then
    if named "touch" then WANT_TOKENS_OR n 4 5 (process_touch_command tokens) else out_string (str "ERROR")
  else if named "replace" then WANT_TOKENS_OR n 6 7 (update NREAD_REPLACE false)
  else if named "prepend" then WANT_TOKENS_OR n 6 7 (update NREAD_PREPEND false)
  else if named "bget" then WANT_TOKENS_MIN n 3 (process_get_command tokens false false)
  else if named "flush_all" then WANT_TOKENS n 2 4 (process_flush_all_command tokens)
  else if named "version" then process_version_command
  else if named "quit" then process_quit_command
  else if named "lru_crawler" then process_lru_crawler_command tokens
  else if named "watch" then process_watch_command tokens
  else if named "verbosity" then WANT_TOKENS_OR n 3 4 (process_verbosity_command tokens)
  else if named "lru" then WANT_TOKENS_MIN n 3 (process_lru_command tokens)
  else if named "extstore" then WANT_TOKENS_MIN n 3 (process_extstore_command tokens)
  else
    v ← value_of tokens (n - 2);
    if is_prefix (str "HTTP/") v then conn_set_state conn_closing else out_string (str "ERROR").

Definition process_command (command : list Z) (env : cmd_env) : M server unit :=
  ok ← resp_start;
  if negb ok then conn_set_state conn_closing
  else
    let tokens := tokenize_command command MAX_TOKENS in
    len ← length_of tokens COMMAND_TOKEN;
    if (zlen tokens <? 2) || (len <? 2) then out_string (str "ERROR")
    else
      w ← value_of tokens COMMAND_TOKEN;
      match w with
      | [109; second] => process_meta second tokens env
      | _ => process_word w tokens env
      end.

(** ** complete_nread_ascii *)

(** The two bytes that end the value; those of a chunked value may lie in two
    chunks. *)
Definition value_end (it : ptr) (i : item) : M server (list Z) :=
  if negb (has_flag i ITEM_CHUNKED) then mret (peek (nbytes i - 2) 2 (it_data i))
  else
    c ← co id;
    ch ← in_mc (load (fst (ritem c)));
    let used := ch_used ch in
    massert (negb (used =? 0));;
    if 1 <? used then mret (peek (used - 2) 2 (it_data ch))
    else
      before ← in_mc (load (prev ch));
      massert (used =? 1);;
      mret (peek (ch_used before - 1) 1 (it_data before) ++ peek 0 1 (it_data ch)).

Definition store_answer (ret : store_item_type) : list Z :=
  match ret with
  | STORED => str "STORED" | EXISTS => str "EXISTS" | NOT_FOUND => str "NOT_FOUND" | NOT_STORED => str "NOT_STORED"
  | _ => str "SERVER_ERROR Unhandled storage type."
  end.

(** A chunked value with another end fails an assertion. *)
Definition complete_nread_ascii (es : nat -> alloc_env) : M server unit :=
  it ← co c_item;
  i ← in_mc (load it);
  counting (set_cmds (ITEM_clsid i));;
  tail2 ← value_end it i;
  mset ← co mset_res;
  (if decide (tail2 = CRLF) then
     code ← co cmd;
     comm ← lift (nread_of code);
     stale ← co set_stale;
     r ← in_mc (store_item it comm stale es);
     let '(ret, cas) := r in
     when (bool_decide (ret = STORED)) (on_conn (fun c => c <| c_cas := default 0 cas |>));;
     (if mset : bool then finalize_mset ret else out_string (store_answer ret))
   else
     massert (negb (has_flag i ITEM_CHUNKED));;
     when mset (on_conn (fun c => c <| noreply := false |>));;
     out_string (str "CLIENT_ERROR bad data chunk"));;
  on_conn (fun c => c <| set_stale := false |> <| mset_res := false |>);;
  in_mc (item_remove it);;
  on_conn (fun c => c <| c_item := NULL |>).

(** ** Reading a command *)

(** [memchr(s, '\n', n)]: the bytes before the first newline and those behind it. *)
Fixpoint split_line (s : list Z) : option (list Z * list Z) :=
  match s with
  | [] => None
  | c :: s => if c =? 10 then Some ([], s) else '(l, rest) ← split_line s; Some (c :: l, rest)
  end.
(** The C string at the start of [s]. *)
Fixpoint c_string (s : list Z) : list Z :=
  match s with [] => [] | c :: s => if c =? 0 then [] else c :: c_string s end.
(** The line without a carriage return before its end. *)
Definition strip_cr (line : list Z) : list Z :=
  if (1 <? zlen line) && bool_decide (last line = Some 13) then removelast line else line.
Fixpoint skip_spaces (s : list Z) : list Z :=
  match s with c :: s' => if c =? 32 then skip_spaces s' else s | [] => [] end.

(** A long line without an end must be a multiget, which may grow; the result is 1
    for true. *)
Definition long_line : M server bool :=
  c ← co id;
  let p := skip_spaces (rcurr c) in
  if (100 <? rbytes c - zlen p) || negb (is_prefix (str "get ") p || is_prefix (str "gets ") p)
  then conn_set_state conn_closing;; mret true
  else mret false.

Definition try_read_command_ascii (env : cmd_env) : M server bool :=
  c ← co id;
  if rbytes c =? 0 then mret false
  else match split_line (rcurr c) with
  | None =>
      if 1024 <? rbytes c then
        closed ← long_line;
        if closed : bool then mret true
        else if rbuf_malloced c then mret false
        else
          ok ← rbuf_switch_to_malloc (ce_malloc env);
          if ok : bool then mret false else conn_set_state conn_closing;; mret true
      else mret false
  | Some (line, rest) =>
      t ← now;
      on_conn (fun c => c <| last_cmd_time := t |>);;
      process_command (c_string (strip_cr line)) env;;
      on_conn (fun c => c <| rcurr := rest |>);;
      mret true
  end.

(** ** Authentication *)

(** A response object, if the connection has none; false when there is none left
    and the connection closes. *)
Definition ensure_resp : M server bool :=
  c ← co id;
  if decide (resps c = []) then
    ok ← resp_start;
    if ok : bool then mret true else conn_set_state conn_closing;; mret false
  else mret true.

(** The first line names the size of the credentials.  The results are 0, 1 and
    going on. *)
Definition auth_header : M server (option bool) :=
  c ← co id;
  if rbytes c <? 2 then mret (Some false)
  else match split_line (rcurr c) with
  | None => if 1024 <? rbytes c then conn_set_state conn_closing;; mret (Some true) else mret (Some false)
  | Some (line, rest) =>
      let tokens := tokenize_command (c_string line) MAX_TOKENS in
      on_conn (fun c => c <| rcurr := rest |>);;
      first ← lift (tok tokens 0);
      let size := match tok tokens 4 ≫= tok_value with Some v => safe_strtoul v | None => (false, 0) end in
      if (zlen tokens <? 6) || negb (bool_decide (tok_value first = Some (str "set"))) || negb (fst size) then
        ok ← ensure_resp;
        when ok (out_string (str "CLIENT_ERROR unauthenticated"));;
        mret (Some true)
      else
        on_conn (fun c => c <| rlbytes := s32 (u32 (snd size + 2)) |> <| sasl_started := true |>);;
        mret None
  end.

(** The credentials; moving back in the buffer, or reading before the unread bytes,
    is undefined. *)
Definition auth_check : M server unit :=
  c ← co id;
  massert (2 <=? rlbytes c);;
  let cont := ztake (rlbytes c) (rcurr c) in
  on_conn (fun c => c <| rcurr ::= zdrop (rlbytes c) |> <| sasl_started := false |>);;
  if negb (bool_decide (zdrop (rlbytes c - 2) cont = CRLF)) then
    out_string (str "CLIENT_ERROR bad command line termination")
  else
    let tokens := tokenize_command (c_string (ztake (rlbytes c - 2) cont)) MAX_TOKENS in
    if zlen tokens <? 3 then out_string (str "CLIENT_ERROR bad authentication token format")
    else
      u ← value_of tokens 0; p ← value_of tokens 1;
      a ← gets s_auth;
      if authfile_check a u p then
        out_string (str "STORED");;
        on_conn (fun c => c <| authenticated := true |> <| try_read_command := try_ascii |>);;
        counting auth_cmds
      else
        out_string (str "CLIENT_ERROR authentication failure");;
        counting auth_cmds;; counting auth_errors.

Definition try_read_command_asciiauth : M server bool :=
  started ← co sasl_started;
  r ← (if started : bool then mret None else auth_header);
  match r with
  | Some b => mret b
  | None =>
      c ← co id;
      if rbytes c <? rlbytes c then mret false
      else ok ← ensure_resp; when ok auth_check;; mret true
  end.
End commands.
