(* ===== verification/GetProps.v ===== *)
(** * The get command, proved

    [process_get_command] answers a multi-key get with the live entries of the
    cache, in the order of the keys, and changes nothing that is served. *)

From S2P Require Import Prelude BipBuffer Itoa Memory Dll Assoc AssocSpec AssocIter Slabs SlabsSpec SlabPages SlabAlloc SlabProps.
From S2P Require Import Items LruSpec Parts CacheSpec CacheAlloc CacheProps CacheMove Store StoreSpec StoreProps StoreJoin.
From S2P Require Import Tokens Resp AuthFile StatsPrefix Conn Transmit TransmitProps FetchProps Text Meta Commands.

Section get.
Context `{HashFunction} `{ExtStorage} `{Subsystems}.
Implicit Types (w : mc) (A : gmap (list Z) ptr) (Q F U : Z -> list ptr) (r : mc_resp) (s : server).

(** ** The answer *)

(** What a get or gets answers for a key that is served. *)
Definition value_reply (return_cas : bool) (key : list Z) (e : entry) : list Z :=
  str "VALUE " ++ key ++ [32] ++ llu (e_flags e) ++ [32] ++ llu (zlen (e_data e) - 2)
  ++ (if return_cas then [32] ++ llu (e_cas e) else []) ++ CRLF ++ e_data e.
Definition key_reply (return_cas : bool) (m : gmap (list Z) entry) (key : list Z) : list Z :=
  match m !! key with Some e => value_reply return_cas key e | None => [] end.

Lemma llu_numeral n : 0 <= n < 2 ^ 64 -> itoa_u64 n [] = Some (llu n) /\ numeral n (llu n).
Proof. intros Hn. unfold llu. destruct (itoa_u64_digits n [] Hn) as (ds & -> & Hd). by split. Qed.
Lemma itoa_u64_llu n p : 0 <= n < 2 ^ 64 -> itoa_u64 n p = Some (p ++ llu n).
Proof.
  intros Hn. destruct (itoa_u64_digits n p Hn) as (ds & -> & Hd). do 2 f_equal.
  apply (numeral_unique n); [done|by apply llu_numeral].
Qed.
Lemma itoa_u32_llu n p : 0 <= n < 2 ^ 32 -> itoa_u32 n p = Some (p ++ llu n).
Proof.
  intros Hn. destruct (itoa_u32_digits n p Hn) as (ds & -> & Hd). do 2 f_equal.
  apply (numeral_unique n); [done|apply llu_numeral; lia].
Qed.

(** The header line is that of [value_reply]. *)
Lemma suffix_ok n w it cas p :
  servable n w it ->
  exists h, make_ascii_get_suffix it cas p = Some (p ++ h)
    /\ h ++ ITEM_data it = [32] ++ llu (FLAGS_CONV it) ++ [32] ++ llu (nbytes it - 2)
         ++ (if cas then [32] ++ llu (ITEM_get_cas it) else []) ++ CRLF ++ ITEM_data it
    /\ zlen h <= 45.
Proof.
  intros [_ _ _ Hf Hc Hz].
  exists ([32] ++ llu (FLAGS_CONV it) ++ [32] ++ llu (nbytes it - 2)
     ++ (if cas then [32] ++ llu (ITEM_get_cas it) else []) ++ CRLF).
  assert (forall p, (if has_flag it ITEM_CFLAGS then itoa_u32 (it_cflags it) p else Some (p ++ str "0")) = Some (p ++ llu (FLAGS_CONV it))) as Ef.
  { intros p'. unfold FLAGS_CONV in *. destruct (has_flag it ITEM_CFLAGS); [by apply itoa_u32_llu|]. do 2 f_equal. }
  assert (u32 (nbytes it - 2) = nbytes it - 2) as En by (apply u32_id; lia).
  split; [|split].
  - unfold make_ascii_get_suffix. rewrite Ef. cbn [mbind option_bind]. rewrite En, itoa_u32_llu by lia. cbn [mbind option_bind].
    destruct cas; [rewrite itoa_u64_llu by done|]; cbn [mbind option_bind]; by rewrite <- ?app_assoc.
  - by rewrite <- !app_assoc.
  - assert (zlen (llu (FLAGS_CONV it)) <= 10) by (apply (numeral_length_le (FLAGS_CONV it)); [apply llu_numeral; lia|lia|lia]).
    assert (zlen (llu (nbytes it - 2)) <= 10) by (apply (numeral_length_le (nbytes it - 2)); [apply llu_numeral; lia|lia|lia]).
    assert (zlen (llu (ITEM_get_cas it)) <= 20) by (apply (numeral_length_le (ITEM_get_cas it)); [apply llu_numeral; lia|lia|lia]).
    rewrite !zlen_app. change (zlen [32]) with 1. change (zlen CRLF) with 2.
    destruct cas; rewrite ?zlen_app, ?zlen_nil; change (zlen [32]) with 1; lia.
Qed.

(** ** The last response *)

Definition set_last s (rs : list mc_resp) r : server := s <| s_conn ::= fun c => c <| resps := rs ++ [r] |> |>.

Lemma set_last_id s rs r : resps (s_conn s) = rs ++ [r] -> set_last s rs r = s.
Proof. intros E. unfold set_last. rewrite <- E. destruct s as [m k c o g l x a i u]. by destruct c. Qed.
Lemma run_resp s rs r : resps (s_conn s) = rs ++ [r] -> resp s = Some (r, s).
Proof. intros E. unfold resp, last_resp. run. unfold id. rewrite E, last_snoc. by run. Qed.
Lemma run_on_resp f s rs r : resps (s_conn s) = rs ++ [r] -> on_resp f s = Some (tt, set_last s rs (f r)).
Proof.
  intros E. unfold on_resp. run. rewrite (run_resp s rs r E). run. do 2 f_equal. unfold set_last.
  assert (on_last f (resps (s_conn s)) = rs ++ [f r]) as E'
    by (rewrite E; unfold on_last; by rewrite last_snoc, removelast_last).
  destruct s as [m k c o g l x a i u]; destruct c; cbn in *. by rewrite <- E'.
Qed.

Lemma holders_snoc rs r p : holders (rs ++ [r]) p = holders rs p + (if decide (r_item r = p) then 1 else 0).
Proof.
  unfold holders. rewrite filter_app, zlen_app. f_equal. rewrite filter_cons. case_decide; done.
Qed.
Lemma holders_nonneg rs p : 0 <= holders rs p.
Proof. apply zlen_nonneg. Qed.

(** The last response gets another content, and perhaps an item that is kept for it. *)
Lemma sending_set_last s A Q F U rs r r' :
  sending s A Q F U -> resps (s_conn s) = rs ++ [r] -> resp_ok r' -> loc r' = loc r ->
  (r_item r' = r_item r \/ r_item r = NULL /\ exists d, kept (s_mc s) A Q U (r_item r') (holders rs (r_item r') + 1) d) ->
  sending (set_last s rs r') A Q F U.
Proof.
  intros [HC HW HL HU HO HI] Er Hok El Ei. rewrite Er in *. unfold set_last. split; upds; [done|done| | | |].
  - rewrite fmap_app in *. cbn [fmap list_fmap] in *. by rewrite El.
  - intros x [Hx|Hx]%elem_of_app; [apply HU, elem_of_app; by left|apply list_elem_of_singleton in Hx as ->].
    rewrite El. apply HU, elem_of_app. right. by left.
  - apply Forall_app in HO as [HO _]. apply Forall_app. split; [done|by apply Forall_singleton].
  - intros p Hp Hh. specialize (HI p Hp). rewrite !holders_snoc in *. destruct Ei as [Ei|(En & d & Hd)]; [rewrite Ei in *; by apply HI|].
    rewrite En in HI. rewrite (decide_False (P := NULL = p)) in HI by congruence.
    destruct (decide (r_item r' = p)) as [<-|]; [by exists d|]. apply HI. lia.
Qed.

Lemma pending_set_last s rs r :
  pending (set_last s rs r) = concat (resp_text (heap (s_mc s)) <$> rs) ++ resp_text (heap (s_mc s)) r.
Proof. unfold pending, set_last. upds. rewrite fmap_app, concat_app. cbn. by rewrite app_nil_r. Qed.
Lemma pending_last s rs r :
  resps (s_conn s) = rs ++ [r] -> pending s = concat (resp_text (heap (s_mc s)) <$> rs) ++ resp_text (heap (s_mc s)) r.
Proof. intros E. rewrite <- (set_last_id s rs r E) at 1. apply pending_set_last. Qed.

(** A change of the shared state that keeps what responses hold. *)
Lemma sending_mc s w' A Q F U A' Q' F' U' :
  sending s A Q F U -> cache_inv w' A' Q' F' U' ->
  (forall p n d, 1 <= n -> kept (s_mc s) A Q U p n d -> kept w' A' Q' U' p n d) ->
  sending (s <| s_mc := w' |>) A' Q' F' U' /\ pending (s <| s_mc := w' |>) = pending s.
Proof.
  intros [HC HW HL HU HO HI] HC' HK. split.
  - split; try done. intros p Hp Hh. destruct (HI p Hp Hh) as [d Hd]. exists d. by apply HK.
  - unfold pending. upds. f_equal. apply list_fmap_ext. intros i r Hr%list_elem_of_lookup_2.
    rewrite Forall_forall in HO. apply resp_text_eq; [by apply HO|]. intros Hn.
    pose proof (holders_in _ _ Hr) as Hh. destruct (HI _ Hn Hh) as [d Hd].
    by rewrite (kept_data _ _ _ _ _ _ _ Hd), (kept_data _ _ _ _ _ _ _ (HK _ _ _ Hh Hd)).
Qed.

(** ** One key *)

(** An object as [resp_start] leaves it. *)
Record fresh r : Prop := {
  fr_iov : iov r = [] /\ tosend r = 0;
  fr_item : r_item r = NULL;
  fr_plain : chunked_data_iov r = 0 /\ io_pending r = 0 /\ skip r = false;
  fr_wbuf : zlen (wbuf r) = WRITE_BUFFER_SIZE
}.
Lemma fresh_ok r : fresh r -> resp_ok r.
Proof. intros [[Ei Et] _ (E1 & E2 & _) _]. split; [done|by rewrite Ei|by rewrite Ei|by rewrite Ei, Et]. Qed.
Lemma fresh_text r h : fresh r -> resp_text h r = [].
Proof. intros [[Ei _] _ (_ & _ & Es) _]. unfold resp_text. by rewrite Es, Ei. Qed.

Lemma run_put_wbuf s rs r bytes :
  resps (s_conn s) = rs ++ [r] -> zlen bytes <= zlen (wbuf r) ->
  put_wbuf 0 bytes s = Some (tt, set_last s rs (r <| wbuf := bytes ++ zdrop (zlen bytes) (wbuf r) |>)).
Proof.
  intros E Hz. unfold put_wbuf. run. rewrite (run_resp s rs r E). run.
  rewrite memcpy_at_defined by lia. run. by rewrite (run_on_resp _ s rs r E).
Qed.
Lemma run_add_iov s rs r b len :
  resps (s_conn s) = rs ++ [r] -> zlen (iov r) < MC_RESP_IOVCOUNT -> 0 <= len < 2 ^ 31 ->
  resp_add_iov b len s
  = Some (tt, set_last s rs (r <| iov ::= fun l => l ++ [Iovec b len] |> <| tosend ::= fun n => s32 (n + len) |>)).
Proof.
  intros E Hz Hl. unfold resp_add_iov. rewrite (s32_id len), u64_id by lia. run. rewrite (run_resp s rs r E). run. rewrite (proj2 (Z.ltb_lt _ _)) by done. run.
  by rewrite (run_on_resp _ s rs r E).
Qed.
Lemma set_last_resps s rs r : resps (s_conn (set_last s rs r)) = rs ++ [r].
Proof. done. Qed.

(** The object of a hit: the header line [p] and the value of [q]. *)
Definition hit_resp r (p : list Z) (q : ptr) (n : Z) : mc_resp :=
  r <| wbuf := (p ++ [0]) ++ zdrop (zlen (p ++ [0])) (wbuf r) |>
    <| iov := [Iovec (IWbuf 0) (zlen p); Iovec (IItem q 0) n] |> <| tosend := zlen p + n |> <| r_item := q |>.

Lemma hit_resp_ok r p q n :
  fresh r -> zlen p + 1 <= WRITE_BUFFER_SIZE -> q <> NULL -> 0 <= n -> resp_ok (hit_resp r p q n).
Proof.
  intros [_ _ (E1 & E2 & _) Ew] Hp Hq Hn. pose proof (zlen_nonneg p). split; [done| |by vm_compute|].
  - apply Forall_cons; split; [|apply Forall_singleton; by split].
    split; [done|]. split; [done|]. unfold hit_resp. upds. rewrite !zlen_app. change (zlen [0]) with 1.
    pose proof (zlen_nonneg (zdrop (zlen p + 1) (wbuf r))). cbn [iov_len]. lia.
  - unfold hit_resp. upds. cbn. lia.
Qed.
Lemma hit_resp_text r p q n h it :
  fresh r -> h !! q = Some it -> n = nbytes it -> resp_text h (hit_resp r p q n) = p ++ ITEM_data it.
Proof.
  intros [_ _ (_ & _ & Es) _] Hq ->. unfold resp_text, hit_resp. upds. rewrite Es. cbn [fmap list_fmap concat]. rewrite app_nil_r. f_equal.
  - unfold iov_text. upds. cbn [base iov_len]. unfold slice, ztake, zdrop. rewrite Z.add_0_l, Z.sub_0_r, drop_0, <- app_assoc.
    apply take_app_length'. unfold zlen. lia.
  - unfold iov_text, data_at. cbn [base iov_len]. by rewrite Hq.
Qed.

(** The counters of a hit. *)
Definition hit_counters (it : item) s : server := counted 1 get_cmds (counted 1 (lru_hits (it_clsid it)) s).

Lemma get_one_hit key cas s rs r w' q it p :
  limited_get key 0 false true (s_mc s) = Some ((q, false), w') -> detail_enabled (s_options s) = false ->
  resps (s_conn s) = rs ++ [r] -> fresh r -> q <> NULL -> heap w' !! q = Some it ->
  has_flag it ITEM_HDR = false -> has_flag it ITEM_CHUNKED = false ->
  make_ascii_get_suffix it cas (str "VALUE " ++ ITEM_key it) = Some p ->
  zlen p + 1 <= WRITE_BUFFER_SIZE -> 0 <= nbytes it < 2 ^ 30 ->
  get_one key 0 cas false s = Some (true, set_last (hit_counters it (s <| s_mc := w' |>)) rs (hit_resp r p q (nbytes it))).
Proof.
  intros El Ed Er Hf Hq Hi Hh Hc Hs Hp Hn. pose proof Hf as [[Ei Et] En (E1 & E2 & E3) Ew]. pose proof (zlen_nonneg p).
  unfold get_one. run. rewrite El. run. upds. rewrite Ed. run. rewrite decide_False by done. run. upds.
  rewrite (load_ok q it) by done. run. rewrite Hs. run.
  set (s1 := s <| s_mc := w' |>). assert (s1 <| s_mc := w' |> = s1) as Es1 by done. rewrite ?Es1.
  rewrite (run_put_wbuf s1 rs r) by (done || (rewrite Ew, zlen_app; change (zlen [0]) with 1; lia)). run.
  set (r1 := r <| wbuf := _ |>). rewrite (run_add_iov (set_last s1 rs r1) rs r1) by (done || (unfold r1; upds; by rewrite Ei) || (change WRITE_BUFFER_SIZE with 1024 in *; lia)). run.
  set (r2 := r1 <| iov ::= _ |> <| tosend ::= _ |>). change (set_last (set_last s1 rs r1) rs r2) with (set_last s1 rs r2).
  unfold add_value. run. change (s_mc (set_last s1 rs r2)) with w'. rewrite (load_ok q it) by done. run. rewrite Hh, Hc. run.
  assert ((set_last s1 rs r2) <| s_mc := w' |> = set_last s1 rs r2) as -> by done.
  rewrite (run_add_iov (set_last s1 rs r2) rs r2) by (done || (unfold r2, r1; upds; by rewrite Ei) || lia). run.
  set (r3 := r2 <| iov ::= _ |> <| tosend ::= _ |>). change (set_last (set_last s1 rs r2) rs r3) with (set_last s1 rs r3).
  cbn [negb]. run. change (s_mc (set_last s1 rs r3)) with w'. rewrite (load_ok q it) by done. run.
  assert ((set_last s1 rs r3) <| s_mc := w' |> = set_last s1 rs r3) as -> by done. rewrite Hh. cbn [negb].
  unfold counting, count. run. rewrite !run_count_by. run. rewrite !run_count_by. run.
  assert (r3 <| r_item := q |> = hit_resp r p q (nbytes it)) as <-.
  { unfold r3, r2, r1, hit_resp. upds. change WRITE_BUFFER_SIZE with 1024 in *.
    assert (iov r ++ [Iovec (IWbuf 0) (zlen p)] = [Iovec (IWbuf 0) (zlen p)]) as Ei' by (by rewrite Ei).
    assert (s32 (s32 (tosend r + zlen p) + nbytes it) = zlen p + nbytes it) as Et' by (rewrite Et, (s32_id (0 + zlen p)), s32_id; lia).
    destruct r; cbn in *. unfold upd, upd_wbuf, upd_iov, upd_tosend, upd_r_item. cbn. by rewrite Ei, Et'. }
  by rewrite (run_on_resp _ _ rs r3).
Qed.

Lemma get_one_miss key cas s w' :
  limited_get key 0 false true (s_mc s) = Some ((NULL, false), w') -> detail_enabled (s_options s) = false ->
  get_one key 0 cas false s = Some (true, counted 1 get_cmds (counted 1 get_misses (s <| s_mc := w' |>))).
Proof.
  intros El Ed. unfold get_one. run. rewrite El. run. upds. rewrite Ed. run. rewrite decide_True by done.
  unfold counting, count. run. rewrite !run_count_by. run. rewrite !run_count_by. by run.
Qed.

(** A connection that can answer [n / 2] more keys. *)
Record ready (n : Z) s A Q F U : Prop := {
  rd_sending : sending s A Q F U;
  rd_room : all_servable n (s_mc s) A;
  rd_bumpable : bumpable (s_mc s);
  rd_segmented : lru_segmented (mc_settings (s_mc s)) = true;
  rd_cache : rbuf_cache_ok (s_worker s) = [];
  rd_detail : detail_enabled (s_options s) = false
}.
Lemma ready_counted n c s A Q F U m : ready n s A Q F U -> ready n (counted m c s) A Q F U.
Proof. intros [R1 R2 R3 R4 R5 R6]. split; [by apply sending_counted|intros k p it Hk Hp; apply (servable_content n (s_mc s) _ it it); [by apply (R2 k p)|apply content_refl|done]|exact R3|exact R4|exact R5|exact R6]. Qed.

(** A response the closing line still fits. *)
Record roomy r : Prop := {
  rm_ok : resp_ok r;
  rm_iov : zlen (iov r) <= 2;
  rm_tosend : tosend r < 2 ^ 30 + 2 ^ 10;
  rm_skip : skip r = false
}.
Lemma fresh_roomy r : fresh r -> roomy r.
Proof.
  intros Hf. pose proof Hf as [[Ei Et] _ (_ & _ & Es) _]. split; [by apply fresh_ok|by rewrite Ei|by rewrite Et|done].
Qed.

(** From [s] to [s']: [out] is appended to what is pending, and nothing that is served
    changes. *)
Definition answers s A (out : list Z) s' A' (rs : list mc_resp) r : Prop :=
  s_conn s' = s_conn s <| resps := rs ++ [r] |> /\ pending s' = pending s ++ out
  /\ live (s_mc s') A' = live (s_mc s) A /\ outside s' = outside s /\ (filled s -> filled s').

Lemma get_one_ok n key cas s A Q F U rs r :
  ready (n + 2) s A Q F U -> 0 <= n -> resps (s_conn s) = rs ++ [r] -> fresh r -> zlen key <= KEY_MAX_LENGTH ->
  exists s' A' Q' F' U' r', get_one key 0 cas false s = Some (true, s') /\ ready n s' A' Q' F' U' /\ roomy r'
    /\ answers s A (key_reply cas (live (s_mc s) A) key) s' A' rs r'.
Proof.
  intros HR Hn Er Hf Hk. destruct HR as [R1 R2 R3 R4 R5 R6].
  destruct (limited_get_ok n (s_mc s) A Q F U key (sd_cache _ _ _ _ _ R1) Hn R2 R3 R4)
    as (q & w' & A' & Q' & F' & U' & El & HC' & [L1 L2 L3 (L4 & L5 & L6)] & Hm).
  destruct (sending_mc s w' A Q F U A' Q' F' U' R1 HC' L2) as [HS Ep].
  assert (ready n (s <| s_mc := w' |>) A' Q' F' U') as HR'.
  { split; [done|done|done| |done|done]. upds. by rewrite L4. }
  unfold key_reply. destruct (live (s_mc s) A !! key) as [e|] eqn:Ee.
  - destruct Hm as (Hq & it & HI & He & HSv & Hk1 & Hkn). pose proof HI as [I1 _ I3 (_ & _ & I6) _ _ _].
    pose proof (sv_size _ _ _ HSv) as Hz.
    destruct (suffix_ok n w' it cas (str "VALUE " ++ ITEM_key it) HSv) as (h & Es & Eh & Hh).
    set (p := (str "VALUE " ++ ITEM_key it) ++ h) in *.
    assert (zlen p + 1 <= WRITE_BUFFER_SIZE) as Hp.
    { unfold p. rewrite !zlen_app, I3. change (zlen (str "VALUE ")) with 6. change KEY_MAX_LENGTH with 250 in Hk.
      change WRITE_BUFFER_SIZE with 1024. lia. }
    set (s1 := hit_counters it (s <| s_mc := w' |>)). set (r' := hit_resp r p q (nbytes it)).
    assert (ready n s1 A' Q' F' U') as HR1 by (by apply ready_counted, ready_counted).
    assert (resps (s_conn s1) = rs ++ [r]) as Er1 by done.
    assert (resp_ok r') as Hok by (apply hit_resp_ok; [done|done|done|lia]).
    exists (set_last s1 rs r'), A', Q', F', U', r'. split; [|split; [|split]].
    + apply (get_one_hit key cas s rs r w' q it p); try done; [apply (sv_hdr _ _ _ HSv)|lia].
    + destruct HR1 as [_ T2 T3 T4 T5 T6]. split; try done.
      change (sending (hit_counters it (set_last (s <| s_mc := w' |>) rs r')) A' Q' F' U'). unfold hit_counters.
      apply sending_counted, sending_counted, (sending_set_last _ A' Q' F' U' rs r r'); try done.
      right. split; [apply Hf|]. change (r_item r') with q. pose proof (holders_nonneg rs q).
      destruct (decide (1 <= holders rs q)) as [Hh1|Hh1].
      * destruct (sd_items _ _ _ _ _ R1 q Hq) as [d Hd]; [rewrite Er, holders_snoc; case_decide; lia|].
        exists d. apply (kept_weaken _ _ _ _ _ (holders (resps (s_conn s)) q + 1)); [by apply Hkn|].
        rewrite Er, holders_snoc. case_decide; lia.
      * exists (it_data it). replace (holders rs q) with 0 by lia. exact Hk1.
    + split; [done|by vm_compute|unfold r', hit_resp; upds; change WRITE_BUFFER_SIZE with 1024 in Hp; lia|].
      apply Hf.
    + split; [done|]. split; [|split; [done|split; [done|]]]; last first.
      { unfold filled. rewrite Er. intros [Hf0 _]%Forall_app. apply Forall_app. split; [exact Hf0|].
        apply Forall_singleton. intros _. unfold r', hit_resp. upds. pose proof (zlen_nonneg p). lia. }
      rewrite pending_set_last. change (heap (s_mc s1)) with (heap w'). unfold r'.
      rewrite (hit_resp_text r p q (nbytes it) (heap w') it) by done.
      rewrite <- Ep. rewrite (pending_last (s <| s_mc := w' |>) rs r) by done. change (heap (s_mc (s <| s_mc := w' |>))) with (heap w').
      rewrite (fresh_text r) by done. rewrite app_nil_r. f_equal. unfold p. rewrite <- !app_assoc, Eh. rewrite I3.
      unfold value_reply. rewrite <- He. cbn [e_flags e_data e_cas entry_of].
      by rewrite ITEM_data_length by lia.
  - subst q. eexists _, A', Q', F', U', r. split; [by apply get_one_miss|].
    split; [by apply ready_counted, ready_counted|]. split; [by apply fresh_roomy|].
    split; [change (s_conn s = s_conn s <| resps := rs ++ [r] |>); rewrite <- Er; by destruct (s_conn s)|]. split; [|by split].
    rewrite app_nil_r. exact Ep.
Qed.

(** ** All keys *)

Lemma resp_start_ok n s A Q F U :
  ready n s A Q F U ->
  exists r s', resp_start s = Some (true, s') /\ ready n s' A Q F U /\ fresh r
    /\ s_conn s' = s_conn s <| resps := resps (s_conn s) ++ [r] |> /\ pending s' = pending s
    /\ s_mc s' = s_mc s /\ outside s' = outside s /\ (filled s -> filled s').
Proof.
  intros [[HC HW HL HU HO HI] R2 R3 R4 R5 R6].
  destruct (resp_allocate_ok (s_worker s) HW) as (o & k & E & HW' & Ha & Hok). destruct (Hok R5) as [R5' [l ->]].
  inversion Ha as [? ? Hl Hk|]; subst. unfold resp_start. run. rewrite E. run.
  set (r := if IS_UDP _ then _ else _).
  assert (fresh r /\ loc r = l) as [Hf El] by (unfold r; by destruct (IS_UDP _)).
  set (k' := k <| response_obj_count ::= fun n => u64 (n + 1) |>).
  set (s' := s <| s_worker := k' |> <| s_conn ::= fun c => c <| resps ::= fun l => l ++ [r] |> |>).
  assert (resps (s_conn s') = resps (s_conn s) ++ [r]) as Er by done.
  exists r, s'. split; [done|]. split; [|split; [done|split; [|split; [|split; [done|split; [done|]]]]]].
  - split; try done. split; rewrite ?Er; [done| | | | |].
    + by destruct HW'.
    + rewrite fmap_app. apply NoDup_app. split; [done|]. split; [|apply NoDup_singleton].
      intros x Hx Hx'. apply list_elem_of_singleton in Hx'. subst x.
      apply list_elem_of_fmap in Hx as (r0 & E0 & Hr0). apply Hl. rewrite <- El, E0. by apply HU.
    + intros r0 [Hr|Hr]%elem_of_app; change (in_use k (loc r0)); apply Hk; [right; by apply HU|].
      apply list_elem_of_singleton in Hr as ->. by left.
    + apply Forall_app. split; [done|apply Forall_singleton; by apply fresh_ok].
    + intros p Hp. rewrite holders_snoc, (fr_item _ Hf). rewrite decide_False by congruence. rewrite Z.add_0_r. by apply HI.
  - unfold s'. upds. by destruct (s_conn s).
  - unfold pending. rewrite Er, fmap_app, concat_app. change (s_mc s') with (s_mc s). cbn.
    by rewrite fresh_text, !app_nil_r.
  - unfold filled. rewrite Er. intros Hl0. apply Forall_app. split; [done|]. apply Forall_singleton. intros Hn.
    by rewrite (proj1 (fr_iov _ Hf)) in Hn.
Qed.

Definition key_word (k : list Z) : Prop := is_word k /\ zlen k <= KEY_MAX_LENGTH.
Lemma key_word_length k : key_word k -> 0 < zlen k.
Proof. intros [[Hn _] _]. destruct k; [done|]. rewrite zlen_cons. pose proof (zlen_nonneg k). lia. Qed.

(** Answering several keys: one response each. *)
Definition answered (n : Z) cas s A (ks : list (list Z)) s' : Prop :=
  exists A' Q' F' U' rs r, ready n s' A' Q' F' U' /\ roomy r
    /\ answers s A (concat (key_reply cas (live (s_mc s) A) <$> ks)) s' A' rs r.

Lemma answers_trans s A out1 s1 A1 rs1 r1 out2 s2 A2 rs2 r2 :
  answers s A out1 s1 A1 rs1 r1 -> answers s1 A1 out2 s2 A2 rs2 r2 -> answers s A (out1 ++ out2) s2 A2 rs2 r2.
Proof.
  intros (C1 & P1 & L1 & O1 & T1) (C2 & P2 & L2 & O2 & T2). split; [rewrite C2, C1; by destruct (s_conn s)|].
  split; [by rewrite P2, P1, app_assoc|]. split; [congruence|]. split; [congruence|]. auto.
Qed.

Lemma get_tokens_ok n cas rest ks s A Q F U rs r :
  Forall key_word ks -> ready (n + 2 * zlen ks) s A Q F U -> 0 <= n -> resps (s_conn s) = rs ++ [r] -> fresh r ->
  exists s', get_tokens ((word_token <$> ks) ++ [Token rest 0]) 0 cas false s = Some (inr rest, s')
    /\ answered n cas s A ks s'.
Proof.
  intros Hks. revert s A Q F U rs r. induction Hks as [|k ks Hk Hks IH]; intros s A Q F U rs r HR Hn Er Hf.
  - exists s. split; [done|]. exists A, Q, F, U, rs, r. change (zlen []) with 0 in HR; rewrite Z.add_0_r in HR. split; [done|].
    split; [by apply fresh_roomy|]. split; [rewrite <- Er; by destruct (s_conn s)|]. split; [|done]. cbn. by rewrite app_nil_r.
  - pose proof (key_word_length k Hk) as Hk0. destruct Hk as [_ Hk]. pose proof (zlen_nonneg ks).
    rewrite zlen_cons in HR. replace (n + 2 * (1 + zlen ks)) with (n + 2 * zlen ks + 2) in HR by lia.
    destruct (get_one_ok _ k cas s A Q F U rs r HR) as (s1 & A1 & Q1 & F1 & U1 & r1 & E1 & HR1 & Hr1 & HA1); [lia|done..|].
    cbn [fmap list_fmap app get_tokens word_token tok_length tok_value]. rewrite (proj2 (Z.eqb_neq (zlen k) 0)) by lia.
    rewrite (proj2 (Z.ltb_ge _ _)) by done. run. rewrite E1. cbn [negb]. run.
    destruct ks as [|k2 ks].
    + cbn. exists s1. split; [done|]. exists A1, Q1, F1, U1, rs, r1. change (zlen []) with 0 in HR1; rewrite Z.add_0_r in HR1.
      split; [done|]. split; [done|]. cbn. by rewrite app_nil_r.
    + cbn [fmap list_fmap app lookup list_lookup]. run. cbn [word_token tok_length].
      apply Forall_cons in Hks as Hk2. destruct Hk2 as [Hk2 _]. pose proof (key_word_length k2 Hk2).
      rewrite (proj2 (Z.eqb_neq (zlen k2) 0)) by lia. run.
      destruct (resp_start_ok _ s1 A1 Q1 F1 U1 HR1) as (r2 & s2 & E2 & HR2 & Hf2 & Ec2 & Ep2 & Em2 & Eo2 & Et2). rewrite E2. run.
      assert (resps (s_conn s1) = rs ++ [r1]) as Er1 by (by rewrite (proj1 HA1)).
      destruct (IH s2 A1 Q1 F1 U1 (rs ++ [r1]) r2 HR2 Hn) as (s3 & E3 & A3 & Q3 & F3 & U3 & rs3 & r3 & HR3 & Hr3 & HA3);
        [by rewrite Ec2, Er1|done|].
      exists s3. split; [exact E3|]. exists A3, Q3, F3, U3, rs3, r3. split; [done|]. split; [done|].
      destruct HA1 as (C1 & P1 & L1 & O1 & T1). destruct HA3 as (C3 & P3 & L3 & O3 & T3).
      rewrite Em2 in *. rewrite L1 in *.
      split; [rewrite C3, Ec2, C1; by destruct (s_conn s)|]. split; [|split; [done|split; [congruence|auto]]].
      rewrite P3, Ep2, P1. cbn [fmap list_fmap concat]. by rewrite !app_assoc.
Qed.

(** The rest of a long command, tokenized again and again. *)
Lemma get_loop_ok fuel n cas rest ks s A Q F U rs r :
  let all := ks ++ words (default [] rest) in
  Forall key_word all -> (length (default [] rest) < fuel)%nat -> rest <> Some [] ->
  ready (n + 2 * zlen all) s A Q F U -> 0 <= n -> resps (s_conn s) = rs ++ [r] -> fresh r ->
  exists s', get_loop fuel ((word_token <$> ks) ++ [Token rest 0]) 0 cas false s = Some ((None, false), s')
    /\ answered n cas s A all s'.
Proof.
  revert rest ks s A Q F U rs r. induction fuel as [|fuel IH]; intros rest ks s A Q F U rs r all Hks Hl Hne HR Hn Er Hf; [lia|].
  unfold all in *. rewrite zlen_app in HR. pose proof (zlen_nonneg (words (default [] rest))) as Hz.
  apply Forall_app in Hks as [Hks Hks'].
  destruct (get_tokens_ok (n + 2 * zlen (words (default [] rest))) cas rest ks s A Q F U rs r Hks) as (s1 & E1 & A1 & Q1 & F1 & U1 & rs1 & r1 & HR1 & Hr1 & HA1);
    [by replace (n + 2 * zlen (words (default [] rest)) + 2 * zlen ks) with (n + 2 * (zlen ks + zlen (words (default [] rest)))) by lia|lia|done|done|].
  cbn [get_loop]. run. rewrite E1. run. destruct rest as [rest|]; cbn [default] in *.
  - change (id rest) with rest in *. destruct (tokenize_ok rest MAX_TOKENS ltac:(done)) as (rest2 & Et & Ew & _ & Hr2). change (Z.to_nat (MAX_TOKENS - 1)) with 23%nat in *.
    assert (rest <> []) as Hrest by congruence.
    assert (length (default [] rest2) < length rest)%nat as Hsh.
    { destruct rest2 as [rest2|]; [by apply (tokenize_shorter rest MAX_TOKENS _ _ Et)|]. cbn. destruct rest; [done|cbn; lia]. }
    assert (rest2 <> Some []) as Hne2.
    { intros ->. unfold tokenize_command in Et. destruct (token_loop _ _ _ _) as [[t c] r2].
      apply app_inj_tail in Et as [_ [= Et]]. case_decide; congruence. }
    destruct (resp_start_ok _ s1 A1 Q1 F1 U1 HR1) as (r2 & s2 & E2 & HR2 & Hf2 & Ec2 & Ep2 & Em2 & Eo2 & Et2).
    destruct HA1 as (C1 & P1 & L1 & O1 & T1).
    assert (resps (s_conn s1) = rs1 ++ [r1]) as Er1 by (by rewrite C1).
    assert (answers s A (concat (key_reply cas (live (s_mc s) A) <$> ks)) s2 A1 (rs1 ++ [r1]) r2) as HA2.
    { split; [rewrite Ec2, C1; upds; by destruct (s_conn s)|]. split; [by rewrite Ep2|]. split; [by rewrite Em2|]. split; [congruence|auto]. }
    rewrite Et. destruct (words rest) as [|k2 ks2] eqn:Ews.
    + assert (rest2 = None) as -> by (destruct rest2; [exfalso; specialize (Hr2 ltac:(done)); done|done]).
      cbn [take fmap list_fmap app lookup list_lookup]. run. rewrite E2. cbn [negb tok_value]. run.
      exists s2. split; [done|]. exists A1, Q1, F1, U1, (rs1 ++ [r1]), r2. change (2 * zlen []) with 0 in HR2.
      rewrite Z.add_0_r in HR2. split; [done|]. split; [by apply fresh_roomy|]. by rewrite app_nil_r.
    + change (take 23 (k2 :: ks2)) with (k2 :: take 22 ks2) in *. change (drop 23 (k2 :: ks2)) with (drop 22 ks2) in *.
      assert ((k2 :: take 22 ks2) ++ words (default [] rest2) = k2 :: ks2) as Eall by (rewrite Ew; cbn; by rewrite take_drop).
      destruct (IH rest2 (k2 :: take 22 ks2) s2 A1 Q1 F1 U1 (rs1 ++ [r1]) r2) as (s3 & E3 & A3 & Q3 & F3 & U3 & rs3 & r3 & HR3 & Hr3 & HA3);
        rewrite ?Eall; [done|lia|done|done|done|by rewrite Ec2, Er1|done|].
      rewrite Eall in HA3. cbn [fmap list_fmap app lookup list_lookup]. run. rewrite E2. cbn [negb tok_value word_token]. run.
      exists s3. split; [exact E3|]. exists A3, Q3, F3, U3, rs3, r3. split; [done|]. split; [done|].
      rewrite fmap_app, concat_app. refine (answers_trans _ _ _ _ _ _ _ _ _ _ _ _ HA2 _).
      destruct HA2 as (_ & _ & L2 & _). by rewrite L2 in HA3.
  - exists s1. split; [done|]. exists A1, Q1, F1, U1, rs1, r1. change (words []) with (@nil (list Z)) in *.
    change (zlen []) with 0 in HR1. rewrite Z.add_0_r in HR1. by rewrite app_nil_r.
Qed.

(** ** The command *)

Definition END_LINE : list Z := str "END" ++ CRLF.
Definition set_state st s : server := s <| s_conn ::= fun c => c <| state := st |> |>.

Lemma get_finish_ok n s A Q F U rs r :
  ready n s A Q F U -> resps (s_conn s) = rs ++ [r] -> roomy r ->
  exists r', get_finish (None, false) s = Some (tt, set_state conn_mwrite (set_last s rs r'))
    /\ sending (set_state conn_mwrite (set_last s rs r')) A Q F U
    /\ pending (set_state conn_mwrite (set_last s rs r')) = pending s ++ END_LINE
    /\ (filled s -> filled (set_state conn_mwrite (set_last s rs r'))).
Proof.
  intros [R1 R2 R3 R4 R5 R6] Er Hr. pose proof Hr as [[[K1 K2] K3 K4 K5] Hi Ht Hs].
  set (r' := r <| iov ::= fun l => l ++ [Iovec (IBuf END_LINE) 5] |> <| tosend ::= fun n => s32 (n + 5) |>).
  exists r'. split; [|].
  - unfold get_finish. run. rewrite (run_add_iov s rs r) by (done || lia || (change MC_RESP_IOVCOUNT with 4; lia)). run.
    unfold conn_set_state. by run.
  - assert (iov_total (iov r ++ [Iovec (IBuf END_LINE) 5]) = iov_total (iov r) + 5) as Etot.
    { unfold iov_total. rewrite foldr_app. change (foldr _ 0 [Iovec (IBuf END_LINE) 5]) with (0 + 5).
      clear. induction (iov r) as [|v l IH]; cbn in *; lia. }
    pose proof (iov_total_nonneg _ _ K3) as Hpos. rewrite <- K5 in *.
    assert (sending (set_last s rs r') A Q F U) as HS.
    { apply (sending_set_last s A Q F U rs r r'); [done|done| |done|by left]. unfold r'. split; upds; [done| | |].
      - apply Forall_app. split; [exact K3|]. apply Forall_singleton. split; [done|]. by vm_compute.
      - rewrite zlen_app. change (zlen [_]) with 1. change MC_RESP_IOVCOUNT with 4. lia.
      - rewrite Etot, s32_id; lia. }
    split; [destruct HS as [? ? ? ? ? ?]; by split|].
    split; [|unfold filled; rewrite Er; intros [Hf0 _]%Forall_app; apply Forall_app; split; [exact Hf0|];
      apply Forall_singleton; intros _; unfold r'; upds; rewrite s32_id; lia].
    change (pending (set_last s rs r') = pending s ++ END_LINE). rewrite pending_set_last, (pending_last s rs r Er), <- app_assoc. f_equal.
    unfold resp_text, r'. upds. rewrite Hs, fmap_app, concat_app. f_equal.
Qed.

(** The word of the command. *)
Definition get_word (return_cas : bool) : list Z := if return_cas then str "gets" else str "get".
Lemma get_word_head cas : Util.head (get_word cas) = 103.
Proof. by destruct cas. Qed.

(** The words of the line reach [process_get_command]. *)
Lemma process_word_get cas ts env :
  3 <= zlen ts -> process_word (get_word cas) ts env = process_get_command ts cas false.
Proof.
  intros Hn. unfold process_word. rewrite get_word_head. change (103 =? chr "g") with true. cbv iota.
  unfold WANT_TOKENS_MIN. rewrite (proj2 (Z.ltb_ge _ _)) by lia. by destruct cas.
Qed.

Lemma key_words command (v : list Z) ks :
  words command = v :: ks -> Forall (fun k => zlen k <= KEY_MAX_LENGTH) ks -> Forall key_word ks.
Proof.
  intros E Hk. assert (Forall is_word (words_from [] command)) as Hw by (by apply words_are_words). fold (words command) in Hw. rewrite E in Hw.
  apply Forall_cons in Hw as [_ Hw]. rewrite Forall_forall in *. intros k Hin. by split; [apply Hw|apply Hk].
Qed.

Lemma get_command_ok n cas ks command s A Q F U env :
  words command = get_word cas :: ks -> ks <> [] -> Forall (fun k => zlen k <= KEY_MAX_LENGTH) ks ->
  ready (n + 2 * zlen ks) s A Q F U -> 0 <= n ->
  exists s' A' Q' F' U', process_command command env s = Some (tt, s') /\ sending s' A' Q' F' U'
    /\ pending s' = pending s ++ concat (key_reply cas (live (s_mc s) A) <$> ks) ++ END_LINE
    /\ live (s_mc s') A' = live (s_mc s) A /\ state (s_conn s') = conn_mwrite
    /\ (exists l, s_conn s' = s_conn s <| resps := l |> <| state := conn_mwrite |>) /\ outside s' = outside s
    /\ (filled s -> filled s').
Proof.
  intros Ew Hne Hk HR Hn. pose proof (key_words command _ ks Ew Hk) as Hks.
  destruct (resp_start_ok _ s A Q F U HR) as (r & s1 & E1 & HR1 & Hf & Ec & Ep & Em & Eo & Et1).
  destruct (tokenize_ok command MAX_TOKENS ltac:(done)) as (rest & Et & Er & _ & _). change (Z.to_nat (MAX_TOKENS - 1)) with 23%nat in *.
  rewrite Ew in *. change (take 23 (get_word cas :: ks)) with (get_word cas :: take 22 ks) in Et.
  change (drop 23 (get_word cas :: ks)) with (drop 22 ks) in Er.
  assert (take 22 ks ++ words (default [] rest) = ks) as Eall by (by rewrite Er, take_drop).
  destruct ks as [|k ks]; [done|]. change (take 22 (k :: ks)) with (k :: take 21 ks) in *.
  set (ts := (word_token <$> k :: take 21 ks) ++ [Token rest 0]) in *.
  set (tokens := tokenize_command command MAX_TOKENS) in *.
  assert (tokens = word_token (get_word cas) :: ts) as Etok by exact Et.
  assert (3 <= zlen tokens) as Hz.
  { rewrite Etok. unfold ts. cbn [fmap list_fmap app]. rewrite !zlen_cons, zlen_app, zlen_cons, zlen_nil.
    pose proof (zlen_nonneg (word_token <$> take 21 ks)). lia. }
  assert (rest <> Some []) as Hrest.
  { intros ->. unfold tokens, tokenize_command in Et. destruct (token_loop _ _ _ _) as [[t c] r2].
    apply app_inj_tail in Et as [_ [= Et]]. case_decide; congruence. }
  assert (rest_length tokens = length (default [] rest)) as El.
  { unfold rest_length. rewrite Etok. unfold ts. by rewrite app_comm_cons, last_snoc. }
  destruct (get_loop_ok (S (length (default [] rest))) n cas rest (k :: take 21 ks) s1 A Q F U (resps (s_conn s)) r)
    as (s2 & E2 & A2 & Q2 & F2 & U2 & rs & r2 & HR2 & Hr2 & HA2); rewrite ?Eall; [done|lia|done|done|done|by rewrite Ec|done|].
  rewrite Eall in HA2. destruct HA2 as (C2 & P2 & L2 & O2 & T2).
  destruct (get_finish_ok n s2 A2 Q2 F2 U2 rs r2 HR2) as (r3 & E3 & HS3 & P3 & T3); [by rewrite C2|done|].
  exists (set_state conn_mwrite (set_last s2 rs r3)), A2, Q2, F2, U2.
  split; [|split; [done|split; [|split; [|split; [done|split; [|split; [|auto]]]]]]].
  - unfold process_command. run. rewrite E1. run. cbn [negb]. fold tokens. unfold length_of, value_of, tok.
    assert (zget COMMAND_TOKEN tokens = Some (word_token (get_word cas))) as -> by (by rewrite Etok). run. cbn [word_token tok_length tok_value].
    rewrite (proj2 (Z.ltb_ge (zlen tokens) 2)) by lia. assert ((zlen (get_word cas) <? 2) = false) as -> by (by destruct cas). cbn [orb].
    change (Some (word_token (get_word cas)) ≫= tok_value) with (Some (get_word cas)). run.
    transitivity (process_word (get_word cas) tokens env s1); [by destruct cas|].
    rewrite process_word_get by done. unfold process_get_command. rewrite El.
    assert (drop 1 tokens = ts) as -> by (by rewrite Etok). run. unfold ts. rewrite E2. run. exact E3.
  - rewrite P3, P2, Ep, Em, <- app_assoc. done.
  - change (live (s_mc s2) A2 = live (s_mc s) A). by rewrite L2, Em.
  - exists (rs ++ [r3]). change (s_conn (set_state conn_mwrite (set_last s2 rs r3))) with (s_conn s2 <| resps := rs ++ [r3] |> <| state := conn_mwrite |>).
    rewrite C2, Ec. by destruct (s_conn s).
  - change (outside s2 = outside s). congruence.
Qed.

(** C1: get and gets.  A line [get k1 ... kn], however long and however spaced, adds
    to what the connection is to send exactly one VALUE block for each key that is
    served, in the order of the keys (repeated keys are answered again, keys that
    are missing, flushed or expired are passed over), with the flags, the length,
    for gets the CAS id, and the value; then END.  What the cache serves stays the
    same, and every item named in the answer is held until it is sent.  The line
    is processed completely: no assertion fails, no buffer overflows, the loops
    end. *)
Theorem get_command_correct cas ks command s A Q F U env :
  words command = get_word cas :: ks -> ks <> [] -> Forall (fun k => zlen k <= KEY_MAX_LENGTH) ks ->
  ready (2 * zlen ks) s A Q F U ->
  exists s' A' Q' F' U', process_command command env s = Some (tt, s') /\ sending s' A' Q' F' U'
    /\ pending s' = pending s ++ concat (key_reply cas (live (s_mc s) A) <$> ks) ++ str "END" ++ CRLF
    /\ live (s_mc s') A' = live (s_mc s) A /\ state (s_conn s') = conn_mwrite.
Proof.
  intros Ew Hne Hk HR. destruct (get_command_ok 0 cas ks command s A Q F U env) as (s' & A' & Q' & F' & U' & E1 & E2 & E3 & E4 & E5 & _); [done..|].
  by exists s', A', Q', F', U'.
Qed.
End get.

(** ** A key that is there, one that is not *)
Module GetDemo.
Import Demo CacheDemo TransmitDemo.
#[local] Existing Instance TransmitDemo.no_storage.
#[local] Instance no_subsystems : Subsystems := {|
  server_stats := mret tt; get_stats _ := mret true; process_stat_settings := mret tt; process_stats_conns := mret tt;
  process_extstore_stats := mret tt; item_cachedump _ _ := mret None; lru_crawler_crawl _ _ _ := mret CRAWLER_OK;
  start_item_crawler_thread := mret true; stop_item_crawler_thread := mret true;
  logger_add_watcher _ := mret LOGGER_ADD_WATCHER_OK |}.

Definition bumps_queue : lru_bump_buf := LruBumpBuf (bipbuf_init (Bipbuf 0 0 0 0 0 (replicate 64 0)) 64) 0.
Definition with_bumps (w : mc) : mc := w <| bump_bufs := [bumps_queue] |>.
Definition asker (w : mc) : server :=
  Server (with_bumps w) worker_init (conn_new conn_parse_cmd 0 tcp_transport ascii_prot false 0)
    (options_init 0) [] [] (Prefixes [] 58 0 0) authfile_none [] [].

Definition servable_check (n : Z) (w : mc) (it : item) : bool :=
  (refcount it + n <=? IT_REFCOUNT_LIMIT) && negb (has_flag it ITEM_HDR) && (time it <=? current_time w)
  && (0 <=? FLAGS_CONV it) && (FLAGS_CONV it <? 2 ^ 32) && (0 <=? ITEM_get_cas it) && (ITEM_get_cas it <? 2 ^ 64)
  && (2 <=? nbytes it) && (nbytes it <? 2 ^ 30).
Lemma servable_checked n w it : servable_check n w it = true -> servable n w it.
Proof.
  unfold servable_check. rewrite !andb_true_iff, negb_true_iff, !Z.leb_le, !Z.ltb_lt. intros ((((((((A1 & A2) & A3) & A4) & A5) & A6) & A7) & A8) & A9).
  by split.
Qed.

Lemma asker_ok : exists w p Q F U it, stored tiny_mc = Some (p, w) /\ ready 6 (asker w) {[key_a := p]} Q F U
  /\ live (s_mc (asker w)) {[key_a := p]} !! key_a = Some (entry_of it) /\ it_key it = key_a.
Proof.
  destruct stored_ok as (w & p & Q & F & U & it & E & Es & HC & Hi & Hr).
  assert (option_map (fun x => match heap (snd x) !! fst x with
      | Some i => servable_check 6 (snd x) i && negb (item_gone i (snd x)) && (cur_thread (snd x) =? 0) && bool_decide (it_key i = key_a)
      | None => false end) (stored tiny_mc) = Some true) as Hg by (vm_compute; reflexivity).
  rewrite E in Hg. injection Hg as Hg. cbn [snd fst] in Hg. rewrite Hi, !andb_true_iff in Hg.
  destruct Hg as (((G1 & G2%negb_true_iff) & G3%Z.eqb_eq) & G4%bool_decide_eq_true). apply servable_checked in G1.
  exists w, p, Q, F, U, it. split; [done|]. split; [|split; [|done]].
  - split; [| | | |done|done].
    + split.
      * refine (cache_other _ _ w (with_bumps w) _ _ _ _ HC eq_refl eq_refl _ eq_refl eq_refl eq_refl). by split_and!.
      * apply resp_inv_init.
      * apply NoDup_nil_2.
      * intros r Hr'. exfalso. revert Hr'. apply not_elem_of_nil.
      * apply Forall_nil_2.
      * intros q _ Hh. exfalso. change (1 <= 0) in Hh. lia.
    + intros k q i Hk Hq. apply lookup_singleton_Some in Hk as [_ <-]. assert (i = it) as -> by (change (heap w !! p = Some i) in Hq; congruence).
      apply (servable_content 6 w _ it it); [done|apply content_refl|done].
    + exists bumps_queue. split; [change (zget (cur_thread w) [bumps_queue] = Some bumps_queue); by rewrite G3|].
      by apply bipbuf_init_ok.
    + change (lru_segmented (mc_settings w) = true). by rewrite Es.
  - rewrite live_lookup, lookup_singleton_eq. cbn [mbind option_bind]. change (heap (s_mc (asker w))) with (heap w). rewrite Hi. cbn [mbind option_bind].
    change (item_gone it (s_mc (asker w))) with (item_gone it w). by rewrite G2.
Qed.

Lemma get_command_correct_witness :
  exists s s' e, process_command (str "get a b  a") (CmdEnv (fun _ => env) true true) s = Some (tt, s')
    /\ pending s' = value_reply false key_a e ++ value_reply false key_a e ++ str "END" ++ CRLF.
Proof.
  destruct asker_ok as (w & p & Q & F & U & it & E & HR & Hl & _).
  destruct (get_command_correct false [key_a; [98]; key_a] (str "get a b  a") (asker w) {[key_a := p]} Q F U
      (CmdEnv (fun _ => env) true true)) as (s' & A' & Q' & F' & U' & E' & _ & Ep & _ & _);
    [vm_compute; reflexivity|discriminate|repeat constructor; vm_compute; discriminate|exact HR|].
  exists (asker w), s', (entry_of it). split; [exact E'|]. rewrite Ep. unfold key_reply. cbn [fmap list_fmap concat].
  rewrite Hl. rewrite live_lookup, lookup_singleton_ne by discriminate. cbn [mbind option_bind app].
  rewrite <- !app_assoc. reflexivity.
Defined.
End GetDemo.
