(* ===== verification/ProtoBin.v ===== *)
(** * The binary protocol (proto_bin.c)

    A packet is a header of 24 bytes, extras, a key and a value.  Reading a packet
    consumes all but the value, and [dispatch_bin_command] gets the extras and the
    key; a value goes into an item through [conn_nread].  The build has no SASL, so
    [settings.sasl] is false and the branches behind it cannot run.  Messages on
    stderr, probes and the mutation log are left out. *)

From S2P Require Import Prelude Memory Itoa Util Assoc Slabs Items Store Resp StatsPrefix Conn Text Commands.

(** ** The header *)

Definition BIN_HEADER := 24.
Definition BIN_MAX_EXTLEN := 20.
Definition PROTOCOL_BINARY_REQ := 128.

(** The value of big-endian bytes. *)
Definition be_value (l : list Z) : Z := foldl (fun v b => v * 256 + u8 b) 0 l.
(** The field of [n] bytes at [off], undefined outside the bytes. *)
Definition field (off n : Z) (b : list Z) : option Z :=
  if (0 <=? off) && (off + n <=? zlen b) then Some (be_value (slice off (off + n) b)) else None.

(** The header in host order; [opaque], which is only echoed, is kept as the value of
    its bytes. *)
Definition parse_header (b : list Z) : option binary_request_header :=
  magic ← field 0 1 b; opcode ← field 1 1 b; keylen ← field 2 2 b; extlen ← field 4 1 b;
  bodylen ← field 8 4 b; opaque ← field 12 4 b; cas ← field 16 8 b;
  Some (BinaryRequestHeader magic opcode keylen extlen bodylen opaque cas).

(** ** Status codes and command codes *)

Definition KEY_ENOENT := 1.
Definition KEY_EEXISTS := 2.
Definition E2BIG := 3.
Definition EINVAL := 4.
Definition ENOT_STORED := 5.
Definition DELTA_BADVAL := 6.
Definition AUTH_ERROR := 32.
Definition UNKNOWN_COMMAND := 129.
Definition ENOMEM := PROTOCOL_BINARY_RESPONSE_ENOMEM.

(** The text of an error; others fail an assertion. *)
Definition status_text (err : Z) : option (list Z) :=
  if err =? ENOMEM then Some (str "Out of memory")
  else if err =? UNKNOWN_COMMAND then Some (str "Unknown command")
  else if err =? KEY_ENOENT then Some (str "Not found")
  else if err =? EINVAL then Some (str "Invalid arguments")
  else if err =? KEY_EEXISTS then Some (str "Data exists for key.")
  else if err =? E2BIG then Some (str "Too large.")
  else if err =? DELTA_BADVAL then Some (str "Non-numeric server-side value for incr or decr")
  else if err =? ENOT_STORED then Some (str "Not stored.")
  else if err =? AUTH_ERROR then Some (str "Auth failure.")
  else None.

Definition CMD_GET := 0.
Definition CMD_SET := 1.
Definition CMD_ADD := 2.
Definition CMD_REPLACE := 3.
Definition CMD_DELETE := 4.
Definition CMD_INCREMENT := 5.
Definition CMD_DECREMENT := 6.
Definition CMD_QUIT := 7.
Definition CMD_FLUSH := 8.
Definition CMD_GETQ := 9.
Definition CMD_NOOP := 10.
Definition CMD_VERSION := 11.
Definition CMD_GETK := 12.
Definition CMD_GETKQ := 13.
Definition CMD_APPEND := 14.
Definition CMD_PREPEND := 15.
Definition CMD_STAT := 16.
Definition CMD_TOUCH := 28.
Definition CMD_GAT := 29.
Definition CMD_GATQ := 30.
Definition CMD_SASL_LIST_MECHS := 32.
Definition CMD_SASL_AUTH := 33.
Definition CMD_SASL_STEP := 34.
Definition CMD_GATK := 35.
Definition CMD_GATKQ := 36.

(** The command a quiet opcode stands for. *)
Definition loud (opcode : Z) : option Z :=
  match opcode with
  | 17 => Some CMD_SET | 18 => Some CMD_ADD | 19 => Some CMD_REPLACE | 20 => Some CMD_DELETE
  | 21 => Some CMD_INCREMENT | 22 => Some CMD_DECREMENT | 23 => Some CMD_QUIT | 24 => Some CMD_FLUSH
  | 25 => Some CMD_APPEND | 26 => Some CMD_PREPEND | 9 => Some CMD_GET | 13 => Some CMD_GETK
  | 30 => Some CMD_GAT | 36 => Some CMD_GATK | _ => None
  end.

Section bin.
Context `{HashFunction} `{ExtStorage} `{Subsystems}.

(** ** Answers *)

(** [write_bin_error] with the text of the status. *)
Definition bin_error (err swallow : Z) : M server unit :=
  text ← lift (status_text err); write_bin_error err text swallow.

Definition handle_binary_protocol_error : M server unit :=
  bin_error EINVAL 0;; on_conn (fun c => c <| close_after_write := true |>).

(** [d] are the [dlen] bytes behind the header. *)
Definition write_bin_response (d : iov_base) (hlen keylen dlen : Z) : M server unit :=
  c ← co id;
  when (negb (noreply c) || (cmd c =? CMD_GET) || (cmd c =? CMD_GETK))
    (add_bin_header 0 hlen keylen dlen;; when (0 <? dlen) (resp_add_iov d dlen));;
  conn_set_state conn_new_cmd.

Definition write_bin_miss_response (key : list Z) : M server unit :=
  if 0 <? zlen key then
    add_bin_header KEY_ENOENT 0 (zlen key) (zlen key);;
    put_wbuf BIN_HEADER key;;
    resp_add_iov (IWbuf BIN_HEADER) (zlen key);;
    conn_set_state conn_new_cmd
  else bin_error KEY_ENOENT 0.

(** ** Increment and decrement *)

(** The key is missing: a new item with the initial value. *)
Definition incr_create (key : list Z) (initial expiration : Z) (es : nat -> alloc_env) : M server unit :=
  put_wbuf BIN_HEADER (be_bytes 8 initial);;
  let text := llu initial in
  exptime ← realtime_of expiration;
  it ← in_mc (item_alloc key 0 exptime (zlen text + 2) (es 1%nat));
  if decide (it = NULL) then out_of_memory (str "SERVER_ERROR Out of memory allocating new item")
  else
    in_mc (write_data it 0 text;; write_data it (zlen text) CRLF);;
    stale ← co set_stale;
    r ← in_mc (store_item it NREAD_ADD stale (fun n => es (2 + n)%nat));
    when (bool_decide (fst r = STORED)) (on_conn (fun c => c <| c_cas := default 0 (snd r) |>));;
    (if decide (fst r = NOT_STORED) then bin_error ENOT_STORED 0
     else
       i ← in_mc (load it);
       on_conn (fun c => c <| c_cas := ITEM_get_cas i |>);;
       write_bin_response (IWbuf BIN_HEADER) 0 0 8);;
    in_mc (item_remove it).

Definition complete_incr_bin (key ext : list Z) (es : nat -> alloc_env) : M server unit :=
  delta ← lift (field 0 8 ext); initial ← lift (field 8 8 ext); expiration ← lift (field 16 4 ext);
  c ← co id;
  let incr := cmd c =? CMD_INCREMENT in
  r ← in_mc (add_delta key incr delta (Some (bh_cas (binary_header c))) (es 0%nat));
  let '(res, temp, cas) := r in
  match res with
  | OK =>
      v ← lift (strtoull 10 temp);
      put_wbuf BIN_HEADER (be_bytes 8 (fst (fst v)));;
      when (negb (default 0 cas =? 0)) (on_conn (fun c => c <| c_cas := default 0 cas |>));;
      write_bin_response (IWbuf BIN_HEADER) 0 0 8
  | NON_NUMERIC => bin_error DELTA_BADVAL 0
  | EOM => out_of_memory (str "SERVER_ERROR Out of memory incrementing value")
  | DELTA_ITEM_NOT_FOUND =>
      if negb (expiration =? 4294967295) then incr_create key initial expiration es
      else counting (if incr then incr_misses else decr_misses);; bin_error KEY_ENOENT 0
  | DELTA_ITEM_CAS_MISMATCH => bin_error KEY_EEXISTS 0
  end.

(** ** Storing *)

(** The line end behind the value, which the protocol does not send. *)
Definition end_value (it : ptr) : M server unit :=
  i ← in_mc (load it);
  if negb (has_flag i ITEM_CHUNKED) then in_mc (write_data it (nbytes i - 2) CRLF)
  else
    r ← co ritem;
    c ← in_mc (load (fst r));
    let ch := if ch_size c =? ch_used c then next c else fst r in
    c ← in_mc (load ch);
    massert (2 <=? ch_size c - ch_used c);;
    in_mc (fill_chunk ch CRLF).

(** The status for a command that stored nothing. *)
Definition refused (code : Z) : Z :=
  if code =? nread_code NREAD_ADD then KEY_EEXISTS
  else if code =? nread_code NREAD_REPLACE then KEY_ENOENT
  else ENOT_STORED.

Definition complete_update_bin (es : nat -> alloc_env) : M server unit :=
  it ← co c_item;
  i ← in_mc (load it);
  counting (set_cmds (ITEM_clsid i));;
  end_value it;;
  code ← co cmd;
  comm ← lift (nread_of code);
  stale ← co set_stale;
  r ← in_mc (store_item it comm stale es);
  let '(ret, cas) := r in
  when (bool_decide (ret = STORED)) (on_conn (fun c => c <| c_cas := default 0 cas |>));;
  match ret with
  | STORED => write_bin_response (IBuf []) 0 0 0
  | EXISTS => bin_error KEY_EEXISTS 0
  | NOT_FOUND => bin_error KEY_ENOENT 0
  | NOT_STORED | TOO_LARGE | NO_MEMORY => bin_error (refused code) 0
  end;;
  in_mc (item_remove it);;
  on_conn (fun c => c <| c_item := NULL |>).

(** The value goes into the item. *)
Definition read_bin_value (it : ptr) (comm : nread) (vlen : Z) : M server unit :=
  i ← in_mc (load it);
  on_conn (fun c => c <| cmd := nread_code comm |> <| c_item := it |> <| ritem := value_start it i |> <| rlbytes := vlen |>);;
  conn_set_state conn_nread;;
  on_conn (fun c => c <| substate := bin_read_set_value |>).

(** No item: the value is swallowed. *)
Definition no_item (nkey flags vlen : Z) : M server unit :=
  ok ← in_mc (item_size_ok nkey flags (s32 (vlen + 2)));
  if negb ok then bin_error E2BIG vlen
  else out_of_memory (str "SERVER_ERROR Out of memory allocating item");; on_conn (fun c => c <| sbytes := vlen |>).

Definition record_set (key : list Z) : M server unit :=
  detail ← opt detail_enabled;
  when detail (ok ← conn_alloc_ok; modify (fun s => s <| s_prefixes ::= stats_prefix_record_set key ok |>)).

(** The length of a value: what the body has behind the extras and the key. *)
Definition value_length (h : binary_request_header) : Z := s32 (bh_bodylen h - (bh_keylen h + bh_extlen h)).

Definition process_bin_update (key ext : list Z) (e : alloc_env) : M server unit :=
  flags ← lift (field 0 4 ext); expiration ← lift (field 4 4 ext);
  c ← co id;
  let vlen := value_length (binary_header c) in
  record_set key;;
  exptime ← realtime_of expiration;
  it ← in_mc (item_alloc key flags exptime (s32 (vlen + 2)) e);
  if decide (it = NULL) then
    no_item (zlen key) flags vlen;;
    when (cmd c =? CMD_SET) (drop_stale key);;
    conn_set_state conn_swallow
  else
    in_mc (update_item it (ITEM_set_cas (bh_cas (binary_header c))));;
    comm ← lift (if cmd c =? CMD_ADD then Some NREAD_ADD else if cmd c =? CMD_SET then Some NREAD_SET
                 else if cmd c =? CMD_REPLACE then Some NREAD_REPLACE else None);
    i ← in_mc (load it);
    read_bin_value it (if negb (ITEM_get_cas i =? 0) then NREAD_CAS else comm) vlen.

Definition process_bin_append_prepend (key : list Z) (e : alloc_env) : M server unit :=
  c ← co id;
  let vlen := s32 (bh_bodylen (binary_header c) - bh_keylen (binary_header c)) in
  record_set key;;
  it ← in_mc (item_alloc key 0 0 (s32 (vlen + 2)) e);
  if decide (it = NULL) then no_item (zlen key) 0 vlen;; conn_set_state conn_swallow
  else
    in_mc (update_item it (ITEM_set_cas (bh_cas (binary_header c))));;
    comm ← lift (if cmd c =? CMD_APPEND then Some NREAD_APPEND
                 else if cmd c =? CMD_PREPEND then Some NREAD_PREPEND else None);
    read_bin_value it comm vlen.

(** ** Fetching *)

Definition touches (code : Z) : bool := (code =? CMD_TOUCH) || (code =? CMD_GAT) || (code =? CMD_GATK).
Definition returns_key (code : Z) : bool := (code =? CMD_GETK) || (code =? CMD_GATK).

(** The answer for an item; false when the external storage failed. *)
Definition bin_hit (it : ptr) (key : list Z) (code : Z) : M server bool :=
  i ← in_mc (load it);
  (if touches code then counting touch_cmds;; counting (touch_hits (ITEM_clsid i))
   else counting get_cmds;; counting (lru_hits (it_clsid i)));;
  let value := negb (code =? CMD_TOUCH) in
  let keylen := if returns_key code then zlen key else 0 in
  add_bin_header 0 4 keylen (4 + (if value then nbytes i - 2 else 0) + keylen);;
  put_wbuf 16 (be_bytes 8 (ITEM_get_cas i));;
  put_wbuf BIN_HEADER (be_bytes 4 (FLAGS_CONV i));;
  resp_add_iov (IWbuf BIN_HEADER) 4;;
  when (returns_key code) (resp_add_iov (IBuf (ITEM_key i)) (zlen key));;
  ok ← (if negb value then mret true
        else if has_flag i ITEM_HDR then
          ok ← storage_get_item it;
          when (negb ok) (counting get_oom_extstore);;
          mret ok
        else
          (if has_flag i ITEM_CHUNKED then resp_add_chunked_iov (IHead it) (nbytes i - 2)
           else resp_add_iov (IItem it 0) (nbytes i - 2));;
          mret true);
  (if ok : bool then
     conn_set_state conn_new_cmd;;
     on_resp (fun r => r <| r_item := if has_flag i ITEM_HDR && value then NULL else it |>)
   else in_mc (item_remove it));;
  mret ok.

Definition bin_missed (key : list Z) (code : Z) : M server unit :=
  (if touches code then counting touch_cmds;; counting touch_misses
   else counting get_cmds;; counting get_misses);;
  quiet ← co noreply;
  if quiet : bool then conn_set_state conn_new_cmd
  else write_bin_miss_response (if returns_key code then key else []).

Definition process_bin_get_or_touch (key ext : list Z) : M server unit :=
  code ← co cmd;
  it ← (if touches code then
          exptime ← lift (field 0 4 ext); exptime ← realtime_of exptime; in_mc (item_touch key exptime)
        else in_mc (item_get key true));
  ok ← (if decide (it = NULL) then mret false else bin_hit it key code);
  when (negb ok) (bin_missed key code);;
  detail ← opt detail_enabled;
  when detail (ok ← conn_alloc_ok;
               modify (fun s => s <| s_prefixes ::= stats_prefix_record_get key (bool_decide (it <> NULL)) ok |>)).

(** ** delete, flush and stat *)

Definition process_bin_delete (key : list Z) : M server unit :=
  detail ← opt detail_enabled;
  when detail (ok ← conn_alloc_ok; modify (fun s => s <| s_prefixes ::= stats_prefix_record_delete key ok |>));;
  r ← in_mc (item_get_locked key false);
  let '(it, hv) := r in
  if decide (it = NULL) then bin_error KEY_ENOENT 0;; counting delete_misses
  else
    c ← co id;
    i ← in_mc (load it);
    let cas := bh_cas (binary_header c) in
    (if (cas =? 0) || (cas =? ITEM_get_cas i) then delete_found it hv;; write_bin_response (IBuf []) 0 0 0
     else bin_error KEY_EEXISTS 0);;
    in_mc (do_item_remove it).

Definition process_bin_flush (ext : list Z) : M server unit :=
  enabled ← opt flush_enabled;
  if negb enabled then bin_error AUTH_ERROR 0
  else
    c ← co id;
    exptime ← (if bh_extlen (binary_header c) =? 4 then lift (field 0 4 ext) else mret 0);
    t ← now;
    new_oldest ← (if 0 <? exptime then realtime_of exptime else mret t);
    set_oldest_live new_oldest;;
    counting flush_cmds;;
    write_bin_response (IBuf []) 0 0 0.

(** [strncmp(mem, w, zlen w) == 0] for [w] without a NUL; [None] when it depends on
    bytes behind those received. *)
Fixpoint starts_with (mem w : list Z) : option bool :=
  match w, mem with
  | [], _ => Some true
  | _, [] => None
  | a :: w, b :: mem => if a =? b then starts_with mem w else Some false
  end.

(** The collected packets are sent; [what] names what was done when there is no
    buffer. *)
Definition bin_stats_send (what : list Z) : M server unit :=
  c ← co id;
  match st_buffer c with
  | None => out_of_memory (str "SERVER_ERROR Out of memory " ++ what)
  | Some b => write_and_free (Some b);; on_conn (fun c => c <| st_buffer := None |>)
  end.
Definition bin_stats_finish : M server unit := append_stats [] [];; bin_stats_send (str "preparing to send stats").

(** What follows the word detail. *)
Definition bin_stats_detail (mem : list Z) : M server unit :=
  dump ← lift (starts_with mem (str " dump"));
  if dump : bool then
    ok ← conn_alloc_ok;
    t ← gets s_prefixes;
    text ← lift (stats_prefix_dump ok t);
    match text with
    | None | Some [] => out_of_memory (str "SERVER_ERROR Out of memory generating stats")
    | Some text => append_stats (str "detailed") text;; bin_stats_finish
    end
  else
    on ← lift (starts_with mem (str " on"));
    if on : bool then on_options (fun o => o <| detail_enabled := true |>);; bin_stats_finish
    else
      off ← lift (starts_with mem (str " off"));
      if off : bool then on_options (fun o => o <| detail_enabled := false |>);; bin_stats_finish
      else bin_error KEY_ENOENT 0.

(** The subcommand is compared where it lies in the read buffer, without regard to
    the length of the key. *)
Definition process_bin_stat (key : list Z) : M server unit :=
  rest ← co rcurr;
  let mem := key ++ rest in
  if zlen key =? 0 then server_stats;; get_stats None;; bin_stats_finish
  else
    reset ← lift (starts_with mem (str "reset"));
    if reset : bool then stats_reset;; bin_stats_finish
    else
      set ← lift (starts_with mem (str "settings"));
      if set : bool then process_stat_settings;; bin_stats_finish
      else
        detail ← lift (starts_with mem (str "detail"));
        if detail : bool then bin_stats_detail (zdrop 6 mem)
        else
          ok ← get_stats (Some key);
          if ok : bool then bin_stats_send (str "generating stats") else bin_error KEY_ENOENT 0.

(** ** Dispatching a packet *)

(** The SASL commands of a build without SASL. *)
Definition sasl_disabled : M server unit :=
  c ← co id; bin_error UNKNOWN_COMMAND (s32 (bh_bodylen (binary_header c) - bh_keylen (binary_header c))).

Definition run_bin_command (key ext : list Z) (es : nat -> alloc_env) : M server unit :=
  c ← co id;
  let h := binary_header c in
  let '(extlen, keylen, bodylen, code) := (bh_extlen h, bh_keylen h, bh_bodylen h, cmd c) in
  let check (ok : bool) (m : M server unit) := if ok then m else handle_binary_protocol_error in
  let empty := (extlen =? 0) && (keylen =? 0) && (bodylen =? 0) in
  let is_one l := bool_decide (code ∈ l) in
  if code =? CMD_VERSION then
    check empty (write_bin_response (IBuf (str "1.6.12")) 0 0 (zlen (str "1.6.12")))
  else if code =? CMD_FLUSH then
    check ((keylen =? 0) && (bodylen =? extlen) && ((extlen =? 0) || (extlen =? 4))) (process_bin_flush ext)
  else if code =? CMD_NOOP then
    check empty (write_bin_response (IBuf []) 0 0 0;; conn_set_state conn_mwrite)
  else if is_one [CMD_SET; CMD_ADD; CMD_REPLACE] then
    check ((extlen =? 8) && negb (keylen =? 0) && (keylen + 8 <=? bodylen)) (process_bin_update key ext (es 0%nat))
  else if is_one [CMD_GETQ; CMD_GET; CMD_GETKQ; CMD_GETK] then
    check ((extlen =? 0) && (bodylen =? keylen) && (0 <? keylen)) (process_bin_get_or_touch key ext)
  else if code =? CMD_DELETE then
    check ((0 <? keylen) && (extlen =? 0) && (bodylen =? keylen)) (process_bin_delete key)
  else if is_one [CMD_INCREMENT; CMD_DECREMENT] then
    check ((0 <? keylen) && (extlen =? 20) && (bodylen =? keylen + extlen)) (complete_incr_bin key ext es)
  else if is_one [CMD_APPEND; CMD_PREPEND] then
    check ((0 <? keylen) && (extlen =? 0)) (process_bin_append_prepend key (es 0%nat))
  else if code =? CMD_STAT then check (extlen =? 0) (process_bin_stat key)
  else if code =? CMD_QUIT then
    check empty
      (write_bin_response (IBuf []) 0 0 0;; conn_set_state conn_mwrite;;
       on_conn (fun c => c <| close_after_write := true |> <| close_reason := NORMAL_CLOSE |>))
  else if code =? CMD_SASL_LIST_MECHS then check empty sasl_disabled
  else if is_one [CMD_SASL_AUTH; CMD_SASL_STEP] then check ((extlen =? 0) && negb (keylen =? 0)) sasl_disabled
  else if is_one [CMD_TOUCH; CMD_GAT; CMD_GATQ; CMD_GATK; CMD_GATKQ] then
    check ((extlen =? 4) && negb (keylen =? 0)) (process_bin_get_or_touch key ext)
  else bin_error UNKNOWN_COMMAND (s32 bodylen).

Definition dispatch_bin_command (key ext : list Z) (es : nat -> alloc_env) : M server unit :=
  c ← co id;
  let h := binary_header c in
  if (bh_bodylen h <? bh_keylen h) || (bh_bodylen h <? bh_keylen h + bh_extlen h) then
    bin_error UNKNOWN_COMMAND 0;; on_conn (fun c => c <| close_after_write := true |>)
  else
    on_conn (fun c => c <| noreply := true |>);;
    if KEY_MAX_LENGTH <? bh_keylen h then handle_binary_protocol_error
    else
      (match loud (cmd c) with
       | Some code => on_conn (fun c => c <| cmd := code |>)
       | None => on_conn (fun c => c <| noreply := false |>)
       end);;
      run_bin_command key ext es.

(** ** Reading a packet *)

(** The size of a packet without its value. *)
Definition packet_size (h : binary_request_header) : Z := BIN_HEADER + bh_extlen h + bh_keylen h.

(** The packet with header [h] is taken from the buffer and handled. *)
Definition accept_packet (h : binary_request_header) (env : cmd_env) : M server unit :=
  b ← co rcurr;
  t ← now;
  on_conn (fun c => c <| cmd := bh_opcode h |> <| keylen := bh_keylen h |> <| opaque := bh_opaque h |>
    <| c_cas := 0 |> <| last_cmd_time := t |>);;
  on_conn (fun c => c <| rcurr ::= zdrop (packet_size h) |>);;
  dispatch_bin_command (slice (BIN_HEADER + bh_extlen h) (packet_size h) b)
    (slice BIN_HEADER (BIN_HEADER + Z.min (bh_extlen h) BIN_MAX_EXTLEN) b) (ce_alloc env).

(** The results -1 and 1 are both true for the caller. *)
Definition try_read_command_binary (env : cmd_env) : M server bool :=
  c ← co id;
  if rbytes c <? BIN_HEADER then mret false
  else
    h ← lift (parse_header (rcurr c));
    on_conn (fun c => c <| binary_header := h |>);;
    if negb (bh_magic h =? PROTOCOL_BINARY_REQ) then conn_set_state conn_closing;; mret true
    else if rbytes c <? packet_size h then mret false
    else
      ok ← resp_start;
      (if ok : bool then accept_packet h env else conn_set_state conn_closing);;
      mret true.

Definition complete_nread_binary (env : cmd_env) : M server unit :=
  c ← co id;
  massert (0 <=? cmd c);;
  match substate c with
  | bin_read_set_value => complete_update_bin (ce_alloc env)
  | bin_reading_sasl_auth_data | bin_no_state => ub
  end.
End bin.
