(* ===== verification/Machine.v ===== *)
(** * The state machine of a client connection (memcached.c)

    [drive_machine] runs a connection until it has to wait.  One call of
    [machine_step] is one turn of its loop.  The state [conn_listening], which only
    accepts, is left out. *)

From S2P Require Import Prelude Memory Slabs Items Store Resp Conn Transmit Tokens Text Meta Commands ProtoBin.

(** What a turn meets outside: the command's surroundings, what the socket takes of
    a send, and whether [update_event] succeeds. *)
Record step_env := StepEnv { se_cmd : cmd_env; se_send : io_result; se_event : bool }.

Inductive try_read_result := READ_DATA_RECEIVED | READ_NO_DATA_RECEIVED | READ_ERROR | READ_MEMORY_ERROR.

(** ** The network

    [read(sfd, buf, count)] on the stream [s_input]: the bytes read, none for the
    end of the stream (and for a count of 0); -1 is [inr] with true for
    [EAGAIN]. *)
Definition net_read (count : Z) : M server (list Z + bool) :=
  inp ← gets s_input;
  if count <=? 0 then mret (inl [])
  else match inp with
  | [] => mret (inr true)
  | ReadEof :: _ => mret (inl [])
  | ReadError :: _ => mret (inr false)
  | ReadBytes l :: inp =>
      modify (fun s => s <| s_input := if zlen l <=? count then inp else ReadBytes (zdrop count l) :: inp |>);;
      if decide (l = []) then mret (inr true) else mret (inl (ztake count l))
  end.

Section machine.
Context `{HashFunction} `{ExtStorage} `{Subsystems}.

(** The bytes go behind those not parsed yet. *)
Definition receive (l : list Z) : M server unit :=
  in_mc (count_by (zlen l) bytes_read);;
  on_conn (fun c => c <| rcurr ::= fun r => r ++ l |>);;
  on_conn (fun c => c <| rbuf0 := default 0 (head (rcurr c)) |>).

(** ** try_read_network and try_read_udp *)

(** The reads; a malloced buffer doubles at most four times. *)
Fixpoint network_loop (fuel : nat) (num_allocs : Z) (gotdata : try_read_result) : M server try_read_result :=
  match fuel with
  | O => ub
  | S fuel =>
      c ← co id;
      let full := (rsize c <=? rbytes c) && rbuf_malloced c in
      if full && (num_allocs =? 4) then mret gotdata
      else
        ok ← (if full then conn_alloc_ok else mret true);
        if negb ok then
          in_mc (on_stats (fun st => st <| malloc_fails ::= fun n => u64 (n + 1) |>));;
          on_conn (fun c => c <| rcurr := [] |>);;
          out_of_memory (str "SERVER_ERROR out of memory reading request");;
          on_conn (fun c => c <| close_after_write := true |>);;
          mret READ_MEMORY_ERROR
        else
          when full (on_conn (fun c => c <| rsize ::= fun n => s32 (2 * n) |>));;
          c ← co id;
          let avail := rsize c - rbytes c in
          r ← net_read avail;
          match r with
          | inl [] => on_conn (fun c => c <| close_reason := NORMAL_CLOSE |>);; mret READ_ERROR
          | inl l =>
              receive l;;
              if (zlen l =? avail) && rbuf_malloced c
              then network_loop fuel (if full then num_allocs + 1 else num_allocs) READ_DATA_RECEIVED
              else mret READ_DATA_RECEIVED
          | inr true => mret gotdata
          | inr false => mret READ_ERROR
          end
  end.
Definition try_read_network : M server try_read_result :=
  on_conn (fun c => c <| rbuf0 := default (rbuf0 c) (head (rcurr c)) |>);;
  network_loop 6 0 READ_NO_DATA_RECEIVED.

(** A datagram is cut to the size of the buffer. *)
Definition try_read_udp : M server try_read_result :=
  c ← co id;
  inp ← gets s_input;
  match inp with
  | ReadBytes l :: inp =>
      modify (fun s => s <| s_input := inp |>);;
      let buf := ztake (rsize c) l in
      if 8 <? zlen buf then
        in_mc (count_by (zlen buf) bytes_read);;
        let byte i := default 0 (zget i buf) in
        on_conn (fun c => c <| c_request_id := byte 0 * 256 + byte 1 |> <| rbuf0 := byte 0 |>);;
        if negb (byte 4 =? 0) || negb (byte 5 =? 1) then mret READ_NO_DATA_RECEIVED
        else on_conn (fun c => c <| rcurr := zdrop 8 buf |> <| rbuf0 := byte 8 |>);; mret READ_DATA_RECEIVED
      else mret READ_NO_DATA_RECEIVED
  | _ => mret READ_NO_DATA_RECEIVED
  end.

(** ** The command readers *)

Definition set_reader (p : protocol) (reader : command_reader) : M server unit :=
  on_conn (fun c => c <| prot := p |> <| try_read_command := reader |>).

Definition try_read_command_negotiate (env : cmd_env) : M server bool :=
  c ← co id;
  massert (bool_decide (prot c = negotiating_prot) && (0 <? rbytes c));;
  if rbuf0 c =? PROTOCOL_BINARY_REQ then set_reader binary_prot try_binary;; try_read_command_binary env
  else set_reader ascii_prot try_ascii;; try_read_command_ascii env.

Definition try_read_command_udp (env : cmd_env) : M server bool :=
  c ← co id;
  massert (0 <? rbytes c);;
  if rbuf0 c =? PROTOCOL_BINARY_REQ then on_conn (fun c => c <| prot := binary_prot |>);; try_read_command_binary env
  else on_conn (fun c => c <| prot := ascii_prot |>);; try_read_command_ascii env.

Definition run_reader (r : command_reader) (env : cmd_env) : M server bool :=
  match r with
  | try_ascii => try_read_command_ascii env
  | try_asciiauth => try_read_command_asciiauth
  | try_binary => try_read_command_binary env
  | try_negotiate => try_read_command_negotiate env
  | try_udp => try_read_command_udp env
  end.

Definition complete_nread (env : cmd_env) : M server unit :=
  p ← co prot;
  match p with
  | ascii_prot => complete_nread_ascii (ce_alloc env)
  | binary_prot => complete_nread_binary env
  | negotiating_prot => ub
  end.

(** ** Values *)

(** The result of a read of a value: a count, -1 with [EAGAIN] or not, or -2 for no
    memory. *)
Inductive value_read := VRead (n : Z) | VAgain | VError | VNoMemory.

Definition take_rcurr (n : Z) : M server (list Z) :=
  c ← co id; on_conn (fun c => c <| rcurr ::= zdrop n |>);; mret (ztake n (rcurr c)).

(** Into an item of one piece: the buffered bytes, then the socket.  Only the binary
    protocol reads into malloced items. *)
Definition read_into_item : M server value_read :=
  c ← co id;
  massert (negb (item_malloced c));;
  let put l :=
    c ← co id;
    in_mc (write_data (fst (ritem c)) (snd (ritem c)) l);;
    on_conn (fun c => c <| ritem ::= fun '(p, off) => (p, off + zlen l) |> <| rlbytes ::= fun n => n - zlen l |>) in
  when (0 <? rbytes c) (l ← take_rcurr (Z.min (rbytes c) (rlbytes c)); put l);;
  rest ← co rlbytes;
  if rest =? 0 then mret (VRead 1)
  else
    r ← net_read rest;
    match r with
    | inl [] => mret (VRead 0)
    | inl l => in_mc (count_by (zlen l) bytes_read);; put l;; mret (VRead (zlen l))
    | inr true => mret VAgain
    | inr false => mret VError
    end.

(** The chunk [ch] is full: a new one for the rest of the value (true) or, when
    there is one, the next (false); [None] when there is no memory. *)
Definition advance_chunk (i : item) (ch : ptr) (e : alloc_env) : M server (option bool) :=
  c ← co id;
  if decide (next i <> NULL) then on_conn (fun c => c <| ritem := (next i, 0) |>);; mret (Some false)
  else
    n ← in_mc (do_item_alloc_chunk ch (rlbytes c + if decide (prot c = binary_prot) then 2 else 0) e);
    on_conn (fun c => c <| ritem := (n, 0) |>);;
    mret (if decide (n = NULL) then None else Some true).

(** The loop of [read_into_chunked_item]; [k] numbers the allocations.  A full chunk
    with a successor takes part in its turn with no room. *)
Fixpoint chunked_loop (fuel : nat) (k : nat) (es : nat -> alloc_env) (total : Z) : M server value_read :=
  c ← co id;
  if rlbytes c <=? 0 then mret (VRead total)
  else match fuel with
  | O => ub
  | S fuel =>
      let ch := fst (ritem c) in
      i ← in_mc (load ch);
      next ← (if ch_size i =? ch_used i then advance_chunk i ch (es k) else mret (Some false));
      match next with
      | None => mret VNoMemory
      | Some true => chunked_loop fuel (S k) es total
      | Some false =>
          let unused := ch_size i - ch_used i in
          let put l := in_mc (fill_chunk ch l);; on_conn (fun c => c <| rlbytes ::= fun n => n - zlen l |>) in
          if 0 <? rbytes c then
            l ← take_rcurr (Z.min (Z.min (rbytes c) (rlbytes c)) unused);
            put l;;
            chunked_loop fuel k es (zlen l)
          else
            r ← net_read (Z.min unused (rlbytes c));
            match r with
            | inl [] => mret (VRead 0)
            | inl l => in_mc (count_by (zlen l) bytes_read);; put l;; chunked_loop fuel k es (total + zlen l)
            | inr true => mret VAgain
            | inr false => mret VError
            end
      end
  end.

(** The binary protocol wants two bytes of room behind the value. *)
Definition chunked_tail (r : value_read) (e : alloc_env) : M server value_read :=
  c ← co id;
  match r with
  | VRead _ =>
      if (rlbytes c =? 0) && bool_decide (prot c = binary_prot) then
        i ← in_mc (load (fst (ritem c)));
        if ch_size i - ch_used i <? 2 then
          n ← in_mc (do_item_alloc_chunk (fst (ritem c)) 2 e);
          on_conn (fun c => c <| ritem := (n, 0) |>);;
          mret (if decide (n = NULL) then VNoMemory else r)
        else mret r
      else mret r
  | _ => mret r
  end.
Definition read_into_chunked_item (es : nat -> alloc_env) : M server value_read :=
  n ← co rlbytes;
  r ← chunked_loop (2 * Z.to_nat n + 2) 1 es 0;
  chunked_tail r (es 0%nat).

(** ** The machine *)

(** [update_event] in a turn, or the connection closes; true stops the machine. *)
Definition wait_event (env : step_env) : M server bool :=
  if se_event env then mret true else conn_set_state conn_closing;; mret false.

Definition step_waiting (env : step_env) : M server bool :=
  rbuf_release;;
  ok ← wait_event env;
  when ok (conn_set_state conn_read);;
  mret ok.

Definition step_read : M server bool :=
  t ← co transport;
  ok ← (if IS_UDP t then mret true else rbuf_alloc);
  (if negb ok then conn_set_state conn_closing
   else
     res ← (if IS_UDP t then try_read_udp else try_read_network);
     match res with
     | READ_NO_DATA_RECEIVED => conn_set_state conn_waiting
     | READ_DATA_RECEIVED => conn_set_state conn_parse_cmd
     | READ_ERROR => conn_set_state conn_closing
     | READ_MEMORY_ERROR => mret tt
     end);;
  mret false.

Definition step_parse_cmd (env : step_env) : M server bool :=
  on_conn (fun c => c <| noreply := false |>);;
  reader ← co try_read_command;
  done ← run_reader reader (se_cmd env);
  when (negb done) (c ← co id; conn_set_state (if decide (resps c = []) then conn_waiting else conn_mwrite));;
  mret false.

(** The result with the requests left. *)
Definition step_new_cmd (env : step_env) (nreqs : Z) : M server bool :=
  if 0 <=? nreqs then reset_cmd_handler;; mret false
  else
    c ← co id;
    if decide (resps c <> []) then conn_set_state conn_mwrite;; mret false
    else
      counting conn_yields;;
      if 0 <? rbytes c then wait_event env else mret true.

(** What the reads of a value and of skipped bytes share: the end of the stream, a
    wait, an error. *)
Definition end_of_stream : M server unit :=
  on_conn (fun c => c <| close_reason := NORMAL_CLOSE |>);; conn_set_state conn_closing.

Definition step_nread (env : step_env) : M server bool :=
  c ← co id;
  if rlbytes c =? 0 then complete_nread (se_cmd env);; mret false
  else if rlbytes c <? 0 then conn_set_state conn_closing;; mret false
  else
    i ← (if item_malloced c then mret item_zero else in_mc (load (c_item c)));
    res ← (if item_malloced c || negb (has_flag i ITEM_CHUNKED) then read_into_item
           else read_into_chunked_item (ce_alloc (se_cmd env)));
    match res with
    | VRead n => when (n =? 0) end_of_stream;; mret false
    | VAgain => wait_event env
    | VNoMemory =>
        out_of_memory (str "SERVER_ERROR Out of memory during read");;
        on_conn (fun c => c <| sbytes := rlbytes c |>);;
        conn_set_state conn_swallow;;
        on_conn (fun c => c <| set_stale := false |> <| mset_res := false |>);;
        mret false
    | VError => conn_set_state conn_closing;; mret false
    end.

Definition step_swallow (env : step_env) : M server bool :=
  c ← co id;
  if sbytes c <=? 0 then conn_set_state conn_new_cmd;; mret false
  else if 0 <? rbytes c then
    l ← take_rcurr (Z.min (rbytes c) (sbytes c));
    on_conn (fun c => c <| sbytes ::= fun n => n - zlen l |>);;
    mret false
  else
    r ← net_read (Z.min (rsize c) (sbytes c));
    match r with
    | inl [] => end_of_stream;; mret false
    | inl l =>
        in_mc (count_by (zlen l) bytes_read);;
        on_conn (fun c => c <| sbytes ::= fun n => n - zlen l |>);;
        mret false
    | inr true => wait_event env
    | inr false => conn_set_state conn_closing;; mret false
    end.

(** The queued reads of the external storage come first. *)
Definition step_mwrite (env : step_env) : M server bool :=
  c ← co id;
  massert (io_queues_submitted c =? 0);;
  if decide (io_stack c <> []) then
    submit_cb;;
    on_conn (fun c => c <| io_queues_submitted ::= Z.succ |>);;
    conn_set_state conn_io_queue;;
    mret true
  else
    r ← (if IS_UDP (transport c) then transmit_udp (se_send env) (se_event env)
         else transmit (se_send env) (se_event env));
    let '(res, sent) := r in
    modify (fun s => s <| s_sent ::= fun l => l ++ sent |>);;
    match res with
    | TRANSMIT_COMPLETE =>
        c ← co id;
        (if decide (state c = conn_mwrite) then
           conn_release_items;;
           conn_set_state conn_new_cmd;;
           last ← co close_after_write;
           when last (conn_set_state conn_closing)
         else conn_set_state conn_closing);;
        mret false
    | TRANSMIT_INCOMPLETE | TRANSMIT_HARD_ERROR => mret false
    | TRANSMIT_SOFT_ERROR => mret true
    end.

Definition step_closing : M server bool :=
  t ← co transport;
  (if IS_UDP t then conn_cleanup else conn_close);;
  mret true.

(** One turn of the loop with [nreqs] requests left: whether it stops, and the
    requests left then. *)
Definition machine_step (env : step_env) (nreqs : Z) : M server (bool * Z) :=
  st ← co state;
  match st with
  | conn_listening | conn_closed | conn_max_state => ub
  | conn_waiting => b ← step_waiting env; mret (b, nreqs)
  | conn_read => b ← step_read; mret (b, nreqs)
  | conn_parse_cmd => b ← step_parse_cmd env; mret (b, nreqs)
  | conn_new_cmd => b ← step_new_cmd env (nreqs - 1); mret (b, nreqs - 1)
  | conn_nread => b ← step_nread env; mret (b, nreqs)
  | conn_swallow => b ← step_swallow env; mret (b, nreqs)
  | conn_write | conn_mwrite => b ← step_mwrite env; mret (b, nreqs)
  | conn_closing => b ← step_closing; mret (b, nreqs)
  | conn_watch => mret (true, nreqs)
  | conn_io_queue => complete_cb;; conn_set_state conn_mwrite;; mret (false, nreqs)
  end.

(** The loop, at most [fuel] turns; [envs] gives the surroundings of each. *)
Fixpoint machine_loop (fuel : nat) (envs : nat -> step_env) (nreqs : Z) : M server unit :=
  match fuel with
  | O => ub
  | S fuel =>
      r ← machine_step (envs 0%nat) nreqs;
      if fst r : bool then mret tt else machine_loop fuel (fun n => envs (S n)) (snd r)
  end.
Definition drive_machine (fuel : nat) (envs : nat -> step_env) (reqs_per_event : Z) : M server unit :=
  machine_loop fuel envs reqs_per_event.

(** The connection comes back from the thread that did its reads or its dump. *)
Definition conn_worker_readd : M server bool :=
  c ← co id;
  if decide (state c = conn_io_queue) then
    on_conn (fun c => c <| io_queues_submitted ::= Z.pred |>);;
    mret (io_queues_submitted c - 1 =? 0)
  else if decide (state c = conn_closing) then mret true
  else conn_set_state conn_new_cmd;; mret false.
End machine.
