(* ===== verification/ServeProps.v ===== *)
(** * From the socket to the socket

    A get line that arrives on a waiting connection is read, parsed, looked up,
    answered and sent by [drive_machine], in whatever pieces the socket takes the
    answer, and the connection waits for the next line. *)

From S2P Require Import Prelude Memory Dll Assoc AssocSpec AssocIter Slabs SlabsSpec SlabPages SlabAlloc SlabProps.
From S2P Require Import Items LruSpec Parts CacheSpec CacheAlloc CacheProps CacheMove Store StoreSpec StoreProps StoreJoin.
From S2P Require Import Tokens Resp AuthFile StatsPrefix Conn Transmit TransmitProps FetchProps Text Meta Commands GetProps ProtoBin Machine.

Section serve.
Context `{HashFunction} `{ExtStorage} `{Subsystems}.
Implicit Types (A : gmap (list Z) ptr) (Q F U : Z -> list ptr) (s : server) (c : conn).

(** A stream connection with the ASCII protocol and no command half done. *)
Record idle_conn c : Prop := {
  ic_stream : IS_UDP (transport c) = false;
  ic_reader : try_read_command c = try_ascii;
  ic_io : io_stack c = [] /\ io_queues_submitted c = 0;
  ic_item : c_item c = NULL;
  ic_open : close_after_write c = false;
  ic_small : rbuf_malloced c = false
}.

(** ** The environment

    What a turn may meet: events can be registered, and the socket takes at least a
    byte of what [sendmsg] offers, and not more than that, or none for now. *)
Definition socket_ok (io : io_result) s : Prop :=
  match io with
  | IoBytes k => 1 <= k /\ forall iovs w, transmit_pre false (resps (s_conn s)) [] (s_mc s) = Some (iovs, w) ->
                   concat iovs <> [] -> k <= zlen (concat iovs)
  | IoAgain => True
  | IoError => False
  end.
Fixpoint turns (i : nat) (envs : nat -> step_env) (n : Z) s : option (Z * server) :=
  match i with
  | O => Some (n, s)
  | S i => match machine_step (envs 0%nat) n s with
           | Some ((false, n'), s') => turns i (fun j => envs (S j)) n' s'
           | _ => None
           end
  end.
Definition fair (envs : nat -> step_env) n s : Prop :=
  forall i n' s', turns i envs n s = Some (n', s') -> se_event (envs i) = true /\ socket_ok (se_send (envs i)) s'.

Lemma fair_step envs n s n' s' :
  fair envs n s -> machine_step (envs 0%nat) n s = Some ((false, n'), s') -> fair (fun i => envs (S i)) n' s'.
Proof. intros Hf E i n2 s2 Ht. eapply (Hf (S i)). cbn [turns]. by rewrite E. Qed.

(** ** The outcome

    [all] is everything the connection has sent when it is done, [inp] the input then
    left: everything is sent and the connection waits for input as before, or the
    socket takes no more for now and the rest of the answer is kept for it. *)
Inductive outcome (all : list Z) (inp : list read_result) (envs : nat -> step_env) s' : Prop :=
  | sent_all A F U Q : sending s' A Q F U -> idle_conn (s_conn s') -> state (s_conn s') = conn_read ->
      resps (s_conn s') = [] -> rcurr (s_conn s') = [] -> rbuf (s_conn s') = false ->
      s_sent s' = all -> s_input s' = inp -> outcome all inp envs s'
  | sent_some A F U Q i : sending s' A Q F U -> idle_conn (s_conn s') -> state (s_conn s') = conn_mwrite ->
      se_send (envs i) = IoAgain -> pending s' <> [] ->
      s_sent s' ++ pending s' = all -> s_input s' = inp -> outcome all inp envs s'.
Definition ends all inp envs n s : Prop := exists fuel s', drive_machine fuel envs n s = Some (tt, s') /\ outcome all inp envs s'.

(** A turn that goes on. *)
Lemma ends_turn all inp envs n s n' s' :
  machine_step (envs 0%nat) n s = Some ((false, n'), s') ->
  ends all inp (fun i => envs (S i)) n' s' -> ends all inp envs n s.
Proof.
  intros E (fuel & s2 & E2 & Ho). exists (S fuel), s2. split; [unfold drive_machine in *; cbn; by rewrite run_bind, E|].
  destruct Ho as [A F U Q|A F U Q i]; [by apply (sent_all _ _ _ _ A F U Q)|by apply (sent_some _ _ _ _ A F U Q (S i))].
Qed.
Lemma drive_ends_stop all inp envs n s n' s' :
  machine_step (envs 0%nat) n s = Some ((true, n'), s') -> outcome all inp envs s' -> ends all inp envs n s.
Proof. intros E Ho. exists 1%nat, s'. split; [unfold drive_machine; cbn; by rewrite run_bind, E|done]. Qed.

(** ** Sending *)

Lemma idle_update c f :
  idle_conn c -> transport (f c) = transport c -> try_read_command (f c) = try_read_command c -> io_stack (f c) = io_stack c ->
  io_queues_submitted (f c) = io_queues_submitted c -> c_item (f c) = c_item c -> close_after_write (f c) = close_after_write c ->
  rbuf_malloced (f c) = rbuf_malloced c -> idle_conn (f c).
Proof. intros [] E1 E2 E3 E4 E5 E6 E7. split; rewrite ?E1, ?E2, ?E3, ?E4, ?E5, ?E6, ?E7; done. Qed.

(** [sending] depends on the connection's responses only. *)
Lemma sending_conn s s' A Q F U :
  sending s A Q F U -> s_mc s' = s_mc s -> s_worker s' = s_worker s -> resps (s_conn s') = resps (s_conn s) -> sending s' A Q F U.
Proof. intros [S1 S2 S3 S4 S5 S6] E1 E2 E3. split; rewrite ?E1, ?E2, ?E3; done. Qed.
Lemma resp_inv_out k f : resp_inv k -> resp_inv (k <| rbuf_out ::= f |>).
Proof. intros []. by split. Qed.

(** The connection goes to sleep. *)
Lemma sleep s n envs A Q F U :
  sending s A Q F U -> idle_conn (s_conn s) -> resps (s_conn s) = [] -> rcurr (s_conn s) = [] ->
  state (s_conn s) = conn_waiting -> se_event (envs 0%nat) = true -> ends (s_sent s) (s_input s) envs n s.
Proof.
  intros HS HI Er Ec Est He.
  pose proof (ic_stream _ HI) as Hs. pose proof (ic_small _ HI) as Hm.
  set (c1 := if rbuf (s_conn s) then s_conn s <| rsize := 0 |> <| rbuf := false |> <| rcurr := [] |> else s_conn s).
  set (k1 := if rbuf (s_conn s) then s_worker s <| rbuf_out ::= Z.pred |> else s_worker s).
  assert (idle_conn c1 /\ resps c1 = [] /\ rcurr c1 = [] /\ rbuf c1 = false /\ resp_inv k1 /\ (forall r, in_use (s_worker s) r -> in_use k1 r)) as (I1 & I2 & I3 & I4 & I5 & I6).
  { unfold c1, k1. destruct (rbuf (s_conn s)) eqn:Eb; upds; split_and!; try done; [by destruct HI|apply resp_inv_out, HS|apply HS]. }
  apply (drive_ends_stop _ _ envs n s n (s <| s_worker := k1 |> <| s_conn := c1 <| state := conn_read |> |>)).
  - unfold machine_step. run. rewrite Est. unfold step_waiting, rbuf_release, wait_event. run.
    change (id (s_conn s)) with (s_conn s). unfold rbytes. rewrite Ec, Hs, Hm. unfold c1, k1.
    destruct (rbuf (s_conn s)) eqn:Eb; cbn [andb negb zlen length Z.of_nat Z.eqb when]; run; unfold rbuf_cache_free; run;
      rewrite He; unfold conn_set_state; run; do 2 f_equal; by destruct s.
  - apply (sent_all _ _ _ _ A F U Q); upds; try done.
    + destruct HS as [S1 S2 S3 S4 S5 S6]. split; upds; rewrite ?I2; try done; [apply NoDup_nil_2|].
      intros r Hr. by apply not_elem_of_nil in Hr.
    + by destruct I1.
Qed.

Lemma finish_turns s n envs A Q F U :
  sending s A Q F U -> idle_conn (s_conn s) -> resps (s_conn s) = [] -> rcurr (s_conn s) = [] -> 1 <= n ->
  state (s_conn s) = conn_new_cmd -> fair envs n s -> ends (s_sent s) (s_input s) envs n s.
Proof.
  intros HS HI Er Ec Hn Est Hf.
  set (s1 := s <| s_conn ::= fun c => c <| cmd := -1 |> <| substate := bin_no_state |> <| state := conn_waiting |> |>).
  assert (machine_step (envs 0%nat) n s = Some ((false, n - 1), s1)) as E.
  { unfold machine_step. run. rewrite Est. unfold step_new_cmd. rewrite (proj2 (Z.leb_le _ _)) by lia.
    unfold reset_cmd_handler, Conn.drop_item. run. upds. change (id ?c) with c. upds. rewrite (ic_item _ HI). rewrite decide_True by done. run.
    change (id ?c) with c. upds. unfold rbytes. upds. rewrite Ec, Er. cbn. unfold conn_set_state. run. done. }
  apply (ends_turn _ _ envs n s (n - 1) s1 E).
  apply (sleep s1 (n - 1) _ A Q F U); try done; [by apply (sending_conn s)|by destruct HI|].
  apply (fair_step envs n s (n - 1) s1 Hf E 0%nat (n - 1) s1). done.
Qed.

(** The turn of [conn_mwrite]. *)
Lemma mwrite_turn s n env A Q F U :
  sending s A Q F U -> idle_conn (s_conn s) -> state (s_conn s) = conn_mwrite -> filled s -> pending s <> [] ->
  se_event env = true -> socket_ok (se_send env) s ->
  (se_send env = IoAgain /\ machine_step env n s = Some ((true, n), s))
  \/ exists k s1 F1 U1, 1 <= k <= zlen (pending s) /\ sending s1 A Q F1 U1 /\ filled s1 /\ pending s1 = zdrop k (pending s)
     /\ (exists l, s_conn s1 = s_conn s <| resps := l |>) /\ outside s1 = outside s
     /\ (k = zlen (pending s) -> resps (s_conn s1) = [])
     /\ machine_step env n s = Some ((false, n),
          (if decide (resps (s_conn s1) = []) then s1 <| s_conn ::= fun c => c <| state := conn_new_cmd |> |> else s1)
          <| s_sent ::= fun l => l ++ ztake k (pending s) |>).
Proof.
  intros HS HI Est Hfl Hp He Hio. destruct (transmit_ok s A Q F U HS) as (off & rest & Ep & (iovs & Et & ->) & Hne & Hn).
  specialize (Hne Hfl Hp). destruct HI as [J1 J2 [J3 J4] J5 J6 J7].
  assert (forall x, step_mwrite env s = x -> machine_step env n s = (match x with Some (b, s') => Some ((b, n), s') | None => None end)) as Hm.
  { intros x Ex. unfold machine_step. run. rewrite Est. run. by rewrite Ex. }
  assert (forall io, io = se_send env -> step_mwrite env s = (match transmit io true s with
    | Some ((res, sent), s1) => (match res with
      | TRANSMIT_COMPLETE => c ← co id; (if decide (state c = conn_mwrite) then conn_release_items;; conn_set_state conn_new_cmd;;
           last ← co close_after_write; when last (conn_set_state conn_closing) else conn_set_state conn_closing);; mret false
      | TRANSMIT_INCOMPLETE | TRANSMIT_HARD_ERROR => mret false
      | TRANSMIT_SOFT_ERROR => mret true end) (s1 <| s_sent ::= fun l => l ++ sent |>)
    | None => None end)) as Hstep.
  { intros io ->. unfold step_mwrite. run. change (id (s_conn s)) with (s_conn s). rewrite J4, J3, J1. cbn [Z.eqb massert]. run.
    rewrite decide_False by (intros Hx; by apply Hx). rewrite He. run. destruct (transmit _ _ s) as [[[res sent] s1]|]; [|done]. by run. }
  destruct (se_send env) as [k| |] eqn:Eio; [|left|done].
  - right. destruct Hio as [Hk1 Hk2]. specialize (Hk2 _ _ Et Hne).
    specialize (Hn k true). specialize (Hstep _ eq_refl). destruct (transmit (IoBytes k) true s) as [x|]; [|exfalso; apply Hn; lia].
    destruct Hn as (s1 & F1 & U1 & res & -> & HS1 & Ep1 & Hc & Hres & (l & El) & Eo & Hfl1 & Hall).
    exists k, s1, F1, U1. split; [rewrite Ep, zlen_app; pose proof (zlen_nonneg rest); lia|].
    do 5 (split; [by eauto|]). split; [intros Ek; by apply Hc, Hall|].
    rewrite (Hm _ Hstep). cbn [fst snd]. destruct Hres as [-> | ->].
    + assert (resps (s_conn s1) = []) as Er by (by apply Hc).
      assert (state (s_conn s1) = conn_mwrite /\ c_item (s_conn s1) = NULL /\ close_after_write (s_conn s1) = false) as (K1 & K2 & K3)
        by (rewrite El; by split_and!).
      rewrite decide_True by done. unfold conn_release_items, Conn.drop_item, conn_set_state. run. change (id ?c) with c. upds.
      rewrite K1, decide_True by done. run. change (id ?c) with c. upds. rewrite K2, decide_True by done. run.
      change (id ?c) with c. upds. rewrite Er, decide_True by done. run. upds. rewrite K3. by run.
    + rewrite decide_False; [by run|]. intros Er. apply Hc in Er. done.
  - split; [done|]. specialize (Hstep _ eq_refl).
    assert (transmit IoAgain true s = Some ((TRANSMIT_SOFT_ERROR, []), s)) as Es.
    { unfold transmit. run. change (id (s_conn s)) with (s_conn s). rewrite Et. run.
      assert (s <| s_mc := s_mc s |> = s) as -> by (by destruct s).
      destruct iovs as [|v iovs]; [done|]. rewrite zlen_cons. pose proof (zlen_nonneg iovs).
      rewrite (proj2 (Z.eqb_neq _ _)) by lia. by run. }
    rewrite Es in Hstep. rewrite (Hm _ Hstep). run. do 2 f_equal. destruct s. unfold upd, upd_s_sent. cbn. by rewrite app_nil_r.
Qed.

(** Turn by turn the answer goes out. *)
Lemma serve_pending m s n envs A Q F U :
  (length (pending s) < m)%nat -> sending s A Q F U -> filled s -> idle_conn (s_conn s) -> rcurr (s_conn s) = [] -> 1 <= n ->
  state (s_conn s) = conn_mwrite -> pending s <> [] -> fair envs n s -> ends (s_sent s ++ pending s) (s_input s) envs n s.
Proof.
  revert s envs F U. induction m as [|m IH]; intros s envs F U Hm HS Hfl HI Ec Hn Est Hp Hf; [lia|].
  destruct (Hf 0%nat n s eq_refl) as [He Hio].
  destruct (mwrite_turn s n (envs 0%nat) A Q F U HS HI Est Hfl Hp He Hio)
    as [[Ea E]|(k & s1 & F1 & U1 & Hk & HS1 & Hfl1 & Ep1 & (l & El) & Eo & Hall & E)].
  { apply (drive_ends_stop _ _ envs n s n s E). by apply (sent_some _ _ _ _ A F U Q 0%nat). }
  injection Eo as _ Ei Es. assert (idle_conn (s_conn s1)) as HI1 by (rewrite El; by destruct HI).
  assert (rcurr (s_conn s1) = []) as Ec1 by (by rewrite El). assert (state (s_conn s1) = conn_mwrite) as Est1 by (by rewrite El).
  destruct (decide (resps (s_conn s1) = [])) as [Er|Er].
  - assert (ztake k (pending s) = pending s) as Et.
    { assert (zdrop k (pending s) = []) as Ed by (rewrite <- Ep1; by apply pending_nil).
      unfold ztake, zdrop in *. by rewrite <- (take_drop (Z.to_nat k) (pending s)) at 2; rewrite Ed, app_nil_r. }
    rewrite Et in E. set (s2 := (s1 <| s_conn ::= _ |>) <| s_sent ::= _ |>) in E.
    apply (ends_turn _ _ envs n s n s2 E).
    assert (s_sent s2 = s_sent s ++ pending s) as <- by (unfold s2; upds; by rewrite Es).
    assert (s_input s2 = s_input s) as <- by exact Ei.
    apply (finish_turns s2 n _ A Q F1 U1); unfold s2; upds; [by apply (sending_conn s1)|by destruct HI1|done..|by apply (fair_step _ n s n _ Hf)].
  - set (s2 := s1 <| s_sent ::= _ |>) in E. assert (pending s2 = zdrop k (pending s)) as Ep2 by exact Ep1.
    assert (k < zlen (pending s)) as Hk2.
    { destruct (decide (k = zlen (pending s))) as [Ek|]; [|lia]. by specialize (Hall Ek). }
    apply (ends_turn _ _ envs n s n s2 E).
    assert (s_sent s2 ++ pending s2 = s_sent s ++ pending s) as <-.
    { unfold s2 at 1. upds. rewrite Es, Ep2, <- app_assoc. unfold ztake, zdrop. by rewrite take_drop. }
    assert (s_input s2 = s_input s) as <- by exact Ei.
    apply (IH s2 _ F1 U1); [rewrite Ep2; unfold zdrop; rewrite length_drop; unfold zlen in *; lia|by apply (sending_conn s1)|done..| |by apply (fair_step _ n s n _ Hf)].
    rewrite Ep2. intros E0. apply (f_equal length) in E0. unfold zdrop in E0. rewrite length_drop in E0. cbn in E0. unfold zlen in *. lia.
Qed.

(** ** Reading *)

Lemma split_line_crlf line rest : 10 ∉ line -> split_line (line ++ CRLF ++ rest) = Some (line ++ [13], rest).
Proof.
  induction line as [|c line IH]; intros Hn; [done|]. apply not_elem_of_cons in Hn as [Hc Hn]. cbn [app split_line].
  rewrite (proj2 (Z.eqb_neq c 10)) by congruence. change (line ++ 13 :: 10 :: rest) with (line ++ CRLF ++ rest). by rewrite IH.
Qed.
Lemma c_string_id l : 0 ∉ l -> c_string l = l.
Proof.
  induction l as [|c l IH]; intros Hn; [done|]. apply not_elem_of_cons in Hn as [Hc Hn]. cbn [c_string].
  rewrite (proj2 (Z.eqb_neq c 0)) by congruence. by rewrite IH.
Qed.
Lemma strip_cr_line line : line <> [] -> strip_cr (line ++ [13]) = line.
Proof.
  intros Hn. unfold strip_cr. rewrite last_snoc, bool_decide_eq_true_2 by done.
  rewrite (proj2 (Z.ltb_lt _ _)); [by rewrite removelast_last|]. destruct line; [done|]. rewrite zlen_app, zlen_cons.
  change (zlen [13]) with 1. pose proof (zlen_nonneg line). lia.
Qed.

Lemma ready_conn n s s' A Q F U :
  ready n s A Q F U -> s_mc s' = s_mc s -> s_worker s' = s_worker s -> s_options s' = s_options s ->
  resps (s_conn s') = resps (s_conn s) -> ready n s' A Q F U.
Proof. intros [R1 R2 R3 R4 R5 R6] E1 E2 E3 E4. split; rewrite ?E1, ?E2, ?E3; try done. by apply (sending_conn s). Qed.

Lemma ready_update n s f inp A Q F U :
  ready n s A Q F U -> (forall c, resps (f c) = resps c) -> ready n (s <| s_input := inp |> <| s_conn ::= f |>) A Q F U.
Proof. intros HR Hf. apply (ready_conn n s); try reflexivity; [done|]. upds. apply Hf. Qed.
Lemma ready_state n s st A Q F U : ready n s A Q F U -> ready n (s <| s_conn ::= fun c => c <| state := st |> |>) A Q F U.
Proof. intros HR. by apply (ready_conn n s). Qed.

(** The turn of [conn_parse_cmd] with a get line in the buffer. *)
Lemma parse_turn n m env cas ks line s A Q F U :
  idle_conn (s_conn s) -> state (s_conn s) = conn_parse_cmd -> resps (s_conn s) = [] -> rcurr (s_conn s) = line ++ CRLF ->
  10 ∉ line -> 0 ∉ line -> words line = get_word cas :: ks -> ks <> [] -> Forall (fun k => zlen k <= KEY_MAX_LENGTH) ks ->
  ready (n + 2 * zlen ks) s A Q F U -> 0 <= n ->
  exists s' A' Q' F' U', machine_step env m s = Some ((false, m), s') /\ sending s' A' Q' F' U' /\ filled s'
    /\ idle_conn (s_conn s') /\ state (s_conn s') = conn_mwrite /\ rcurr (s_conn s') = []
    /\ pending s' = concat (key_reply cas (live (s_mc s) A) <$> ks) ++ END_LINE
    /\ s_sent s' = s_sent s /\ s_input s' = s_input s.
Proof.
  intros HI Est Er Ec H10 H0' Ew Hne Hk HR Hn.
  set (s1 := s <| s_conn ::= fun c => c <| noreply := false |> <| last_cmd_time := current_time (s_mc s) |> |>).
  destruct (get_command_ok n cas ks line s1 A Q F U (se_cmd env) Ew Hne Hk)
    as (s2 & A' & Q' & F' & U' & E & HS & Ep & _ & _ & (l & El) & Eo & Hfl); [by apply (ready_conn _ s)|done|].
  exists (s2 <| s_conn ::= fun c => c <| rcurr := [] |> |>), A', Q', F', U'. injection Eo as _ Ei Es.
  assert (pending s1 = []) as Ep1 by (by apply pending_nil). rewrite Ep1 in Ep.
  assert (line <> []) as Hl by (by intros ->).
  split; [|split; [by apply (sending_conn s2)|split; [apply Hfl; unfold filled; change (resps (s_conn s1)) with (resps (s_conn s)); by rewrite Er|]]].
  - unfold machine_step. run. rewrite Est. unfold step_parse_cmd. run. upds. rewrite (ic_reader _ HI). unfold run_reader, try_read_command_ascii. run.
    change (id ?c) with c. unfold rbytes. upds. rewrite Ec. rewrite zlen_app. change (zlen CRLF) with 2. pose proof (zlen_nonneg line).
    rewrite (proj2 (Z.eqb_neq _ _)) by lia. rewrite <- (app_nil_r (line ++ CRLF)), <- app_assoc, split_line_crlf by done.
    rewrite strip_cr_line, c_string_id by done. run.
    change (s <| s_conn ::= _ |> <| s_conn ::= _ |>) with s1. rewrite E. by run.
  - assert (idle_conn (s_conn s2)) as HI2 by (rewrite El; by destruct HI).
    split; [by destruct HI2|]. split; [upds; by rewrite El|]. split; [done|]. split; [exact Ep|]. by split.
Qed.

(** The buffer for the input, and the one read it takes. *)
Definition with_rbuf s : server :=
  s <| s_worker ::= fun k => k <| next_buf ::= Z.succ |> <| rbuf_out ::= Z.succ |> |>
    <| s_conn ::= fun c => c <| rbuf := true |> <| rsize := READ_BUFFER_SIZE |> <| rcurr := [] |> |>.
Lemma run_rbuf_alloc s : rbuf (s_conn s) = false -> rbuf_cache_ok (s_worker s) = [] -> rbuf_alloc s = Some (true, with_rbuf s).
Proof.
  intros Eb Ek. unfold rbuf_alloc, rbuf_cache_alloc. run. change (id (s_conn s)) with (s_conn s). rewrite Eb. run. rewrite Ek.
  cbn [default head from_option]. run. do 2 f_equal. unfold with_rbuf. destruct s as [m k c o g l x a i u]. destruct k, c; cbn in *; by subst.
Qed.
Definition with_input s (l : list Z) (more : list read_result) : server :=
  counted (zlen l) bytes_read (s <| s_input := more |>
    <| s_conn ::= fun c => c <| rcurr := l |> <| rbuf0 := default 0 (head l) |> |>).
Lemma run_network s l more :
  rbuf_malloced (s_conn s) = false -> rcurr (s_conn s) = [] -> rsize (s_conn s) = READ_BUFFER_SIZE ->
  s_input s = ReadBytes l :: more -> l <> [] -> zlen l <= READ_BUFFER_SIZE ->
  try_read_network s = Some (READ_DATA_RECEIVED, with_input s l more).
Proof.
  intros Em Ec Ez Ein Hl Hz. unfold try_read_network. run. cbn [network_loop]. run. change (id ?c) with c. upds. unfold rbytes. upds. rewrite Em, Ec, Ez.
  change (READ_BUFFER_SIZE <=? zlen []) with false. cbn [andb when]. run. cbn [negb]. run. change (id ?c) with c. upds. rewrite Ec, Ez.
  unfold net_read. run. upds. change (READ_BUFFER_SIZE - zlen []) with READ_BUFFER_SIZE.
  change (READ_BUFFER_SIZE <=? 0) with false. cbv iota. rewrite Ein. run. rewrite (proj2 (Z.leb_le _ _)) by done. rewrite decide_False by done. run.
  assert (ztake READ_BUFFER_SIZE l = l) as -> by (apply take_ge; unfold zlen, READ_BUFFER_SIZE in *; lia).
  destruct l as [|b l]; [done|]. unfold receive. run. rewrite run_count_by. run. rewrite Em, andb_false_r. run. do 2 f_equal.
  unfold with_input, counted. upds. destruct s as [m k c o g ll x a i u]. destruct c; cbn in *; by subst.
Qed.

(** The turn of [conn_read]. *)
Lemma read_turn n m env l more s A Q F U :
  idle_conn (s_conn s) -> state (s_conn s) = conn_read -> resps (s_conn s) = [] -> rbuf (s_conn s) = false ->
  s_input s = ReadBytes l :: more -> l <> [] -> zlen l <= READ_BUFFER_SIZE -> ready n s A Q F U ->
  exists s', machine_step env m s = Some ((false, m), s') /\ ready n s' A Q F U /\ idle_conn (s_conn s')
    /\ state (s_conn s') = conn_parse_cmd /\ rcurr (s_conn s') = l /\ resps (s_conn s') = []
    /\ live (s_mc s') A = live (s_mc s) A /\ s_sent s' = s_sent s /\ s_input s' = more.
Proof.
  intros HI Est Er Eb Ein Hl Hz HR. pose proof (ic_stream _ HI) as Hs. pose proof (ic_small _ HI) as Hm.
  exists (with_input (with_rbuf s) l more <| s_conn ::= fun c => c <| state := conn_parse_cmd |> |>).
  split; [|split; [|split; [by destruct HI|by split_and!]]].
  - unfold machine_step. run. rewrite Est. unfold step_read. run. rewrite Hs. run. rewrite run_rbuf_alloc by (done || apply HR). run. cbn [negb]. run.
    rewrite (run_network (with_rbuf s) l more) by done. unfold conn_set_state. by run.
  - apply ready_state. unfold with_input. apply ready_counted, ready_update; [|done]. destruct HR as [[S1 S2 S3 S4 S5 S6] R2 R3 R4 R5 R6].
    split; try done. split; try done; change (resps (s_conn (with_rbuf s))) with (resps (s_conn s)); try done.
    destruct S2 as [I1 I2 I3 I4 I5]. split; try done. intros b u Hb. specialize (I4 b u Hb). change (b < next_buf (s_worker s) + 1). lia.
Qed.

(** C3: from the socket to the socket.  A line [get k1 ... kn] or [gets k1 ... kn] of
    at most a buffer's length arrives on an idle connection that waits in
    [conn_read].  [drive_machine] then runs to its end in finitely many turns, no
    turn is undefined, no loop inside a turn runs out of its bound: the line is
    read, split off, tokenized and answered, and in whatever pieces (a byte at
    least) the socket takes the answer, the bytes sent are a VALUE block for each
    key that is served, in the order of the keys, and END.  Then the connection is
    idle and waits in [conn_read] for the next line, its buffer given back; or the
    socket takes no more for now, and what is not sent is kept for the next turn. *)
Theorem drive_machine_serves_get envs nreqs cas ks line more s A Q F U :
  idle_conn (s_conn s) -> state (s_conn s) = conn_read -> resps (s_conn s) = [] -> rbuf (s_conn s) = false ->
  s_input s = ReadBytes (line ++ CRLF) :: more -> zlen line + 2 <= READ_BUFFER_SIZE -> 10 ∉ line -> 0 ∉ line ->
  words line = get_word cas :: ks -> ks <> [] -> Forall (fun k => zlen k <= KEY_MAX_LENGTH) ks ->
  ready (2 * zlen ks) s A Q F U -> 1 <= nreqs -> fair envs nreqs s ->
  exists fuel s', drive_machine fuel envs nreqs s = Some (tt, s')
    /\ outcome (s_sent s ++ concat (key_reply cas (live (s_mc s) A) <$> ks) ++ str "END" ++ CRLF) more envs s'.
Proof.
  intros HI Est Er Eb Ein Hz H10 H0' Ew Hne Hk HR Hn Hf.
  destruct (read_turn (2 * zlen ks) nreqs (envs 0%nat) (line ++ CRLF) more s A Q F U HI Est Er Eb Ein)
    as (s1 & E1 & HR1 & HI1 & Est1 & Ec1 & Er1 & El1 & Es1 & Ei1); [by destruct line|by rewrite zlen_app|done|].
  destruct (parse_turn 0 nreqs (envs 1%nat) cas ks line s1 A Q F U HI1 Est1 Er1 Ec1 H10 H0' Ew Hne Hk HR1)
    as (s2 & A2 & Q2 & F2 & U2 & E2 & HS2 & Hfl & HI2 & Est2 & Ec2 & Ep2 & Es2 & Ei2); [done|].
  pose proof (fair_step _ _ _ _ _ Hf E1) as Hf1. pose proof (fair_step _ _ _ _ _ Hf1 E2) as Hf2.
  apply (ends_turn _ _ envs nreqs s nreqs s1 E1), (ends_turn _ _ _ nreqs s1 nreqs s2 E2).
  rewrite <- El1, <- Es1, <- Es2, <- Ei1, <- Ei2. change (str "END" ++ CRLF) with END_LINE. rewrite <- Ep2.
  apply (serve_pending (S (length (pending s2))) s2 nreqs _ A2 Q2 F2 U2); try done; [lia|].
  rewrite Ep2. intros [_ ?]%app_nil. done.
Qed.
End serve.

(** ** A client that waits, and a socket that takes a byte at a time *)
Module ServeDemo.
Import AssocIter.Demo CacheDemo GetDemo.
#[local] Existing Instance TransmitDemo.no_storage.
#[local] Existing Instance GetDemo.no_subsystems.

Definition caller (w : mc) : server :=
  Server (with_bumps w) worker_init (conn_new conn_read 0 tcp_transport ascii_prot false 0)
    (options_init 0) [] [] (Prefixes [] 58 0 0) authfile_none [ReadBytes (str "get a b  a" ++ CRLF)] [].
Definition slow (n : nat) : step_env := StepEnv (CmdEnv (fun _ => env) true true) (IoBytes 1) true.

Lemma drive_machine_serves_get_witness :
  exists s e fuel s', drive_machine fuel slow 20 s = Some (tt, s')
    /\ s_sent s' = value_reply false key_a e ++ value_reply false key_a e ++ str "END" ++ CRLF
    /\ state (s_conn s') = conn_read /\ s_input s' = [].
Proof.
  destruct asker_ok as (w & p & Q & F & U & it & _ & HR & Hl & _).
  destruct (drive_machine_serves_get slow 20 false [key_a; [98]; key_a] (str "get a b  a") [] (caller w) {[key_a := p]} Q F U)
    as (fuel & s' & E & Ho).
  - split; try reflexivity. split; reflexivity.
  - reflexivity.
  - reflexivity.
  - reflexivity.
  - reflexivity.
  - vm_compute. discriminate.
  - intros Hin. apply list_elem_of_In in Hin. vm_compute in Hin. decompose [or] Hin; discriminate || done.
  - intros Hin. apply list_elem_of_In in Hin. vm_compute in Hin. decompose [or] Hin; discriminate || done.
  - vm_compute. reflexivity.
  - discriminate.
  - repeat constructor; vm_compute; discriminate.
  - apply (ready_conn _ (asker w)); [exact HR|reflexivity..].
  - lia.
  - intros i n' s2 _. split; [reflexivity|]. split; [lia|]. intros iovs w2 _ Hne. destruct (concat iovs); [done|].
    rewrite zlen_cons. pose proof (zlen_nonneg l). lia.
  - exists (caller w), (entry_of it), fuel, s'. split; [exact E|].
    destruct Ho as [A F' U' Q' _ _ Est _ _ _ Es Ei|A F' U' Q' i _ _ _ Eio]; [|discriminate Eio]. split; [|split; [exact Est|exact Ei]].
    rewrite Es. unfold key_reply. cbn [fmap list_fmap concat].
    change (live (s_mc (caller w)) {[key_a := p]}) with (live (s_mc (asker w)) {[key_a := p]}).
    rewrite Hl. rewrite live_lookup, lookup_singleton_ne by discriminate. cbn [mbind option_bind app].
    rewrite <- !app_assoc. reflexivity.
Defined.
End ServeDemo.
