(* ===== verification/Tame.v ===== *)
(** * What every handler leaves alone (memcached.c, proto_text.c, proto_bin.c)

    No operation of the connection layer and no handler of a command brings input back,
    makes the unparsed bytes grow, turns a stream into a datagram connection or
    spoils the accounts of a response.  The relation [no_worse] says so, and
    [tame m] says that [m] moves along it; the tactic [tame] walks through a
    handler. *)

From S2P Require Import Prelude Memory Assoc Slabs Items Store Tokens Resp StatsPrefix AuthFile Conn Transmit TransmitProps.
From S2P Require Import Text Meta Commands ProtoBin.

(** ** The relation *)

(** A response whose vectors have sizes and that owes at most their sum. *)
Definition resp_fits (r : mc_resp) : Prop :=
  Forall (fun v => 0 <= iov_len v) (iov r) /\ - 2 ^ 31 <= tosend r <= iov_total (iov r).
Definition resps_fit (s : server) : Prop := Forall resp_fits (resps (s_conn s)).

(** A stream connection: it never reads datagrams. *)
Definition stream_reader (r : command_reader) : bool := match r with try_udp => false | _ => true end.
Definition stream_client (s : server) : Prop :=
  IS_UDP (transport (s_conn s)) = false /\ stream_reader (try_read_command (s_conn s)) = true.

(** What the network still has, and with the unparsed bytes: a byte costs two units
    before it is read and one before it is parsed. *)
Definition input_size (l : list read_result) : nat :=
  foldr (fun i n => match i with ReadBytes l => S (length l) | _ => 1 end + n)%nat 0%nat l.
Definition work (s : server) : nat := (2 * input_size (s_input s) + length (rcurr (s_conn s)))%nat.

Record no_worse (s s' : server) : Prop := NoWorse {
  nw_input : (input_size (s_input s') <= input_size (s_input s))%nat;
  nw_work : (work s' <= work s)%nat;
  nw_client : stream_client s -> stream_client s';
  nw_resps : resps_fit s -> resps_fit s'
}.
#[export] Instance no_worse_preorder : PreOrder no_worse.
Proof.
  split; [by intros s; split|]. intros s1 s2 s3 [A1 A2 A3 A4] [B1 B2 B3 B4].
  split; [lia|lia|auto|auto].
Qed.

Definition tame {A} (m : M server A) : Prop := forall s a s', m s = Some (a, s') -> no_worse s s'.

(** ** Rules *)

Section rules.
Context {A B : Type}.
Implicit Types (m : M server A) (s : server).

Lemma tame_ret (a : A) : tame (mret a).
Proof. by intros s x s' [= <- <-]. Qed.
Lemma tame_gets (f : server -> A) : tame (gets f).
Proof. by intros s x s' [= <- <-]. Qed.
Lemma tame_lift (o : option A) : tame (lift o).
Proof. intros s x s' E. destruct o; [by injection E as <- <-|done]. Qed.
Lemma tame_ub : tame (ub (A:=A)).
Proof. by intros s x s'. Qed.
Lemma tame_massert b : tame (massert b).
Proof. intros s x s' E. destruct b; [by injection E as <- <-|done]. Qed.
Lemma tame_bind m (f : A -> M server B) : tame m -> (forall a, tame (f a)) -> tame (m ≫= f).
Proof.
  intros Hm Hf s b s' E. change ((m ≫= f) s) with (match m s with Some (a, s') => f a s' | None => None end) in E.
  destruct (m s) as [[a s1]|] eqn:E1; [|done]. etrans; [by eapply Hm|by eapply Hf].
Qed.
Lemma tame_when b (m : M server unit) : tame m -> tame (when b m).
Proof. intros Hm. destruct b; [done|]. by intros s x s' [= <- <-]. Qed.
Lemma tame_in_mc (m : M mc A) : tame (in_mc m).
Proof. intros s a s' E. unfold in_mc in E. destruct (m (s_mc s)) as [[x w]|]; [|done]. by injection E as <- <-. Qed.
Lemma tame_in_worker (m : M worker A) : tame (in_worker m).
Proof. intros s a s' E. unfold in_worker in E. destruct (m (s_worker s)) as [[x w]|]; [|done]. by injection E as <- <-. Qed.
(** An update of the state outside the connection and its input. *)
Lemma tame_modify (f : server -> server) :
  (forall s, s_input (f s) = s_input s) -> (forall s, s_conn (f s) = s_conn s) -> tame (modify f).
Proof.
  intros Hi Hc s a s' [= <- <-]. unfold resps_fit, stream_client.
  split; unfold work, stream_client, resps_fit; by rewrite ?Hi, ?Hc.
Qed.
(** An update of the connection. *)
Lemma tame_on_conn (f : conn -> conn) :
  (forall c, (length (rcurr (f c)) <= length (rcurr c))%nat) ->
  (forall c, transport (f c) = transport c) ->
  (forall c, stream_reader (try_read_command c) = true -> stream_reader (try_read_command (f c)) = true) ->
  (forall c, Forall resp_fits (resps c) -> Forall resp_fits (resps (f c))) -> tame (on_conn f).
Proof.
  intros Hr Hp Ht Hs s a s' [= <- <-]. specialize (Hr (s_conn s)). specialize (Hp (s_conn s)).
  split; [done|unfold work; upds; lia| |by apply Hs].
  intros (C1 & C2). unfold stream_client. upds. rewrite Hp. split; [done|by apply Ht].
Qed.
End rules.

Lemma on_last_fits f rs : (forall r, resp_fits r -> resp_fits (f r)) -> Forall resp_fits rs -> Forall resp_fits (on_last f rs).
Proof.
  intros Hf Hr. unfold on_last. destruct (last rs) as [r|] eqn:E; [|done].
  apply last_Some in E as [l ->]. rewrite removelast_last. apply Forall_app in Hr as [Hl Hr]. rewrite Forall_singleton in Hr.
  apply Forall_app. split; [done|]. apply Forall_singleton. by apply Hf.
Qed.
Lemma tame_on_resp f : (forall r, resp_fits r -> resp_fits (f r)) -> tame (on_resp f).
Proof.
  intros Hf. unfold on_resp, resp, co. apply tame_bind; [apply tame_bind; [apply tame_gets|intros; apply tame_lift]|].
  intros _. apply tame_on_conn; try done. intros c. by apply on_last_fits.
Qed.
Lemma tame_co {A} (f : conn -> A) : tame (co f).
Proof. apply tame_gets. Qed.
Lemma tame_opt {A} (f : options -> A) : tame (opt f).
Proof. apply tame_gets. Qed.
Lemma tame_setting {A} (f : settings -> A) : tame (setting f).
Proof. apply tame_gets. Qed.
Lemma tame_now : tame now.
Proof. apply tame_gets. Qed.
Lemma tame_resp : tame resp.
Proof. unfold resp. apply tame_bind; [apply tame_co|intros; apply tame_lift]. Qed.
Lemma tame_on_options f : tame (on_options f).
Proof. by apply tame_modify. Qed.

Create HintDb tame.
#[export] Hint Resolve tame_ret tame_gets tame_lift tame_ub tame_massert tame_in_mc tame_in_worker tame_co tame_opt
  tame_setting tame_now tame_resp tame_on_options : tame.

(** Updates of fields the relation does not look at. *)
Ltac tame_update :=
  first [ apply tame_on_conn; intros ?; upds; solve [done | lia | by split | by apply Nat.le_0_l ]
        | apply tame_on_resp; intros ? ?; done
        | apply tame_modify; done ].
Ltac tame_step :=
  match goal with
  | |- tame (mbind _ _) => apply tame_bind; [|intros ?]
  | |- tame (when _ _) => apply tame_when
  | |- tame (match ?x with _ => _ end) => destruct x
  | |- tame (let _ := _ in _) => intro
  | |- tame _ => first [ solve [auto 2 with tame] | solve [tame_update] ]
  end.
Ltac tame := cbv zeta; repeat (tame_step; cbv zeta).

(** ** Connections *)

(** What the parts that are parameters promise. *)
Class TameStorage `{ExtStorage} : Prop := {
  tame_storage_get_item p : tame (storage_get_item p);
  tame_finalize_cb n : tame (finalize_cb n);
  finalize_cb_conn n s u s' : finalize_cb n s = Some (u, s') -> s_conn s' = s_conn s;
  tame_submit_cb : tame submit_cb;
  tame_complete_cb : tame complete_cb
}.
#[export] Hint Resolve @tame_storage_get_item @tame_finalize_cb @tame_submit_cb @tame_complete_cb : tame.

Section conn.
Context `{HashFunction} `{TameStorage}.

Lemma tame_conn_alloc_ok : tame conn_alloc_ok.
Proof. unfold conn_alloc_ok. tame. Qed.
Lemma tame_conn_set_state st : tame (conn_set_state st).
Proof. unfold conn_set_state. tame. Qed.
Hint Resolve tame_conn_alloc_ok tame_conn_set_state : tame.

Lemma tame_resp_reset : tame resp_reset.
Proof.
  unfold resp_reset. tame.
Qed.
Lemma iov_total_app l k : iov_total (l ++ k) = iov_total l + iov_total k.
Proof. unfold iov_total. induction l as [|v l IH]; cbn in *; lia. Qed.
Lemma fits_add r b len :
  - 2 ^ 31 <= len < 2 ^ 31 -> resp_fits r ->
  resp_fits (r <| iov ::= fun l => l ++ [Iovec b (u64 len)] |> <| tosend ::= fun n => s32 (n + len) |>).
Proof.
  intros Hl [G1 G2]. pose proof (u64_range len). pose proof (s32_range (tosend r + len)). split; upds.
  - apply Forall_app. split; [done|]. apply Forall_singleton. cbn. lia.
  - rewrite iov_total_app. change (iov_total [Iovec b (u64 len)]) with (u64 len + 0). split; [lia|].
    assert (0 <= iov_total (iov r)) by (clear -G1; unfold iov_total; induction G1; cbn in *; lia).
    destruct (decide (0 <= len)).
    + rewrite (u64_id len) by lia. unfold s32.
      destruct (decide (tosend r + len < 2 ^ 31)); [rewrite Z.mod_small; lia|].
      pose proof (Z.mod_pos_bound (tosend r + len + 2 ^ 31) (2 ^ 32) ltac:(lia)).
      pose proof (Z.mod_le (tosend r + len + 2 ^ 31) (2 ^ 32) ltac:(lia) ltac:(lia)). lia.
    + assert (u64 len = len + 2 ^ 64) as -> by (unfold u64; rewrite <- (Z_mod_plus_full len 1), Z.mod_small; lia). lia.
Qed.
Lemma tame_resp_add_iov b len : tame (resp_add_iov b len).
Proof.
  unfold resp_add_iov. tame. apply tame_on_resp. intros r Hr. apply fits_add; [|done].
  pose proof (s32_range len). lia.
Qed.
Hint Resolve tame_resp_reset tame_resp_add_iov : tame.
Lemma tame_resp_add_chunked_iov b len : tame (resp_add_chunked_iov b len).
Proof. unfold resp_add_chunked_iov. tame. Qed.
Lemma tame_put_wbuf off b : tame (put_wbuf off b).
Proof. unfold put_wbuf. tame. Qed.
Lemma tame_resp_start : tame resp_start.
Proof.
  unfold resp_start. tame. apply tame_on_conn; try done. intros c Hc. upds. apply Forall_app. split; [done|].
  apply Forall_singleton. destruct (IS_UDP _); split; upds; cbn; done || lia.
Qed.
Lemma tame_resp_finish : tame resp_finish.
Proof. unfold resp_finish. tame. apply tame_on_conn; try done. intros c Hc. upds. by apply Forall_tail. Qed.
Lemma tame_resp_has_stack : tame resp_has_stack.
Proof. unfold resp_has_stack. tame. Qed.
Hint Resolve tame_resp_add_chunked_iov tame_put_wbuf tame_resp_start tame_resp_finish tame_resp_has_stack : tame.

Lemma tame_out_string l : tame (out_string l).
Proof. unfold out_string. tame. Qed.
Hint Resolve tame_out_string : tame.
Lemma tame_out_errstring l : tame (out_errstring l).
Proof. unfold out_errstring. tame. Qed.
Lemma tame_out_of_memory l : tame (out_of_memory l).
Proof. unfold out_of_memory, write_bin_error, add_bin_header. tame. Qed.
Lemma tame_append_stats k v : tame (append_stats k v).
Proof. unfold append_stats, grow_stats_buf, append_bin_stats, append_ascii_stats. tame. Qed.
Hint Resolve tame_out_errstring tame_out_of_memory tame_append_stats : tame.
Lemma tame_write_and_free b : tame (write_and_free b).
Proof. unfold write_and_free. tame. Qed.
Lemma tame_drop_item : tame drop_item.
Proof. unfold drop_item. tame. Qed.
Lemma tame_finish_all n : tame (finish_all n).
Proof. induction n as [|n IH]; cbn [finish_all]; tame. Qed.
Hint Resolve tame_write_and_free tame_drop_item tame_finish_all : tame.
Lemma tame_conn_release_items : tame conn_release_items.
Proof. unfold conn_release_items. tame. Qed.
Hint Resolve tame_conn_release_items : tame.
Lemma tame_rbuf_release : tame rbuf_release.
Proof. unfold rbuf_release. tame. Qed.
Lemma tame_rbuf_alloc : tame rbuf_alloc.
Proof. unfold rbuf_alloc. tame. Qed.
Lemma tame_rbuf_switch_to_malloc b : tame (rbuf_switch_to_malloc b).
Proof. unfold rbuf_switch_to_malloc. tame. Qed.
Lemma tame_reset_cmd_handler : tame reset_cmd_handler.
Proof. unfold reset_cmd_handler. tame. Qed.
End conn.
#[export] Hint Resolve tame_conn_alloc_ok tame_conn_set_state tame_resp_reset tame_resp_add_iov tame_resp_add_chunked_iov
  tame_put_wbuf tame_resp_start tame_resp_finish tame_resp_has_stack tame_out_string tame_out_errstring tame_out_of_memory
  tame_append_stats tame_write_and_free tame_drop_item tame_finish_all tame_conn_release_items tame_rbuf_release
  tame_rbuf_alloc tame_rbuf_switch_to_malloc tame_reset_cmd_handler : tame.

(** ** The classic commands *)

Class TameSubsystems `{Subsystems} : Prop := {
  tame_server_stats : tame server_stats;
  tame_get_stats n : tame (get_stats n);
  tame_process_stat_settings : tame process_stat_settings;
  tame_process_stats_conns : tame process_stats_conns;
  tame_process_extstore_stats : tame process_extstore_stats;
  tame_item_cachedump i n : tame (item_cachedump i n);
  tame_lru_crawler_crawl v t n : tame (lru_crawler_crawl v t n);
  tame_start_item_crawler_thread : tame start_item_crawler_thread;
  tame_stop_item_crawler_thread : tame stop_item_crawler_thread;
  tame_logger_add_watcher f : tame (logger_add_watcher f)
}.
#[export] Hint Resolve @tame_server_stats @tame_get_stats @tame_process_stat_settings @tame_process_stats_conns
  @tame_process_extstore_stats @tame_item_cachedump @tame_lru_crawler_crawl @tame_start_item_crawler_thread
  @tame_stop_item_crawler_thread @tame_logger_add_watcher : tame.

Section text.
Context `{HashFunction} `{TameStorage} `{TameSubsystems}.

Lemma tame_value_of ts i : tame (value_of ts i).
Proof. unfold value_of. tame. Qed.
Lemma tame_length_of ts i : tame (length_of ts i).
Proof. unfold length_of. tame. Qed.
Hint Resolve tame_value_of tame_length_of : tame.
Lemma tame_token_is ts i w : tame (token_is ts i w).
Proof. unfold token_is. tame. Qed.
Lemma tame_on_settings f : tame (on_settings f).
Proof. unfold on_settings. tame. Qed.
Lemma tame_counting c : tame (counting c).
Proof. unfold counting. tame. Qed.
Lemma tame_realtime_of n : tame (realtime_of n).
Proof. unfold realtime_of. tame. Qed.
Lemma tame_set_noreply_maybe ts : tame (set_noreply_maybe ts).
Proof. unfold set_noreply_maybe. tame. Qed.
Hint Resolve tame_token_is tame_on_settings tame_counting tame_realtime_of tame_set_noreply_maybe : tame.

Lemma tame_add_value it : tame (add_value it).
Proof. unfold add_value. tame. Qed.
Hint Resolve tame_add_value : tame.
Lemma tame_get_one k e c t : tame (get_one k e c t).
Proof. unfold get_one. tame. Qed.
Hint Resolve tame_get_one : tame.
Lemma tame_get_tokens ts e c t : tame (get_tokens ts e c t).
Proof. induction ts as [|x ts IH]; cbn [get_tokens]; tame. Qed.
Hint Resolve tame_get_tokens : tame.
Lemma tame_get_loop n ts e c t : tame (get_loop n ts e c t).
Proof. revert ts. induction n as [|n IH]; intros ts; cbn [get_loop]; tame. Qed.
Lemma tame_get_finish stop : tame (get_finish stop).
Proof. unfold get_finish. tame. Qed.
Hint Resolve tame_get_loop tame_get_finish : tame.
Lemma tame_process_get_command ts c t : tame (process_get_command ts c t).
Proof. unfold process_get_command. tame. Qed.

Lemma tame_read_value it comm : tame (read_value it comm).
Proof. unfold read_value. tame. Qed.
Lemma tame_drop_stale k : tame (drop_stale k).
Proof. unfold drop_stale. tame. Qed.
Hint Resolve tame_read_value tame_drop_stale : tame.
Lemma tame_process_update_command ts comm cas e : tame (process_update_command ts comm cas e).
Proof. unfold process_update_command, update_item_alloc. tame. Qed.
Lemma tame_process_touch_command ts : tame (process_touch_command ts).
Proof. unfold process_touch_command. tame. Qed.
Lemma tame_process_arithmetic_command ts incr e : tame (process_arithmetic_command ts incr e).
Proof. unfold process_arithmetic_command. tame. Qed.
Lemma tame_delete_found it hv : tame (delete_found it hv).
Proof. unfold delete_found. tame. Qed.
Hint Resolve tame_delete_found : tame.
Lemma tame_process_delete_command ts : tame (process_delete_command ts).
Proof. unfold process_delete_command, delete_key. tame. Qed.

Lemma tame_process_verbosity_command ts : tame (process_verbosity_command ts).
Proof. unfold process_verbosity_command. tame. Qed.
Lemma tame_process_slabs_command ts b : tame (process_slabs_command ts b).
Proof. unfold process_slabs_command, process_slabs_automove_command. tame. Qed.
Lemma tame_process_memlimit_command ts : tame (process_memlimit_command ts).
Proof. unfold process_memlimit_command. tame. Qed.
Lemma tame_process_lru_command ts : tame (process_lru_command ts).
Proof. unfold process_lru_command, lru_tune. tame. Qed.
Lemma tame_process_extstore_command ts : tame (process_extstore_command ts).
Proof. unfold process_extstore_command. tame. Qed.
Lemma tame_set_oldest_live n : tame (set_oldest_live n).
Proof. unfold set_oldest_live. tame. Qed.
Hint Resolve tame_set_oldest_live : tame.
Lemma tame_process_flush_all_command ts : tame (process_flush_all_command ts).
Proof. unfold process_flush_all_command. tame. Qed.
Lemma tame_process_version_command : tame process_version_command.
Proof. unfold process_version_command. tame. Qed.
Lemma tame_process_quit_command : tame process_quit_command.
Proof. unfold process_quit_command. tame. Qed.
Lemma tame_process_shutdown_command ts : tame (process_shutdown_command ts).
Proof. unfold process_shutdown_command, raise. tame. Qed.
Lemma tame_process_lru_crawler_command ts : tame (process_lru_crawler_command ts).
Proof. unfold process_lru_crawler_command, crawler_crawl, crawler_metadump, crawler_number. tame. Qed.
Lemma tame_process_watch_command ts : tame (process_watch_command ts).
Proof. unfold process_watch_command. tame. Qed.
Lemma tame_stats_reset : tame stats_reset.
Proof. unfold stats_reset. tame. Qed.
Hint Resolve tame_stats_reset : tame.
Lemma tame_process_stats_detail w : tame (process_stats_detail w).
Proof. unfold process_stats_detail. tame. Qed.
Lemma tame_stats_cachedump ts : tame (stats_cachedump ts).
Proof. unfold stats_cachedump. tame. Qed.
Hint Resolve tame_process_stats_detail tame_stats_cachedump : tame.
Lemma tame_process_stat ts : tame (process_stat ts).
Proof. unfold process_stat, stats_finish, stats_send. tame. Qed.
End text.
#[export] Hint Resolve tame_value_of tame_length_of tame_token_is tame_on_settings tame_counting tame_realtime_of
  tame_set_noreply_maybe tame_add_value tame_process_get_command tame_read_value tame_process_update_command
  tame_process_touch_command tame_process_arithmetic_command tame_delete_found tame_process_delete_command
  tame_process_verbosity_command tame_process_slabs_command tame_process_memlimit_command tame_process_lru_command
  tame_process_extstore_command tame_process_flush_all_command tame_process_version_command tame_process_quit_command
  tame_process_shutdown_command tame_process_lru_crawler_command tame_process_watch_command tame_process_stat : tame.

(** ** The meta commands *)

Section meta.
Context `{HashFunction} `{TameStorage} `{TameSubsystems}.

Lemma tame_meta_flag_preparse ts start fl : tame (meta_flag_preparse ts start fl).
Proof. unfold meta_flag_preparse. tame. Qed.
Hint Resolve tame_meta_flag_preparse : tame.
Lemma tame_process_meta_command ts : tame (process_meta_command ts).
Proof. unfold process_meta_command. tame. Qed.

Lemma tame_mget_flag it fl c v x : tame (mget_flag it fl c v x).
Proof. unfold mget_flag. tame. Qed.
Hint Resolve tame_mget_flag : tame.
Lemma tame_mget_flags it fl c vs x : tame (mget_flags it fl c vs x).
Proof. revert x. induction vs as [|v vs IH]; intros x; cbn [mget_flags]; tame. Qed.
Lemma tame_mget_marks it x : tame (mget_marks it x).
Proof. unfold mget_marks. tame. Qed.
Hint Resolve tame_mget_flags tame_mget_marks : tame.
Lemma tame_mget_hit it fl c vs : tame (mget_hit it fl c vs).
Proof. unfold mget_hit. tame. Qed.
Lemma tame_mget_fetch k fl e : tame (mget_fetch k fl e).
Proof. unfold mget_fetch. tame. Qed.
Hint Resolve tame_mget_hit tame_mget_fetch : tame.
Lemma tame_process_mget_command ts e : tame (process_mget_command ts e).
Proof. unfold process_mget_command, mget_miss_counters. tame. Qed.

Lemma tame_mset_error n l : tame (mset_error n l).
Proof. unfold mset_error. tame. Qed.
Hint Resolve tame_mset_error : tame.
Lemma tame_mset_start k fl comm n p e : tame (mset_start k fl comm n p e).
Proof. unfold mset_start, mset_alloc_failed. tame. Qed.
Hint Resolve tame_mset_start : tame.
Lemma tame_process_mset_command ts e : tame (process_mset_command ts e).
Proof. unfold process_mset_command. tame. Qed.
Lemma tame_finalize_mset r : tame (finalize_mset r).
Proof. unfold finalize_mset. tame. Qed.

Lemma tame_mdelete_found it hv fl : tame (mdelete_found it hv fl).
Proof. unfold mdelete_found, mark_stale. tame. Qed.
Hint Resolve tame_mdelete_found : tame.
Lemma tame_process_mdelete_command ts : tame (process_mdelete_command ts).
Proof. unfold process_mdelete_command. tame. Qed.

Lemma tame_marith_flag it fl c k v p : tame (marith_flag it fl c k v p).
Proof. unfold marith_flag. tame. Qed.
Hint Resolve tame_marith_flag : tame.
Lemma tame_marith_flags it fl c k vs p : tame (marith_flags it fl c k vs p).
Proof. revert p. induction vs as [|v vs IH]; intros p; cbn [marith_flags]; tame. Qed.
Hint Resolve tame_marith_flags : tame.
Lemma tame_marith_answer it fl c k b vs : tame (marith_answer it fl c k b vs).
Proof. unfold marith_answer. tame. Qed.
Lemma tame_marith_vivify k fl hv b es : tame (marith_vivify k fl hv b es).
Proof. unfold marith_vivify. tame. Qed.
Hint Resolve tame_marith_answer tame_marith_vivify : tame.
Lemma tame_marith_run k fl i vs es : tame (marith_run k fl i vs es).
Proof. unfold marith_run. tame. Qed.
Lemma tame_marith_finish r : tame (marith_finish r).
Proof. unfold marith_finish. tame. Qed.
Hint Resolve tame_marith_run tame_marith_finish : tame.
Lemma tame_process_marithmetic_command ts es : tame (process_marithmetic_command ts es).
Proof. unfold process_marithmetic_command. tame. Qed.
End meta.
#[export] Hint Resolve tame_process_meta_command tame_process_mget_command tame_process_mset_command tame_finalize_mset
  tame_process_mdelete_command tame_process_marithmetic_command : tame.

(** ** A command and the value behind it *)

Section commands.
Context `{HashFunction} `{TameStorage} `{TameSubsystems}.

Lemma tame_WANT_TOKENS n a b m : tame m -> tame (WANT_TOKENS n a b m).
Proof. intros. unfold WANT_TOKENS. tame. Qed.
Lemma tame_WANT_TOKENS_OR n a b m : tame m -> tame (WANT_TOKENS_OR n a b m).
Proof. intros. unfold WANT_TOKENS_OR. tame. Qed.
Lemma tame_WANT_TOKENS_MIN n a m : tame m -> tame (WANT_TOKENS_MIN n a m).
Proof. intros. unfold WANT_TOKENS_MIN. tame. Qed.
Lemma tame_process_meta c ts env : tame (process_meta c ts env).
Proof. unfold process_meta. tame. Qed.
Lemma tame_process_word w ts env : tame (process_word w ts env).
Proof.
  unfold process_word. cbv zeta.
  repeat match goal with |- tame (if ?b then _ else _) => destruct b end;
    repeat first [apply tame_WANT_TOKENS | apply tame_WANT_TOKENS_OR | apply tame_WANT_TOKENS_MIN]; tame.
Qed.
Hint Resolve tame_process_meta tame_process_word : tame.
Lemma tame_process_command l env : tame (process_command l env).
Proof. unfold process_command. tame. Qed.
Lemma tame_complete_nread_ascii es : tame (complete_nread_ascii es).
Proof. unfold complete_nread_ascii, value_end. tame. Qed.
Lemma tame_ensure_resp : tame ensure_resp.
Proof. unfold ensure_resp. tame. Qed.
Lemma tame_long_line : tame long_line.
Proof. unfold long_line. tame. Qed.
End commands.
#[export] Hint Resolve tame_process_command tame_complete_nread_ascii tame_ensure_resp tame_long_line : tame.

(** ** The binary protocol *)

Section bin.
Context `{HashFunction} `{TameStorage} `{TameSubsystems}.

Lemma tame_add_bin_header a b c d : tame (add_bin_header a b c d).
Proof. unfold add_bin_header. tame. Qed.
Hint Resolve tame_add_bin_header : tame.
Lemma tame_bin_error e n : tame (bin_error e n).
Proof. unfold bin_error, write_bin_error. tame. Qed.
Lemma tame_write_bin_response d a b c : tame (write_bin_response d a b c).
Proof. unfold write_bin_response. tame. Qed.
Hint Resolve tame_bin_error tame_write_bin_response : tame.
Lemma tame_handle_binary_protocol_error : tame handle_binary_protocol_error.
Proof. unfold handle_binary_protocol_error. tame. Qed.
Lemma tame_drop_stale' k : tame (drop_stale k).
Proof. unfold drop_stale. tame. Qed.
Lemma tame_set_oldest_live' n : tame (set_oldest_live n).
Proof. unfold set_oldest_live. tame. Qed.
Lemma tame_stats_reset' : tame stats_reset.
Proof. unfold stats_reset. tame. Qed.
Hint Resolve tame_handle_binary_protocol_error tame_drop_stale' tame_set_oldest_live' tame_stats_reset' : tame.

Lemma tame_complete_incr_bin k x es : tame (complete_incr_bin k x es).
Proof. unfold complete_incr_bin, incr_create. tame. Qed.
Lemma tame_complete_update_bin es : tame (complete_update_bin es).
Proof. unfold complete_update_bin, end_value. tame. Qed.
Lemma tame_record_set k : tame (record_set k).
Proof. unfold record_set. tame. Qed.
Hint Resolve tame_record_set : tame.
Lemma tame_process_bin_update k x e : tame (process_bin_update k x e).
Proof. unfold process_bin_update, no_item, read_bin_value. tame. Qed.
Lemma tame_process_bin_append_prepend k e : tame (process_bin_append_prepend k e).
Proof. unfold process_bin_append_prepend, no_item, read_bin_value. tame. Qed.
Lemma tame_process_bin_get_or_touch k x : tame (process_bin_get_or_touch k x).
Proof. unfold process_bin_get_or_touch, bin_hit, bin_missed, write_bin_miss_response. tame. Qed.
Lemma tame_process_bin_delete k : tame (process_bin_delete k).
Proof. unfold process_bin_delete. tame. Qed.
Lemma tame_process_bin_flush x : tame (process_bin_flush x).
Proof. unfold process_bin_flush. tame. Qed.
Lemma tame_bin_stats_send l : tame (bin_stats_send l).
Proof. unfold bin_stats_send. tame. Qed.
Hint Resolve tame_bin_stats_send : tame.
Lemma tame_process_bin_stat k : tame (process_bin_stat k).
Proof. unfold process_bin_stat, bin_stats_detail, bin_stats_finish. tame. Qed.
Lemma tame_sasl_disabled : tame sasl_disabled.
Proof. unfold sasl_disabled. tame. Qed.
Hint Resolve tame_complete_incr_bin tame_complete_update_bin tame_process_bin_update tame_process_bin_append_prepend
  tame_process_bin_get_or_touch tame_process_bin_delete tame_process_bin_flush tame_process_bin_stat tame_sasl_disabled : tame.
Lemma tame_run_bin_command k x es : tame (run_bin_command k x es).
Proof. unfold run_bin_command. tame. Qed.
Hint Resolve tame_run_bin_command : tame.
Lemma tame_dispatch_bin_command k x es : tame (dispatch_bin_command k x es).
Proof. unfold dispatch_bin_command. tame. Qed.
Lemma tame_complete_nread_binary env : tame (complete_nread_binary env).
Proof. unfold complete_nread_binary. tame. Qed.
End bin.
#[export] Hint Resolve tame_dispatch_bin_command tame_complete_nread_binary : tame.
