(* ===== verification/MachineProps.v ===== *)
(** * The machine stops

    However much a client has sent and however small the pieces the socket takes,
    [drive_machine] comes back: each turn finishes a request of the budget, uses
    input up, moves on within the request, or sends. *)

From S2P Require Import Prelude Memory Assoc AssocIter Slabs SlabProps Items CacheProps Store Tokens Resp StatsPrefix AuthFile Conn Transmit TransmitProps.
From S2P Require Import Text Meta Commands ProtoBin Machine Tame.

(** ** Runs that gave a result *)

Lemma bind_inv {S A B} (m : M S A) (f : A -> M S B) s b s' :
  (m ≫= f) s = Some (b, s') -> exists a s1, m s = Some (a, s1) /\ f a s1 = Some (b, s').
Proof. rewrite run_bind. destruct (m s) as [[a s1]|]; [eauto|done]. Qed.

(** [turn_in E] takes the first action off the run [E]; what it read is named. *)
Tactic Notation "take" "off" ident(E) "as" simple_intropattern(a) simple_intropattern(s1) ident(E1) :=
  apply bind_inv in E as (a & s1 & E1 & E); cbv beta iota in E.
Ltac finish E := try rewrite run_ret in E; cbv beta iota in E; first [injection E as <- <- <- | injection E as <- <- | injection E as <-].
(** The condition of a run, or what it matches on. *)
Ltac branch E := match type of E with (match ?x with _ => _ end) _ = _ => destruct x eqn:? end.
(** A run of a tame handler. *)
Ltac by_tame E :=
  match type of E with ?m ?s = Some _ => let T := fresh in assert (tame m) as T by tame; exact (T _ _ _ E) end.
(** The actions that always run. *)
Section peek.
Context {A B : Type}.
Implicit Types s : server.
Lemma peek_co (f : conn -> A) (k : A -> M server B) s : (co f ≫= k) s = k (f (s_conn s)) s.
Proof. reflexivity. Qed.
Lemma peek_gets (f : server -> A) (k : A -> M server B) s : (gets f ≫= k) s = k (f s) s.
Proof. reflexivity. Qed.
Lemma peek_now (k : Z -> M server B) s : (now ≫= k) s = k (current_time (s_mc s)) s.
Proof. reflexivity. Qed.
Lemma peek_ret (a : A) (k : A -> M server B) s : (mret a ≫= k) s = k a s.
Proof. reflexivity. Qed.
Lemma peek_on_conn f (k : unit -> M server B) s : (on_conn f ≫= k) s = k tt (s <| s_conn ::= f |>).
Proof. reflexivity. Qed.
Lemma peek_modify f (k : unit -> M server B) s : (modify f ≫= k) s = k tt (f s).
Proof. reflexivity. Qed.
Lemma peek_set_state `{HashFunction} `{ExtStorage} st (k : unit -> M server B) s :
  st <> conn_max_state -> (conn_set_state st ≫= k) s = k tt (s <| s_conn ::= fun c => c <| state := st |> |>).
Proof. intros Hs. unfold conn_set_state. by rewrite !run_bind, bool_decide_eq_true_2. Qed.
End peek.
Ltac peek E :=
  repeat first [rewrite peek_co in E | rewrite peek_gets in E | rewrite peek_ret in E | rewrite peek_on_conn in E
               | rewrite peek_modify in E | rewrite peek_set_state in E by done];
  try first [rewrite run_on_conn in E | rewrite run_ret in E | rewrite run_modify in E]; cbv beta iota in E.

(** ** The state a handler ends in *)

(** [m] leaves the connection in a state of [P]; [still m] leaves its state alone. *)
Definition ends {A} (P : conn_states -> Prop) (m : M server A) : Prop :=
  forall s a s', m s = Some (a, s') -> P (state (s_conn s')).
Definition still {A} (m : M server A) : Prop :=
  forall s a s', m s = Some (a, s') -> state (s_conn s') = state (s_conn s).

Section states.
Context {A B : Type}.
Implicit Types (m : M server A) (s : server).
Lemma still_bind m (f : A -> M server B) : still m -> (forall a, still (f a)) -> still (m ≫= f).
Proof. intros Hm Hf s b s' E. take off E as a s1 E1. rewrite (Hf _ _ _ _ E). by eapply Hm. Qed.
Lemma ends_bind P m (f : A -> M server B) : (forall a, ends P (f a)) -> ends P (m ≫= f).
Proof. intros Hf s b s' E. take off E as a s1 E1. by eapply Hf. Qed.
Lemma ends_then P m (f : A -> M server B) : ends P m -> (forall a, still (f a)) -> ends P (m ≫= f).
Proof. intros Hm Hf s b s' E. take off E as a s1 E1. rewrite (Hf _ _ _ _ E). by eapply Hm. Qed.
Lemma still_ret (a : A) : still (mret a).
Proof. by intros s x s' [= <- <-]. Qed.
Lemma still_gets (f : server -> A) : still (gets f).
Proof. by intros s x s' [= <- <-]. Qed.
Lemma still_lift (o : option A) : still (lift o).
Proof. intros s x s' E. destruct o; [by finish E|done]. Qed.
Lemma still_ub : still (ub (A:=A)).
Proof. by intros s x s'. Qed.
Lemma still_in_mc (m : M mc A) : still (in_mc m).
Proof. intros s a s' E. rewrite run_in_mc in E. destruct (m (s_mc s)) as [[x w]|]; [by finish E|done]. Qed.
Lemma still_in_worker (m : M worker A) : still (in_worker m).
Proof. intros s a s' E. rewrite run_in_worker in E. destruct (m (s_worker s)) as [[x w]|]; [by finish E|done]. Qed.
End states.
Lemma still_massert b : still (massert b).
Proof. intros s x s' E. destruct b; [by finish E|done]. Qed.
Lemma still_when b m : still m -> still (when b m).
Proof. intros Hm. destruct b; [done|]. apply still_ret. Qed.
Lemma still_on_conn f : (forall c, state (f c) = state c) -> still (on_conn f).
Proof. intros Hf s a s' [= <- <-]. apply Hf. Qed.
Lemma still_resp : still resp.
Proof. apply still_bind; [apply still_gets|intros; apply still_lift]. Qed.
Lemma still_on_resp f : still (on_resp f).
Proof. apply still_bind; [apply still_resp|]. intros _. by apply still_on_conn. Qed.
Create HintDb still.
#[export] Hint Resolve still_ret still_gets still_lift still_ub still_in_mc still_in_worker still_massert still_resp still_on_resp : still.
Ltac still_step :=
  match goal with
  | |- still (mbind _ _) => apply still_bind; [|intros ?]
  | |- still (when _ _) => apply still_when
  | |- still (match ?x with _ => _ end) => destruct x
  | |- still (on_conn _) => apply still_on_conn; intros ?; solve [done | by repeat case_match]
  | |- still _ => solve [unfold co, opt, setting, now; auto 2 with still]
  end.
Ltac still := cbv zeta; repeat (still_step; cbv zeta).

Section handlers.
Context `{HashFunction} `{ExtStorage} `{Subsystems}.

Lemma ends_set (P : conn_states -> Prop) st : P st -> ends P (conn_set_state st).
Proof. intros HP s a s' E. unfold conn_set_state in E. take off E as u s1 E1. peek E. by finish E. Qed.
Lemma still_add_iov b n : still (resp_add_iov b n).
Proof. unfold resp_add_iov. still. Qed.
Lemma still_put_wbuf off b : still (put_wbuf off b).
Proof. unfold put_wbuf. still. Qed.
Hint Resolve still_add_iov still_put_wbuf : still.

Ltac ends := repeat first [solve [apply ends_set; auto] | solve [eauto 1 with still] | apply ends_bind; intros ? | case_match].
Lemma ends_out_string l : ends (eq conn_new_cmd) (out_string l).
Proof.
  unfold out_string. ends.
Qed.
Hint Resolve ends_out_string : still.
(** The state is still in [P] after [m] when it was before. *)
Definition stays {A} (P : conn_states -> Prop) (m : M server A) : Prop :=
  forall s a s', P (state (s_conn s)) -> m s = Some (a, s') -> P (state (s_conn s')).
Lemma stays_still {A} P (m : M server A) : still m -> stays P m.
Proof. intros Hm s a s' HP E. by rewrite (Hm _ _ _ E). Qed.
Lemma stays_ends {A} P (m : M server A) : ends P m -> stays P m.
Proof. intros Hm s a s' _ E. by eapply Hm. Qed.
Lemma stays_bind {A B} P (m : M server A) (f : A -> M server B) : stays P m -> (forall a, stays P (f a)) -> stays P (m ≫= f).
Proof. intros Hm Hf s b s' HP E. take off E as a s1 E1. eapply Hf; [|exact E]. by eapply Hm. Qed.
Lemma ends_stays {A B} P (m : M server A) (f : A -> M server B) : ends P m -> (forall a, stays P (f a)) -> ends P (m ≫= f).
Proof. intros Hm Hf s b s' E. take off E as a s1 E1. eapply Hf; [|exact E]. by eapply Hm. Qed.

Lemma ends_finalize_mset r : ends (eq conn_new_cmd) (finalize_mset r).
Proof.
  unfold finalize_mset. apply ends_stays; [by apply ends_set|]. intros _.
  repeat (apply stays_bind; [apply stays_still; still|intros ?]).
  case_match; [apply stays_still; still|].
  apply stays_bind; [apply stays_still; still|intros _]. apply stays_ends, ends_out_string.
Qed.
Hint Resolve ends_finalize_mset : still.
Lemma ends_complete_nread_ascii es : ends (eq conn_new_cmd) (complete_nread_ascii es).
Proof.
  unfold complete_nread_ascii. do 5 (apply ends_bind; intros ?). apply ends_then; [|intros _; still].
  ends.
Qed.
Definition answered (st : conn_states) : Prop := st = conn_new_cmd \/ st = conn_mwrite.
Lemma ends_bin_error e : ends answered (bin_error e 0).
Proof. unfold bin_error, write_bin_error, answered. ends. Qed.
Lemma ends_write_bin_response d a b c : ends answered (write_bin_response d a b c).
Proof. unfold write_bin_response, answered. ends. Qed.
Hint Resolve ends_bin_error ends_write_bin_response : still.
Lemma ends_complete_nread_binary env : ends answered (complete_nread_binary env).
Proof.
  unfold complete_nread_binary. do 2 (apply ends_bind; intros ?). case_match; [done| |done]. unfold complete_update_bin.
  do 8 (apply ends_bind; intros ?). case_match. apply ends_bind; intros ?. apply ends_then; [|intros _; still]. case_match; auto with still.
Qed.
Lemma ends_out_of_memory l : ends (fun st => st = conn_new_cmd \/ st = conn_mwrite) (out_of_memory l).
Proof.
  unfold out_of_memory. apply ends_bind. intros p. case_match.
  - unfold write_bin_error. ends.
  - intros s a s' E. left. symmetry. by eapply ends_out_string.
Qed.
End handlers.

(** ** The network *)

Lemma input_size_bytes l inp : input_size (ReadBytes l :: inp) = (S (length l) + input_size inp)%nat.
Proof. reflexivity. Qed.
Lemma net_read_inv n s r s1 :
  net_read n s = Some (r, s1) ->
  exists inp, s1 = s <| s_input := inp |>
    /\ (input_size inp + match r with inl l => length l | inr _ => 0 end <= input_size (s_input s))%nat.
Proof.
  assert (s <| s_input := s_input s |> = s) as Es by (by destruct s).
  unfold net_read. rewrite run_bind, run_gets. case_match; [|destruct (s_input s) as [|[l| |] inp] eqn:Ei]; try (intros [= <- <-]).
  - exists (s_input s). rewrite Es. split; [done|cbn; lia].
  - exists []. split; [by destruct s; cbn in *; subst|done].
  - rewrite run_bind, run_modify. set (inp' := if _ <=? _ then _ else _).
    assert (input_size inp' + length (ztake n l) <= S (length l) + input_size inp)%nat as Hs.
    { unfold inp', zlen, ztake, zdrop. destruct (Z.leb_spec (Z.of_nat (length l)) n);
      rewrite ?(input_size_bytes (drop _ _)), length_take, ?length_drop; lia. }
    case_decide as Hl; intros [= <- <-]; exists inp'; (split; [done|]); rewrite input_size_bytes; lia.
  - exists (ReadEof :: inp). rewrite Es. split; [done|cbn; lia].
  - exists (ReadError :: inp). rewrite Es. split; [done|cbn; lia].
Qed.
Lemma still_net_read n : still (net_read n).
Proof. intros s r s' (inp & -> & _)%net_read_inv. done. Qed.
Lemma tame_net_read n : tame (net_read n).
Proof.
  intros s r s' (inp & -> & Hi)%net_read_inv. assert (input_size inp <= input_size (s_input s))%nat by (destruct r; lia).
  split; unfold work; upds; done || lia.
Qed.
(** The bytes of a read pay for their way into the buffer, and for any other use. *)
Lemma net_read_work n s l s1 :
  net_read n s = Some (inl l, s1) -> (work s1 + 2 * length l <= work s)%nat.
Proof. intros (inp & -> & Hi)%net_read_inv. unfold work. upds. lia. Qed.
#[export] Hint Resolve still_net_read : still.
#[export] Hint Resolve tame_net_read : tame.

Lemma receive_read n s l s1 u s2 : net_read n s = Some (inl l, s1) -> receive l s1 = Some (u, s2) -> no_worse s s2.
Proof.
  intros E1 E2. pose proof (net_read_work _ _ _ _ E1) as Hw. destruct (tame_net_read n _ _ _ E1) as [W1 W2 W3 W4].
  unfold receive in E2. take off E2 as u1 s3 E3. rewrite run_in_mc in E3.
  destruct (count_by _ _ (s_mc s1)) as [[v w]|]; [|done]. finish E3.
  rewrite run_bind, !run_on_conn in E2. finish E2. unfold work, resps_fit, stream_client in *. upds.
  split; unfold work, resps_fit, stream_client; upds; [done|rewrite length_app; lia|done|done].
Qed.

Lemma still_alloc_ok : still conn_alloc_ok.
Proof. by intros s a s' [= <- <-]. Qed.
#[export] Hint Resolve still_alloc_ok : still.

Section machine.
Context `{HashFunction} `{TameStorage} `{TameSubsystems}.

Lemma still_resp_reset : still resp_reset.
Proof. unfold resp_reset. still. Qed.
Hint Resolve still_resp_reset : still.

Lemma tame_network_loop n k r : tame (network_loop n k r).
Proof.
  revert k r. induction n as [|n IH]; intros k r; [apply tame_ub|]. cbn [network_loop]. apply tame_bind; [apply tame_co|]. intros c.
  cbv zeta. case_match; [apply tame_ret|]. apply tame_bind; [tame|]. intros ok. destruct ok; cbn [negb].
  2: { tame. }
  apply tame_bind; [tame|]. intros _. apply tame_bind; [tame|]. intros c'.
  intros s a s' E. take off E as res s1 E1.
  destruct res as [[|b l]|[]].
  - etrans; [by eapply tame_net_read|by_tame E].
  - take off E as u s2 E2. etrans; [exact (receive_read _ _ _ _ _ _ E1 E2)|by_tame E].
  - finish E. by eapply tame_net_read.
  - finish E. by eapply tame_net_read.
Qed.
Hint Resolve tame_network_loop : tame.
Lemma tame_try_read_network : tame try_read_network.
Proof. unfold try_read_network. tame. Qed.
Hint Resolve tame_try_read_network : tame.

(** Only the answer of a failed allocation moves the connection. *)
Lemma network_loop_state n k r : r <> READ_MEMORY_ERROR ->
  forall s a s', network_loop n k r s = Some (a, s') -> a = READ_MEMORY_ERROR -> state (s_conn s') <> conn_read.
Proof.
  revert k r. induction n as [|n IH]; intros k r Hr s a s' E Ha; [done|]. cbn [network_loop] in E.
  peek E. branch E; [finish E; congruence|]. take off E as ok s1 E1.
  destruct ok; cbn [negb] in E.
  2: { take off E as u1 s2 E2. peek E. take off E as u2 s3 E3. peek E. finish E. upds.
       destruct (ends_out_of_memory _ _ _ _ E3) as [->| ->]; done. }
  take off E as u s2 E2. peek E. take off E as res s3 E3. destruct res as [[|b l]|[]]; [| |by finish E; simplify_eq..].
  - peek E. by finish E.
  - take off E as u2 s4 E4. branch E; [by refine (IH _ READ_DATA_RECEIVED _ _ _ _ E Ha)|by finish E].
Qed.

(** ** One turn *)

(** How far a request is from its end, and what is still to be sent. *)
Definition rank (s : server) : nat :=
  match state (s_conn s) with
  | conn_read => 9 | conn_parse_cmd => 8 | conn_nread => 7 | conn_swallow => 6 | conn_io_queue => 5
  | conn_new_cmd => if decide (resps (s_conn s) = []) then 3 else 5
  | conn_write | conn_mwrite => 4 | conn_waiting => 2 | _ => 1
  end.
Definition debt (s : server) : Z := foldr (fun r n => 1 + iov_total (iov r) + n) 0 (resps (s_conn s)).
(** A turn that goes on: nothing is lost, and input is used up, or the request moves
    on, or something is sent. *)
Definition moves (s s' : server) : Prop :=
  no_worse s s' /\ ((work s' < work s)%nat \/ (rank s' < rank s)%nat \/ rank s' = rank s /\ 0 <= debt s' < debt s).

Lemma moves_rank s s' : no_worse s s' -> (rank s' < rank s)%nat -> moves s s'.
Proof. intros. split; [done|]. right. by left. Qed.
Lemma moves_work s s' : no_worse s s' -> (work s' < work s)%nat -> moves s s'.
Proof. intros. split; [done|]. by left. Qed.

Lemma wait_event_closes env s s' : wait_event env s = Some (false, s') -> state (s_conn s') = conn_closing.
Proof. unfold wait_event. intros E. branch E; [done|]. take off E as u s1 E1. finish E. symmetry. by eapply (ends_set (eq conn_closing)), E1. Qed.
Lemma tame_wait_event env : tame (wait_event env).
Proof. unfold wait_event. tame. Qed.
Hint Resolve tame_wait_event : tame.

Lemma step_waiting_moves env s s' :
  state (s_conn s) = conn_waiting -> step_waiting env s = Some (false, s') -> moves s s'.
Proof.
  intros Es E. apply moves_rank; [unfold step_waiting in E; by_tame E|]. unfold step_waiting in E.
  take off E as u s1 E1. take off E as ok s2 E2. take off E as u3 s3 E3. destruct ok; [done|]. finish E. finish E3.
  unfold rank. rewrite (wait_event_closes _ _ _ E2), Es. cbn. lia.
Qed.

Lemma step_read_moves s s' :
  stream_client s -> state (s_conn s) = conn_read -> step_read s = Some (false, s') -> moves s s'.
Proof.
  intros (Hu & _) Es E. unfold step_read in E. peek E. rewrite Hu in E. apply moves_rank; [by_tame E|].
  assert (state (s_conn s') <> conn_read) as Hs; [|unfold rank; rewrite Es; destruct (state (s_conn s')); try congruence; try case_decide; lia].
  take off E as ok s1 E1. take off E as u s2 E2. finish E. branch E2.
  - by rewrite <- (ends_set (eq conn_closing) _ eq_refl _ _ _ E2).
  - take off E2 as res s3 E3. destruct res.
    + by rewrite <- (ends_set (eq conn_parse_cmd) _ eq_refl _ _ _ E2).
    + by rewrite <- (ends_set (eq conn_waiting) _ eq_refl _ _ _ E2).
    + by rewrite <- (ends_set (eq conn_closing) _ eq_refl _ _ _ E2).
    + finish E2. unfold try_read_network in E3. peek E3. by eapply network_loop_state in E3.
Qed.

(** ** Reading a command *)

Lemma split_line_shorter l line rest : split_line l = Some (line, rest) -> (length rest < length l)%nat.
Proof.
  revert line rest. induction l as [|c l IH]; intros line rest; cbn; [done|]. case_match; [intros [= <- <-]; lia|].
  destruct (split_line l) as [[l' r']|]; [|done]. cbn. intros [= <- <-]. specialize (IH _ _ eq_refl). lia.
Qed.

(** A reader that answers true used input up, unless it closes the connection. *)
Definition reads (b : bool) (s s' : server) : Prop :=
  no_worse s s' /\ (b = true -> (work s' < work s)%nat \/ state (s_conn s') = conn_closing).
Lemma reads_false s s' : no_worse s s' -> reads false s s'.
Proof. by split. Qed.
Lemma reads_closing s b s' : no_worse s s' -> state (s_conn s') = conn_closing -> reads b s s'.
Proof. split; [done|]. by right. Qed.
(** The line is cut off and what follows is tame. *)
Lemma cut_work s rest : (length rest < length (rcurr (s_conn s)))%nat ->
  no_worse s (s <| s_conn ::= fun c => c <| rcurr := rest |> |>) /\ (work (s <| s_conn ::= fun c => c <| rcurr := rest |> |>) < work s)%nat.
Proof. intros Hr. split; [split; unfold work; upds; done || lia|unfold work; upds; lia]. Qed.
Lemma reads_cut s s1 s' rest b : (length rest < length (rcurr (s_conn s)))%nat ->
  s1 = s <| s_conn ::= fun c => c <| rcurr := rest |> |> -> no_worse s1 s' -> reads b s s'.
Proof.
  intros Hr -> Hw. destruct (cut_work s rest Hr) as [W1 W2]. split; [by etrans|]. left. destruct Hw. lia.
Qed.

Lemma ascii_reads env b s s' : try_read_command_ascii env s = Some (b, s') -> reads b s s'.
Proof.
  unfold try_read_command_ascii. intros E. peek E. branch E; [finish E; by apply reads_false|]. branch E.
  - destruct p as [line rest]. apply split_line_shorter in Heqo. unfold now in E. peek E.
    take off E as u s1 E1. peek E. finish E. set (s0 := s <| s_conn ::= _ |>) in E1. assert (no_worse s0 s1) as Hw by by_tame E1.
    assert (no_worse s s0) as Hw0 by (by split). assert (no_worse s s1) as [W1 W2 W3 W4] by (by etrans). change (id (s_conn s)) with (s_conn s) in *.
    split; [|intros _; left; unfold work in *; upds; lia].
    split; [done|unfold work in *; upds; lia|done|done].
  - branch E; [|finish E; by apply reads_false]. take off E as closed s1 E1.
    assert (no_worse s s1) as Hw by by_tame E1. destruct closed.
    + finish E. apply reads_closing; [done|]. unfold long_line in E1. peek E1. branch E1; [by finish E1|done].
    + branch E; [finish E; by apply reads_false|]. take off E as ok s2 E2. assert (no_worse s1 s2) as Hw2 by by_tame E2.
      destruct ok; peek E; finish E; [apply reads_false|apply reads_closing; [|done]]; etrans; [done|by etrans|done|]. etrans; [done|by split].
Qed.

Lemma auth_check_work s u s' : auth_check s = Some (u, s') -> rlbytes (s_conn s) <= rbytes (s_conn s) ->
  no_worse s s' /\ (work s' < work s)%nat.
Proof.
  unfold auth_check. intros E Hr. peek E. take off E as u1 s1 E1. change (id (s_conn s)) with (s_conn s) in *.
  destruct (2 <=? _) eqn:Hl2; [|done]. apply Z.leb_le in Hl2. finish E1. peek E.
  assert (length (zdrop (rlbytes (s_conn s)) (rcurr (s_conn s))) < length (rcurr (s_conn s)))%nat as Hl.
  { unfold zdrop, rbytes, zlen in *. rewrite length_drop. lia. }
  destruct (cut_work s _ Hl) as [W1 W2]. set (s2 := s <| s_conn ::= _ |>) in E.
  assert (no_worse s2 s') as Hw by by_tame E.
  assert (no_worse s s2 /\ (work s2 < work s)%nat) as [? ?] by (split; [by destruct W1|done]).
  split; [by etrans|destruct Hw; lia].
Qed.
(** Starting a response leaves the bytes alone. *)
Lemma resp_start_keeps s s' : resp_start s = Some (true, s') ->
  rcurr (s_conn s') = rcurr (s_conn s) /\ rlbytes (s_conn s') = rlbytes (s_conn s).
Proof.
  unfold resp_start. intros E. take off E as r s1 E1. rewrite run_in_worker in E1. destruct (resp_allocate _) as [[o k]|]; [|done].
  finish E1. destruct o; take off E as u s2 E2; [|done]. finish E2. peek E. by finish E.
Qed.
Lemma asciiauth_reads b s s' : try_read_command_asciiauth s = Some (b, s') -> reads b s s'.
Proof.
  unfold try_read_command_asciiauth. intros E. peek E. take off E as r s1 E1.
  assert (reads (match r with Some b => b | None => false end) s s1) as HR.
  { destruct (sasl_started (s_conn s)); [finish E1; by apply reads_false|]. unfold auth_header in E1. peek E1.
    branch E1; [finish E1; by apply reads_false|]. branch E1.
    - destruct p as [line rest]. apply split_line_shorter in Heqo. peek E1. eapply reads_cut; [exact Heqo|reflexivity|]. by_tame E1.
    - branch E1; peek E1; finish E1; [|by apply reads_false]. by apply reads_closing. }
  destruct r as [b'|]; [by finish E|]. destruct HR as [Hw _]. peek E. branch E; [finish E; by apply reads_false|].
  take off E as ok s2 E2. assert (no_worse s1 s2) as Hw2 by by_tame E2. take off E as u s3 E3. finish E.
  unfold ensure_resp in E2. peek E2. destruct ok.
  - assert (rcurr (s_conn s2) = rcurr (s_conn s1) /\ rlbytes (s_conn s2) = rlbytes (s_conn s1)) as [E4 E5].
    { branch E2; [|by finish E2]. take off E2 as ok s4 E4. destruct ok; peek E2; [|done]. finish E2. by apply resp_start_keeps in E4. }
    destruct (auth_check_work _ _ _ E3) as [W1 W2].
    { unfold rbytes in *. rewrite E4, E5. apply Z.ltb_ge in Heqb0. by change (id (s_conn s1)) with (s_conn s1) in *. }
    split; [by etrans; [|etrans]|]. left. destruct Hw, Hw2. lia.
  - finish E3. apply reads_closing; [by etrans|]. branch E2; [|done]. take off E2 as ok s4 E4. destruct ok; peek E2; [done|]. by finish E2.
Qed.

(** Updates of other fields, and of the unparsed bytes. *)
Lemma conn_work s f :
  transport (f (s_conn s)) = transport (s_conn s) -> try_read_command (f (s_conn s)) = try_read_command (s_conn s) ->
  resps (f (s_conn s)) = resps (s_conn s) -> (length (rcurr (f (s_conn s))) <= length (rcurr (s_conn s)))%nat ->
  no_worse s (s <| s_conn ::= f |>) /\ (work (s <| s_conn ::= f |>) + length (rcurr (s_conn s)) = work s + length (rcurr (f (s_conn s))))%nat.
Proof.
  intros G1 G2 G3 G4. split; [|unfold work; upds; lia].
  split; unfold work, stream_client, resps_fit; upds; rewrite ?G1, ?G2, ?G3; done || lia.
Qed.
Lemma be_value_nonneg l : 0 <= be_value l.
Proof.
  unfold be_value. assert (forall v, 0 <= v -> 0 <= foldl (fun v b => v * 256 + u8 b) v l) as Hv; [|by apply Hv].
  induction l as [|b l IH]; intros v Hv; cbn; [done|]. apply IH. pose proof (u8_range b). lia.
Qed.
Lemma field_nonneg off n b v : field off n b = Some v -> 0 <= v.
Proof. unfold field. case_match; [|done]. intros [= <-]. apply be_value_nonneg. Qed.
Lemma parse_header_nonneg b h : parse_header b = Some h -> 0 <= bh_keylen h /\ 0 <= bh_extlen h.
Proof.
  unfold parse_header. intros E. repeat (apply bind_Some in E as (? & ?%field_nonneg & E)). by injection E as <-.
Qed.
Lemma accept_packet_unfold h env : accept_packet h env =
  (b ← co rcurr;
   t ← now;
   on_conn (fun c => c <| cmd := bh_opcode h |> <| keylen := bh_keylen h |> <| opaque := bh_opaque h |>
     <| c_cas := 0 |> <| last_cmd_time := t |>);;
   on_conn (fun c => c <| rcurr ::= zdrop (packet_size h) |>);;
   dispatch_bin_command (slice (BIN_HEADER + bh_extlen h) (packet_size h) b)
     (slice BIN_HEADER (BIN_HEADER + Z.min (bh_extlen h) BIN_MAX_EXTLEN) b) (ce_alloc env)).
Proof. reflexivity. Qed.
(** A packet that is there is cut off, then handled. *)
Lemma accept_packet_work h env s u s' : 0 < packet_size h -> rcurr (s_conn s) <> [] ->
  accept_packet h env s = Some (u, s') -> no_worse s s' /\ (work s' < work s)%nat.
Proof.
  intros Hn Hr E. rewrite accept_packet_unfold, peek_co, peek_now, peek_on_conn in E.
  match type of E with _ (s <| s_conn ::= ?f |>) = _ => destruct (conn_work s f) as [N1 K1]; [done..|] end.
  match type of K1 with (_ + _ = _ + length ?l)%nat => change l with (rcurr (s_conn s)) in K1 end.
  set (s1 := s <| s_conn ::= _ |>) in *. assert (rcurr (s_conn s1) = rcurr (s_conn s)) as R1 by done.
  assert (work s1 = work s) as K by lia. clear K1. clearbody s1. rewrite peek_on_conn in E.
  destruct (conn_work s1 (fun c => c <| rcurr ::= zdrop (packet_size h) |>)) as [N2 K2]; [done..| |].
  { upds. unfold zdrop. rewrite length_drop. lia. }
  set (s2 := s1 <| s_conn ::= _ |>) in *. assert (no_worse s2 s') as N3 by by_tame E.
  split; [etrans; [exact N1|by etrans]|]. destruct N3 as [_ W3 _ _].
  match type of K2 with (_ + _ = _ + length ?l)%nat => change l with (drop (Z.to_nat (packet_size h)) (rcurr (s_conn s1))) in K2 end.
  rewrite length_drop, R1 in K2.
  destruct (rcurr (s_conn s)) as [|b l]; [done|]. cbn [length] in *. lia.
Qed.
Lemma tame_accept_packet h env : 0 < packet_size h -> tame (accept_packet h env).
Proof.
  intros Hn. unfold accept_packet. tame. apply tame_on_conn; [|done..]. intros c. upds. unfold zdrop. rewrite length_drop. lia.
Qed.
Lemma binary_reads env b s s' : try_read_command_binary env s = Some (b, s') -> reads b s s'.
Proof.
  unfold try_read_command_binary. intros E. peek E. branch E; [finish E; by apply reads_false|]. take off E as h s1 E1.
  destruct (parse_header _) as [h'|] eqn:Hh; [|done]. finish E1. peek E. set (s1 := s <| s_conn ::= _ |>) in E.
  assert (no_worse s s1 /\ rcurr (s_conn s1) = rcurr (s_conn s)) as [Hw1 Hr1] by (by split; [split|]).
  branch E; [peek E; finish E; by apply reads_closing|]. branch E; [finish E; by apply reads_false|].
  take off E as ok s2 E2. assert (no_worse s1 s2) as Hw2 by by_tame E2. assert (no_worse s s2) as Hs2 by (by etrans).
  take off E as u s3 E3. finish E. destruct ok.
  2: { apply reads_closing; [etrans; [exact Hs2|by_tame E3]|]. symmetry. by eapply (ends_set (eq conn_closing)) in E3. }
  apply resp_start_keeps in E2 as [Hr2 _]. apply parse_header_nonneg in Hh as [Hk Hx]. apply Z.ltb_ge in Heqb0.
  apply accept_packet_work in E3 as [W1 W2].
  - split; [by etrans|]. left. destruct Hs2. lia.
  - unfold packet_size. change BIN_HEADER with 24. lia.
  - rewrite Hr2, Hr1. intros Hz. unfold rbytes in Heqb0. change (id (s_conn s)) with (s_conn s) in *. by rewrite Hz in Heqb0.
Qed.
Lemma negotiate_reads env b s s' : try_read_command_negotiate env s = Some (b, s') -> reads b s s'.
Proof.
  unfold try_read_command_negotiate, set_reader. intros E. peek E. take off E as u s1 E1. destruct (_ && _); [|done]. finish E1.
  branch E; peek E; match type of E with _ ?s1 = _ => assert (no_worse s s1 /\ work s1 = work s) as [Hw Hk] by (by split; [split; [done| |by intros [? ?]; split|]|]) end;
    [apply binary_reads in E as [W1 W2]|apply ascii_reads in E as [W1 W2]]; (split; [by etrans|]; intros Hb; rewrite <- Hk; by apply W2).
Qed.

Lemma step_parse_cmd_moves env s s' :
  stream_client s -> state (s_conn s) = conn_parse_cmd -> step_parse_cmd env s = Some (false, s') -> moves s s'.
Proof.
  intros (Hu & Ht) Es E. unfold step_parse_cmd in E. peek E. upds. set (s0 := s <| s_conn ::= _ |>) in E.
  assert (no_worse s s0 /\ work s0 = work s) as [Hw0 Hk] by (by split; [split|]).
  take off E as done s1 E1. assert (reads done s0 s1) as [Hw1 Hd].
  { destruct (try_read_command (s_conn s)); try done; cbn [run_reader] in E1;
      [by eapply ascii_reads|by eapply asciiauth_reads|by eapply binary_reads|by eapply negotiate_reads]. }
  take off E as u s2 E2. finish E. destruct done; cbn [negb] in E2.
  - finish E2. destruct Hd as [Hd|Hd]; [done| |].
    + apply moves_work; [by etrans|lia].
    + apply moves_rank; [by etrans|]. unfold rank. rewrite Hd, Es. cbn. lia.
  - apply moves_rank; [etrans; [done|etrans; [done|by_tame E2]]|]. unfold when in E2. peek E2.
    assert (state (s_conn s2) = conn_waiting \/ state (s_conn s2) = conn_mwrite) as Hs.
    { case_decide; [left|right]; symmetry; by eapply (ends_set (eq _)) in E2. }
    unfold rank. rewrite Es. destruct Hs as [-> | ->]; cbn; lia.
Qed.

(** A request of the budget is used up, or the rest is sent. *)
Lemma step_new_cmd_moves env n s s' :
  state (s_conn s) = conn_new_cmd -> step_new_cmd env (n - 1) s = Some (false, s') ->
  no_worse s s' /\ (1 <= n \/ moves s s').
Proof.
  intros Es E. assert (no_worse s s') as Hw by (unfold step_new_cmd in E; by_tame E). split; [done|].
  unfold step_new_cmd in E. branch E; [left; apply Z.leb_le in Heqb; lia|right]. peek E. change (id (s_conn s)) with (s_conn s) in E.
  apply moves_rank; [done|]. unfold rank. rewrite Es. branch E.
  - peek E. finish E. upds. destruct (decide (resps (s_conn s) = [])); [done|lia].
  - take off E as u s1 E1. branch E; [|done]. rewrite (wait_event_closes _ _ _ E). cbn. destruct (decide (resps (s_conn s) = [])); lia.
Qed.

(** ** Values *)

(** The read of a value that goes on used input up. *)
Definition value_moves (r : value_read) (s s' : server) : Prop :=
  no_worse s s' /\ state (s_conn s') = state (s_conn s)
  /\ match r with VRead n => n <> 0 -> (work s' < work s)%nat | _ => True end.

Lemma still_add_mc {A} (m : M mc A) : still (in_mc m).
Proof. apply still_in_mc. Qed.
Lemma run_take_rcurr n s :
  take_rcurr n s = Some (ztake n (rcurr (s_conn s)), s <| s_conn ::= fun c => c <| rcurr ::= zdrop n |> |>).
Proof. reflexivity. Qed.
Lemma tame_take_rcurr n : tame (take_rcurr n).
Proof.
  unfold take_rcurr. apply tame_bind; [tame|]. intros c. apply tame_bind; [|intros _; tame].
  apply tame_on_conn; [|done..]. intros c'. upds. unfold zdrop. rewrite length_drop. lia.
Qed.
Lemma still_take_rcurr n : still (take_rcurr n).
Proof. unfold take_rcurr. still. Qed.
Hint Resolve tame_take_rcurr : tame.
Hint Resolve still_take_rcurr : still.
(** Taking at least a byte of those there. *)
Lemma take_rcurr_work n s l s' : take_rcurr n s = Some (l, s') -> 0 < n <= rbytes (s_conn s) -> (work s' < work s)%nat.
Proof.
  rewrite run_take_rcurr. intros [= <- <-]. unfold rbytes, zlen, work. upds. unfold zdrop. rewrite length_drop. lia.
Qed.

Ltac by_still E :=
  match type of E with ?m ?s = Some _ => let T := fresh in assert (still m) as T by still; exact (T _ _ _ E) end.

Lemma read_into_item_moves s r s' :
  0 < rlbytes (s_conn s) -> read_into_item s = Some (r, s') -> value_moves r s s'.
Proof.
  intros Hr E. assert (still read_into_item) as Hst by (unfold read_into_item; still).
  assert (tame read_into_item) as Htm by (unfold read_into_item; tame).
  split; [by eapply Htm|]. split; [by eapply Hst|]. unfold read_into_item in E. peek E. change (id (s_conn s)) with (s_conn s) in E.
  take off E as u0 s0 E0. destruct (negb _); [|done]. finish E0. take off E as u1 s1 E1.
  destruct (0 <? rbytes (s_conn s)) eqn:Hb.
  - apply Z.ltb_lt in Hb. unfold when in E1. take off E1 as l s2 E2. apply take_rcurr_work in E2; [|lia].
    assert (no_worse s2 s1) as [_ W1 _ _] by by_tame E1. assert (no_worse s1 s') as [_ W2 _ _] by by_tame E.
    destruct r; try done. intros _. lia.
  - finish E1. peek E. branch E; [lia|]. take off E as res s2 E2. destruct res as [[|b l]|[]]; [by finish E| |by finish E..].
    apply net_read_work in E2. assert (no_worse s2 s') as [_ W _ _] by by_tame E. destruct r; try done. intros _. rewrite length_cons in E2. lia.
Qed.

Lemma tame_advance_chunk i ch e : tame (advance_chunk i ch e).
Proof. unfold advance_chunk. tame. Qed.
Lemma still_advance_chunk i ch e : still (advance_chunk i ch e).
Proof. unfold advance_chunk. still. Qed.
Hint Resolve tame_advance_chunk : tame.
Hint Resolve still_advance_chunk : still.
Lemma tame_chunked_loop fuel k es total : tame (chunked_loop fuel k es total).
Proof. revert k total. induction fuel as [|n IH]; intros k total; cbn [chunked_loop]; tame. Qed.
Lemma still_chunked_loop fuel k es total : still (chunked_loop fuel k es total).
Proof. revert k total. induction fuel as [|n IH]; intros k total; cbn [chunked_loop]; still. Qed.
Hint Resolve tame_chunked_loop : tame.
Hint Resolve still_chunked_loop : still.

(** The count that comes back is not zero only when bytes were taken. *)
Lemma chunked_loop_work fuel k es total s n s' :
  chunked_loop fuel k es total s = Some (VRead n, s') -> n = total \/ n = 0 \/ (work s' < work s)%nat.
Proof.
  revert k total s. induction fuel as [|fuel IH]; intros k total s E.
  { cbn in E. unfold co in E. peek E. branch E; [finish E; by left|done]. }
  cbn [chunked_loop] in E. peek E. change (id (s_conn s)) with (s_conn s) in E.
  destruct (rlbytes (s_conn s) <=? 0); [finish E; by left|]. take off E as i s1 E1.
  assert (no_worse s s1 /\ s_conn s1 = s_conn s) as [[_ W1 _ _] C1].
  { split; [by_tame E1|]. rewrite run_in_mc in E1. destruct (load _ _) as [[? ?]|]; [|done]. by finish E1. }
  take off E as nx s2 E2. assert (no_worse s1 s2) as [_ W2 _ _] by by_tame E2. destruct nx as [[]|].
  - apply IH in E. destruct E as [?|[?|?]]; [by left|by right; left|right; right; lia].
  - destruct (0 <? rbytes (s_conn s)) eqn:Hb.
    + take off E as l s3 E3. take off E as u s4 E4. assert (no_worse s3 s4) as [_ W4 _ _] by by_tame E4.
      rewrite run_take_rcurr in E3. finish E3. set (l := ztake _ _) in *.
      assert (work s4 + length l <= work s2)%nat.
      { unfold work in *. upds. unfold l, ztake, zdrop in *. rewrite length_drop in W4. rewrite length_take. lia. }
      assert (no_worse s4 s') as [_ W5 _ _] by by_tame E.
      apply IH in E. unfold zlen in E. destruct l as [|b l]; [|cbn [length] in *; right; right].
      * destruct E as [?|[?|?]]; [by right; left|by right; left|right; right; lia].
      * destruct E as [?|[?|?]]; [lia|lia|lia].
    + take off E as res s3 E3. destruct res as [[|b l]|[]]; [finish E; by right; left| |done..].
      apply net_read_work in E3. take off E as u s4 E4. assert (no_worse s3 s4) as [_ W4 _ _] by by_tame E4.
      take off E as u5 s5 E5. assert (no_worse s4 s5) as [_ W5 _ _] by by_tame E5.
      assert (no_worse s5 s') as [_ W6 _ _] by by_tame E. rewrite length_cons in E3. right. right. lia.
  - done.
Qed.
Lemma read_into_chunked_moves es s r s' : read_into_chunked_item es s = Some (r, s') -> value_moves r s s'.
Proof.
  intros E. assert (still (read_into_chunked_item es)) as Hst by (unfold read_into_chunked_item, chunked_tail; still).
  assert (tame (read_into_chunked_item es)) as Htm by (unfold read_into_chunked_item, chunked_tail; tame).
  split; [by eapply Htm|]. split; [by eapply Hst|]. unfold read_into_chunked_item in E. peek E. take off E as r1 s1 E1.
  assert (no_worse s1 s') as [_ W _ _] by (unfold chunked_tail in E; by_tame E).
  assert (forall n, r = VRead n -> r1 = VRead n) as Hn.
  { intros n ->. unfold chunked_tail in E. peek E. destruct r1; [|by (rewrite run_ret in E; simplify_eq)..].
    branch E; [|by (rewrite run_ret in E; simplify_eq)]. take off E as i s2 E2.
    branch E; [|by (rewrite run_ret in E; simplify_eq)]. take off E as p s3 E3. peek E. by case_decide; simplify_eq. }
  destruct r as [n| | |]; try done. intros Hz. rewrite (Hn n eq_refl) in E1. apply chunked_loop_work in E1. lia.
Qed.

Lemma tame_complete_nread env s u s' : complete_nread env s = Some (u, s') ->
  no_worse s s' /\ (state (s_conn s') = conn_new_cmd \/ state (s_conn s') = conn_mwrite).
Proof.
  intros E. unfold complete_nread in E. peek E. split; [branch E; by_tame E|]. branch E; [|by eapply ends_complete_nread_binary|done].
  left. symmetry. by eapply ends_complete_nread_ascii.
Qed.
(** A state further on. *)
Lemma moves_to s s' : no_worse s s' ->
  (match state (s_conn s') with conn_new_cmd => 5 | conn_mwrite => 4 | conn_swallow => 6 | conn_closing => 1 | _ => 9 end < rank s)%nat ->
  moves s s'.
Proof.
  intros Hw Hr. apply moves_rank; [done|]. eapply Nat.le_lt_trans; [|exact Hr]. unfold rank.
  destruct (state (s_conn s')); try lia. case_decide; lia.
Qed.
Lemma still_end_of_stream s u s' : end_of_stream s = Some (u, s') -> state (s_conn s') = conn_closing.
Proof. unfold end_of_stream. intros E. peek E. symmetry. by eapply (ends_set (eq conn_closing)) in E. Qed.

Lemma step_nread_moves env s s' :
  stream_client s -> state (s_conn s) = conn_nread -> step_nread env s = Some (false, s') -> moves s s'.
Proof.
  intros _ Es E. unfold step_nread in E. peek E. change (id (s_conn s)) with (s_conn s) in E.
  assert (rank s = 7%nat) as Rs by (unfold rank; by rewrite Es).
  branch E. { take off E as u s1 E1. finish E. apply tame_complete_nread in E1 as [Hw Hs].
              apply moves_to; [done|]. rewrite Rs. destruct Hs as [-> | ->]; lia. }
  branch E. { apply moves_to; [by_tame E|]. peek E. finish E. upds. rewrite Rs. lia. }
  take off E as i s1 E1. assert (no_worse s s1 /\ s_conn s1 = s_conn s) as [Hw1 Hc].
  { destruct (item_malloced _); [by finish E1|]. split; [by_tame E1|]. rewrite run_in_mc in E1.
    destruct (load _ _) as [[? ?]|]; [|done]. by finish E1. }
  take off E as r s2 E2. assert (value_moves r s1 s2) as (Hw2 & Hs & Hr).
  { branch E2; [apply read_into_item_moves; [rewrite Hc|done]|by eapply read_into_chunked_moves].
    apply Z.eqb_neq in Heqb. apply Z.ltb_ge in Heqb0. lia. }
  assert (no_worse s s2) as Hw by (by etrans). destruct r.
  - take off E as u s3 E3. finish E. destruct (n =? 0) eqn:Hn.
    + apply moves_to; [etrans; [done|unfold end_of_stream in E3; by_tame E3]|].
      rewrite (still_end_of_stream _ _ _ E3), Rs. lia.
    + finish E3. apply moves_work; [done|]. apply Z.eqb_neq in Hn. specialize (Hr Hn). destruct Hw1. lia.
  - apply moves_to; [etrans; [done|by_tame E]|]. rewrite (wait_event_closes _ _ _ E), Rs. lia.
  - apply moves_to; [etrans; [done|by_tame E]|]. peek E. finish E. upds. rewrite Rs. lia.
  - apply moves_to; [etrans; [done|by_tame E]|]. take off E as u3 s3 E3. peek E. finish E. upds. rewrite Rs. lia.
Qed.

Lemma step_swallow_moves env s s' :
  state (s_conn s) = conn_swallow -> step_swallow env s = Some (false, s') -> moves s s'.
Proof.
  intros Es E. unfold step_swallow in E. peek E. change (id (s_conn s)) with (s_conn s) in E.
  assert (rank s = 6%nat) as Rs by (unfold rank; by rewrite Es).
  branch E. { apply moves_to; [by_tame E|]. peek E. finish E. upds. rewrite Rs. lia. } apply Z.leb_gt in Heqb.
  branch E.
  - take off E as l s1 E1. assert (no_worse s s1) as Hw by by_tame E1. apply Z.ltb_lt in Heqb0.
    apply take_rcurr_work in E1; [|lia]. assert (no_worse s1 s') as Hw' by by_tame E.
    apply moves_work; [by etrans|]. destruct Hw'. lia.
  - take off E as r s1 E1. assert (no_worse s s1) as Hw by by_tame E1.
    assert (forall l, r = inl l -> (work s1 + 2 * length l <= work s)%nat) as Hl by (intros l ->; by eapply net_read_work).
    destruct r as [[|b l]|[]].
    + take off E as u s2 E2. finish E. apply moves_to; [etrans; [done|unfold end_of_stream in E2; by_tame E2]|].
      rewrite (still_end_of_stream _ _ _ E2), Rs. lia.
    + assert (no_worse s1 s') as Hw' by by_tame E. apply moves_work; [by etrans|].
      specialize (Hl _ eq_refl). rewrite length_cons in Hl. destruct Hw'. lia.
    + apply moves_to; [etrans; [done|by_tame E]|]. rewrite (wait_event_closes _ _ _ E), Rs. lia.
    + apply moves_to; [etrans; [done|by_tame E]|]. peek E. finish E. upds. rewrite Rs. lia.
Qed.

(** ** Sending *)

Lemma in_mc_conn {A} (m : M mc A) s a s' : in_mc m s = Some (a, s') -> s_conn s' = s_conn s.
Proof. rewrite run_in_mc. destruct (m _) as [[? ?]|]; [|done]. by intros [= <- <-]. Qed.
Lemma in_worker_conn {A} (m : M worker A) s a s' : in_worker m s = Some (a, s') -> s_conn s' = s_conn s.
Proof. rewrite run_in_worker. destruct (m _) as [[? ?]|]; [|done]. by intros [= <- <-]. Qed.
Lemma resp_finish_tail s u s' : resp_finish s = Some (u, s') ->
  resps (s_conn s') = tail (resps (s_conn s)) /\ state (s_conn s') = state (s_conn s).
Proof.
  unfold resp_finish. intros E. peek E. take off E as r s1 E1. take off E as u2 s2 E2. take off E as u3 s3 E3. peek E.
  assert (s_conn s1 = s_conn s) as C1 by (destruct (head _); [by finish E1|done]).
  assert (s_conn s2 = s_conn s1) as C2 by (unfold when in E2; branch E2; [by eapply in_mc_conn|by finish E2]).
  assert (s_conn s3 = s_conn s2) as C3 by (unfold when in E3; branch E3; [by eapply finalize_cb_conn|by finish E3]).
  apply in_worker_conn in E. upds. by rewrite E, C3, C2, C1.
Qed.
Lemma finish_all_nil n s u s' : finish_all n s = Some (u, s') -> resps (s_conn s') = [].
Proof.
  revert s. induction n as [|n IH]; intros s E; cbn [finish_all] in E; peek E; change (id (s_conn s)) with (s_conn s) in E.
  - destruct (resps (s_conn s)) eqn:Er; [by finish E|done].
  - destruct (resps (s_conn s)) eqn:Er; [by finish E|]. take off E as u1 s1 E1. by eapply IH.
Qed.
Lemma release_items_nil s u s' : conn_release_items s = Some (u, s') -> resps (s_conn s') = [].
Proof.
  unfold conn_release_items. intros E. take off E as u1 s1 E1. peek E. branch E; [by finish E|].
  take off E as u2 s2 E2. peek E. finish E. upds. by eapply finish_all_nil.
Qed.

Definition sized (l : list iovec) : Prop := Forall (fun v => 0 <= iov_len v) l.
Lemma sized_total l : sized l -> 0 <= iov_total l.
Proof. unfold iov_total. induction 1; cbn in *; lia. Qed.
Lemma post_iovs_count cdi x l res t : sized l -> 0 <= res ->
  exists l', post_iovs cdi x l res t = (l', t - Z.min res (iov_total l), res - Z.min res (iov_total l))
    /\ sized l' /\ iov_total l' = iov_total l - Z.min res (iov_total l).
Proof.
  intros Hl. revert x res t. induction Hl as [|v l Hv Hl IH]; intros x res t Hr; cbn [post_iovs].
  { exists []. change (iov_total []) with 0. rewrite Z.min_r, !Z.sub_0_r by done. split; [done|split; [constructor|done]]. }
  change (iov_total (v :: l)) with (iov_len v + iov_total l). pose proof (sized_total _ Hl) as Hp.
  destruct (Z.leb_spec (iov_len v) res) as [Hle|Hlt].
  - destruct (IH (x + 1) (res - iov_len v) (t - iov_len v)) as (l' & -> & Hs & Ht); [lia|].
    exists (v <| iov_len := 0 |> :: l'). split; [f_equal; [f_equal|]; lia|]. split; [constructor; [by upds|done]|].
    unfold iov_total in *. cbn. upds. lia.
  - eexists. split; [f_equal; [f_equal|]; lia|]. split; [|unfold iov_total in *; cbn; case_match; upds; lia].
    constructor; [case_match; upds; lia|done].
Qed.

Lemma debt_nonneg s : resps_fit s -> 0 <= debt s.
Proof.
  unfold resps_fit, debt. induction 1 as [|r rs [Hr _] _ IH]; [done|]. pose proof (sized_total _ Hr). cbn. lia.
Qed.
Lemma debt_resps s r rs : resps (s_conn s) = r :: rs ->
  debt s = 1 + iov_total (iov r) + foldr (fun r n => 1 + iov_total (iov r) + n) 0 rs.
Proof. unfold debt. by intros ->. Qed.

(** What was sent is paid. *)
Lemma transmit_post_pays fuel res s u s' : 0 <= res -> resps_fit s -> transmit_post fuel res s = Some (u, s') ->
  no_worse s s' /\ state (s_conn s') = state (s_conn s) /\ debt s' <= debt s
  /\ (1 <= res -> resps (s_conn s) <> [] -> debt s' < debt s).
Proof.
  revert res s. induction fuel as [|fuel IH]; intros res s Hr Hf E; cbn [transmit_post] in E; peek E;
    change (id (s_conn s)) with (s_conn s) in E.
  { destruct (resps (s_conn s)) eqn:Er; [|done]. finish E. by split_and!. }
  destruct (resps (s_conn s)) as [|r rs] eqn:Er; [finish E; by split_and!|].
  assert (Forall resp_fits (r :: rs)) as Hfs by (by rewrite <- Er).
  inversion Hfs as [|? ? [Hv Ht] Hrs]. subst. pose proof (sized_total _ Hv) as Hp.
  assert (forall s0 res', resps (s_conn s0) = r :: rs -> state (s_conn s0) = state (s_conn s) -> no_worse s s0 -> 0 <= res' ->
    (resp_finish;; transmit_post fuel res') s0 = Some (u, s') ->
    no_worse s s' /\ state (s_conn s') = state (s_conn s) /\ debt s' < debt s) as Hfin.
  { intros s0 res' Er0 Es0 Hw0 Hr' E0. take off E0 as u1 s1 E1. assert (no_worse s0 s1) as Hw1 by by_tame E1.
    apply resp_finish_tail in E1 as [T1 T2]. rewrite Er0 in T1. cbn in T1.
    destruct (IH res' s1 Hr') as (W & S' & D & _); [unfold resps_fit; by rewrite T1|done|].
    split; [etrans; [done|by etrans]|]. split; [congruence|]. rewrite (debt_resps _ _ _ Er). unfold debt in D at 2. rewrite T1 in D. lia. }
  assert (forall s0 res', resps (s_conn s0) = r :: rs -> state (s_conn s0) = state (s_conn s) -> no_worse s s0 -> 0 <= res' ->
    (resp_finish;; transmit_post fuel res') s0 = Some (u, s') ->
    no_worse s s' /\ state (s_conn s') = state (s_conn s) /\ debt s' <= debt s /\ (1 <= res -> r :: rs <> [] -> debt s' < debt s)) as Hfin'.
  { intros s0 res' A1 A2 A3 A4 A5. destruct (Hfin s0 res' A1 A2 A3 A4 A5) as (B1 & B2 & B3). split_and!; [done|done|lia|done]. }
  branch E; [by apply (Hfin' s res)|]. branch E; [apply Z.leb_le in Heqb0; apply (Hfin' s (res - tosend r)); [done..|lia|done]|].
  apply Z.leb_gt in Heqb0. destruct (post_iovs_count (chunked_data_iov r) 0 (iov r) res (tosend r) Hv Hr) as (l' & Ep & Hv' & Ht').
  rewrite Ep in E. rewrite Z.min_l in * by lia. peek E. branch E; [lia|]. finish E.
  set (r' := r <| iov := l' |> <| tosend := tosend r - res |>).
  assert (debt (s <| s_conn ::= fun c => c <| resps := r' :: rs |> |>) = debt s - res) as Hd.
  { rewrite (debt_resps s r rs Er). unfold debt. upds. cbn [foldr]. unfold r'. upds. lia. }
  split; [|rewrite Hd; split_and!; [done|lia|lia]].
  split; [done|done|done|]. intros _. unfold resps_fit. upds. constructor; [|done]. split; unfold r'; upds; [done|lia].
Qed.

Lemma transmit_moves env r sent s s' :
  resps_fit s -> state (s_conn s) = conn_write \/ state (s_conn s) = conn_mwrite ->
  (forall n, se_send env = IoBytes n -> 1 <= n) ->
  transmit (se_send env) (se_event env) s = Some ((r, sent), s') ->
  no_worse s s' /\ match r with
    | TRANSMIT_COMPLETE => state (s_conn s') = state (s_conn s)
    | TRANSMIT_INCOMPLETE => state (s_conn s') = state (s_conn s) /\ 0 <= debt s' < debt s
    | TRANSMIT_SOFT_ERROR => True
    | TRANSMIT_HARD_ERROR => state (s_conn s') = conn_closing
    end.
Proof.
  intros Hf Hs Hn E. unfold transmit in E. peek E. change (id (s_conn s)) with (s_conn s) in E. take off E as iovs s1 E1.
  pose proof (in_mc_conn _ _ _ _ E1) as C1. assert (no_worse s s1) as Hw1 by by_tame E1.
  assert (resps_fit s1) as Hf1 by (by apply Hw1). branch E.
  - take off E as u s2 E2. finish E. destruct (transmit_post_pays _ _ _ _ _ (Z.le_refl 0) Hf1 E2) as (W & S' & _).
    split; [by etrans|]. by rewrite S', C1.
  - destruct (se_send env) as [n| |] eqn:En.
    + take off E as u2 s2 E2. destruct (_ && _); [|done]. finish E2. take off E as u3 s3 E3.
      pose proof (in_mc_conn _ _ _ _ E3) as C3. assert (no_worse s1 s3) as Hw3 by by_tame E3.
      assert (resps_fit s3) as Hf3 by (by apply Hw3). take off E as u4 s4 E4. peek E.
      specialize (Hn n eq_refl). destruct (transmit_post_pays _ n _ _ _ ltac:(lia) Hf3 E4) as (W & S' & D & D').
      assert (debt s3 = debt s) as Hd by (unfold debt; by rewrite C3, C1). finish E.
      split; [etrans; [done|by etrans]|]. case_decide as Hr; [by rewrite S', C3, C1|].
      split; [by rewrite S', C3, C1|]. assert (resps_fit s4) as Hf4 by (by apply W). pose proof (debt_nonneg _ Hf4).
      rewrite Hd in *. split; [done|]. apply D'; [lia|]. intros Hz. unfold resps_fit in *. clear -E4 Hz Hr.
      destruct (length _) in E4; cbn in E4; unfold co in E4; peek E4; change (id (s_conn s3)) with (s_conn s3) in E4; rewrite Hz in E4; by finish E4.
    + branch E; [by finish E|]. take off E as u2 s2 E2. assert (no_worse s1 s2) as Hw2 by by_tame E2. finish E.
      split; [by etrans|]. symmetry. by eapply (ends_set (eq conn_closing)) in E2.
    + take off E as u2 s2 E2. assert (no_worse s1 s2) as Hw2 by by_tame E2. finish E.
      split; [by etrans|]. symmetry. by eapply (ends_set (eq conn_closing)) in E2.
Qed.

Lemma step_mwrite_moves env s s' :
  stream_client s -> resps_fit s -> state (s_conn s) = conn_write \/ state (s_conn s) = conn_mwrite ->
  (forall n, se_send env = IoBytes n -> 1 <= n) ->
  step_mwrite env s = Some (false, s') -> moves s s'.
Proof.
  intros (Hu & _) Hf Hs Hn E. assert (rank s = 4%nat) as Rs by (unfold rank; by destruct Hs as [-> | ->]).
  unfold step_mwrite in E. peek E. change (id (s_conn s)) with (s_conn s) in E. take off E as u0 s0 E0.
  destruct (_ =? 0); [|done]. finish E0. branch E.
  { take off E as u1 s1 E1. peek E. done. }
  rewrite Hu in E. take off E as r s1 E1. destruct r as [res sent]. peek E.
  apply transmit_moves in E1 as [Hw HR]; [|done..]. destruct res.
  - peek E. set (s1' := s1 <| s_sent ::= _ |>) in E. assert (no_worse s s1') as Hw' by (etrans; [exact Hw|by split]).
    take off E as u2 s2 E2. finish E. assert (no_worse s s2) as Hw2 by (etrans; [exact Hw'|by_tame E2]).
    apply moves_rank; [done|]. rewrite Rs. unfold rank. peek E2. branch E2.
    + take off E2 as u3 s3 E3. pose proof (release_items_nil _ _ _ E3) as Hz. peek E2. upds. unfold when in E2. branch E2.
      * rewrite <- (ends_set (eq conn_closing) _ eq_refl _ _ _ E2). lia.
      * finish E2. upds. rewrite Hz, decide_True by done. lia.
    + rewrite <- (ends_set (eq conn_closing) _ eq_refl _ _ _ E2). lia.
  - finish E. destruct HR as [HR1 HR2]. split; [etrans; [exact Hw|by split]|]. right. right.
    split; [|by unfold debt in *; upds]. unfold rank. upds. rewrite HR1. by destruct Hs as [-> | ->].
  - done.
  - finish E. apply moves_to; [etrans; [exact Hw|by split]|]. upds. rewrite HR, Rs. lia.
Qed.

(** ** The loop *)

Lemma tame_step_waiting env : tame (step_waiting env).
Proof. unfold step_waiting. tame. Qed.
Lemma tame_step_new_cmd env n : tame (step_new_cmd env n).
Proof. unfold step_new_cmd. tame. Qed.
Lemma tame_step_swallow env : tame (step_swallow env).
Proof. unfold step_swallow, end_of_stream. tame. Qed.
Lemma tame_step_closing : tame step_closing.
Proof. unfold step_closing, conn_close, conn_cleanup. tame. Qed.
Lemma step_read_tame b s s' : stream_client s -> step_read s = Some (b, s') -> no_worse s s'.
Proof. intros (Hu & _) E. unfold step_read in E. peek E. rewrite Hu in E. by_tame E. Qed.
Lemma step_parse_cmd_tame env b s s' : stream_client s -> step_parse_cmd env s = Some (b, s') -> no_worse s s'.
Proof.
  intros (Hu & Ht) E. unfold step_parse_cmd in E. peek E. upds. set (s0 := s <| s_conn ::= _ |>) in E.
  transitivity s0; [by split|]. take off E as done s1 E1. etrans; [|by_tame E].
  destruct (try_read_command (s_conn s)); try done; cbn [run_reader] in E1;
      [by eapply ascii_reads|by eapply asciiauth_reads|by eapply binary_reads|by eapply negotiate_reads].
Qed.
Lemma step_nread_tame env b s s' : stream_client s -> step_nread env s = Some (b, s') -> no_worse s s'.
Proof.
  intros _ E. unfold step_nread in E. peek E. branch E.
  - take off E as u s1 E1. finish E. by apply tame_complete_nread in E1 as [? _].
  - branch E; [by_tame E|]. revert E. unfold read_into_item, read_into_chunked_item, chunked_tail, end_of_stream. intros E. by_tame E.
Qed.
Lemma step_mwrite_tame env b s s' : stream_client s -> resps_fit s -> state (s_conn s) = conn_write \/ state (s_conn s) = conn_mwrite ->
  (forall n, se_send env = IoBytes n -> 1 <= n) -> step_mwrite env s = Some (b, s') -> no_worse s s'.
Proof.
  intros Hc Hf Hs Hn E. destruct b; [|by eapply step_mwrite_moves]. destruct Hc as (Hu & _).
  unfold step_mwrite in E. peek E. change (id (s_conn s)) with (s_conn s) in *. take off E as u0 s0 E0.
  assert (no_worse s s0) as Hw0 by by_tame E0. branch E; [etrans; [done|by_tame E]|]. rewrite Hu in E.
  take off E as r s1 E1. destruct r as [res sent].
  destruct (_ =? 0); [|done]. finish E0. apply transmit_moves in E1 as [Hw _]; [|done..]. peek E.
  set (s1' := s1 <| s_sent ::= _ |>) in E. transitivity s1'; [etrans; [exact Hw|by split]|]. destruct res; by_tame E.
Qed.

(** The results of a turn. *)
Lemma machine_step_moves env n s b n' s' :
  stream_client s -> resps_fit s -> (forall k, se_send env = IoBytes k -> 1 <= k) ->
  machine_step env n s = Some ((b, n'), s') ->
  no_worse s s' /\ (b = false -> (Z.to_nat n' < Z.to_nat n)%nat \/ (Z.to_nat n' <= Z.to_nat n)%nat /\ moves s s').
Proof.
  intros Hc Hf Hn E. unfold machine_step in E. peek E. destruct (state (s_conn s)) eqn:Es; try done.
  - take off E as b1 s1 E1. finish E. split; [by eapply tame_step_new_cmd|]. intros ->.
    destruct (step_new_cmd_moves _ _ _ _ Es E1) as [_ [Hk|Hk]]; [left; lia|right; split; [lia|done]].
  - take off E as b1 s1 E1. finish E. split; [by eapply tame_step_waiting|]. intros ->. right. split; [lia|by eapply step_waiting_moves].
  - take off E as b1 s1 E1. finish E. split; [by eapply step_read_tame|]. intros ->. right. split; [lia|by eapply step_read_moves].
  - take off E as b1 s1 E1. finish E. split; [by eapply step_parse_cmd_tame|]. intros ->. right. split; [lia|by eapply step_parse_cmd_moves].
  - take off E as b1 s1 E1. finish E. split; [eapply step_mwrite_tame; eauto|]. intros ->. right. split; [lia|eapply step_mwrite_moves; eauto].
  - take off E as b1 s1 E1. finish E. split; [by eapply step_nread_tame|]. intros ->. right. split; [lia|by eapply step_nread_moves].
  - take off E as b1 s1 E1. finish E. split; [by eapply tame_step_swallow|]. intros ->. right. split; [lia|by eapply step_swallow_moves].
  - take off E as b1 s1 E1. finish E. split; [by eapply tame_step_closing|]. intros ->. unfold step_closing in E1. peek E1.
    take off E1 as u s2 E2. done.
  - take off E as b1 s1 E1. finish E. split; [eapply step_mwrite_tame; eauto|]. intros ->. right. split; [lia|eapply step_mwrite_moves; eauto].
  - finish E. by split.
  - take off E as u s1 E1. take off E as u2 s2 E2. finish E. assert (no_worse s s2) as Hw by (etrans; [by_tame E1|by_tame E2]).
    split; [done|]. intros _. right. split; [lia|]. apply moves_to; [done|]. unfold rank.
    rewrite Es, <- (ends_set (eq conn_mwrite) _ eq_refl _ _ _ E2). lia.
Qed.

(** Within [fuel] turns the machine stops, or a turn does what C leaves undefined. *)
Fixpoint stops (fuel : nat) (envs : nat -> step_env) (nreqs : Z) (s : server) : Prop :=
  match fuel with
  | O => False
  | S fuel =>
      match machine_step (envs 0%nat) nreqs s with
      | None | Some ((true, _), _) => True
      | Some ((false, nreqs'), s') => stops fuel (fun n => envs (S n)) nreqs' s'
      end
  end.
(** The socket takes a byte at least of what it is given. *)
Definition sends (envs : nat -> step_env) : Prop := forall n k, se_send (envs n) = IoBytes k -> 1 <= k.

Lemma stops_more fuel envs n s more : stops fuel envs n s -> (fuel <= more)%nat ->
  machine_loop more envs n s = machine_loop fuel envs n s.
Proof.
  revert envs n s more. induction fuel as [|fuel IH]; intros envs n s more Hs Hm; [done|]. destruct more as [|more]; [lia|].
  cbn in *. rewrite !run_bind. destruct (machine_step _ _ _) as [[[[] n'] s']|]; [done|cbn|done]. apply IH; [done|lia].
Qed.

Lemma stops_from envs n s : stream_client s -> resps_fit s -> sends envs -> exists fuel, stops fuel envs n s.
Proof.
  remember (Z.to_nat n) as a eqn:Ea. revert n Ea envs s.
  induction a as [a IHa] using lt_wf_ind. intros n Ea envs s. remember (work s) as b eqn:Eb. revert n Ea envs s Eb.
  induction b as [b IHb] using lt_wf_ind. intros n Ea envs s Eb. remember (rank s) as c eqn:Ec. revert n Ea envs s Eb Ec.
  induction c as [c IHc] using lt_wf_ind. intros n Ea envs s Eb Ec. remember (Z.to_nat (debt s)) as d eqn:Ed. revert n Ea envs s Eb Ec Ed.
  induction d as [d IHd] using lt_wf_ind. intros n Ea envs s Eb Ec Ed Hc Hf Hn.
  destruct (machine_step (envs 0%nat) n s) as [[[b' n'] s']|] eqn:E; [|exists 1%nat; cbn; by rewrite E].
  destruct b'; [exists 1%nat; cbn; by rewrite E|].
  destruct (machine_step_moves _ _ _ _ _ _ Hc Hf (Hn 0%nat) E) as [[_ Hw Hc' Hf'] Hm]. specialize (Hm eq_refl).
  cut (exists fuel, stops fuel (fun n => envs (S n)) n' s'); [intros [f Hs]; exists (S f); cbn; by rewrite E|].
  assert (sends (fun n => envs (S n))) as Hn' by (intros k; apply (Hn (S k))).
  destruct (Nat.lt_ge_cases (Z.to_nat n') (Z.to_nat n)) as [L1|L1]; [apply (IHa (Z.to_nat n')); auto; lia|].
  destruct Hm as [Hm|[Le [_ Hm]]]; [lia|].
  destruct (Nat.lt_ge_cases (work s') (work s)) as [L2|L2]; [apply (IHb (work s')); auto; lia|].
  destruct Hm as [Hm|[Hm|[Hr Hd]]]; [lia|apply (IHc (rank s')); auto; lia|].
  apply (IHd (Z.to_nat (debt s'))); auto; lia.
Qed.

Lemma loop_no_worse fuel envs n s u s' : stream_client s -> resps_fit s -> sends envs ->
  machine_loop fuel envs n s = Some (u, s') -> no_worse s s'.
Proof.
  revert envs n s. induction fuel as [|fuel IH]; intros envs n s Hc Hf Hn E; [done|]. cbn in E. take off E as r s1 E1.
  destruct r as [b n']. apply machine_step_moves in E1 as [Hw _]; [|done|done|apply Hn]. branch E; [by finish E|].
  etrans; [exact Hw|]. destruct Hw as [_ _ Hc' Hf']. eapply IH; [by apply Hc'|by apply Hf'| |exact E]. intros k. apply (Hn (S k)).
Qed.

(** On every stream connection, in whatever protocol, whatever bytes the client has
    sent, in whatever pieces they come and however few bytes (one at least) the socket
    takes of each send, the loop of [drive_machine] makes finitely many turns: after
    some number of them it has stopped or a turn has no result ([None]: what C leaves
    undefined, or a loop inside the turn beyond its bound, about which this lemma says
    nothing), and more fuel changes nothing.  The connection it leaves has no more
    input than before, is still a stream connection and has responses whose accounts
    are right. *)
Lemma drive_machine_turns_bounded envs nreqs s :
  stream_client s -> resps_fit s -> sends envs ->
  exists fuel, stops fuel envs nreqs s
    /\ (forall more, (fuel <= more)%nat -> drive_machine more envs nreqs s = drive_machine fuel envs nreqs s)
    /\ (forall more s', drive_machine more envs nreqs s = Some (tt, s') -> stream_client s' /\ resps_fit s' /\ (work s' <= work s)%nat).
Proof.
  intros Hc Hf Hn. destruct (stops_from envs nreqs s Hc Hf Hn) as [fuel Hs]. exists fuel. split; [done|]. split.
  - intros more Hm. by apply stops_more.
  - intros more s' E. destruct (loop_no_worse _ _ _ _ _ _ Hc Hf Hn E) as [_ Hw Hc' Hf']. auto.
Qed.
End machine.

Module MachineDemo.
Import AssocIter.Demo CacheDemo.
#[local] Existing Instance TransmitDemo.no_storage.
#[local] Instance no_subsystems : Subsystems := {|
  server_stats := mret tt; get_stats _ := mret true; process_stat_settings := mret tt; process_stats_conns := mret tt;
  process_extstore_stats := mret tt; item_cachedump _ _ := mret None; lru_crawler_crawl _ _ _ := mret CRAWLER_OK;
  start_item_crawler_thread := mret true; stop_item_crawler_thread := mret true;
  logger_add_watcher _ := mret LOGGER_ADD_WATCHER_OK |}.
#[local] Instance tame_no_storage : TameStorage.
Proof. split; intros; try apply tame_ret. by injection H as <- <-. Qed.
#[local] Instance tame_no_subsystems : TameSubsystems.
Proof. split; intros; apply tame_ret. Qed.

(** A client that has sent a command and a half; the socket takes one byte at a time. *)
Definition visitor : server :=
  Server tiny_mc worker_init (conn_new conn_read 0 tcp_transport ascii_prot false 0) (options_init 0) [] []
    (Prefixes [] 58 0 0) authfile_none [ReadBytes (str "version" ++ CRLF); ReadBytes (str "ge")] [].
Definition slow (n : nat) : step_env := StepEnv (CmdEnv (fun _ => env) true true) (IoBytes 1) true.

(** The machine stops at the visitor's, and 40 turns are enough. *)
Lemma drive_machine_turns_bounded_witness :
  (exists fuel, stops fuel slow 20 visitor
    /\ (forall more, (fuel <= more)%nat -> drive_machine more slow 20 visitor = drive_machine fuel slow 20 visitor)
    /\ (forall more s', drive_machine more slow 20 visitor = Some (tt, s') ->
          stream_client s' /\ resps_fit s' /\ (work s' <= work visitor)%nat))
  /\ option_map (fun r => s_sent (snd r)) (drive_machine 40 slow 20 visitor) = Some (str "VERSION 1.6.12" ++ CRLF).
Proof.
  split; [|vm_compute; reflexivity]. refine (drive_machine_turns_bounded slow 20 visitor _ _ _).
  - split; [reflexivity|split; reflexivity].
  - apply List.Forall_nil.
  - intros n k [= <-]. lia.
Defined.
End MachineDemo.
