(* ===== verification/Sessions.v ===== *)
(** * Whole sessions, evaluated

    A server with two item pages and one connection: what [drive_machine] answers to the
    bytes of a client.  The examples run every layer, from the network buffer
    through the commands and the cache to the bytes sent, and show the behaviours
    that differ from what the code means to do. *)

From S2P Require Import Prelude Memory Double Strtod Assoc AssocIter Slabs SlabProps Items CacheProps Store Resp AuthFile StatsPrefix.
From S2P Require Import Conn Transmit TransmitProps Tokens Text Meta Commands ProtoBin Machine.
Import AssocIter.Demo CacheDemo TransmitDemo.

Module Sessions.
#[local] Instance no_subsystems : Subsystems := {|
  server_stats := mret tt; get_stats _ := mret true; process_stat_settings := mret tt; process_stats_conns := mret tt;
  process_extstore_stats := mret tt; item_cachedump _ _ := mret None; lru_crawler_crawl _ _ _ := mret CRAWLER_OK;
  start_item_crawler_thread := mret true; stop_item_crawler_thread := mret true;
  logger_add_watcher _ := mret LOGGER_ADD_WATCHER_OK |}.
#[local] Existing Instance TransmitDemo.no_storage.

(** No lock is taken elsewhere; the socket takes [n] bytes of every send. *)
Definition turn (n : Z) : step_env := StepEnv (CmdEnv (fun _ => env) true true) (IoBytes n) true.
Definition client (a : authfile) (w : mc) (k : worker) (input : list read_result) : server :=
  Server w k (conn_new conn_new_cmd 0 tcp_transport ascii_prot (bool_decide (main_auth_data a <> None)) 0) (options_init 0) [] []
    (Prefixes [] 58 0 0) a input [].

(** The events the connection gets, at most [n]. *)
Fixpoint serve (n : nat) (s : server) : option server :=
  match n with
  | O => Some s
  | S n => '(_, s) ← drive_machine 2000 (fun _ => turn 1) 20 s; if decide (state (s_conn s) = conn_closed) then Some s else serve n s
  end.
Definition session (a : authfile) (input : list read_result) : option server :=
  '(_, w) ← boot tiny_mc; serve 8 (client a w worker_init input).
Definition lines (l : list string) : list Z := concat (map (fun x => str x ++ CRLF) l).
(** What the lines are answered, and the state of the connection then. *)
Definition talk (l : list string) : option (list Z * conn_states) :=
  s ← session authfile_none [ReadBytes (lines l)]; Some (s_sent s, state (s_conn s)).

(** ** The protocol at work *)

Example store_and_get :
  talk ["set a 5 0 3"; "abc"; "get a b a"; "gets a"; "bogus"; "quit"]%string
  = Some (lines ["STORED"; "VALUE a 5 3"; "abc"; "VALUE a 5 3"; "abc"; "END"; "VALUE a 5 3 1"; "abc"; "END"; "ERROR"]%string, conn_closed).
Proof. vm_compute. reflexivity. Qed.

Example arithmetic_and_append :
  talk ["incr n 5"; "set n 0 0 2"; "10"; "incr n 5"; "decr n 20"; "append n 0 0 1"; "7"; "get n"; "delete n"; "get n"]%string
  = Some (lines ["NOT_FOUND"; "STORED"; "15"; "0"; "STORED"; "VALUE n 0 3"; "0 7"; "END"; "DELETED"; "END"]%string, conn_read).
Proof. vm_compute. reflexivity. Qed.

Example meta_commands :
  talk ["ms b 3 c k Oxx"; "999"; "mg b v k t f s"; "ma b v D5 O33 k"; "md b q"; "mg b v"; "mn"]%string
  = Some (lines ["HD c1 kb Oxx"; "VA 3 kb t-1 f0 s3"; "999"; "VA 4 O33 kb"; "1004"; "EN"; "MN"]%string, conn_read).
Proof. vm_compute. reflexivity. Qed.

(** A pipeline in pieces, with [noreply]. *)
Example split_reads :
  (s ← session authfile_none [ReadBytes (str "set a 1 0 2 nore"); ReadBytes (str "ply" ++ CRLF ++ str "x");
        ReadBytes (str "y" ++ CRLF ++ str "get a" ++ CRLF); ReadEof]; Some (s_sent s, state (s_conn s)))
  = Some (lines ["VALUE a 1 2"; "xy"; "END"]%string, conn_closed).
Proof. vm_compute. reflexivity. Qed.

(** ** Behaviours the code does not mean *)

(** [md] with the item's CAS value is refused: the value is compared with a local
    variable that stays 0. *)
Example mdelete_ignores_cas :
  talk ["set a 0 0 1"; "x"; "gets a"; "md a C1"; "get a"]%string
  = Some (lines ["STORED"; "VALUE a 0 1 1"; "x"; "END"; "EX "; "VALUE a 0 1"; "x"; "END"]%string, conn_read).
Proof. vm_compute. reflexivity. Qed.

(** The sum of the percentages wraps past the check. *)
Example lru_tune_wraps :
  (s ← session authfile_none [ReadBytes (lines ["lru tune 4294967295 1 0.2 2.0"]%string)];
   Some (s_sent s, hot_lru_pct (mc_settings (s_mc s)), warm_lru_pct (mc_settings (s_mc s))))
  = Some (lines ["OK"]%string, -1, 1).
Proof. vm_compute. reflexivity. Qed.

(** A refused [extstore] command still sets the setting to 0. *)
Example extstore_error_resets :
  (s ← session authfile_none [ReadBytes (lines ["extstore item_age 77"; "extstore item_age x7"]%string)];
   Some (s_sent s, ext_item_age (s_options s)))
  = Some (lines ["OK"; "ERROR"]%string, 0).
Proof. vm_compute. reflexivity. Qed.

(** [stats reset] zeroes a gauge that the release of the very response counts down. *)
Example stats_reset_wraps_gauge :
  (s ← session authfile_none [ReadBytes (lines ["stats reset"]%string)];
   Some (s_sent s, response_obj_count (s_worker s)))
  = Some (lines ["RESET"]%string, 2 ^ 64 - 1).
Proof. vm_compute. reflexivity. Qed.

(** The password file. *)
Definition password_file (file : list Z) : authfile := default authfile_none (snd <$> authfile_load (Some file) true true authfile_none).
Definition login (file : list Z) (inputs : list (list string)) : option (list Z * bool) :=
  s ← session (password_file file) (map (fun l => ReadBytes (lines l)) inputs); Some (s_sent s, authenticated (s_conn s)).
Example login_then_get :
  login (str "joe:secret" ++ [10]) [["get a"]; ["set a 0 0 9"; "joe wrong"]; ["set a 0 0 10"; "joe secret"; "get a"]]%string
  = Some (lines ["CLIENT_ERROR unauthenticated"; "CLIENT_ERROR authentication failure"; "STORED"; "END"]%string, true).
Proof. vm_compute. reflexivity. Qed.

(** Before authentication the commands of one read share one response object: all
    answers but the last are lost. *)
Example auth_answers_lost :
  login (str "joe:secret" ++ [10]) [["get a"; "get b"; "set a 0 0 9"; "joe wrong"]]%string
  = Some (lines ["CLIENT_ERROR authentication failure"]%string, false).
Proof. vm_compute. reflexivity. Qed.

(** One line without a newline loses the last character of the password. *)
Example password_cut :
  login (str "joe:secret") [["set a 0 0 10"; "joe secret"]; ["set a 0 0 9"; "joe secre"]]%string
  = Some (lines ["CLIENT_ERROR authentication failure"; "STORED"]%string, true).
Proof. vm_compute. reflexivity. Qed.

(** Before authentication a size near 2^32 makes [rlbytes] negative: the code reads
    before the buffer and moves its cursor back; the model is undefined. *)
Example auth_size_undefined :
  login (str "joe:secret" ++ [10]) [["set a 0 0 4294967000"; "joe secret"]]%string = None.
Proof. vm_compute. reflexivity. Qed.

(** ** The binary protocol *)

(** A request, and a connection that picks the protocol by its first byte. *)
Definition packet (opcode : Z) (ext key value : list Z) (opq cas : Z) : list Z :=
  [128; opcode] ++ be_bytes 2 (zlen key) ++ [zlen ext; 0; 0; 0] ++ be_bytes 4 (zlen ext + zlen key + zlen value)
  ++ be_bytes 4 opq ++ be_bytes 8 cas ++ ext ++ key ++ value.
Definition answer (opcode status : Z) (ext key value : list Z) (opq cas : Z) : list Z :=
  [129; opcode] ++ be_bytes 2 (zlen key) ++ [zlen ext; 0] ++ be_bytes 2 status ++ be_bytes 4 (zlen ext + zlen key + zlen value)
  ++ be_bytes 4 opq ++ be_bytes 8 cas ++ ext ++ key ++ value.
Definition negotiator (w : mc) (k : worker) (input : list read_result) : server :=
  Server w k (conn_new conn_new_cmd 0 tcp_transport negotiating_prot false 0) (options_init 0) [] []
    (Prefixes [] 58 0 0) authfile_none input [].
Definition exchange (l : list (list Z)) : option (list Z * conn_states) :=
  '(_, w) ← boot tiny_mc; s ← serve 8 (negotiator w worker_init [ReadBytes (concat l)]); Some (s_sent s, state (s_conn s)).

(** A set, a get with the key, a quiet miss, an append and a no-op. *)
Example binary_store_and_get :
  exchange [packet CMD_SET (be_bytes 4 7 ++ be_bytes 4 0) (str "a") (str "xyz") 77 0; packet CMD_GETK [] (str "a") [] 78 0;
            packet CMD_GETQ [] (str "b") [] 79 0; packet CMD_APPEND [] (str "a") (str "!") 80 0; packet CMD_GET [] (str "a") [] 81 0;
            packet CMD_NOOP [] [] [] 82 0]
  = Some (concat [answer CMD_SET 0 [] [] [] 77 1; answer CMD_GETK 0 (be_bytes 4 7) (str "a") (str "xyz") 78 1;
                  answer CMD_APPEND 0 [] [] [] 80 2; answer CMD_GET 0 (be_bytes 4 7) [] (str "xyz!") 81 2; answer CMD_NOOP 0 [] [] [] 82 0],
          conn_read).
Proof. vm_compute. reflexivity. Qed.

(** Increments create the counter; the CAS id of a delete must be the item's. *)
Example binary_counter :
  exchange [packet CMD_INCREMENT (be_bytes 8 7 ++ be_bytes 8 40 ++ be_bytes 4 0) (str "n") [] 1 0;
            packet CMD_INCREMENT (be_bytes 8 2 ++ be_bytes 8 40 ++ be_bytes 4 0) (str "n") [] 2 0;
            packet CMD_DELETE [] (str "n") [] 3 9; packet CMD_DELETE [] (str "n") [] 4 2; packet CMD_QUIT [] [] [] 5 0]
  = Some (concat [answer CMD_INCREMENT 0 [] [] (be_bytes 8 40) 1 1; answer CMD_INCREMENT 0 [] [] (be_bytes 8 42) 2 2;
                  answer CMD_DELETE KEY_EEXISTS [] [] (str "Data exists for key.") 3 0; answer CMD_DELETE 0 [] [] [] 4 0;
                  answer CMD_QUIT 0 [] [] [] 5 0], conn_closed).
Proof. vm_compute. reflexivity. Qed.

(** An unknown command with a key: the key is consumed with the header and swallowed
    again with the body, which eats the start of the next packet; with a third packet
    the connection closes and all answers are lost. *)
Example unknown_command_swallows_twice :
  exchange [packet 99 [] (str "k") [] 1 0; packet CMD_VERSION [] [] [] 2 0]
    = Some (answer 99 UNKNOWN_COMMAND [] [] (str "Unknown command") 1 0, conn_read)
  /\ exchange [packet 99 [] (str "k") [] 1 0; packet CMD_VERSION [] [] [] 2 0; packet CMD_VERSION [] [] [] 3 0]
    = Some ([], conn_closed).
Proof. split; vm_compute; reflexivity. Qed.
Example unknown_command_without_key :
  exchange [packet 99 [] [] [] 1 0; packet CMD_VERSION [] [] [] 2 0]
  = Some (answer 99 UNKNOWN_COMMAND [] [] (str "Unknown command") 1 0 ++ answer CMD_VERSION 0 [] [] (str "1.6.12") 2 0, conn_read).
Proof. vm_compute. reflexivity. Qed.
End Sessions.
